(* ===== verification/_CoqProject ===== *)
-Q . S2P
Prelude.v
CString.v
Printing.v
Pages.v
Heap.v
Pte.v
Memory.v
MemFacts.v
PageTables.v
Mapping.v
Spaces.v
Thread.v
Csr.v
Frames.v
ThreadLists.v
Scheduler.v
Lock.v
ThreadJoin.v
ThreadTree.v
Io.v
IoSpec.v
Timer.v
Plic.v
Intr.v
Device.v
Uart.v
UartSpec.v
Disk.v
Kfs.v
KfsSpec.v
Mkfs.v
MkfsSpec.v
Vmem.v
Reuse.v
Clone.v
Elf.v
ElfSpec.v
Stale.v
Virtio.v
Vioblk.v
VioblkSpec.v
VioblkDisk.v
VioblkSetup.v
Console.v
ConsoleSpec.v
Halt.v
Objects.v
Process.v
ProcSpec.v
Syscall.v
SyscallSpec.v
ForkSpec.v
ExitSpec.v
Trap.v
TrapSpec.v
SwitchSpec.v
Boot.v
BootSpec.v
BootExample.v
User.v
UserSpec.v
UserExamples.v
UserRun.v
Shell.v
