(* ===== verification/Prelude.v ===== *)
(** * A verified model of the ECE 391 kernel

    The program is a small RISC-V kernel (src/src/kern): Sv39 virtual memory, a
    page allocator and a heap, cooperative threads with conditions and locks, timer
    alarms, abstract I/O objects with a terminal layer, interrupt dispatch through a
    PLIC, a device manager and a serial driver, and on top of these a block device,
    a file system, an ELF loader, processes and system calls.

    ** Files, and the code they model

    - [Prelude]: outcomes of C functions (returned, panicked, undefined, out of
      fuel), machine integers at their widths, tactics, shared lemmas.
    - [CString]: string.c (comparison, copying, parsing of numbers, the printf core
      [vgprintf]).  A string is the memory from the pointer on; reading past it is
      [Undefined].  [Printing]: what a format prints, piece by piece.
    - [Pages], [Heap]: the interface of a page allocator ([PageAlloc], with its laws
      [PageAllocLaws]) and the bump allocator of ezheap.c, proved against it.
    - [Pte], [Memory]: the page-table entry and address fields, and all of memory.c:
      the free list, walking and allocating page tables, mapping, cloning,
      reclaiming, validation and the page-fault handler, over 64-bit words of
      physical memory.
    - [MemFacts], [PageTables], [Mapping], [Spaces]: the free list implements
      [PageAllocLaws]; the invariant of a page table ([pt_inv]: the tables form a
      tree of distinct allocated pages); what mapping, protecting, initialising,
      reclaiming and faulting do to the translation of every address ([translate]).
    - [Thread]: thread.c, with thread structures by address and intrusive lists.
      A function that gives up the CPU is cut at the context switch.
    - [ThreadLists], [Scheduler]: linked lists represent sequences; the concrete
      scheduler refines an abstract one ([asched]: running thread, ready queue, wait
      queues), and every reachable state is consistent.
    - [Frames]: relations that the operations of the threads keep ([ListFrame],
      [SwitchFrame]), with one lemma per operation for all of them.
    - [Lock], [ThreadJoin]: the sleep lock of lock.h, joining and recycling threads.
      [ThreadTree]: the table of threads and the tree of parents.
    - [Csr]: csr.h and intr.h, the control registers of a hart.
    - [Io], [IoSpec]: io.h and io.c; an I/O object is a state type with the class
      [IoOps]; [IoSource] and [IoSink] are what clients rely on.
    - [Timer]: timer.c; the sleep list in order of time and the timer interrupt.
    - [Plic], [Intr]: plic.c over the registers of a PLIC and intr.c.
    - [Device]: device.c, the table of named devices.
    - [Uart], [UartSpec]: uart.c over the registers of a 16550.
    - [Disk]: the contract of an object with bytes and a position ([BlockDev]), for
      which the file system is proved.
    - [Kfs], [KfsSpec]: kfs.c; the layout of an image, files as the bytes of their
      blocks, opening, reading and writing.
    - [Mkfs], [MkfsSpec]: util/mkfs.c, which builds an image from files of the host.
    - [Vmem]: bytes of memory through the active page tables.  [Clone]: what
      [memory_space_clone] copies.  [Reuse]: the pages that stay mapped when a program
      executes another one.
    - [Elf], [ElfSpec]: elf.c and elf2.c, the segments of a program in memory.
      [Stale]: loading a program into a space that still maps the pages of the last
      one, by comparison with the space without those entries.
    - [Virtio], [Vioblk]: virtio.c, virtio.h and vioblk.c over the registers and the
      queue of a virtio device; [VioblkSpec], [VioblkDisk], [VioblkSetup]: the
      requests, the disk they make and its contract, attaching and opening.
    - [Console], [ConsoleSpec]: console.c on the polled serial port.  [Halt]: halt.c.
    - [Objects]: I/O objects by reference, the meaning of [struct io_intf *].
    - [Process], [ProcSpec], [ForkSpec], [ExitSpec]: process.c.
    - [Syscall], [SyscallSpec]: syscall.c and excp.c.  [UserExamples]: the witnesses
      of the theorems on processes and system calls, on a small machine.
    - [Trap]: trapasm.s, thrasm.s and start.s as lists of instructions with a step
      function over registers, control registers and memory.  [TrapSpec]: the entry
      and the exit of traps; [SwitchSpec]: switching and starting threads, entering
      user mode, the timer interrupt of M mode.
    - [Boot]: main.c and the order of initialisation.  [BootSpec], [BootExample]:
      the start of the kernel and a board on which it succeeds.
    - [User]: the programs of src/src/user that make only system calls, and the stubs
      of user/syscall.S and user/start.s.  [UserSpec]: a stub is a call of the kernel,
      fib.c; [UserRun]: the init programs, run on a disk that mkfs has built;
      [Shell]: shell_main of main_shell.c, and a session with it.

    ** How the model corresponds to the code

    A w-bit integer is a [Z] with its wrap-around written out.  Pointers to kernel
    objects are addresses, and the objects live in finite maps or in words of
    memory, so sharing and aliasing are those of the code.  [panic] and a failed
    [assert] are [Panicked]; an access the C standard leaves undefined is
    [Undefined].  The operations keep the names of the source.  Hardware (PLIC,
    16550, timer registers) is a parameter with its documented behaviour as laws of
    a class, and a concrete instance shows that the laws can hold.

    A pointer argument that only carries a value in or out (of ioctl, of the functions
    that get and set a position) is that value, so that its test for NULL does not
    appear.

    kfs.c reads four bytes of the eight of its variable blockSpot (kfs.c:270, and the
    same in fs_write) and seeks with all eight.  The upper half, which is never set, is
    the parameter [stack_hi] of everything that reads or writes a file, up to [main]; a
    run has one value for all its calls.  Only its low 20 bits reach the position
    ([block_residue]).  The theorems on the bytes of files assume that they are zero
    ([clean_half]); [vioblk_bad_half_hangs] shows what happens otherwise.

    I/O objects are named by references; the operations of an object act on the
    state of all objects.  The calls of one thread are modelled where a call goes
    down to the disk: the device runs while the thread waits, and a call that would
    wait for a lock its own thread holds does not return ([OutOfFuel]).  User pointers
    go through the active page tables; the kernel does not check them, and one
    outside of the user half of the address space is [Undefined].  A device of virtio
    follows an indirect descriptor although the driver never negotiates it.

    The assembly runs on a machine of its own, whose memory holds the stacks and
    the trap frames.  The entry code is cut at the call of the C handler: the
    handlers are the functions of [Syscall] and [Intr], and the theorems on traps
    take what a handler has done to the registers and the frame as a hypothesis that
    states the calling convention.  The two sides meet in the trap frame.

    A program of the user is a function on the state of the kernel: it calls the
    handler of system calls, goes on with the result, and reads and writes its own
    memory through the page tables.  A call that does not come back (exit, exec, a
    thread that waits) ends the run, so that of a fork the side of the caller is run.
    The stubs are also instructions of the machine, which connects both views.

    A driver's state is part of the state of the whole machine ([DriverState] in
    [Intr]): the interrupt routines of the serial ports and the disk act on one
    shared record, and the dispatcher runs whichever is registered.  In [Boot] the
    opened disk moves into the file system when it is mounted, and the first process
    sees the devices as they are at the end of the start; the page count of a board
    must leave ten pages over what the program needs.

    ** What the theorems show

    - Memory: [memory_init] builds a page table that maps exactly the kernel's
      regions; mapping a page or a range changes the translation of exactly those
      addresses and keeps the invariant; reclaiming a space frees exactly the pages
      mapped with U, and clears no entry; cloning copies the user part of a space to
      fresh pages; a user page fault in range maps a page.
    - Heap: allocations are aligned, inside the heap's pages and disjoint.
    - Start: from reset to the first user instruction, on a board with a disk that
      holds the program ([BootSpec]).
    - Traps: a system call from its ecall to the return past it; a trap of the kernel
      is transparent; a switched-out thread goes on with its registers; a new thread
      runs its function and then exits; M mode is invisible; the flag of intr.h is
      the flag of the thread model; two defects of the entry and exit code.
    - Threads: refinement to the abstract scheduler, consistency of reachable
      states, the typing of the table of threads, the join protocol, and two defects of the code (the lock does not
      exclude, the page of an exited thread's stack is misfreed).
    - Timer: the handler wakes exactly the alarms that are due and programs the
      next interrupt so that none is missed.
    - I/O: full reads over any stream, the newline automaton of the terminal, the
      bounds of line input, memory files; two defects of the terminal.
    - Interrupts, devices, serial ports, console: dispatch to the registered routine,
      register/open round trip, and in-order, loss-free byte streams with no lost
      wake-up under every interleaving of interrupts, reads, writes and scheduling.
    - Disk: the driver implements a byte-addressed disk on top of whole-block
      requests, loses no wake-up, and deadlocks after its early returns.
    - Files: when the low 20 bits of the half of blockSpot that is left uninitialised
      are zero, mounting, opening and reading returns the bytes of the file, also on an
      image made by mkfs and through the virtio driver, and writing overwrites exactly
      the range; when they are not, reading and writing through the driver never
      returns; where mkfs misplaces files.
    - Programs and processes: loading puts every segment in memory with its
      permissions; exec enters the program and frees the pages of the last one, but
      keeps their translations, so that the page of its stack is also the text of the
      new one; fork copies the space and counts the
      references; exit gives up the memory and the references; a user program opens
      and reads a file with two system calls; the last close of a file leaves no operation
      on it; each system call on every branch.
    - Programs of the user: a call of a stub is a call of the kernel; fib.c prints its
      sixty lines, with wrapped numbers from 48 on, and halts the machine.  As an
      example, the system call test of the repository is run, mkfs included.
    - Strings: comparison, number parsing and printing, copying, formatting.

    ** Fuel

    Loops that are not structural take fuel; the fuel given is a bound that the
    theorems prove sufficient: the number of allocated thread structures for list
    walks, the number of alarms for the sleep list, the bytes of the buffer for I/O
    loops (each round moves at least one byte), the words of memory for the free
    list.  Waiting for a device is bounded by an argument: the rounds of [ioterm_read]
    and of the polled [com0] functions, [polls] of the console, [patience] of the
    block driver (one round is enough for a device that answers); [strmax] bounds the
    length of a string of the user.

    ** Not modelled

    The TLB and the memory barriers, sstatus.SUM, trace and debug output, the
    diagnostic messages that some calls print, the main function of main_shell.c (it
    calls timer_start, which no file defines), the test programs of the kernel, and the
    programs of the user that are for another interface (hello.c, testhell.c, testfs.c)
    or do not compile (locking.c, refcnt_test.c).  user/string.c has
    the same code as kern/string.c, which is modelled once. *)

From Stdlib Require Import ZArith Lia.
From stdpp Require Import base gmap list strings.

Open Scope Z_scope.

(** ** Outcomes

    A C function of the kernel returns, panics (a call of [panic], a failed
    [assert]), runs into undefined behaviour (a NULL dereference, an index
    outside its object), or is cut off because the model's fuel is spent. *)

Inductive outcome (A : Type) : Type :=
| Done (a : A)
| Panicked (msg : string)
| Undefined
| OutOfFuel.

Arguments Done {A} a.
Arguments Panicked {A} msg.
Arguments Undefined {A}.
Arguments OutOfFuel {A}.

#[export] Instance outcome_ret : MRet outcome := λ A a, Done a.
#[export] Instance outcome_bind : MBind outcome := λ A B f m,
  match m with
  | Done a => f a
  | Panicked msg => Panicked msg
  | Undefined => Undefined
  | OutOfFuel => OutOfFuel
  end.

(** [assert (e)] of halt.h: panics when the condition is false. *)
Definition kassert (b : bool) : outcome unit :=
  if b then Done tt else Panicked "assertion failed".

(** A pointer dereference: reading through NULL is undefined. *)
Definition deref {A} (p : option A) : outcome A :=
  match p with Some a => Done a | None => Undefined end.

Definition returns {A} (m : outcome A) : Prop := ∃ a, m = Done a.

Lemma bind_Done {A B} (m : outcome A) (f : A → outcome B) (b : B) :
  m ≫= f = Done b ↔ ∃ a, m = Done a ∧ f a = Done b.
Proof. destruct m; naive_solver. Qed.

Lemma kassert_Done b u : kassert b = Done u ↔ b = true.
Proof. destruct b, u; naive_solver. Qed.

Lemma deref_Done {A} (p : option A) a : deref p = Done a ↔ p = Some a.
Proof. destruct p; naive_solver. Qed.

(** [inv_outcome] inverts every hypothesis that says a composed computation
    returned, down to what each of its steps returned. *)
Ltac inv_outcome :=
  repeat match goal with
  | H : (_ ≫= _) = Done _ |- _ => apply bind_Done in H as (? & ? & ?)
  | H : kassert _ = Done _ |- _ => apply kassert_Done in H
  | H : deref _ = Done _ |- _ => apply deref_Done in H
  | H : mret _ = Done _ |- _ => unfold mret, outcome_ret in H
  | H : Done _ = Done _ |- _ => apply (inj Done) in H || (injection H as H)
  | H : Panicked _ = Done _ |- _ => discriminate H
  | H : Undefined = Done _ |- _ => discriminate H
  | H : OutOfFuel = Done _ |- _ => discriminate H
  | H : prod _ _ |- _ => destruct H
  | H : (_, _) = (_, _) |- _ => injection H as ? ?
  end; simplify_eq.

(** ** Machine integers *)

Definition u8 (z : Z) : Z := z mod 2 ^ 8.
Definition u16 (z : Z) : Z := z mod 2 ^ 16.
Definition u32 (z : Z) : Z := z mod 2 ^ 32.
Definition u64 (z : Z) : Z := z mod 2 ^ 64.

(** Conversion to a signed type of 32 or 64 bits (two's complement). *)
Definition s32 (z : Z) : Z := (z + 2 ^ 31) mod 2 ^ 32 - 2 ^ 31.
Definition s64 (z : Z) : Z := (z + 2 ^ 63) mod 2 ^ 64 - 2 ^ 63.

Definition UINT64_MAX : Z := 2 ^ 64 - 1.
Definition SIZE_MAX : Z := 2 ^ 64 - 1.
Definition LONG_MAX : Z := 2 ^ 63 - 1.

Lemma u8_range z : 0 ≤ u8 z < 2 ^ 8.
Proof. apply Z.mod_pos_bound; lia. Qed.
Lemma u16_range z : 0 ≤ u16 z < 2 ^ 16.
Proof. apply Z.mod_pos_bound; lia. Qed.
Lemma u32_range z : 0 ≤ u32 z < 2 ^ 32.
Proof. apply Z.mod_pos_bound; lia. Qed.
Lemma u64_range z : 0 ≤ u64 z < 2 ^ 64.
Proof. apply Z.mod_pos_bound; lia. Qed.
Lemma s32_range z : - 2 ^ 31 ≤ s32 z < 2 ^ 31.
Proof. unfold s32. pose proof (Z.mod_pos_bound (z + 2 ^ 31) (2 ^ 32)). lia. Qed.
Lemma s64_range z : - 2 ^ 63 ≤ s64 z < 2 ^ 63.
Proof. unfold s64. pose proof (Z.mod_pos_bound (z + 2 ^ 63) (2 ^ 64)). lia. Qed.

Lemma u8_small z : 0 ≤ z < 2 ^ 8 → u8 z = z.
Proof. apply Z.mod_small. Qed.
Lemma u16_small z : 0 ≤ z < 2 ^ 16 → u16 z = z.
Proof. apply Z.mod_small. Qed.
Lemma u32_small z : 0 ≤ z < 2 ^ 32 → u32 z = z.
Proof. apply Z.mod_small. Qed.
Lemma u64_small z : 0 ≤ z < 2 ^ 64 → u64 z = z.
Proof. apply Z.mod_small. Qed.
Lemma s32_small z : - 2 ^ 31 ≤ z < 2 ^ 31 → s32 z = z.
Proof. intros. unfold s32. rewrite Z.mod_small; lia. Qed.
Lemma s64_small z : - 2 ^ 63 ≤ z < 2 ^ 63 → s64 z = z.
Proof. intros. unfold s64. rewrite Z.mod_small; lia. Qed.

Create HintDb word.
#[export] Hint Resolve u8_range u16_range u32_range u64_range s32_range s64_range : word.
#[export] Hint Rewrite u8_small u16_small u32_small u64_small s32_small s64_small
  using lia : word.

(** [word] removes the conversions whose argument already fits. *)
Ltac word := autorewrite with word; try lia.

(** ** Automation

    The comparisons of [Z] stay folded under [simpl] and [cbn]; [zbool] splits
    on every comparison of the goal and leaves arithmetic to [lia]. *)

#[global] Arguments Z.eqb : simpl never.
#[global] Arguments Z.ltb : simpl never.
#[global] Arguments Z.leb : simpl never.
#[global] Arguments Z.modulo : simpl never.
#[global] Arguments Z.div : simpl never.
#[global] Arguments Z.mul : simpl never.
#[global] Arguments Z.add : simpl never.
#[global] Arguments Z.sub : simpl never.
#[global] Arguments Z.pow : simpl never.
#[global] Arguments Z.of_nat : simpl never.
#[global] Arguments Z.to_nat : simpl never.

Ltac zbool :=
  repeat match goal with
  | |- context [?a =? ?b] => destruct (Z.eqb_spec a b)
  | |- context [?a <? ?b] => destruct (Z.ltb_spec a b)
  | |- context [?a <=? ?b] => destruct (Z.leb_spec a b)
  end; simpl in *; try lia; try done.

(** ** The outcome monad *)

Lemma outcome_assoc {A B C} (m : outcome A) (f : A → outcome B) (g : B → outcome C) :
  (m ≫= f) ≫= g = m ≫= (λ a, f a ≫= g).
Proof. by destruct m. Qed.

Lemma outcome_bind_ext {A B} (m : outcome A) (f g : A → outcome B) :
  (∀ a, f a = g a) → m ≫= f = m ≫= g.
Proof. intros. by destruct m; simpl. Qed.

Lemma u64_add_l a b : u64 (u64 a + b) = u64 (a + b).
Proof. apply Zplus_mod_idemp_l. Qed.
Lemma u64_add_r a b : u64 (a + u64 b) = u64 (a + b).
Proof. apply Zplus_mod_idemp_r. Qed.

(** ** Bytes *)

(** The little-endian value of some bytes. *)
Fixpoint le_val (bs : list Z) : Z :=
  match bs with [] => 0 | b :: bs => b + 256 * le_val bs end.

(** The [n] low bytes of a number, in little-endian order. *)
Fixpoint le_bytes (n : nat) (z : Z) : list Z :=
  match n with O => [] | S n => z mod 256 :: le_bytes n (z / 256) end.

Lemma le_bytes_length n z : length (le_bytes n z) = n.
Proof. revert z. induction n as [|n IH]; intros z; cbn; [done|by rewrite IH]. Qed.

Lemma le_val_bytes n z : le_val (le_bytes n z) = z mod 256 ^ Z.of_nat n.
Proof.
  revert z. induction n as [|n IH]; intros z; cbn [le_bytes le_val].
  - by rewrite Z.mod_1_r.
  - rewrite IH, Nat2Z.inj_succ, Z.pow_succ_r by lia. rewrite Z.rem_mul_r by lia. lia.
Qed.

(** The characters of a string literal. *)
Definition string_bytes (s : string) : list Z := (λ a, Z.of_N (Ascii.N_of_ascii a)) <$> String.list_ascii_of_string s.

(** Element [j] of the [i]th of consecutive pieces of the same length. *)
Lemma bind_lookup {A} (n : Z) (f : A → list Z) (l : list A) (i j : Z) x :
  (∀ y, y ∈ l → Z.of_nat (length (f y)) = n) → 0 ≤ i → l !! Z.to_nat i = Some x → 0 ≤ j < n →
  (l ≫= f) !! Z.to_nat (n * i + j) = f x !! Z.to_nat j.
Proof.
  intros Hl Hi. revert l Hl. pattern i. apply natlike_ind; [| |done]; clear i Hi.
  - intros [|y l] Hl Hx Hj; [done|]. injection Hx as ->. rewrite Z.mul_0_r, Z.add_0_l. cbn.
    apply lookup_app_l. specialize (Hl x ltac:(by left)). lia.
  - intros i Hi IH [|y l] Hl Hx Hj; rewrite Z2Nat.inj_succ in Hx by done; [done|]. cbn in Hx |- *.
    pose proof (Hl y ltac:(by left)) as Hy.
    rewrite lookup_app_r by lia. rewrite <- (IH l) by (done || (intros; apply Hl; by right)). f_equal. lia.
Qed.
