(* ===== verification/CString.v ===== *)
(** String functions (src/src/kern/string.c).

    A pointer into an object is the list of the bytes from it to the end of the
    object, so reading past the list is [Undefined]; NULL is [None].  Plain
    [char] is unsigned on RISC-V, so a character is a number in [0, 256).  A
    function that writes through a pointer returns the bytes of the object
    after the call.  The formatter takes [putcfn] as a state transformer. *)
From Stdlib Require Import ZArith Lia.
From stdpp Require Import base list strings.
From S2P Require Import Prelude.

Open Scope Z_scope.

Abbreviation byte_list := (list Z).

(** A NUL-terminated string [a] followed by the rest of its object. *)
Definition cstr (a rest : list Z) : list Z := a ++ 0 :: rest.
Definition nul_free (a : list Z) : Prop := Forall (λ c, c ≠ 0) a.

(** ** Comparison *)

Fixpoint strcmp_loop (s1 s2 : list Z) : outcome Z :=
  match s1, s2 with
  | c1 :: t1, c2 :: t2 =>
      if (c1 =? c2) && negb (c1 =? 0) then strcmp_loop t1 t2
      else if c1 <? c2 then Done (-1)
      else if c2 <? c1 then Done 1
      else Done 0
  | _, _ => Undefined
  end.

Definition strcmp (s1 s2 : option (list Z)) : outcome Z :=
  match s1, s2 with
  | None, None => Done 0
  | None, Some _ => Done (-1)
  | Some _, None => Done 1
  | Some a, Some b => strcmp_loop a b
  end.

Fixpoint strlen (s : list Z) : outcome Z :=
  match s with
  | [] => Undefined
  | c :: t => if c =? 0 then Done 0 else n ← strlen t; Done (n + 1)
  end.

Fixpoint strncmp (s1 s2 : list Z) (n : Z) : outcome Z :=
  if n =? 0 then Done 0 else
  match s1, s2 with
  | c1 :: t1, c2 :: t2 =>
      if negb (c1 =? 0) && (c1 =? c2) then strncmp t1 t2 (n - 1)
      else Done (u8 c1 - u8 c2)
  | _, _ => Undefined
  end.

(** ** Copying *)

Fixpoint strncpy (dst src : list Z) (n : Z) {struct src} : outcome (list Z) :=
  if n =? 0 then Done dst else
  match src, dst with
  | c :: t, _ :: d =>
      if c =? 0 then Done (0 :: d)
      else d' ← strncpy d t (n - 1); Done (c :: d')
  | _, _ => Undefined
  end.

(** The second loop of [strncat], with the terminator that follows it. *)
Fixpoint strncat_copy (dst src : list Z) (n : Z) {struct dst} : outcome (list Z) :=
  match dst with
  | [] => Undefined
  | _ :: d =>
      if n =? 0 then Done (0 :: d) else
      match src with
      | [] => Undefined
      | c :: t => if c =? 0 then Done (0 :: d)
                  else d' ← strncat_copy d t (n - 1); Done (c :: d')
      end
  end.

Fixpoint strncat (dst src : list Z) (n : Z) {struct dst} : outcome (list Z) :=
  match dst with
  | [] => Undefined
  | c :: d => if c =? 0 then strncat_copy dst src n
              else d' ← strncat d src n; Done (c :: d')
  end.

Fixpoint memset (s : list Z) (c n : Z) : outcome (list Z) :=
  if n =? 0 then Done s else
  match s with
  | [] => Undefined
  | _ :: t => t' ← memset t c (n - 1); Done (u8 c :: t')
  end.

Fixpoint memcpy (dst src : list Z) (n : Z) {struct dst} : outcome (list Z) :=
  if n =? 0 then Done dst else
  match dst, src with
  | _ :: d, c :: t => d' ← memcpy d t (n - 1); Done (c :: d')
  | _, _ => Undefined
  end.

Fixpoint memcmp (p1 p2 : list Z) (n : Z) : outcome Z :=
  if n =? 0 then Done 0 else
  match p1, p2 with
  | a :: t1, b :: t2 => if a =? b then memcmp t1 t2 (n - 1) else Done (a - b)
  | _, _ => Undefined
  end.

(** ** Formatted output *)

(** One argument of a variadic call: a register-sized integer (or pointer), or
    a [char *] that is NULL or points to a string. *)
Inductive va : Type :=
| VaInt (z : Z)
| VaStr (s : option (list Z)).

Definition va_int (args : list va) : outcome (Z * list va) :=
  match args with VaInt z :: r => Done (z, r) | _ => Undefined end.
Definition va_str (args : list va) : outcome (option (list Z) * list va) :=
  match args with VaStr s :: r => Done (s, r) | _ => Undefined end.

Definition digit_char (d : Z) : Z := if d <? 10 then 48 + d else 97 + d - 10.

(** The [do ... while (val != 0)] loop of [format_int], filling [buf] from its
    end; [room] is the number of free bytes left in the 40-byte buffer. *)
Fixpoint format_digits (room : nat) (val base : Z) (acc : list Z) : outcome (list Z) :=
  match room with
  | O => Undefined
  | S room' =>
      if base =? 0 then Undefined else
      let acc' := digit_char (val mod base) :: acc in
      if val / base =? 0 then Done acc'
      else format_digits room' (val / base) base acc'
  end.

Section Formatter.
Context {St : Type} (putcfn : Z → St → outcome St).

(** A loop that prints a pending run of characters. *)
Fixpoint put_all (cs : list Z) (s : St) : outcome St :=
  match cs with
  | [] => Done s
  | c :: t => s' ← putcfn c s; put_all t s'
  end.

(** [while (width < len) { putcfn(pad); nout += 1; len -= 1; }] *)
Fixpoint pad_loop (fuel : nat) (pad width len nout : Z) (s : St) : outcome (Z * St) :=
  if width <? len then
    match fuel with
    | O => OutOfFuel
    | S f => s' ← putcfn pad s; pad_loop f pad width (len - 1) (u64 (nout + 1)) s'
    end
  else Done (nout, s).

Definition format_int (val base : Z) (zpad : bool) (len : Z) (s : St)
    : outcome (Z * St) :=
  ds ← format_digits 40 val base [];
  let pad := if zpad then 48 else 32 in
  '(nout, s1) ← pad_loop (Z.to_nat len) pad (Z.of_nat (length ds)) len 0 s;
  s2 ← put_all ds s1;
  Done (u64 (nout + Z.of_nat (length ds)), s2).

Fixpoint format_str_loop (str : list Z) (nout : Z) (s : St) : outcome (Z * St) :=
  match str with
  | [] => Undefined
  | c :: t => if c =? 0 then Done (nout, s)
              else s' ← putcfn c s; format_str_loop t (u64 (nout + 1)) s'
  end.

Definition format_str (str : option (list Z)) (len : Z) (s : St) : outcome (Z * St) :=
  (* "(null)" *)
  let bytes := default [40; 110; 117; 108; 108; 41; 0] str in
  '(nout, s1) ← format_str_loop bytes 0 s;
  if nout <? len then
    '(_, s2) ← pad_loop (Z.to_nat (len - nout)) 32 0 (len - nout) 0 s1;
    Done (u64 (nout + (len - nout)), s2)
  else Done (nout, s1).

(** [while ('0' <= *p && *p <= '9')]: the width is an [unsigned int]. *)
Fixpoint scan_width (p : list Z) (len : Z) : outcome (Z * list Z) :=
  match p with
  | [] => Undefined
  | c :: t => if (48 <=? c) && (c <=? 57)
              then scan_width t (u32 (10 * len + (c - 48)))
              else Done (len, p)
  end.

Fixpoint scan_l (p : list Z) (lcnt : Z) : outcome (Z * list Z) :=
  match p with
  | [] => Undefined
  | c :: t => if c =? 108 then scan_l t (u32 (lcnt + 1)) else Done (lcnt, p)
  end.

(** [z] and [j]: [size_t] and [intmax_t] have the size of [long long], so the
    last of the three tests sets [lcnt] to 2. *)
Definition scan_zj (p : list Z) (lcnt : Z) : outcome (Z * list Z) :=
  match p with
  | [] => Undefined
  | c :: t => if (c =? 122) || (c =? 106) then Done (2, t) else Done (lcnt, p)
  end.

(** The [switch] on the conversion character [c]. *)
Definition convert (c : Z) (zpad : bool) (len lcnt : Z) (args : list va) (s : St)
    : outcome (Z * list va * St) :=
  if c =? 100 (* d *) then
    '(z, args') ← va_int args;
    let ival := if 0 <? lcnt then s64 z else s32 z in
    if ival <? 0 then
      s1 ← putcfn 45 s;
      let ival' := s64 (- ival) in
      let len' := if 0 <? len then len - 1 else len in
      '(n, s2) ← format_int (u64 ival') 10 zpad len' s1;
      Done (u64 (1 + n), args', s2)
    else
      '(n, s1) ← format_int (u64 ival) 10 zpad len s; Done (n, args', s1)
  else if (c =? 117) || (c =? 120) (* u, x *) then
    '(z, args') ← va_int args;
    let ival := if 0 <? lcnt then s64 z else u32 z in
    let base := if c =? 120 then 16 else 10 in
    '(n, s1) ← format_int (u64 ival) base zpad len s; Done (n, args', s1)
  else if c =? 115 (* s *) then
    '(str, args') ← va_str args;
    '(n, s1) ← format_str str len s; Done (n, args', s1)
  else if c =? 112 (* p *) then
    '(z, args') ← va_int args;
    '(n1, s1) ← format_str (Some [48; 120; 0]) 2 s;
    '(n2, s2) ← format_int (u64 (s64 z)) 16 zpad len s1;
    Done (u64 (n1 + n2), args', s2)
  else
    s1 ← putcfn 37 s;
    s2 ← putcfn (if (c <? 32) || (127 <=? c) then 63 else c) s1;
    Done (2, args, s2).

(** One round of the loop of [vgprintf] at a [%]; [p] points after it. *)
Definition directive (p : list Z) (args : list va) (s : St)
    : outcome (Z * list Z * list va * St) :=
  c0 ← deref (head p);
  let zpad := c0 =? 48 in
  '(len, p1) ← scan_width p 0;
  '(lcnt, p2) ← scan_l p1 0;
  '(lcnt', p3) ← scan_zj p2 lcnt;
  c ← deref (head p3);
  '(n, args', s') ← convert c zpad len lcnt' args s;
  (* [if ( *p == '\0') p -= 1], undone by the [p += 1] of the loop *)
  Done (n, (if c =? 0 then p3 else tail p3), args', s').

Fixpoint vgprintf_loop (fuel : nat) (p : list Z) (args : list va) (nout : Z) (s : St)
    : outcome (Z * St) :=
  match p with
  | [] => Undefined
  | c :: t =>
      if c =? 0 then Done (nout, s) else
      match fuel with
      | O => OutOfFuel
      | S f =>
          if c =? 37 then
            '(n, p', args', s') ← directive t args s;
            vgprintf_loop f p' args' (u64 (nout + n)) s'
          else
            s' ← putcfn c s; vgprintf_loop f t args (u64 (nout + 1)) s'
      end
  end.

(** Every round consumes at least one character of the format. *)
Definition vgprintf (fmt : list Z) (args : list va) (s : St) : outcome (Z * St) :=
  vgprintf_loop (length fmt) fmt args 0 s.
End Formatter.

(** [struct vsnprintf_state]: what was written before [pos], the bytes from
    [pos] to the end of the buffer's object, and [rem]. *)
Record vsnprintf_state : Type := VS {
  vs_done : list Z;
  vs_pos : list Z;
  vs_rem : Z
}.

Definition vsnprintf_putc (c : Z) (st : vsnprintf_state) : outcome vsnprintf_state :=
  if vs_rem st <=? 1 then Done st else
  match vs_pos st with
  | [] => Undefined
  | _ :: t => Done (VS (vs_done st ++ [c]) t (vs_rem st - 1))
  end.

Definition vsnprintf (buf : list Z) (bufsz : Z) (fmt : list Z) (args : list va)
    : outcome (Z * list Z) :=
  '(n, st) ← vgprintf vsnprintf_putc fmt args (VS [] buf bufsz);
  if vs_rem st =? 0 then Done (n, vs_done st ++ vs_pos st) else
  match vs_pos st with
  | [] => Undefined
  | _ :: t => Done (n, vs_done st ++ 0 :: t)
  end.

Definition snprintf (buf : list Z) (bufsz : Z) (fmt : list Z) (args : list va)
    : outcome (Z * list Z) := vsnprintf buf bufsz fmt args.

(** ** Comparison: the lexicographic order *)

Definition is_str (a : list Z) : Prop := Forall (λ c, 0 < c < 256) a.

Fixpoint bytes_compare (a b : list Z) : Z :=
  match a, b with
  | [], [] => 0
  | [], _ :: _ => -1
  | _ :: _, [] => 1
  | x :: a', y :: b' => if x <? y then -1 else if y <? x then 1 else bytes_compare a' b'
  end.

Lemma bytes_compare_eq a b : bytes_compare a b = 0 ↔ a = b.
Proof.
  revert b. induction a as [|x a IH]; intros [|y b]; simpl; try done.
  zbool; try naive_solver lia. rewrite IH. assert (x = y) as -> by lia. naive_solver.
Qed.

Lemma bytes_compare_anti a b : bytes_compare a b = - bytes_compare b a.
Proof.
  revert b. induction a as [|x a IH]; intros [|y b]; simpl; try done. zbool.
Qed.

Lemma strcmp_loop_cstr a b r1 r2 :
  is_str a → is_str b →
  strcmp_loop (cstr a r1) (cstr b r2) = Done (bytes_compare a b).
Proof.
  unfold cstr, is_str. revert b. induction a as [|x a IH]; intros [|y b] Ha Hb; simpl.
  - done.
  - inversion Hb; subst. zbool.
  - inversion Ha; subst. zbool.
  - inversion Ha; inversion Hb; subst. rewrite IH by done. zbool.
Qed.

Lemma strlen_cstr a r : is_str a → strlen (cstr a r) = Done (Z.of_nat (length a)).
Proof.
  unfold cstr, is_str. induction a as [|x a IH]; intros Ha; [done|].
  inversion Ha; subst. cbn [app strlen]. zbool.
  rewrite IH by done. cbn. f_equal. lia.
Qed.

(** ** Copying *)

Lemma strncpy_fit a r dst n :
  is_str a → Z.of_nat (length a) < n → (length a < length dst)%nat →
  strncpy dst (cstr a r) n = Done (a ++ 0 :: drop (S (length a)) dst).
Proof.
  unfold cstr, is_str. revert dst n. induction a as [|x a IH];
    intros [|d dst] n Ha Hn Hd; cbn [length app strncpy drop] in *; try lia.
  - zbool.
  - inversion Ha; subst. zbool. rewrite IH by (done || lia). done.
Qed.

Lemma strncpy_cut a r dst n :
  is_str a → 0 ≤ n ≤ Z.of_nat (length a) → n ≤ Z.of_nat (length dst) →
  strncpy dst (cstr a r) n = Done (take (Z.to_nat n) a ++ drop (Z.to_nat n) dst).
Proof.
  unfold cstr, is_str. revert dst n. induction a as [|x a IH]; intros dst n Ha Hn Hd.
  - cbn [length] in *. assert (n = 0) as -> by lia. done.
  - inversion Ha; subst. cbn [app strncpy]. destruct (Z.eqb_spec n 0) as [->|]; [done|].
    destruct dst as [|d dst]; cbn [length] in *; [lia|]. zbool.
    rewrite IH by (done || lia). cbn.
    replace (Z.to_nat n) with (S (Z.to_nat (n - 1))) by lia. done.
Qed.

(** The bytes [memcpy] leaves in the destination object. *)
Lemma memcpy_spec dst src n :
  0 ≤ n ≤ Z.of_nat (length dst) → n ≤ Z.of_nat (length src) →
  memcpy dst src n = Done (take (Z.to_nat n) src ++ drop (Z.to_nat n) dst).
Proof.
  revert src n. induction dst as [|d dst IH]; intros src n Hd Hs.
  - cbn in *. assert (n = 0) as -> by lia. done.
  - cbn [memcpy]. destruct (Z.eqb_spec n 0) as [->|]; [done|].
    destruct src as [|c src]; cbn [length] in *; [lia|].
    rewrite IH by lia. cbn. replace (Z.to_nat n) with (S (Z.to_nat (n - 1))) by lia. done.
Qed.

Lemma memset_spec s c n :
  0 ≤ n ≤ Z.of_nat (length s) →
  memset s c n = Done (replicate (Z.to_nat n) (u8 c) ++ drop (Z.to_nat n) s).
Proof.
  revert n. induction s as [|x s IH]; intros n Hn.
  - cbn in *. assert (n = 0) as -> by lia. done.
  - cbn [memset]. destruct (Z.eqb_spec n 0) as [->|]; [done|]. cbn [length] in *.
    rewrite IH by lia. cbn. replace (Z.to_nat n) with (S (Z.to_nat (n - 1))) by lia. done.
Qed.

Lemma memcmp_zero p1 p2 n :
  0 ≤ n ≤ Z.of_nat (length p1) → n ≤ Z.of_nat (length p2) →
  ∃ r, memcmp p1 p2 n = Done r ∧
       (r = 0 ↔ take (Z.to_nat n) p1 = take (Z.to_nat n) p2).
Proof.
  revert p2 n. induction p1 as [|a p1 IH]; intros p2 n H1 H2.
  - cbn in *. assert (n = 0) as -> by lia. exists 0. done.
  - cbn [memcmp]. destruct (Z.eqb_spec n 0) as [->|]; [by exists 0|].
    destruct p2 as [|b p2]; cbn [length] in *; [lia|].
    replace (Z.to_nat n) with (S (Z.to_nat (n - 1))) by lia.
    destruct (Z.eqb_spec a b) as [->|].
    + destruct (IH p2 (n - 1)) as (r & -> & Hr); [lia..|]. exists r.
      split; [done|]. rewrite Hr. cbn. split; congruence.
    + exists (a - b). split; [done|]. cbn. split; [lia|congruence].
Qed.

(** ** Digits *)

Definition digit_val (c : Z) : Z := if c <=? 57 then c - 48 else c - 97 + 10.

(** The number a string of digits denotes. *)
Definition digits_value (base : Z) (ds : list Z) : Z :=
  fold_left (λ v c, v * base + digit_val c) ds 0.

Lemma digit_val_char d : 0 ≤ d < 16 → digit_val (digit_char d) = d.
Proof. unfold digit_val, digit_char. intros. zbool. Qed.

Lemma format_digits_value room val base acc :
  2 ≤ base ≤ 16 → 0 ≤ val < base ^ Z.of_nat (S room) →
  ∃ ds, format_digits (S room) val base acc = Done (ds ++ acc) ∧
        digits_value base ds = val ∧ ds ≠ [] ∧ (length ds ≤ S room)%nat.
Proof.
  intros Hb. revert val acc. induction room as [|room IH]; intros val acc Hv.
  - change (Z.of_nat 1) with 1 in Hv. rewrite Z.pow_1_r in Hv.
    cbn [format_digits]. rewrite Z.div_small, Z.mod_small by lia.
    destruct (Z.eqb_spec base 0); [lia|]. exists [digit_char val].
    repeat split; [|done|cbn; lia].
    unfold digits_value. cbn. rewrite digit_val_char; lia.
  - remember (S room) as k eqn:Hk. cbn [format_digits].
    destruct (Z.eqb_spec base 0); [lia|].
    pose proof (Z.mod_pos_bound val base ltac:(lia)) as Hm.
    pose proof (Z.div_mod val base ltac:(lia)) as Hdm.
    destruct (Z.eqb_spec (val / base) 0) as [E|E].
    { exists [digit_char (val mod base)]. repeat split; [|done|cbn; lia].
      unfold digits_value. cbn. rewrite digit_val_char; lia. }
    destruct (IH (val / base) (digit_char (val mod base) :: acc)) as (ds & -> & Hv' & Hne & Hl).
    { split; [apply Z.div_pos; lia|]. apply Z.div_lt_upper_bound; [lia|].
      rewrite Nat2Z.inj_succ, Z.pow_succ_r in Hv by lia. lia. }
    exists (ds ++ [digit_char (val mod base)]). rewrite <- app_assoc.
    repeat split; [|by destruct ds|rewrite length_app; cbn; lia].
    unfold digits_value in *. rewrite fold_left_app. cbn.
    rewrite Hv', digit_val_char; lia.
Qed.

(** The 40-byte buffer holds every 64-bit number in the bases used. *)
Lemma format_digits_64 val base :
  10 ≤ base ≤ 16 → 0 ≤ val < 2 ^ 64 →
  ∃ ds, format_digits 40 val base [] = Done ds ∧ digits_value base ds = val ∧
        ds ≠ [] ∧ (length ds ≤ 40)%nat.
Proof.
  intros Hb Hv. destruct (format_digits_value 39 val base []) as (ds & H & ?); [lia| |].
  - assert (10 ^ Z.of_nat 40 ≤ base ^ Z.of_nat 40) by (apply Z.pow_le_mono_l; lia).
    assert (2 ^ 64 < 10 ^ Z.of_nat 40) by (vm_compute; done). lia.
  - rewrite app_nil_r in H. eauto.
Qed.

(** ** The formatter only calls [putcfn]

    Run with the function that collects the characters in a list, the
    formatter tells which characters it emits; with any other [putcfn] it
    emits the same ones in the same order and computes the same count. *)

Definition collect (c : Z) (l : list Z) : outcome (list Z) := Done (l ++ [c]).

Lemma put_all_app {St} (putc : Z → St → outcome St) a b s :
  put_all putc (a ++ b) s = put_all putc a s ≫= put_all putc b.
Proof.
  revert s. induction a as [|c a IH]; intros s; simpl; [done|].
  rewrite outcome_assoc. apply outcome_bind_ext. intros. apply IH.
Qed.

Lemma put_all_collect cs l : put_all collect cs l = Done (l ++ cs).
Proof.
  revert l. induction cs as [|c cs IH]; intros l; simpl; [by rewrite app_nil_r|].
  rewrite IH. by rewrite <- app_assoc.
Qed.

(** What a piece of the formatter does: emit [out], return [r]. *)
Definition emits {R} (F : ∀ St, (Z → St → outcome St) → St → outcome (R * St))
    (r : R) (out : list Z) : Prop :=
  ∀ St putc s, F St putc s = s' ← put_all putc out s; Done (r, s').

Lemma emits_collect {R} F (r : R) out l0 :
  emits F r out → F _ collect l0 = Done (r, l0 ++ out).
Proof. intros H. rewrite H, put_all_collect. done. Qed.

Definition pad_count (width len : Z) : nat := Z.to_nat (len - width).

Lemma pad_loop_emits fuel pad width len nout :
  (pad_count width len ≤ fuel)%nat → 0 ≤ nout < 2 ^ 64 →
  emits (λ St putc, pad_loop putc fuel pad width len nout)
    (u64 (nout + Z.of_nat (pad_count width len))) (replicate (pad_count width len) pad).
Proof.
  unfold pad_count. revert len nout. induction fuel as [|fuel IH]; intros len nout Hf Hn St putc s;
    cbn [pad_loop]; destruct (Z.ltb_spec width len).
  - lia.
  - replace (Z.to_nat (len - width)) with 0%nat by lia. cbn. word. f_equal. f_equal. lia.
  - replace (Z.to_nat (len - width)) with (S (Z.to_nat (len - 1 - width))) by lia.
    cbn [replicate put_all]. rewrite outcome_assoc. apply outcome_bind_ext. intros s'.
    rewrite IH by (auto with word || lia). rewrite u64_add_l.
    replace (nout + 1 + Z.of_nat (Z.to_nat (len - 1 - width)))
      with (nout + Z.of_nat (S (Z.to_nat (len - 1 - width)))) by lia. done.
  - replace (Z.to_nat (len - width)) with 0%nat by lia. cbn. word. f_equal. f_equal. lia.
Qed.

(** The field of [format_int]: the digits of [val], padded on the left. *)
Definition int_field (val base : Z) (zpad : bool) (len : Z) : list Z :=
  match format_digits 40 val base [] with
  | Done ds => replicate (pad_count (Z.of_nat (length ds)) len) (if zpad then 48 else 32) ++ ds
  | _ => []
  end.

Lemma format_int_emits val base zpad len :
  10 ≤ base ≤ 16 → 0 ≤ val < 2 ^ 64 → 0 ≤ len < 2 ^ 32 →
  emits (λ St putc, format_int putc val base zpad len)
    (Z.of_nat (length (int_field val base zpad len))) (int_field val base zpad len).
Proof.
  intros Hb Hv Hl. unfold int_field, format_int.
  destruct (format_digits_64 val base Hb Hv) as (ds & -> & _ & _ & Hds).
  set (pad := if zpad then 48 else 32). set (k := pad_count (Z.of_nat (length ds)) len).
  intros St putc s. cbn [mbind outcome_bind].
  assert (k ≤ Z.to_nat len)%nat by (unfold k, pad_count; lia).
  rewrite (pad_loop_emits (Z.to_nat len) pad (Z.of_nat (length ds)) len 0 ltac:(done)
    ltac:(lia) St putc s). fold k.
  rewrite outcome_assoc, put_all_app, outcome_assoc. apply outcome_bind_ext. intros s1.
  cbn [mbind outcome_bind]. apply outcome_bind_ext. intros s2.
  rewrite length_app, length_replicate, Nat2Z.inj_add.
  rewrite u64_add_l. rewrite u64_small by (unfold k, pad_count in *; lia). done.
Qed.

Lemma format_str_loop_emits a r nout :
  nul_free a → 0 ≤ nout < 2 ^ 64 →
  emits (λ St putc, format_str_loop putc (cstr a r) nout)
    (u64 (nout + Z.of_nat (length a))) a.
Proof.
  unfold cstr, nul_free. revert nout. induction a as [|c a IH]; intros nout Ha Hn St putc s.
  - change (Z.of_nat (length [])) with 0. rewrite Z.add_0_r, u64_small by done. done.
  - inversion Ha; subst. cbn [app format_str_loop put_all].
    destruct (Z.eqb_spec c 0); [lia|]. rewrite outcome_assoc.
    apply outcome_bind_ext. intros s'. rewrite IH by (auto with word).
    rewrite u64_add_l. cbn [length].
    replace (nout + 1 + Z.of_nat (length a)) with (nout + Z.of_nat (S (length a))) by lia. done.
Qed.

Lemma format_str_loop_inv {St} (putc : Z → St → outcome St) str nout s p :
  format_str_loop putc str nout s = Done p → ∃ a r, str = cstr a r ∧ nul_free a.
Proof.
  unfold nul_free. revert nout s. induction str as [|c str IH]; intros nout s H; [done|].
  cbn [format_str_loop] in H. destruct (Z.eqb_spec c 0) as [->|Hc].
  - by exists [], str.
  - inv_outcome. destruct (IH _ _ H0) as (a & r & -> & Ha). exists (c :: a), r.
    split; [done|]. by constructor.
Qed.

Lemma format_str_emits a r len :
  nul_free a → 0 ≤ len < 2 ^ 32 →
  let out := a ++ replicate (pad_count (u64 (Z.of_nat (length a))) len) 32 in
  emits (λ St putc, format_str putc (Some (cstr a r)) len) (u64 (Z.of_nat (length out))) out.
Proof.
  intros Ha Hl out St putc s. unfold format_str. cbn [from_option id].
  rewrite (format_str_loop_emits a r 0 Ha ltac:(lia) St putc s), outcome_assoc.
  subst out. rewrite put_all_app, outcome_assoc. apply outcome_bind_ext. intros s1.
  cbn [mbind outcome_bind]. rewrite Z.add_0_l. set (n := u64 (Z.of_nat (length a))).
  pose proof (u64_range (Z.of_nat (length a))) as Hn. fold n in Hn.
  rewrite length_app, length_replicate, Nat2Z.inj_add. unfold pad_count.
  destruct (Z.ltb_spec n len).
  - pose proof (pad_loop_emits (Z.to_nat (len - n)) 32 0 (len - n) 0) as Hp.
    unfold pad_count in Hp. rewrite Z.sub_0_r in Hp.
    rewrite (Hp ltac:(done) ltac:(lia) St putc s1), outcome_assoc.
    apply outcome_bind_ext. intros s2. cbn [mbind outcome_bind].
    rewrite <- (u64_add_l (Z.of_nat (length a))). fold n. rewrite Z2Nat.id by lia. done.
  - replace (Z.to_nat (len - n)) with 0%nat by lia. cbn. change (Z.of_nat 0) with 0.
    by rewrite Z.add_0_r.
Qed.

Lemma int_field_length val base zpad len :
  10 ≤ base ≤ 16 → 0 ≤ val < 2 ^ 64 → 0 ≤ len < 2 ^ 32 →
  Z.of_nat (length (int_field val base zpad len)) ≤ 40 + len.
Proof.
  intros Hb Hv Hl. unfold int_field.
  destruct (format_digits_64 val base Hb Hv) as (ds & -> & _ & _ & Hds).
  rewrite length_app, length_replicate. unfold pad_count. lia.
Qed.

Lemma emits_ret {R R'} F (r : R) out (g : R → R') :
  emits F r out →
  emits (λ St putc s, '(r, s') ← F St putc s; Done (g r, s')) (g r) out.
Proof.
  intros H St putc s. rewrite H, outcome_assoc. by apply outcome_bind_ext.
Qed.

Lemma emits_put {R} c F (r : R) out :
  emits F r out → emits (λ St putc s, s' ← putc c s; F St putc s') r (c :: out).
Proof.
  intros H St putc s. cbn [put_all]. rewrite outcome_assoc. apply outcome_bind_ext. intros s'.
  apply H.
Qed.

Lemma emits_seq {R1 R2} F1 (F2 : R1 → ∀ St, (Z → St → outcome St) → St → outcome (R2 * St))
    r1 r2 out1 out2 :
  emits F1 r1 out1 → emits (F2 r1) r2 out2 →
  emits (λ St putc s, '(r, s') ← F1 St putc s; F2 r St putc s') r2 (out1 ++ out2).
Proof.
  intros H1 H2 St putc s. rewrite H1, put_all_app, !outcome_assoc.
  apply outcome_bind_ext. intros s'. cbn [mbind outcome_bind]. apply H2.
Qed.

Lemma int_field_count val base zpad len :
  10 ≤ base ≤ 16 → 0 ≤ val < 2 ^ 64 → 0 ≤ len < 2 ^ 32 →
  u64 (Z.of_nat (length (int_field val base zpad len)))
  = Z.of_nat (length (int_field val base zpad len)).
Proof. intros. pose proof (int_field_length val base zpad len). word. Qed.

#[local] Arguments format_digits : simpl never.
#[local] Arguments format_int : simpl never.
#[local] Arguments format_str : simpl never.

(** The collecting run of an emitter fixes what it returned. *)
Lemma emits_inj {R} (F : ∀ St, (Z → St → outcome St) → St → outcome (R * St)) r r' out l0 l m :
  m = F _ collect l0 → m = Done (r', l) → emits F r out → r' = r.
Proof. intros -> H HE. rewrite (emits_collect _ _ _ l0 HE) in H. by simplify_eq. Qed.

Lemma convert_emits c zpad len lcnt args l0 n args' l :
  0 ≤ len < 2 ^ 32 →
  convert collect c zpad len lcnt args l0 = Done (n, args', l) →
  ∃ out, n = u64 (Z.of_nat (length out)) ∧
         emits (λ St putc, convert putc c zpad len lcnt args) (n, args') out.
Proof.
  intros Hlen H. pose proof H as H0. unfold convert in H |- *.
  destruct (c =? 100) eqn:Ed; [|destruct ((c =? 117) || (c =? 120)) eqn:Eu;
    [|destruct (c =? 115) eqn:Es; [|destruct (c =? 112) eqn:Ep]]].
  - apply bind_Done in H as ([z a] & Hz & H). rewrite Hz. cbn [mbind outcome_bind].
    set (ival := if 0 <? lcnt then s64 z else s32 z) in *.
    set (len' := if 0 <? len then len - 1 else len) in *.
    assert (Hlen' : 0 ≤ len' < 2 ^ 32) by (unfold len'; zbool).
    destruct (ival <? 0) eqn:Ei.
    + pose proof (emits_put 45 _ _ _ (emits_ret _ _ _ (λ n, (u64 (1 + n), a))
        (format_int_emits (u64 (s64 (- ival))) 10 zpad len' ltac:(lia) (u64_range _) Hlen'))) as HE.
      pose proof (emits_inj _ _ _ _ l0 _ _ eq_refl H HE) as E. simplify_eq.
      eexists. split; [|exact HE]. cbn [length]. rewrite Nat2Z.inj_succ. f_equal. lia.
    + pose proof (emits_ret _ _ _ (λ n, (n, a))
        (format_int_emits (u64 ival) 10 zpad len ltac:(lia) (u64_range _) Hlen)) as HE.
      pose proof (emits_inj _ _ _ _ l0 _ _ eq_refl H HE) as E. simplify_eq.
      eexists. split; [|exact HE]. symmetry. apply int_field_count; auto with word lia.
  - apply bind_Done in H as ([z a] & Hz & H). rewrite Hz. cbn [mbind outcome_bind].
    set (ival := if 0 <? lcnt then s64 z else u32 z) in *.
    set (base := if c =? 120 then 16 else 10) in *.
    assert (Hb : 10 ≤ base ≤ 16) by (unfold base; zbool).
    pose proof (emits_ret _ _ _ (λ n, (n, a))
      (format_int_emits (u64 ival) base zpad len Hb (u64_range _) Hlen)) as HE.
    pose proof (emits_inj _ _ _ _ l0 _ _ eq_refl H HE) as E. simplify_eq.
    eexists. split; [|exact HE]. symmetry. apply int_field_count; auto with word lia.
  - apply bind_Done in H as ([str a] & Hz & H). rewrite Hz. cbn [mbind outcome_bind].
    assert (∃ b r, format_str (St := list Z) collect str len = format_str collect (Some (cstr b r)) len
       ∧ (∀ St putc, format_str (St := St) putc str len = format_str putc (Some (cstr b r)) len)
       ∧ nul_free b) as (b & r & _ & Hstr & Hb).
    { destruct str as [str|].
      - apply bind_Done in H as (p & H & _). unfold format_str in H.
        apply bind_Done in H as (q & H & _).
        destruct (format_str_loop_inv _ _ _ _ _ H) as (b & r & Hs & ?). cbn in Hs. subst. eauto.
      - exists [40; 110; 117; 108; 108; 41], []. repeat split. by repeat constructor. }
    pose proof (emits_ret _ _ _ (λ n, (n, a)) (format_str_emits b r len Hb Hlen)) as HE.
    rewrite Hstr in H. pose proof (emits_inj _ _ _ _ l0 _ _ eq_refl H HE) as E. simplify_eq.
    eexists. split; [|intros St putc s; cbv beta; rewrite (Hstr St putc); apply HE].
    reflexivity.
  - apply bind_Done in H as ([z a] & Hz & H). rewrite Hz. cbn [mbind outcome_bind].
    pose proof (format_str_emits [48; 120] [] 2 ltac:(by repeat constructor) ltac:(lia)) as HS.
    pose proof (format_int_emits (u64 (s64 z)) 16 zpad len ltac:(lia) (u64_range _) Hlen) as HI.
    set (fld := int_field (u64 (s64 z)) 16 zpad len) in *.
    pose proof (emits_seq _ (λ n1 St putc s, '(n2, s2) ← format_int putc (u64 (s64 z)) 16 zpad len s;
      Done (u64 (n1 + n2), a, s2)) _ _ _ _ HS
      (emits_ret _ _ _ (λ n2, (u64 (2 + n2), a)) HI)) as HE.
    pose proof (emits_inj _ _ _ _ l0 _ _ eq_refl H HE) as E. simplify_eq.
    eexists. split; [|exact HE].
    change (pad_count (u64 (Z.of_nat (length [48; 120]))) 2) with 0%nat.
    cbn [length app replicate]. f_equal. lia.
  - pose proof (emits_put 37 _ _ _ (emits_put (if (c <? 32) || (127 <=? c) then 63 else c)
      (λ St putc s, Done ((2, args), s)) (2, args) [] ltac:(done))) as HE.
    pose proof (emits_inj _ _ _ _ l0 _ _ eq_refl H HE) as E. simplify_eq.
    eexists. split; [|exact HE]. reflexivity.
Qed.

Lemma scan_width_range p len len' p' :
  0 ≤ len < 2 ^ 32 → scan_width p len = Done (len', p') →
  0 ≤ len' < 2 ^ 32 ∧ (length p' ≤ length p)%nat ∧ (∃ q, p = q ++ p').
Proof.
  revert len. induction p as [|c p IH]; intros len Hl H; [done|]. cbn [scan_width] in H.
  destruct ((48 <=? c) && (c <=? 57)).
  - apply IH in H as (? & ? & q & ->); [|auto with word].
    split_and!; [lia..|cbn; lia|by exists (c :: q)].
  - simplify_eq. split_and!; [lia..|done|by exists []].
Qed.

Lemma scan_l_length p l l' p' :
  scan_l p l = Done (l', p') → (length p' ≤ length p)%nat.
Proof.
  revert l. induction p as [|c p IH]; intros l H; [done|]. cbn [scan_l] in H.
  destruct (c =? 108); [apply IH in H; cbn; lia|by simplify_eq].
Qed.

Lemma scan_zj_length p l l' p' :
  scan_zj p l = Done (l', p') → (length p' ≤ length p)%nat.
Proof.
  destruct p as [|c p]; cbn; [done|]. destruct (_ || _); intros; simplify_eq; cbn; lia.
Qed.

Lemma directive_emits p args l0 n p' args' l :
  directive collect p args l0 = Done (n, p', args', l) →
  ∃ out, n = u64 (Z.of_nat (length out)) ∧
         emits (λ St putc, directive putc p args) (n, p', args') out.
Proof.
  unfold directive. intros H.
  apply bind_Done in H as (c0 & Hc0 & H). rewrite Hc0. cbn [mbind outcome_bind].
  apply bind_Done in H as ([len p1] & Hw & H). rewrite Hw. cbn [mbind outcome_bind].
  apply bind_Done in H as ([lcnt p2] & Hl & H). rewrite Hl. cbn [mbind outcome_bind].
  apply bind_Done in H as ([lcnt' p3] & Hj & H). rewrite Hj. cbn [mbind outcome_bind].
  apply bind_Done in H as (c & Hc & H). rewrite Hc. cbn [mbind outcome_bind].
  apply bind_Done in H as ([[n1 a1] l1] & Hconv & H). simplify_eq.
  apply scan_width_range in Hw as (Hlen & _); [|lia].
  apply (convert_emits _ _ _ _ _ _ _ _ _ Hlen) in Hconv as (out & -> & HE).
  exists out. split; [done|]. intros St putc s.
  rewrite (HE St putc s), outcome_assoc. by apply outcome_bind_ext.
Qed.

Lemma vgprintf_loop_emits fuel p args nout l0 n l :
  vgprintf_loop collect fuel p args nout l0 = Done (n, l) → 0 ≤ nout < 2 ^ 64 →
  ∃ out, n = u64 (nout + Z.of_nat (length out)) ∧
         emits (λ St putc, vgprintf_loop putc fuel p args nout) n out.
Proof.
  revert p args nout l0. induction fuel as [|fuel IH]; intros p args nout l0 H Hn;
    destruct p as [|c p]; cbn [vgprintf_loop] in *; try done;
    destruct (Z.eqb_spec c 0) as [->|].
  - simplify_eq. exists []. split; [|done]. cbn. change (Z.of_nat 0) with 0.
    by rewrite Z.add_0_r, u64_small.
  - done.
  - simplify_eq. exists []. split; [|done]. cbn. change (Z.of_nat 0) with 0.
    by rewrite Z.add_0_r, u64_small.
  - destruct (c =? 37).
    + apply bind_Done in H as ([[[n1 p1] a1] l1] & Hd & H).
      apply directive_emits in Hd as (out1 & -> & HE1).
      apply IH in H as (out2 & -> & HE2); [|auto with word].
      exists (out1 ++ out2). split.
      * rewrite length_app, u64_add_r, u64_add_l. f_equal. lia.
      * intros St putc s. rewrite (HE1 St putc s), put_all_app, !outcome_assoc.
        apply outcome_bind_ext. intros s1. apply HE2.
    + apply bind_Done in H as (l1 & _ & H).
      apply IH in H as (out & -> & HE); [|auto with word].
      exists (c :: out). split; [|exact (emits_put c _ _ _ HE)].
      rewrite u64_add_l. cbn [length]. f_equal. lia.
Qed.

(** A round of the loop moves forward in the format. *)
Lemma directive_advances {St} (putc : Z → St → outcome St) p args s n p' args' s' :
  directive putc p args s = Done (n, p', args', s') → (length p' ≤ length p)%nat.
Proof.
  unfold directive. intros H. inv_outcome.
  match goal with H : scan_width _ _ = _ |- _ => apply scan_width_range in H as (_ & ? & _); [|lia] end.
  match goal with H : scan_l _ _ = _ |- _ => apply scan_l_length in H end.
  match goal with H : scan_zj _ _ = _ |- _ => apply scan_zj_length in H end.
  repeat case_match; [lia|].
  match goal with |- (length (tail ?q) ≤ _)%nat => destruct q; cbn in *; lia end.
Qed.

(** ** Termination of the formatter *)

Definition no_spin {A} (m : outcome A) : Prop := m ≠ OutOfFuel.

Lemma no_spin_bind {A B} (m : outcome A) (f : A → outcome B) :
  no_spin m → (∀ a, m = Done a → no_spin (f a)) → no_spin (m ≫= f).
Proof. unfold no_spin. destruct m; naive_solver. Qed.

Lemma scan_width_no_spin p len : no_spin (scan_width p len).
Proof. revert len. induction p; intros; cbn [scan_width]; [done|]. by case_match. Qed.
Lemma scan_l_no_spin p l : no_spin (scan_l p l).
Proof. revert l. induction p; intros; cbn [scan_l]; [done|]. by case_match. Qed.

Section NoSpin.
Context {St : Type} (putc : Z → St → outcome St).
Context (Hputc : ∀ c s, no_spin (putc c s)).

Lemma put_all_no_spin cs s : no_spin (put_all putc cs s).
Proof. revert s. induction cs; intros; cbn; [done|]. by apply no_spin_bind. Qed.

Lemma emits_no_spin {R} F (r : R) out s : emits F r out → no_spin (F St putc s).
Proof. intros ->. apply no_spin_bind; [apply put_all_no_spin|done]. Qed.

Lemma format_str_loop_no_spin str nout s : no_spin (format_str_loop putc str nout s).
Proof.
  revert nout s. induction str as [|c str IH]; intros; cbn; [done|].
  case_match; [done|]. by apply no_spin_bind.
Qed.

Lemma pad_loop_no_spin fuel pad w len n s :
  (Z.to_nat (len - w) ≤ fuel)%nat → no_spin (pad_loop putc fuel pad w len n s).
Proof.
  revert len n s. induction fuel as [|fuel IH]; intros len n s Hf; cbn;
    destruct (Z.ltb_spec w len); try done; [lia|].
  apply no_spin_bind; [done|]. intros. apply IH. lia.
Qed.

Lemma convert_no_spin c zpad len lcnt args s :
  0 ≤ len < 2 ^ 32 → no_spin (convert putc c zpad len lcnt args s).
Proof.
  intros Hlen. unfold convert.
  assert (HI : ∀ v b z l s', 10 ≤ b ≤ 16 → 0 ≤ l < 2 ^ 32 →
    no_spin (format_int putc (u64 v) b z l s')).
  { intros. eapply (emits_no_spin (λ St putc, format_int putc (u64 v) b z l)).
    apply format_int_emits; auto with word. }
  assert (HS : ∀ str l s', 0 ≤ l < 2 ^ 32 → no_spin (format_str putc str l s')).
  { intros. unfold format_str. apply no_spin_bind; [apply format_str_loop_no_spin|].
    intros [n s1] _. case_match; [|done]. apply no_spin_bind; [|by intros []].
    apply pad_loop_no_spin. lia. }
  assert (HV : ∀ a, no_spin (va_int a) ∧ no_spin (va_str a)) by by intros [|[]].
  assert (0 ≤ len - 1 < 2 ^ 32 ∨ len = 0) by lia.
  repeat first
    [ done | apply Hputc | apply HV | apply HS; done
    | apply HI; [destruct (c =? 120); lia | try done; destruct (Z.ltb_spec 0 len); lia]
    | match goal with
      | |- no_spin (_ ≫= _) => apply no_spin_bind; [|intros ? _]
      | |- no_spin (if ?b then _ else _) => destruct b
      | |- no_spin (let '(_, _) := ?x in _) => destruct x
      | |- no_spin (match ?x with pair _ _ => _ end) => destruct x
      end ].
Qed.

Lemma directive_no_spin p args s : no_spin (directive putc p args s).
Proof.
  unfold directive. apply no_spin_bind; [by destruct p|]. intros c0 _.
  apply no_spin_bind; [apply scan_width_no_spin|]. intros [len p1] Hw.
  apply scan_width_range in Hw as [Hlen _]; [|lia].
  apply no_spin_bind; [apply scan_l_no_spin|]. intros [lcnt p2] _.
  apply no_spin_bind. { destruct p2; cbn; [done|]. by case_match. } intros [l2 p3] _.
  apply no_spin_bind; [by destruct p3|]. intros c _.
  apply no_spin_bind; [by apply convert_no_spin|]. by intros [[??]?] _.
Qed.

Lemma vgprintf_loop_no_spin fuel p args nout s :
  (length p ≤ fuel)%nat → no_spin (vgprintf_loop putc fuel p args nout s).
Proof.
  revert p args nout s. induction fuel as [|fuel IH]; intros [|c p] args nout s Hf;
    cbn [vgprintf_loop length] in *; try done; try lia; repeat case_match; try done.
  - apply no_spin_bind; [apply directive_no_spin|]. intros [[[n p'] a'] s'] Hd.
    apply IH. apply directive_advances in Hd. lia.
  - apply no_spin_bind; [done|]. intros. apply IH. lia.
Qed.
End NoSpin.

(** ** Bounds of [vsnprintf] *)

Lemma put_all_vsnprintf out done pos rem :
  1 ≤ rem ≤ Z.of_nat (length pos) →
  let k := Nat.min (length out) (Z.to_nat (rem - 1)) in
  put_all vsnprintf_putc out (VS done pos rem)
  = Done (VS (done ++ take k out) (drop k pos) (rem - Z.of_nat k)).
Proof.
  revert done pos rem. induction out as [|c out IH]; intros done pos rem Hr; cbn [put_all length].
  - cbn. rewrite app_nil_r, drop_0. f_equal. f_equal. lia.
  - change (vsnprintf_putc c (VS done pos rem)) with
      (if rem <=? 1 then Done (VS done pos rem) else
       match pos with
       | [] => Undefined
       | _ :: t => Done (VS (done ++ [c]) t (rem - 1))
       end).
    destruct (Z.leb_spec rem 1) as [H|H].
    + cbn [mbind outcome_bind]. rewrite IH by lia.
      replace (Z.to_nat (rem - 1)) with 0%nat by lia. rewrite !Nat.min_0_r. done.
    + destruct pos as [|x pos]; cbn [length] in *; [lia|]. cbn [mbind outcome_bind].
      rewrite IH by lia.
      replace (Z.to_nat (rem - 1)) with (S (Z.to_nat (rem - 1 - 1))) by lia.
      cbn [Nat.min take drop]. rewrite <- app_assoc. cbn. do 2 f_equal. lia.
Qed.

Lemma put_all_vsnprintf_0 out done pos :
  put_all vsnprintf_putc out (VS done pos 0) = Done (VS done pos 0).
Proof.
  induction out; [done|]. exact IHout.
Qed.

(** * Properties *)

(** [strcmp] on two NUL-terminated strings computes their lexicographic
    order, is 0 exactly on equal strings, and changes sign when the arguments
    are swapped. *)
Theorem strcmp_lexicographic a b r1 r2 :
  is_str a → is_str b →
  strcmp (Some (cstr a r1)) (Some (cstr b r2)) = Done (bytes_compare a b) ∧
  (bytes_compare a b = 0 ↔ a = b) ∧
  strcmp (Some (cstr b r2)) (Some (cstr a r1)) = Done (- bytes_compare a b).
Proof.
  intros Ha Hb. cbn [strcmp]. rewrite !strcmp_loop_cstr by done.
  rewrite (bytes_compare_anti b a). auto using bytes_compare_eq.
Qed.

(** [strncpy] copies the string and one NUL when it fits in [n], and
    exactly [n] bytes without a terminator when it does not; it never touches
    the rest of the destination (it does not pad with NULs up to [n]). *)
Theorem strncpy_functional a r dst n :
  is_str a → 0 ≤ n ≤ Z.of_nat (length dst) →
  strncpy dst (cstr a r) n =
  Done (if Z.of_nat (length a) <? n then a ++ 0 :: drop (S (length a)) dst
        else take (Z.to_nat n) a ++ drop (Z.to_nat n) dst).
Proof.
  intros Ha Hn. destruct (Z.ltb_spec (Z.of_nat (length a)) n).
  - apply strncpy_fit; [done|lia..].
  - apply strncpy_cut; [done|lia..].
Qed.

(** An integer printed in base 10 or 16 is a field of at least [len]
    characters: padding followed by digits that denote the number, whatever
    [putcfn] is; the 40-byte buffer never underflows for 64-bit values. *)
Theorem format_int_roundtrip {St} (putc : Z → St → outcome St) val base (zpad : bool) len s :
  base = 10 ∨ base = 16 → 0 ≤ val < 2 ^ 64 → 0 ≤ len < 2 ^ 32 →
  ∃ pad ds, Forall (eq (if zpad then 48 else 32)) pad ∧ digits_value base ds = val ∧
    Z.of_nat (length (pad ++ ds)) = Z.max len (Z.of_nat (length ds)) ∧
    format_int putc val base zpad len s =
      (s' ← put_all putc (pad ++ ds) s; Done (Z.of_nat (length (pad ++ ds)), s')).
Proof.
  intros Hb Hv Hl.
  pose proof (format_int_emits val base zpad len ltac:(lia) Hv Hl) as HE. unfold int_field in HE.
  destruct (format_digits_64 val base ltac:(lia) Hv) as (ds & Hd & Hval & _ & _). rewrite Hd in HE.
  exists (replicate (pad_count (Z.of_nat (length ds)) len) (if zpad then 48 else 32)), ds.
  split_and!; [|done| |apply (HE St putc s)].
  - by apply Forall_replicate.
  - rewrite length_app, length_replicate. unfold pad_count. lia.
Qed.

(** The characters [vgprintf] emits do not depend on [putcfn]: when the
    run that collects them returns, any other run emits the same characters in
    the same order, and the count returned is their number (modulo 2^64). *)
Theorem vgprintf_transparent fmt args n out :
  vgprintf collect fmt args [] = Done (n, out) →
  n = u64 (Z.of_nat (length out)) ∧
  ∀ St (putc : Z → St → outcome St) s,
    vgprintf putc fmt args s = (s' ← put_all putc out s; Done (n, s')).
Proof.
  intros H. destruct (vgprintf_loop_emits _ _ _ _ _ _ _ H ltac:(lia)) as (out' & -> & HE).
  pose proof (emits_collect _ _ _ [] HE) as H'. cbv beta in H'.
  unfold vgprintf in H. rewrite H in H'. cbn in H'. simplify_eq. rewrite Z.add_0_l in *. auto.
Qed.

(** C31: [vgprintf] stops on every format, argument list and [putcfn] that
    stops: the fuel of the model, the length of the format, is enough. *)
Theorem vgprintf_terminates {St} (putc : Z → St → outcome St) fmt args s :
  (∀ c s, putc c s ≠ OutOfFuel) → vgprintf putc fmt args s ≠ OutOfFuel.
Proof. intros H. by apply vgprintf_loop_no_spin. Qed.

(** C32: [vsnprintf] stays inside the first [bufsz] bytes of the buffer, writes
    the emitted text cut to [bufsz - 1] characters and a terminating NUL, and
    returns the length of the uncut text; with [bufsz = 0] it writes nothing. *)
Theorem vsnprintf_bounded buf bufsz fmt args n out :
  vgprintf collect fmt args [] = Done (n, out) →
  0 ≤ bufsz ≤ Z.of_nat (length buf) →
  vsnprintf buf bufsz fmt args =
  Done (n, if bufsz =? 0 then buf
           else let k := Nat.min (length out) (Z.to_nat (bufsz - 1)) in
                take k out ++ 0 :: drop (S k) buf).
Proof.
  intros H Hb. apply vgprintf_loop_emits in H as H'; [|lia].
  destruct H' as (out' & Hn & HE).
  pose proof (emits_collect _ _ _ [] HE) as H'. cbv beta in H'.
  unfold vgprintf in H. rewrite H in H'. cbn in H'. simplify_eq.
  unfold vsnprintf, vgprintf. rewrite (HE _ vsnprintf_putc). clear H HE.
  destruct (Z.eqb_spec bufsz 0) as [->|].
  - rewrite put_all_vsnprintf_0. done.
  - rewrite put_all_vsnprintf by lia. cbn [mbind outcome_bind vs_rem vs_pos vs_done app].
    set (k := Nat.min _ _). assert (k < Z.to_nat bufsz)%nat by lia.
    destruct (Z.eqb_spec (bufsz - Z.of_nat k) 0); [lia|].
    destruct (drop k buf) as [|x t] eqn:Ed.
    { apply (f_equal length) in Ed. rewrite length_drop in Ed. cbn in Ed. lia. }
    replace (S k) with (k + 1)%nat by lia. by rewrite <- drop_drop, Ed.
Qed.

(** * Witnesses *)

Lemma strcmp_lexicographic_witness :
  strcmp (Some (cstr [97; 98] [])) (Some (cstr [97; 99] [7])) = Done (-1).
Proof.
  destruct (strcmp_lexicographic [97; 98] [97; 99] [] [7]) as [H _];
    [repeat constructor; lia..|]. exact H.
Defined.

Lemma strncpy_functional_witness :
  strncpy [1; 2; 3; 4; 5] (cstr [97; 98] []) 5 = Done [97; 98; 0; 4; 5].
Proof.
  refine (strncpy_functional [97; 98] [] [1; 2; 3; 4; 5] 5 _ _).
  - repeat constructor; lia.
  - cbn; lia.
Defined.

Lemma format_int_roundtrip_witness :
  ∃ pad ds, Forall (eq 48) pad ∧ digits_value 16 ds = 255 ∧
    Z.of_nat (length (pad ++ ds)) = Z.max 4 (Z.of_nat (length ds)) ∧
    format_int collect 255 16 true 4 [] =
      (s' ← put_all collect (pad ++ ds) []; Done (Z.of_nat (length (pad ++ ds)), s')).
Proof. apply (format_int_roundtrip collect 255 16 true 4 []); lia. Defined.

(** ["%04d|%s"] applied to -7 and ["ok"] prints ["-007|ok"]. *)
Lemma vgprintf_transparent_witness :
  vgprintf vsnprintf_putc [37; 48; 52; 100; 124; 37; 115; 0]
    [VaInt (-7); VaStr (Some (cstr [111; 107] []))] (VS [] [1; 2; 3; 4] 4)
  = Done (7, VS [45; 48; 48] [4] 1).
Proof.
  destruct (vgprintf_transparent [37; 48; 52; 100; 124; 37; 115; 0]
    [VaInt (-7); VaStr (Some (cstr [111; 107] []))] 7 [45; 48; 48; 55; 124; 111; 107])
    as [_ H]; [vm_compute; reflexivity|].
  rewrite H. vm_compute. reflexivity.
Defined.

Lemma vgprintf_terminates_witness :
  vgprintf collect [37; 0] [] [] ≠ OutOfFuel.
Proof. apply vgprintf_terminates. intros c s H. discriminate H. Defined.

Lemma vsnprintf_bounded_witness :
  vsnprintf [9; 9; 9; 9; 9; 9] 4 [37; 120; 33; 63; 0] [VaInt 500] = Done (5, [49; 102; 52; 0; 9; 9]).
Proof.
  refine (vsnprintf_bounded [9; 9; 9; 9; 9; 9] 4 [37; 120; 33; 63; 0] [VaInt 500] 5
    [49; 102; 52; 33; 63] _ _).
  - vm_compute; reflexivity.
  - cbn; lia.
Defined.
