(* ===== verification/Printing.v ===== *)
(** What a format prints, piece by piece: literal characters, strings and decimal
    numbers. *)
From Stdlib Require Import ZArith Lia.
From stdpp Require Import base list strings pretty.
From S2P Require Import Prelude CString.

Open Scope Z_scope.

(** ** Decimal numbers *)

Lemma string_bytes_cons a s : string_bytes (String a s) = Z.of_N (Ascii.N_of_ascii a) :: string_bytes s.
Proof. done. Qed.

Lemma string_bytes_app s s' : string_bytes (s +:+ s') = string_bytes s ++ string_bytes s'.
Proof. induction s as [|a s IH]; [done|]. change (String a s +:+ s') with (String a (s +:+ s')). by rewrite !string_bytes_cons, IH. Qed.

Lemma digit_char_pretty x : (x < 10)%N → digit_char (Z.of_N x) = Z.of_N (Ascii.N_of_ascii (pretty_N_char x)).
Proof.
  intros Hx. assert (x = 0 ∨ x = 1 ∨ x = 2 ∨ x = 3 ∨ x = 4 ∨ x = 5 ∨ x = 6 ∨ x = 7 ∨ x = 8 ∨ x = 9)%N as Hin by lia.
  by repeat destruct Hin as [->|Hin]; [vm_compute..|subst].
Qed.

(** The loop of [format_int] writes the digits of [pretty]. *)
Lemma format_digits_pretty room : ∀ x s, (0 < x)%N → Z.of_N x < 10 ^ Z.of_nat room →
  format_digits room (Z.of_N x) 10 (string_bytes s) = Done (string_bytes (pretty_N_go x s)).
Proof.
  induction room as [|room IH]; intros x s Hx Hr; [cbn in Hr; lia|]. cbn [format_digits]. change (10 =? 0) with false. cbn iota.
  rewrite (pretty_N_go_step x s Hx). change 10 with (Z.of_N 10). rewrite <- N2Z.inj_mod, <- N2Z.inj_div. change (Z.of_N 10) with 10.
  rewrite digit_char_pretty by (apply N.mod_lt; lia).
  change (Z.of_N (Ascii.N_of_ascii (pretty_N_char (x mod 10))) :: string_bytes s) with (string_bytes (String (pretty_N_char (x mod 10)) s)).
  destruct (Z.eqb_spec (Z.of_N (x / 10)) 0) as [Hz|Hz].
  - assert ((x / 10)%N = 0%N) as -> by lia. by rewrite pretty_N_go_0.
  - apply IH; [revert Hz; generalize (x / 10)%N; lia|]. rewrite N2Z.inj_div. apply Z.div_lt_upper_bound; [lia|].
    rewrite Nat2Z.inj_succ, Z.pow_succ_r in Hr by lia. exact Hr.
Qed.

Lemma int_field_pretty z : 0 ≤ z < 2 ^ 64 → int_field z 10 false 0 = string_bytes (pretty z).
Proof.
  intros Hz. assert (Hd : format_digits 40 z 10 [] = Done (string_bytes (pretty z))).
  { destruct z as [|p|p]; [vm_compute; reflexivity| |lia]. change (pretty (Z.pos p)) with (pretty (N.pos p)).
    unfold pretty, pretty_N. rewrite decide_False by done. change (Z.pos p) with (Z.of_N (N.pos p)).
    apply (format_digits_pretty 40 (N.pos p) ""%string); [lia|]. assert (2 ^ 64 < 10 ^ Z.of_nat 40) by (vm_compute; done). lia. }
  unfold int_field. rewrite Hd. unfold pad_count. replace (Z.to_nat (0 - _)) with 0%nat by lia. done.
Qed.

(** A number is printed in digits. *)
Lemma pretty_digits z : 0 ≤ z < 2 ^ 64 → Forall (λ c, 48 ≤ c < 58) (string_bytes (pretty z)).
Proof.
  assert (Hgen : ∀ room val acc l, 0 ≤ val → Forall (λ c, 48 ≤ c < 58) acc → format_digits room val 10 acc = Done l → Forall (λ c, 48 ≤ c < 58) l).
  { induction room as [|room IH]; intros val acc l Hv Ha Hf; cbn [format_digits] in Hf; [done|]. change (10 =? 0) with false in Hf. cbn iota in Hf.
    assert (Hd : Forall (λ c, 48 ≤ c < 58) (digit_char (val mod 10) :: acc)).
    { constructor; [|done]. pose proof (Z.mod_pos_bound val 10 ltac:(lia)). unfold digit_char. zbool. }
    destruct (val / 10 =? 0); [by injection Hf as <-|]. eapply (IH (val / 10)); [apply Z.div_pos; lia|exact Hd|exact Hf]. }
  intros Hz. rewrite <- int_field_pretty by done. unfold int_field.
  destruct (format_digits_64 z 10) as (ds & Hd & _); [lia|lia|]. rewrite Hd. unfold pad_count. replace (Z.to_nat (0 - _)) with 0%nat by lia.
  eapply (Hgen 40%nat); [|apply Forall_nil_2|exact Hd]. lia.
Qed.

(** ** Formats *)

(** From [p] on, with [args], the text is [out]. *)
Definition prints (fuel : nat) (p : list Z) (args : list va) (out : list Z) : Prop :=
  ∀ n l, ∃ n', vgprintf_loop collect fuel p args n l = Done (n', l ++ out).

Lemma prints_nil fuel r : prints fuel (0 :: r) [] [].
Proof. intros n l. exists n. rewrite app_nil_r. by destruct fuel. Qed.

Lemma prints_char c fuel p args out : c ≠ 0 → c ≠ 37 → prints fuel p args out → prints (S fuel) (c :: p) args (c :: out).
Proof.
  intros H0 H1 Hp n l. cbn [vgprintf_loop]. rewrite (proj2 (Z.eqb_neq c 0)), (proj2 (Z.eqb_neq c 37)) by done. cbn [collect mbind outcome_bind].
  destruct (Hp (u64 (n + 1)) (l ++ [c])) as [n' ->]. exists n'. by rewrite <- app_assoc.
Qed.

Lemma prints_lit cs fuel p args out : Forall (λ c, c ≠ 0 ∧ c ≠ 37) cs → prints fuel p args out →
  prints (length cs + fuel) (cs ++ p) args (cs ++ out).
Proof.
  induction cs as [|c cs IH]; intros Hc Hp; [done|]. apply Forall_cons in Hc as [[H0 H1] Hc]. by apply prints_char, IH.
Qed.

Lemma directive_s s p args (l : list Z) :
  directive collect (115 :: p) (VaStr s :: args) l = '(n, l) ← format_str collect s 0 l; Done (n, p, args, l).
Proof. cbv -[format_str collect]. by destruct (format_str collect s 0 l) as [[]| | |]. Qed.

Lemma directive_int (c z : Z) p args (l : list Z) : c = 100 ∧ 0 ≤ z < 2 ^ 31 ∨ c = 117 ∧ 0 ≤ z < 2 ^ 32 →
  directive collect (c :: p) (VaInt z :: args) l = '(n, l) ← format_int collect z 10 false 0 l; Done (n, p, args, l).
Proof.
  intros [[-> Hz]|[-> Hz]].
  - change (directive collect (100 :: p) (VaInt z :: args) l) with
      ('(n, args, l) ← (if s32 z <? 0 then s1 ← collect 45 l; '(n, s2) ← format_int collect (u64 (s64 (- s32 z))) 10 false 0 s1; Done (u64 (1 + n), args, s2)
        else '(n, s1) ← format_int collect (u64 (s32 z)) 10 false 0 l; Done (n, args, s1)); Done (n, p, args, l)).
    rewrite s32_small, (proj2 (Z.ltb_ge z 0)), u64_small by lia. by destruct (format_int collect z 10 false 0 l) as [[]| | |].
  - change (directive collect (117 :: p) (VaInt z :: args) l) with
      ('(n, args, l) ← ('(n, s1) ← format_int collect (u64 (u32 z)) 10 false 0 l; Done (n, args, s1)); Done (n, p, args, l)).
    rewrite u32_small, u64_small by lia. by destruct (format_int collect z 10 false 0 l) as [[]| | |].
Qed.

Lemma prints_directive c fuel p p' args args' out out' :
  (∀ l, ∃ n, directive collect (c :: p) args l = Done (n, p', args', l ++ out)) → prints fuel p' args' out' → prints (S fuel) (37 :: c :: p) args (out ++ out').
Proof.
  intros Hd Hp n l. cbn [vgprintf_loop]. change (37 =? 0) with false. change (37 =? 37) with true. cbn iota.
  destruct (Hd l) as [k ->]. cbn [mbind outcome_bind]. destruct (Hp (u64 (n + k)) (l ++ out)) as [n' ->]. exists n'. by rewrite <- app_assoc.
Qed.

Lemma prints_s a r fuel p args out : nul_free a → prints fuel p args out →
  prints (S fuel) (37 :: 115 :: p) (VaStr (Some (cstr a r)) :: args) (a ++ out).
Proof.
  intros Ha. apply prints_directive. intros l. rewrite directive_s.
  pose proof (emits_collect _ _ _ l (format_str_emits a r 0 Ha ltac:(lia))) as He. cbv beta in He. rewrite He. eexists. cbn [mbind outcome_bind].
  pose proof (u64_range (Z.of_nat (length a))). unfold pad_count. replace (Z.to_nat (0 - u64 (Z.of_nat (length a)))) with 0%nat by lia.
  cbn [replicate]. by rewrite app_nil_r.
Qed.

Lemma prints_int (c z : Z) fuel p args out : c = 100 ∧ 0 ≤ z < 2 ^ 31 ∨ c = 117 ∧ 0 ≤ z < 2 ^ 32 → prints fuel p args out →
  prints (S fuel) (37 :: c :: p) (VaInt z :: args) (string_bytes (pretty z) ++ out).
Proof.
  intros Hc. rewrite <- int_field_pretty by lia. apply prints_directive. intros l. rewrite directive_int by done.
  pose proof (emits_collect _ _ _ l (format_int_emits z 10 false 0 ltac:(lia) ltac:(lia) ltac:(lia))) as He. cbv beta in He. rewrite He. by eexists.
Qed.

Lemma prints_vgprintf fmt args out : prints (length fmt) fmt args out → ∃ n, vgprintf collect fmt args [] = Done (n, out).
Proof. intros Hp. apply (Hp 0 []). Qed.

(** A text that fits the buffer. *)
Lemma snprintf_fits buf bufsz fmt args n out : vgprintf collect fmt args [] = Done (n, out) →
  Z.of_nat (length out) < bufsz ≤ Z.of_nat (length buf) →
  snprintf buf bufsz fmt args = Done (n, out ++ 0 :: drop (S (length out)) buf).
Proof.
  intros Hf Hb. destruct (vgprintf_transparent _ _ _ _ Hf) as [_ Ht]. unfold snprintf, vsnprintf. rewrite Ht, put_all_vsnprintf by lia.
  rewrite Nat.min_l by lia. cbn [mbind outcome_bind vs_rem vs_pos vs_done app]. rewrite (proj2 (Z.eqb_neq _ _)) by lia. rewrite firstn_all.
  destruct (drop (length out) buf) as [|b rest] eqn:Hd; [apply (f_equal length) in Hd; rewrite length_drop in Hd; cbn in Hd; lia|].
  replace (S (length out)) with (length out + 1)%nat by lia. by rewrite <- drop_drop, Hd.
Qed.
