(* ===== verification/Pages.v ===== *)
(** Page geometry and the page-allocator interface.

    The constants of src/src/kern/config.h and src/src/kern/memory.h, and the
    contract between memory.c, which owns the physical pages, and its clients
    (the kernel heap of ezheap.c, the thread stacks of thread.c, the page tables
    themselves).  The clients' theorems are proved against [PageAllocLaws];
    Memory.v discharges it for the linked free list. *)
From Stdlib Require Import ZArith Lia.
From stdpp Require Import base list strings.
From S2P Require Import Prelude.

Open Scope Z_scope.

(** ** config.h and memory.h *)

Definition RAM_SIZE : Z := 8 * 1024 * 1024.
Definition RAM_START_PMA : Z := 0x80000000.
Definition RAM_START : Z := RAM_START_PMA.
Definition RAM_END : Z := RAM_START + RAM_SIZE.
Definition USER_START_VMA : Z := 0xC0000000.
Definition USER_END_VMA : Z := 0xD0000000.
Definition USER_STACK_VMA : Z := USER_END_VMA.

Definition PAGE_ORDER : Z := 12.
Definition PAGE_SIZE : Z := Z.shiftl 1 PAGE_ORDER.
Definition MEGA_SIZE : Z := Z.shiftl 1 9 * PAGE_SIZE.
Definition GIGA_SIZE : Z := Z.shiftl 1 9 * MEGA_SIZE.
Definition PTE_CNT : Z := PAGE_SIZE / 8.
Definition HEAP_INIT_MIN : Z := 256.

Lemma PAGE_SIZE_eq : PAGE_SIZE = 4096.
Proof. reflexivity. Qed.
Lemma MEGA_SIZE_eq : MEGA_SIZE = 2097152.
Proof. reflexivity. Qed.
Lemma GIGA_SIZE_eq : GIGA_SIZE = 1073741824.
Proof. reflexivity. Qed.
Lemma PTE_CNT_eq : PTE_CNT = 512.
Proof. reflexivity. Qed.

(** A page frame: a page-aligned, non-NULL address that fits a PTE's PPN. *)
Definition is_page (p : Z) : Prop := p mod 4096 = 0 ∧ 0 < p ∧ p + 4096 ≤ 2 ^ 56.

(** [a] is an address inside the page frame [p]. *)
Definition in_page (p a : Z) : Prop := p ≤ a < p + 4096.

Lemma is_page_disjoint p q a :
  is_page p → is_page q → in_page p a → in_page q a → p = q.
Proof.
  unfold is_page, in_page. intros (Hp & _) (Hq & _) Ha Hb.
  apply Z.div_exact in Hp, Hq; lia.
Qed.

#[export] Instance in_page_dec p a : Decision (in_page p a).
Proof. unfold in_page. apply _. Defined.

(** ** The allocator's contract *)

Class PageAlloc (σ : Type) : Type := {
  page_alloc : σ → outcome (Z * σ);
  page_free : Z → σ → outcome σ
}.

(** [free_pages s l]: the free pages of [s] are [l], in the order in which they
    will be handed out; [page_ok p]: [p] is a page this allocator manages. *)
Class PageAllocLaws (σ : Type) `{PageAlloc σ} : Type := {
  free_pages : σ → list Z → Prop;
  page_ok : Z → Prop;
  free_pages_valid : ∀ s l, free_pages s l → NoDup l ∧ Forall is_page l;
  free_pages_ok : ∀ s l, free_pages s l → Forall page_ok l;
  page_alloc_some : ∀ s p l, free_pages s (p :: l) →
    ∃ s', page_alloc s = Done (p, s') ∧ free_pages s' l;
  page_alloc_none : ∀ s, free_pages s [] → ∃ msg, page_alloc s = Panicked msg;
  page_free_some : ∀ s p l, free_pages s l → page_ok p → p ∉ l →
    ∃ s', page_free p s = Done s' ∧ free_pages s' (p :: l)
}.

(** ** The simplest allocator: a list of free pages *)

#[export] Instance list_PageAlloc : PageAlloc (list Z) := {
  page_alloc l := match l with
                  | [] => Panicked "No free pages available"
                  | p :: l' => Done (p, l')
                  end;
  page_free p l := Done (p :: l)
}.

#[export] Program Instance list_PageAllocLaws : PageAllocLaws (list Z) := {
  free_pages l l' := l = l' ∧ NoDup l' ∧ Forall is_page l';
  page_ok := is_page
}.
Next Obligation. naive_solver. Qed.
Next Obligation. naive_solver. Qed.
Next Obligation.
  intros s p l (-> & Hnd & Hp). apply NoDup_cons in Hnd as [_ Hnd].
  apply Forall_cons in Hp as [_ Hp]. cbn. eauto 10.
Qed.
Next Obligation. intros s (-> & _). cbn. eauto. Qed.
Next Obligation.
  intros s p l (-> & Hnd & Hp) Hpp Hni. cbn. eexists. repeat split; eauto.
  by apply NoDup_cons.
Qed.
