(* ===== verification/Heap.v ===== *)
(** The kernel heap (src/src/kern/ezheap.c).

    A block of memory [heap_start, heap_end) that is allocated from its end;
    when a request does not fit, one page is taken from the page allocator.
    [kfree] does nothing.  The heap is written over the interface
    [Pages.PageAlloc]; sizes are 64-bit. *)
From Stdlib Require Import ZArith Lia.
From stdpp Require Import base list sets strings.
From S2P Require Import Prelude Pages.

Open Scope Z_scope.

Record heap (σ : Type) : Type := Heap {
  heap_initialized : bool;
  heap_start : Z;
  heap_end : Z;
  heap_pages : σ
}.
Arguments Heap {σ}.
Arguments heap_initialized {σ}.
Arguments heap_start {σ}.
Arguments heap_end {σ}.
Arguments heap_pages {σ}.

Section Heap.
Context {σ : Type} `{PageAlloc σ}.

Definition heap_init (start fin : Z) (pages : σ) : outcome (heap σ) :=
  _ ← kassert (start <? fin);
  Done (Heap true start fin pages).

(** [size = (size + 16-1) / 16 * 16] in [size_t]. *)
Definition round16 (size : Z) : Z := u64 (u64 (size + 16 - 1) / 16 * 16).

Definition kmalloc (size : Z) (h : heap σ) : outcome (Z * heap σ) :=
  let size := round16 size in
  if PAGE_SIZE <? size then Panicked "heap alloc request too large" else
  if size <=? u64 (heap_end h - heap_start h) then
    let fin := u64 (heap_end h - size) in
    Done (fin, Heap (heap_initialized h) (heap_start h) fin (heap_pages h))
  else
    '(new_block, pages) ← page_alloc (heap_pages h);
    if u64 (heap_end h - heap_start h) <? u64 (PAGE_SIZE - size) then
      let fin := u64 (new_block + PAGE_SIZE - size) in
      Done (fin, Heap (heap_initialized h) new_block fin pages)
    else
      Done (new_block, Heap (heap_initialized h) (heap_start h) (heap_end h) pages).

(** [kcalloc] calls [kmalloc], then zeroes [n * size] bytes: the block and the
    length of the [memset] are returned. A zero [size] divides by zero. *)
Definition kcalloc (n size : Z) (h : heap σ) : outcome (Z * Z * heap σ) :=
  if size =? 0 then Undefined else
  if SIZE_MAX / size <? n then Panicked "heap alloc request too large" else
  '(p, h') ← kmalloc (u64 (n * size)) h;
  Done (p, u64 (n * size), h').

Definition krealloc (ptr size : Z) (h : heap σ) : outcome (Z * heap σ) :=
  Panicked "krealloc not implemented".

Definition kfree (ptr : Z) (h : heap σ) : outcome (heap σ) := Done h.
End Heap.

(** ** The heap invariant *)

(** The byte ranges [a, a+n) and [b, b+m) do not meet. *)
Definition disjoint_range (x y : Z * Z) : Prop := x.1 + x.2 ≤ y.1 ∨ y.1 + y.2 ≤ x.1.

Lemma disjoint_range_sym x y : disjoint_range x y → disjoint_range y x.
Proof. unfold disjoint_range. lia. Qed.

(** Every block handed out is 16-byte aligned and they are pairwise disjoint;
    the current block and the free pages meet none of them. *)
Section HeapInv.
Context {σ : Type} `{PageAllocLaws σ}.

Record heap_inv (h : heap σ) (blocks : list (Z * Z)) (free : list Z) : Prop := {
  hi_bounds : 0 ≤ heap_start h ≤ heap_end h ∧ heap_end h < 2 ^ 64;
  hi_size : heap_end h - heap_start h ≤ 2 ^ 32;
  hi_aligned : heap_end h mod 16 = 0;
  hi_pages : free_pages (heap_pages h) free;
  hi_blocks : ForallOrdPairs disjoint_range blocks;
  hi_nonneg : Forall (λ b, 0 ≤ b.2) blocks;
  hi_block_cur : Forall (disjoint_range (heap_start h, heap_end h - heap_start h)) blocks;
  hi_block_free : Forall (λ b, Forall (λ p, disjoint_range (p, 4096) b) free) blocks;
  hi_cur_free : Forall (λ p, disjoint_range (p, 4096) (heap_start h, heap_end h - heap_start h)) free
}.

Lemma round16_spec size :
  0 ≤ size ≤ 2 ^ 64 - 16 → size ≤ round16 size < size + 16 ∧ round16 size mod 16 = 0.
Proof.
  intros Hs. unfold round16. rewrite (u64_small (size + 16 - 1)) by lia.
  pose proof (Z.div_mod (size + 16 - 1) 16 ltac:(lia)).
  pose proof (Z.mod_pos_bound (size + 16 - 1) 16 ltac:(lia)).
  rewrite u64_small by lia. split; [lia|]. by apply Z.mod_mul.
Qed.

Lemma is_page_16 p : is_page p → p mod 16 = 0.
Proof.
  intros (Hp & _). apply Z.div_exact in Hp; [|lia]. rewrite Hp.
  replace (4096 * (p / 4096)) with ((256 * (p / 4096)) * 16) by lia. by apply Z.mod_mul.
Qed.

Lemma pages_disjoint p q : is_page p → is_page q → p ≠ q → disjoint_range (p, 4096) (q, 4096).
Proof.
  intros (Hp & _) (Hq & _) Hne. unfold disjoint_range; cbn.
  apply Z.div_exact in Hp, Hq; lia.
Qed.

(** The three ways a request is served. *)
Lemma kmalloc_current h size :
  round16 size ≤ 4096 → 0 ≤ heap_start h ≤ heap_end h → heap_end h < 2 ^ 64 →
  0 ≤ round16 size ≤ heap_end h - heap_start h →
  kmalloc size h = Done (heap_end h - round16 size,
    Heap (heap_initialized h) (heap_start h) (heap_end h - round16 size) (heap_pages h)).
Proof.
  intros Hr Hb He Hs. unfold kmalloc. rewrite PAGE_SIZE_eq.
  destruct (Z.ltb_spec 4096 (round16 size)); [lia|].
  rewrite (u64_small (heap_end h - heap_start h)) by lia.
  destruct (Z.leb_spec (round16 size) (heap_end h - heap_start h)); [|lia].
  by rewrite u64_small by lia.
Qed.

Lemma kmalloc_page h size p pages :
  0 ≤ round16 size ≤ 4096 → 0 ≤ heap_start h ≤ heap_end h → heap_end h < 2 ^ 64 →
  heap_end h - heap_start h < round16 size →
  page_alloc (heap_pages h) = Done (p, pages) → is_page p →
  kmalloc size h =
    Done (if heap_end h - heap_start h <? 4096 - round16 size
          then (p + 4096 - round16 size,
                Heap (heap_initialized h) p (p + 4096 - round16 size) pages)
          else (p, Heap (heap_initialized h) (heap_start h) (heap_end h) pages)).
Proof.
  intros Hr Hb He Hs Ha (_ & ? & ?). unfold kmalloc. rewrite PAGE_SIZE_eq.
  destruct (Z.ltb_spec 4096 (round16 size)); [lia|].
  rewrite (u64_small (heap_end h - heap_start h)) by lia.
  destruct (Z.leb_spec (round16 size) (heap_end h - heap_start h)); [lia|].
  rewrite Ha. cbn [mbind outcome_bind]. rewrite (u64_small (4096 - _)), (u64_small (p + _ - _)) by lia.
  by case_match.
Qed.

Lemma disjoint_range_sub a n a' n' y :
  disjoint_range (a, n) y → a ≤ a' → a' + n' ≤ a + n → disjoint_range (a', n') y.
Proof. unfold disjoint_range; cbn. lia. Qed.

Hint Resolve disjoint_range_sym : core.

(** The invariant after the block (a, n) is cut out of the current block. *)
Lemma heap_inv_cut h blocks free n :
  heap_inv h blocks free → 0 ≤ n ≤ heap_end h - heap_start h → n mod 16 = 0 →
  heap_inv (Heap (heap_initialized h) (heap_start h) (heap_end h - n) (heap_pages h))
    ((heap_end h - n, n) :: blocks) free.
Proof.
  intros [Hb Hsz Hal Hpg Hbl Hnn Hbc Hbf Hcf] Hn Hn16. split; cbn; try done; try lia.
  - by rewrite Zminus_mod, Hal, Hn16.
  - constructor; [|done]. eapply Forall_impl; [exact Hbc|]. intros b Hd.
    eapply disjoint_range_sub; [exact Hd|lia..].
  - constructor; [cbn; lia|done].
  - constructor; [unfold disjoint_range; cbn; lia|].
    eapply Forall_impl; [exact Hbc|]. intros b Hd.
    eapply disjoint_range_sub; [exact Hd|lia..].
  - constructor; [|done]. eapply Forall_impl; [exact Hcf|]. intros p Hd.
    apply disjoint_range_sym. eapply disjoint_range_sub; [apply disjoint_range_sym, Hd|lia..].
  - eapply Forall_impl; [exact Hcf|]. intros p Hd.
    apply disjoint_range_sym. eapply disjoint_range_sub; [apply disjoint_range_sym, Hd|lia..].
Qed.

(** The invariant after a fresh page becomes the current block. *)
Lemma heap_inv_switch h blocks free p pages :
  heap_inv h blocks (p :: free) → free_pages pages free →
  heap_inv (Heap (heap_initialized h) p (p + 4096) pages) blocks free.
Proof.
  intros [Hb Hsz Hal Hpg Hbl Hnn Hbc Hbf Hcf] Hpg'.
  destruct (free_pages_valid _ _ Hpg) as [Hnd Hv].
  apply NoDup_cons in Hnd as [Hni Hnd]. apply Forall_cons in Hv as [Hp Hv].
  pose proof (is_page_16 _ Hp). destruct Hp as (Hp0 & Hp1 & Hp2).
  split; cbn; rewrite ?Z.add_simpl_l; try done; try lia.
  - rewrite Zplus_mod, H1. done.
  - eapply Forall_impl; [exact Hbf|]. intros b Hd. by apply Forall_cons in Hd as [? _].
  - eapply Forall_impl; [exact Hbf|]. intros b Hd. by apply Forall_cons in Hd as [_ ?].
  - rewrite Forall_forall in *. intros q Hq. apply pages_disjoint; [by apply Hv|done|].
    by intros ->.
Qed.

(** The invariant after the block (p, n) is cut out of a fresh page that does
    not become the current block. *)
Lemma heap_inv_page h blocks free p pages n :
  heap_inv h blocks (p :: free) → free_pages pages free → 0 ≤ n ≤ 4096 →
  heap_inv (Heap (heap_initialized h) (heap_start h) (heap_end h) pages) ((p, n) :: blocks) free.
Proof.
  intros [Hb Hsz Hal Hpg Hbl Hnn Hbc Hbf Hcf] Hpg' Hn.
  destruct (free_pages_valid _ _ Hpg) as [Hnd Hv].
  apply NoDup_cons in Hnd as [Hni Hnd]. apply Forall_cons in Hv as [Hp Hv].
  apply Forall_cons in Hcf as [Hcp Hcf].
  split; cbn; try done; try lia.
  - constructor; [|done]. eapply Forall_impl; [exact Hbf|]. intros b Hd.
    apply Forall_cons in Hd as [Hd _]. eapply disjoint_range_sub; [exact Hd|lia..].
  - constructor; [cbn; lia|done].
  - constructor; [|done]. apply disjoint_range_sym.
    eapply disjoint_range_sub; [exact Hcp|lia..].
  - constructor.
    + rewrite Forall_forall in *. intros q Hq. apply disjoint_range_sym.
      eapply disjoint_range_sub; [apply (pages_disjoint p q)|lia..]; try done; [by apply Hv|].
      by intros ->.
    + eapply Forall_impl; [exact Hbf|]. intros b Hd. by apply Forall_cons in Hd as [_ ?].
Qed.

(** [kmalloc], for a request of at most a page, either returns a 16-byte
    aligned block of at least the requested size that meets no block handed out
    before, takes at most one page from the page allocator, and keeps the heap
    invariant, or panics because the current block is too small and no page is
    left. *)
Theorem kmalloc_safe h blocks free size :
  heap_inv h blocks free → 0 ≤ size ≤ 4096 →
  (∃ p h' free', kmalloc size h = Done (p, h') ∧
     p mod 16 = 0 ∧ size ≤ round16 size < size + 16 ∧
     Forall (disjoint_range (p, round16 size)) blocks ∧
     heap_inv h' ((p, round16 size) :: blocks) free' ∧
     (free' = free ∨ ∃ q, free = q :: free')) ∨
  (free = [] ∧ heap_end h - heap_start h < round16 size ∧ ∃ msg, kmalloc size h = Panicked msg).
Proof.
  intros Hi Hs. pose proof (round16_spec size ltac:(lia)) as [Hr Hr16].
  assert (round16 size ≤ 4096).
  { pose proof (Z.div_mod (round16 size) 16 ltac:(lia)). lia. }
  pose proof (hi_bounds _ _ _ Hi). pose proof (hi_aligned _ _ _ Hi) as Hal.
  destruct (Z.le_gt_cases (round16 size) (heap_end h - heap_start h)) as [Hle|Hgt].
  - left. pose proof (heap_inv_cut _ _ _ (round16 size) Hi ltac:(lia) Hr16) as Hi'.
    rewrite kmalloc_current by lia. do 3 eexists. split_and!; [done| |lia|lia| |done|by left].
    + by rewrite Zminus_mod, Hal, Hr16.
    + apply hi_blocks in Hi'. by inversion_clear Hi'.
  - destruct free as [|p free].
    { right. split_and!; [done|lia|]. destruct (page_alloc_none _ (hi_pages _ _ _ Hi)) as [m Hm].
      exists m. unfold kmalloc. rewrite PAGE_SIZE_eq.
      rewrite (u64_small (heap_end h - heap_start h)) by lia. rewrite Hm.
      destruct (Z.ltb_spec 4096 (round16 size)); [lia|].
      by destruct (Z.leb_spec (round16 size) (heap_end h - heap_start h)); [lia|]. }
    left. destruct (page_alloc_some _ _ _ (hi_pages _ _ _ Hi)) as (pages & Ha & Hf).
    destruct (free_pages_valid _ _ (hi_pages _ _ _ Hi)) as [_ Hv].
    apply Forall_cons in Hv as [Hp _]. pose proof (is_page_16 _ Hp) as Hp16.
    rewrite (kmalloc_page _ _ p pages) by (done || lia).
    destruct (Z.ltb_spec (heap_end h - heap_start h) (4096 - round16 size)).
    + pose proof (heap_inv_switch _ _ _ _ _ Hi Hf) as Hi1.
      pose proof (heap_inv_cut _ _ _ (round16 size) Hi1 ltac:(cbn; lia) Hr16) as Hi'. cbn in Hi'.
      do 3 eexists. split_and!; [done| |lia|lia| |done|by right; eexists].
      * by rewrite Zminus_mod, Hr16, Zplus_mod, Hp16.
      * apply hi_blocks in Hi'. by inversion_clear Hi'.
    + pose proof (heap_inv_page _ _ _ _ _ (round16 size) Hi Hf ltac:(lia)) as Hi'.
      do 3 eexists. split_and!; [done|done|lia|lia| |done|by right; eexists].
      apply hi_blocks in Hi'. by inversion_clear Hi'.
Qed.
End HeapInv.

(** ** Sequences of requests *)

Section Sequence.
Context {σ : Type} `{PageAllocLaws σ}.

(** Serve a list of requests one after the other; the blocks, last one first. *)
Fixpoint kmallocs (sizes : list Z) (blocks : list (Z * Z)) (h : heap σ) :
  outcome (list (Z * Z) * heap σ) :=
  match sizes with
  | [] => Done (blocks, h)
  | size :: sizes =>
      '(p, h') ← kmalloc size h;
      kmallocs sizes ((p, round16 size) :: blocks) h'
  end.

(** One step of the invariant, for the calls that return. *)
Lemma kmalloc_step (h : heap σ) blocks free size p h' :
  heap_inv h blocks free → 0 ≤ size ≤ 4096 → kmalloc size h = Done (p, h') →
  ∃ free', heap_inv h' ((p, round16 size) :: blocks) free'.
Proof.
  intros Hi Hs Hk. pose proof (round16_spec size ltac:(lia)) as [Hr Hr16].
  pose proof (Z.div_mod (round16 size) 16 ltac:(lia)).
  pose proof (hi_bounds _ _ _ Hi).
  destruct (Z.le_gt_cases (round16 size) (heap_end h - heap_start h)) as [Hle|Hgt].
  { rewrite kmalloc_current in Hk by lia. injection Hk as <- <-.
    exists free. apply heap_inv_cut; [done|lia|done]. }
  destruct free as [|q free].
  { destruct (page_alloc_none _ (hi_pages _ _ _ Hi)) as [m Hm]. exfalso. revert Hk.
    unfold kmalloc. rewrite PAGE_SIZE_eq, Hm.
    destruct (Z.ltb_spec 4096 (round16 size)); [done|].
    rewrite (u64_small (heap_end h - heap_start h)) by lia.
    by destruct (Z.leb_spec (round16 size) (heap_end h - heap_start h)); [lia|]. }
  destruct (page_alloc_some _ _ _ (hi_pages _ _ _ Hi)) as (pages & Ha & Hf).
  destruct (free_pages_valid _ _ (hi_pages _ _ _ Hi)) as [_ Hv].
  apply Forall_cons in Hv as [Hp _].
  rewrite (kmalloc_page _ _ q pages) in Hk by (done || lia).
  exists free. revert Hk.
  destruct (Z.ltb_spec (heap_end h - heap_start h) (4096 - round16 size)); intros [= <- <-].
  - pose proof (heap_inv_switch _ _ _ _ _ Hi Hf) as Hi1.
    apply (heap_inv_cut _ _ _ (round16 size) Hi1); [cbn; lia|done].
  - apply (heap_inv_page _ _ _ _ _ _ Hi Hf). lia.
Qed.

Lemma kmallocs_inv sizes : ∀ blocks h free blocks' h',
  heap_inv h blocks free → Forall (λ n, 0 ≤ n ≤ 4096) sizes →
  kmallocs sizes blocks h = Done (blocks', h') → ∃ free', heap_inv h' blocks' free'.
Proof.
  induction sizes as [|n sizes IH]; intros blocks h free blocks' h' Hi Hn Hk; cbn in Hk.
  { injection Hk as -> ->. eauto. }
  apply Forall_cons in Hn as [Hn Hns].
  apply bind_Done in Hk as ([p h1] & Hk1 & Hk2).
  destruct (kmalloc_step _ _ _ _ _ _ Hi Hn Hk1) as (free1 & Hi1). eauto.
Qed.

(** C30: From a freshly initialised heap, the blocks that any sequence of
    [kmalloc] calls of at most a page each returns are pairwise disjoint, and none
    of them meets a page that is still free. *)
Theorem kmallocs_disjoint start fin (pages : σ) free h sizes blocks h' :
  heap_init start fin pages = Done h →
  0 ≤ start → fin < 2 ^ 64 → fin - start ≤ 2 ^ 32 → fin mod 16 = 0 →
  free_pages pages free → Forall (λ p, disjoint_range (p, 4096) (start, fin - start)) free →
  Forall (λ n, 0 ≤ n ≤ 4096) sizes →
  kmallocs sizes [] h = Done (blocks, h') →
  ForallOrdPairs disjoint_range blocks ∧
  ∃ free', free_pages (heap_pages h') free' ∧
    Forall (λ b, Forall (λ p, disjoint_range (p, 4096) b) free') blocks.
Proof.
  unfold heap_init. intros Hh ????? Hfr Hs Hk.
  apply bind_Done in Hh as (u & Ha & [= <-]). apply kassert_Done, Z.ltb_lt in Ha.
  assert (Hi : heap_inv (Heap true start fin pages) [] free).
  { split; cbn; first [lia | done | by constructor | by apply Forall_true; constructor]. }
  destruct (kmallocs_inv _ _ _ _ _ _ Hi Hs Hk) as (free' & Hi').
  split; [apply (hi_blocks _ _ _ Hi')|]. exists free'.
  split; [apply (hi_pages _ _ _ Hi')|apply (hi_block_free _ _ _ Hi')].
Qed.

(** What [kmalloc] does with a request of more than a page: it panics,
    except for the fifteen largest sizes, whose rounding wraps to 0; those return
    the end of the current block and reserve no byte of it. *)
Theorem kmalloc_large (h : heap σ) size :
  4096 < size < 2 ^ 64 → 0 ≤ heap_start h ≤ heap_end h → heap_end h < 2 ^ 64 →
  (size ≤ 2 ^ 64 - 16 → ∃ msg, kmalloc size h = Panicked msg) ∧
  (2 ^ 64 - 16 < size → kmalloc size h = Done (heap_end h, h)).
Proof.
  intros Hs Hb He. split; intros Hc.
  - pose proof (round16_spec size ltac:(lia)) as [Hr _]. eexists.
    unfold kmalloc. rewrite PAGE_SIZE_eq. by destruct (Z.ltb_spec 4096 (round16 size)); [|lia].
  - assert (Hr : round16 size = 0).
    { unfold round16. replace (size + 16 - 1) with (size - (2 ^ 64 - 15) + 1 * 2 ^ 64) by lia.
      unfold u64 at 2. rewrite Z.mod_add by lia. rewrite Z.mod_small by lia.
      rewrite Z.div_small by lia. done. }
    rewrite kmalloc_current by lia. rewrite Hr, Z.sub_0_r. by destruct h.
Qed.

(** [kcalloc] refuses exactly the products that overflow, and otherwise
    behaves as [kmalloc] of the true product, with a [memset] of that length. *)
Theorem kcalloc_spec n size (h : heap σ) :
  0 ≤ n < 2 ^ 64 → 0 < size < 2 ^ 64 →
  (n * size < 2 ^ 64 →
     kcalloc n size h = '(p, h') ← kmalloc (n * size) h; Done (p, n * size, h')) ∧
  (2 ^ 64 ≤ n * size → ∃ msg, kcalloc n size h = Panicked msg).
Proof.
  intros Hn Hs. unfold kcalloc. replace (size =? 0) with false by lia.
  pose proof (Z.div_mod SIZE_MAX size ltac:(lia)).
  pose proof (Z.mod_pos_bound SIZE_MAX size ltac:(lia)).
  assert (SIZE_MAX = 2 ^ 64 - 1) as HS by done.
  split; intros Hp.
  - destruct (Z.ltb_spec (SIZE_MAX / size) n); [nia|]. by rewrite u64_small by lia.
  - eexists. by destruct (Z.ltb_spec (SIZE_MAX / size) n); [|nia].
Qed.
End Sequence.

(** ** Witnesses *)

Definition heap_example : heap (list Z) :=
  Heap true 0x80001000 0x80001100 [0x80002000; 0x80003000].

Lemma heap_example_inv :
  heap_inv heap_example [(0x80001100, 16)] [0x80002000; 0x80003000].
Proof.
  split; cbn; try (split; [|split]); try (repeat constructor; cbn; unfold is_page; lia);
    repeat first [constructor | set_solver | unfold disjoint_range, is_page; cbn; lia].
Qed.

Lemma kmalloc_safe_witness :
  ∃ p h', kmalloc 300 heap_example = Done (p, h') ∧ p mod 16 = 0 ∧
    Forall (disjoint_range (p, round16 300)) [(0x80001100, 16)].
Proof.
  destruct (kmalloc_safe heap_example _ _ 300 heap_example_inv ltac:(lia))
    as [(p & h' & f & ? & ? & _ & ? & _)|[[=] _]]. eauto.
Defined.

Lemma kmallocs_disjoint_witness :
  ForallOrdPairs disjoint_range
    [(0x80003000, 3856); (0x80002300, 3328); (0x80001000, 256)].
Proof.
  eapply (kmallocs_disjoint 0x80001000 0x80001100 [0x80002000; 0x80003000] [0x80002000; 0x80003000]
    heap_example [250; 3328; 3850]); [reflexivity|lia|lia|lia|reflexivity| | | |vm_compute; reflexivity].
  - split; [reflexivity|]. split; [|repeat constructor; lia].
    apply NoDup_cons; split; [set_solver|]. apply NoDup_singleton.
  - repeat constructor; unfold disjoint_range; cbn; lia.
  - repeat constructor; lia.
Defined.

Lemma kmalloc_large_witness :
  kmalloc (2 ^ 64 - 1) heap_example = Done (0x80001100, heap_example) ∧
  ∃ msg, kmalloc 5000 heap_example = Panicked msg.
Proof.
  split.
  - apply (kmalloc_large heap_example (2 ^ 64 - 1)); cbn; lia.
  - apply (kmalloc_large heap_example 5000); cbn; lia.
Defined.

Lemma kcalloc_spec_witness :
  kcalloc 3 8 heap_example = '(p, h') ← kmalloc 24 heap_example; Done (p, 24, h').
Proof. apply (kcalloc_spec 3 8 heap_example); lia. Defined.
