(* ===== verification/Pte.v ===== *)
(** Page-table entries and address arithmetic.

    The bit fields of [struct pte] and the inline helpers at the end of
    src/src/kern/memory.c, on 64-bit addresses. *)
From Stdlib Require Import ZArith Lia.
From stdpp Require Import base list strings.
From S2P Require Import Prelude Pages.

Open Scope Z_scope.

(** ** memory.h, memory.c: flags and the entry *)

Definition PTE_V : Z := Z.shiftl 1 0.
Definition PTE_R : Z := Z.shiftl 1 1.
Definition PTE_W : Z := Z.shiftl 1 2.
Definition PTE_X : Z := Z.shiftl 1 3.
Definition PTE_U : Z := Z.shiftl 1 4.
Definition PTE_G : Z := Z.shiftl 1 5.
Definition PTE_A : Z := Z.shiftl 1 6.
Definition PTE_D : Z := Z.shiftl 1 7.

Record pte : Type := Pte {
  flags : Z;
  rsw : Z;
  ppn : Z;
  reserved : Z;
  pbmt : Z;
  pte_n : Z
}.

(** The layout of the bit fields in a doubleword, lowest field first. *)
Definition word_pte (w : Z) : pte :=
  Pte (w mod 2 ^ 8) (w / 2 ^ 8 mod 2 ^ 2) (w / 2 ^ 10 mod 2 ^ 44)
      (w / 2 ^ 54 mod 2 ^ 7) (w / 2 ^ 61 mod 2 ^ 2) (w / 2 ^ 63 mod 2 ^ 1).
Definition pte_word (e : pte) : Z :=
  flags e + rsw e * 2 ^ 8 + ppn e * 2 ^ 10 + reserved e * 2 ^ 54 + pbmt e * 2 ^ 61 +
  pte_n e * 2 ^ 63.

Definition pte_fits (e : pte) : Prop :=
  0 ≤ flags e < 2 ^ 8 ∧ 0 ≤ rsw e < 2 ^ 2 ∧ 0 ≤ ppn e < 2 ^ 44 ∧
  0 ≤ reserved e < 2 ^ 7 ∧ 0 ≤ pbmt e < 2 ^ 2 ∧ 0 ≤ pte_n e < 2 ^ 1.

(** ** memory.c: address helpers *)

Definition VPN2 (vma : Z) : Z := Z.land (Z.shiftr vma (9 + 9 + 12)) 0x1FF.
Definition VPN1 (vma : Z) : Z := Z.land (Z.shiftr vma (9 + 12)) 0x1FF.
Definition VPN0 (vma : Z) : Z := Z.land (Z.shiftr vma 12) 0x1FF.

Definition wellformed_vma (vma : Z) : bool :=
  let bits := u64 (Z.shiftr (s64 vma) 38) in
  (bits =? 0) || (u64 (bits + 1) =? 0).
Definition wellformed_vptr (vp : Z) : bool := wellformed_vma vp.

Definition aligned_addr (vma blksz : Z) : bool := vma mod blksz =? 0.
Definition aligned_ptr (p blksz : Z) : bool := aligned_addr p blksz.
Definition aligned_size (size blksz : Z) : bool := size mod blksz =? 0.

Definition mtag_to_root (mtag : Z) : Z := Z.shiftr (u64 (Z.shiftl mtag 20)) 8.

Definition pagenum_to_pageptr (n : Z) : Z := u64 (Z.shiftl n PAGE_ORDER).
Definition pageptr_to_pagenum (p : Z) : Z := Z.shiftr p PAGE_ORDER.

Definition round_up_addr (addr blksz : Z) : Z := u64 (u64 (addr + blksz - 1) / blksz * blksz).
Definition round_up_ptr (p blksz : Z) : Z := round_up_addr p blksz.
Definition round_up_size (n blksz : Z) : Z := round_up_addr n blksz.
Definition round_down_addr (addr blksz : Z) : Z := addr / blksz * blksz.
Definition round_down_ptr (p blksz : Z) : Z := round_down_addr p blksz.
Definition round_down_size (n blksz : Z) : Z := round_down_addr n blksz.

(** Fields that the initialiser does not name are zero. *)
Definition leaf_pte (pptr rwxug_flags : Z) : pte :=
  Pte (u8 (Z.lor (Z.lor (Z.lor rwxug_flags PTE_A) PTE_D) PTE_V)) 0
      (pageptr_to_pagenum pptr mod 2 ^ 44) 0 0 0.
Definition ptab_pte (ptab g_flag : Z) : pte :=
  Pte (u8 (Z.lor g_flag PTE_V)) 0 (pageptr_to_pagenum ptab mod 2 ^ 44) 0 0 0.
Definition null_pte : pte := Pte 0 0 0 0 0 0.

(** [(flags & f) != 0] *)
Definition has (f : Z) (w : Z) : bool := negb (Z.land (flags (word_pte w)) f =? 0).

(** ** Arithmetic on addresses *)

Lemma land_511 a : Z.land a 0x1FF = a mod 512.
Proof. change 0x1FF with (Z.ones 9). by rewrite Z.land_ones. Qed.

Lemma VPN2_eq vma : VPN2 vma = vma / 2 ^ 30 mod 512.
Proof. unfold VPN2. by rewrite land_511, Z.shiftr_div_pow2. Qed.
Lemma VPN1_eq vma : VPN1 vma = vma / 2 ^ 21 mod 512.
Proof. unfold VPN1. by rewrite land_511, Z.shiftr_div_pow2. Qed.
Lemma VPN0_eq vma : VPN0 vma = vma / 2 ^ 12 mod 512.
Proof. unfold VPN0. by rewrite land_511, Z.shiftr_div_pow2. Qed.

Lemma VPN2_range vma : 0 ≤ VPN2 vma < 512.
Proof. rewrite VPN2_eq. by apply Z.mod_pos_bound. Qed.
Lemma VPN1_range vma : 0 ≤ VPN1 vma < 512.
Proof. rewrite VPN1_eq. by apply Z.mod_pos_bound. Qed.
Lemma VPN0_range vma : 0 ≤ VPN0 vma < 512.
Proof. rewrite VPN0_eq. by apply Z.mod_pos_bound. Qed.
#[export] Hint Resolve VPN2_range VPN1_range VPN0_range : word.

(** An address below 2^39 is its three indices and its page offset. *)
Lemma vpn_split vma :
  0 ≤ vma < 2 ^ 39 →
  vma = VPN2 vma * 2 ^ 30 + VPN1 vma * 2 ^ 21 + VPN0 vma * 2 ^ 12 + vma mod 4096.
Proof.
  intros Hv. rewrite VPN2_eq, VPN1_eq, VPN0_eq.
  rewrite (Z.mod_small (vma / 2 ^ 30)).
  2:{ split; [apply Z.div_pos; lia|]. apply Z.div_lt_upper_bound; lia. }
  pose proof (Z.div_mod vma 4096 ltac:(lia)).
  pose proof (Z.div_mod (vma / 4096) 512 ltac:(lia)).
  pose proof (Z.div_mod (vma / 4096 / 512) 512 ltac:(lia)).
  rewrite !Z.div_div in * by lia. change (2 ^ 12) with 4096.
  change (4096 * 512) with (2 ^ 21) in *. change (2 ^ 21 * 512) with (2 ^ 30) in *. lia.
Qed.

(** The same page, for addresses below 2^39, means the same indices. *)
Lemma vpn_inj a b :
  0 ≤ a < 2 ^ 39 → 0 ≤ b < 2 ^ 39 →
  VPN2 a = VPN2 b → VPN1 a = VPN1 b → VPN0 a = VPN0 b → a / 4096 = b / 4096.
Proof.
  intros Ha Hb H2 H1 H0. rewrite (vpn_split a Ha), (vpn_split b Hb), H2, H1, H0.
  pose proof (Z.mod_pos_bound a 4096 ltac:(lia)). pose proof (Z.mod_pos_bound b 4096 ltac:(lia)).
  change (2 ^ 12) with 4096.
  replace (VPN2 b * 2 ^ 30 + VPN1 b * 2 ^ 21 + VPN0 b * 4096)
    with ((VPN2 b * 2 ^ 18 + VPN1 b * 2 ^ 9 + VPN0 b) * 4096) by lia.
  rewrite !(Z.add_comm (_ * 4096)), !Z.div_add, !Z.div_small by lia. done.
Qed.

(** The user region lies under the single root entry 3. *)
Lemma user_VPN2 vma : USER_START_VMA ≤ vma < USER_END_VMA → VPN2 vma = 3.
Proof.
  unfold USER_START_VMA, USER_END_VMA. intros Hv. rewrite VPN2_eq.
  assert (vma / 2 ^ 30 = 3) as -> by (symmetry; apply Z.div_unique with (vma - 3 * 2 ^ 30); lia).
  done.
Qed.

(** ** Flags *)

Lemma testbit_flags w k : 0 ≤ k < 8 → Z.testbit (flags (word_pte w)) k = Z.testbit w k.
Proof. intros Hk. cbn [flags word_pte]. by rewrite Z.mod_pow2_bits_low by lia. Qed.

Lemma land_shiftl a k : 0 ≤ k → negb (Z.land a (Z.shiftl 1 k) =? 0) = Z.testbit a k.
Proof.
  intros Hk. rewrite Z.shiftl_1_l. destruct (Z.testbit a k) eqn:Ht.
  - destruct (Z.eqb_spec (Z.land a (2 ^ k)) 0) as [H0|]; [|done].
    assert (Z.testbit (Z.land a (2 ^ k)) k = false) as Hf by by rewrite H0, Z.bits_0.
    rewrite Z.land_spec, Ht, Z.pow2_bits_true in Hf by lia. done.
  - destruct (Z.eqb_spec (Z.land a (2 ^ k)) 0) as [|Hn]; [done|]. destruct Hn.
    apply Z.bits_inj'. intros n Hn. rewrite Z.bits_0, Z.land_spec.
    destruct (decide (n = k)) as [->|]; [by rewrite Ht|].
    by rewrite Z.pow2_bits_false, andb_false_r by lia.
Qed.

Lemma has_testbit w k : 0 ≤ k < 8 → has (Z.shiftl 1 k) w = Z.testbit w k.
Proof. intros Hk. unfold has. by rewrite land_shiftl, testbit_flags by lia. Qed.

Lemma div_pow_mod w k j : 0 ≤ k → 0 ≤ j → w / 2 ^ k = w / 2 ^ k mod 2 ^ j + 2 ^ j * (w / 2 ^ (k + j)).
Proof.
  intros Hk Hj. rewrite Z.pow_add_r, <- Z.div_div by lia.
  pose proof (Z.div_mod (w / 2 ^ k) (2 ^ j) ltac:(lia)). lia.
Qed.

Lemma word_pte_word e : pte_fits e → word_pte (pte_word e) = e.
Proof.
  destruct e as [f r p rs pb n]. unfold pte_fits, word_pte, pte_word; cbn [flags rsw ppn reserved pbmt pte_n].
  intros (Hf & Hr & Hp & Hrs & Hpb & Hn). f_equal.
  - symmetry. apply Z.mod_unique with (r + p * 2 ^ 2 + rs * 2 ^ 46 + pb * 2 ^ 53 + n * 2 ^ 55); lia.
  - rewrite <- (Z.div_unique _ (2 ^ 8) (r + p * 2 ^ 2 + rs * 2 ^ 46 + pb * 2 ^ 53 + n * 2 ^ 55) f) by lia.
    symmetry. apply Z.mod_unique with (p + rs * 2 ^ 44 + pb * 2 ^ 51 + n * 2 ^ 53); lia.
  - rewrite <- (Z.div_unique _ (2 ^ 10) (p + rs * 2 ^ 44 + pb * 2 ^ 51 + n * 2 ^ 53) (f + r * 2 ^ 8)) by lia.
    symmetry. apply Z.mod_unique with (rs + pb * 2 ^ 7 + n * 2 ^ 9); lia.
  - rewrite <- (Z.div_unique _ (2 ^ 54) (rs + pb * 2 ^ 7 + n * 2 ^ 9) (f + r * 2 ^ 8 + p * 2 ^ 10)) by lia.
    symmetry. apply Z.mod_unique with (pb + n * 2 ^ 2); lia.
  - rewrite <- (Z.div_unique _ (2 ^ 61) (pb + n * 2 ^ 2) (f + r * 2 ^ 8 + p * 2 ^ 10 + rs * 2 ^ 54)) by lia.
    symmetry. apply Z.mod_unique with n; lia.
  - rewrite <- (Z.div_unique _ (2 ^ 63) n (f + r * 2 ^ 8 + p * 2 ^ 10 + rs * 2 ^ 54 + pb * 2 ^ 61)) by lia.
    by rewrite Z.mod_small by lia.
Qed.

Lemma pte_word_pte w : 0 ≤ w < 2 ^ 64 → pte_word (word_pte w) = w.
Proof.
  intros Hw. unfold word_pte, pte_word; cbn [flags rsw ppn reserved pbmt pte_n].
  pose proof (div_pow_mod w 0 8 ltac:(lia) ltac:(lia)) as H0.
  pose proof (div_pow_mod w 8 2 ltac:(lia) ltac:(lia)).
  pose proof (div_pow_mod w 10 44 ltac:(lia) ltac:(lia)).
  pose proof (div_pow_mod w 54 7 ltac:(lia) ltac:(lia)).
  pose proof (div_pow_mod w 61 2 ltac:(lia) ltac:(lia)).
  pose proof (div_pow_mod w 63 1 ltac:(lia) ltac:(lia)).
  assert (w / 2 ^ 64 = 0) by (by apply Z.div_small).
  change (0 + 8) with 8 in *. change (8 + 2) with 10 in *. change (10 + 44) with 54 in *.
  change (54 + 7) with 61 in *. change (61 + 2) with 63 in *. change (63 + 1) with 64 in *.
  change (2 ^ 0) with 1 in *. rewrite !Z.div_1_r in *. lia.
Qed.

(** The bit fields of a page-table entry and its 64-bit word determine each
    other, for every word and every entry whose fields fit their widths. *)
Theorem pte_roundtrip w e :
  0 ≤ w < 2 ^ 64 → pte_fits e →
  pte_word (word_pte w) = w ∧ word_pte (pte_word e) = e.
Proof. eauto using pte_word_pte, word_pte_word. Qed.

Lemma pte_word_range e : pte_fits e → 0 ≤ pte_word e < 2 ^ 64.
Proof. unfold pte_fits, pte_word. lia. Qed.

Lemma leaf_pte_fits p f : pte_fits (leaf_pte p f).
Proof.
  unfold pte_fits, leaf_pte; cbn. pose proof (u8_range (Z.lor (Z.lor (Z.lor f PTE_A) PTE_D) PTE_V)).
  pose proof (Z.mod_pos_bound (pageptr_to_pagenum p) (2 ^ 44) ltac:(lia)). lia.
Qed.
Lemma ptab_pte_fits p f : pte_fits (ptab_pte p f).
Proof.
  unfold pte_fits, ptab_pte; cbn. pose proof (u8_range (Z.lor f PTE_V)).
  pose proof (Z.mod_pos_bound (pageptr_to_pagenum p) (2 ^ 44) ltac:(lia)). lia.
Qed.
#[export] Hint Resolve leaf_pte_fits ptab_pte_fits : word.

(** The page an entry points to. *)
Definition entry_page (w : Z) : Z := pagenum_to_pageptr (ppn (word_pte w)).

Lemma ppn_page p : is_page p → pagenum_to_pageptr (pageptr_to_pagenum p mod 2 ^ 44) = p.
Proof.
  intros (Hp & H0 & Hb). unfold pagenum_to_pageptr, pageptr_to_pagenum, PAGE_ORDER.
  rewrite Z.shiftr_div_pow2, Z.shiftl_mul_pow2 by lia. change (2 ^ 12) with 4096.
  apply Z.div_exact in Hp; [|lia].
  rewrite (Z.mod_small (p / 4096)) by (split; [apply Z.div_pos|apply Z.div_lt_upper_bound]; lia).
  rewrite u64_small by lia. lia.
Qed.

Lemma leaf_entry_page p f : is_page p → entry_page (pte_word (leaf_pte p f)) = p.
Proof. intros Hp. unfold entry_page. rewrite word_pte_word by eauto with word. by apply ppn_page. Qed.
Lemma ptab_entry_page p f : is_page p → entry_page (pte_word (ptab_pte p f)) = p.
Proof. intros Hp. unfold entry_page. rewrite word_pte_word by eauto with word. by apply ppn_page. Qed.

Lemma u8_testbit z k : 0 ≤ k < 8 → Z.testbit (u8 z) k = Z.testbit z k.
Proof. intros. unfold u8. by rewrite Z.mod_pow2_bits_low by lia. Qed.

Lemma leaf_valid p f : has PTE_V (pte_word (leaf_pte p f)) = true.
Proof.
  unfold has. rewrite word_pte_word by eauto with word. change PTE_V with (Z.shiftl 1 0) at 1.
  rewrite land_shiftl by lia. cbn [flags leaf_pte]. rewrite u8_testbit by lia.
  rewrite !Z.lor_spec. change (Z.testbit PTE_V 0) with true. by rewrite orb_true_r.
Qed.
Lemma ptab_valid p f : has PTE_V (pte_word (ptab_pte p f)) = true.
Proof.
  unfold has. rewrite word_pte_word by eauto with word. change PTE_V with (Z.shiftl 1 0) at 1.
  rewrite land_shiftl by lia. cbn [flags ptab_pte]. rewrite u8_testbit by lia.
  rewrite !Z.lor_spec. change (Z.testbit PTE_V 0) with true. by rewrite orb_true_r.
Qed.
#[export] Hint Rewrite leaf_valid ptab_valid : word.

Lemma has_zero f : has f 0 = false.
Proof. done. Qed.

(** ** The memory-space tag *)

Definition RISCV_SATP_MODE_Sv39 : Z := 8.
Definition RISCV_SATP_MODE_shift : Z := 60.

(** [((uintptr_t)RISCV_SATP_MODE_Sv39 << RISCV_SATP_MODE_shift) | pageptr_to_pagenum(root)] *)
Definition make_mtag (root : Z) : Z :=
  Z.lor (u64 (Z.shiftl RISCV_SATP_MODE_Sv39 RISCV_SATP_MODE_shift)) (pageptr_to_pagenum root).

Lemma lor_disjoint a b k : 0 ≤ k → 0 ≤ b < 2 ^ k → Z.lor (a * 2 ^ k) b = a * 2 ^ k + b.
Proof.
  intros Hk Hb. rewrite <- Z.lxor_lor, Z.add_nocarry_lxor; [done| |];
    (apply Z.bits_inj'; intros n Hn; rewrite Z.land_spec, Z.bits_0;
     destruct (Z.lt_ge_cases n k);
     [by rewrite Z.mul_pow2_bits_low by lia
     |rewrite andb_false_iff; right; rewrite <- (Z.mod_small b (2 ^ k)) by lia;
      by rewrite Z.mod_pow2_bits_high by lia]).
Qed.

Lemma mtag_root root : is_page root → mtag_to_root (make_mtag root) = root.
Proof.
  intros (Hp & H0 & Hb). apply Z.div_exact in Hp; [|lia].
  unfold mtag_to_root, make_mtag, pageptr_to_pagenum, PAGE_ORDER, RISCV_SATP_MODE_Sv39,
    RISCV_SATP_MODE_shift.
  rewrite (Z.shiftr_div_pow2 root) by lia. change (2 ^ 12) with 4096.
  assert (0 ≤ root / 4096 < 2 ^ 44)
    by (split; [apply Z.div_pos|apply Z.div_lt_upper_bound]; lia).
  change (u64 (Z.shiftl 8 60)) with (2 ^ 19 * 2 ^ 44).
  rewrite (lor_disjoint (2 ^ 19) (root / 4096) 44) by lia.
  rewrite Z.shiftl_mul_pow2 by lia.
  replace ((2 ^ 19 * 2 ^ 44 + root / 4096) * 2 ^ 20)
    with (root / 4096 * 2 ^ 20 + 2 ^ 19 * 2 ^ 64) by lia.
  unfold u64. rewrite Z.mod_add, Z.mod_small by lia.
  rewrite Z.shiftr_div_pow2 by lia.
  replace (root / 4096 * 2 ^ 20) with (4096 * (root / 4096) * 2 ^ 8) by lia.
  rewrite Z.div_mul by lia. lia.
Qed.

(** The root table that [mtag_to_root] extracts from a memory-space tag is the
    table the tag was made of, for every page-aligned table. *)
Theorem mtag_roundtrip root : is_page root → mtag_to_root (make_mtag root) = root.
Proof. apply mtag_root. Qed.

(** A virtual address is well formed exactly when bits 63 to 38 are all equal:
    it lies in the first or in the last 2^38 bytes. *)
Theorem wellformed_vma_spec vma :
  0 ≤ vma < 2 ^ 64 →
  wellformed_vma vma = true ↔ vma < 2 ^ 38 ∨ 2 ^ 64 - 2 ^ 38 ≤ vma.
Proof.
  intros Hv. unfold wellformed_vma. rewrite Z.shiftr_div_pow2 by lia.
  pose proof (Z.div_mod (s64 vma) (2 ^ 38) ltac:(lia)).
  pose proof (Z.mod_pos_bound (s64 vma) (2 ^ 38) ltac:(lia)).
  assert (s64 vma = vma ∧ vma < 2 ^ 63 ∨ s64 vma = vma - 2 ^ 64 ∧ 2 ^ 63 ≤ vma) as Hs.
  { destruct (Z.lt_ge_cases vma (2 ^ 63)); [left; by rewrite s64_small by lia|right].
    split; [|done]. unfold s64.
    rewrite <- (Z.mod_unique (vma + 2 ^ 63) (2 ^ 64) 1 (vma - 2 ^ 63)); lia. }
  set (q := s64 vma / 2 ^ 38) in *.
  assert (- 2 ^ 25 ≤ q < 2 ^ 25) by lia.
  rewrite orb_true_iff, !Z.eqb_eq.
  assert (u64 q = 0 ↔ q = 0) as ->.
  { split; [|by intros ->]. intros Hq. destruct (Z.lt_ge_cases q 0).
    - unfold u64 in Hq. rewrite <- (Z.mod_unique q (2 ^ 64) (-1) (q + 2 ^ 64)) in Hq; lia.
    - by rewrite u64_small in Hq by lia. }
  rewrite u64_add_l. assert (u64 (q + 1) = 0 ↔ q = -1) as ->; [|lia].
  split; [|by intros ->]. intros Hq. destruct (Z.lt_ge_cases q (-1)).
  - unfold u64 in Hq. rewrite <- (Z.mod_unique (q + 1) (2 ^ 64) (-1) (q + 1 + 2 ^ 64)) in Hq; lia.
  - rewrite u64_small in Hq by lia. lia.
Qed.

Lemma pte_roundtrip_witness :
  pte_word (word_pte 0x2000_0ccf) = 0x2000_0ccf ∧
  word_pte (pte_word (leaf_pte 0x80003000 0xe)) = leaf_pte 0x80003000 0xe.
Proof. apply (pte_roundtrip 0x20000ccf (leaf_pte 0x80003000 0xe)); [lia|apply leaf_pte_fits]. Defined.
Lemma mtag_roundtrip_witness : mtag_to_root (make_mtag 0x80005000) = 0x80005000.
Proof. apply (mtag_roundtrip 0x80005000). unfold is_page. split; [reflexivity|lia]. Defined.
Lemma wellformed_vma_spec_witness :
  wellformed_vma 0xC0001234 = true ↔ 0xC0001234 < 2 ^ 38 ∨ 2 ^ 64 - 2 ^ 38 ≤ 0xC0001234.
Proof. apply (wellformed_vma_spec 0xC0001234). lia. Defined.
