(* ===== verification/Memory.v ===== *)
(** The memory manager (src/src/kern/memory.c): physical pages, page tables and
    memory spaces.

    The state is the direct-mapped RAM, one entry per doubleword, the head of the
    free list, the satp register and [main_mtag].  A load or store outside RAM or
    off a doubleword boundary is [Undefined].  The TLB (sfence.vma) and
    sstatus.SUM are not modelled. *)
From Stdlib Require Import ZArith Lia.
From stdpp Require Import base gmap list strings.
From S2P Require Import Prelude Pages Heap Pte.

Open Scope Z_scope.

Record mem : Type := Mem {
  ram : gmap Z Z;
  free_list : Z;
  satp : Z;
  main_mtag : Z;
  memory_initialized : bool
}.

Definition set_ram (r : gmap Z Z) (m : mem) : mem :=
  Mem r (free_list m) (satp m) (main_mtag m) (memory_initialized m).
Definition set_free_list (p : Z) (m : mem) : mem :=
  Mem (ram m) p (satp m) (main_mtag m) (memory_initialized m).

(** ** Loads and stores of doublewords *)

Definition ram_word (a : Z) : bool :=
  (RAM_START <=? a) && (a <? RAM_END) && (a mod 8 =? 0).

Definition rd (m : mem) (a : Z) : Z := default 0 (ram m !! a).

Definition ld (a : Z) (m : mem) : outcome Z :=
  if ram_word a then Done (rd m a) else Undefined.
Definition sd (a v : Z) (m : mem) : outcome mem :=
  if ram_word a then Done (set_ram (<[a := v]> (ram m)) m) else Undefined.

(** [memset(p, 0, 8 * n)] and [memcpy(dst, src, 8 * n)], in doublewords. *)
Fixpoint zero_words (n : nat) (p : Z) (m : mem) : outcome mem :=
  match n with
  | O => Done m
  | S n => m ← sd p 0 m; zero_words n (p + 8) m
  end.
Fixpoint copy_words (n : nat) (dst src : Z) (m : mem) : outcome mem :=
  match n with
  | O => Done m
  | S n => v ← ld src m; m ← sd dst v m; copy_words n (dst + 8) (src + 8) m
  end.

Definition PAGE_WORDS : nat := Z.to_nat (PAGE_SIZE / 8).

(** [for (x = i; x < i + n; x++) body(x)] *)
Fixpoint for_range (n : nat) (i : Z) (body : Z → mem → outcome mem) (m : mem) : outcome mem :=
  match n with
  | O => Done m
  | S n => m ← body i m; for_range n (i + 1) body m
  end.

(** ** Physical pages *)

Definition memory_alloc_page (m : mem) : outcome (Z * mem) :=
  if free_list m =? 0 then Panicked "No free pages available" else
  let newPage := free_list m in
  next ← ld newPage m;
  m ← zero_words PAGE_WORDS newPage (set_free_list next m);
  Done (newPage, m).

(** The alignment test rounds [pp] down when it is aligned, and drops the result:
    [pp] is pushed as it was given. *)
Definition memory_free_page (pp : Z) (m : mem) : outcome mem :=
  let _ := if aligned_ptr pp PAGE_SIZE then round_down_addr pp PAGE_SIZE else pp in
  m ← sd pp (free_list m) m;
  Done (set_free_list pp m).

#[export] Instance mem_PageAlloc : PageAlloc mem := {
  page_alloc := memory_alloc_page;
  page_free := memory_free_page
}.

(** ** Page tables *)

Definition active_space_mtag (m : mem) : Z := satp m.
Definition active_memory_space (m : mem) : Z := satp m.
Definition active_space_root (m : mem) : Z := mtag_to_root (active_space_mtag m).

Definition memory_space_switch (mtag : Z) (m : mem) : Z * mem :=
  (satp m, Mem (ram m) (free_list m) mtag (main_mtag m) (memory_initialized m)).

(** One level of [walk_pt]: the table that entry [i] of [table] points to, which
    is created when the entry is not valid. *)
Definition walk_level (table i create : Z) (m : mem) : outcome (option (Z * mem)) :=
  e ← ld (table + 8 * i) m;
  if has PTE_V e then Done (Some (entry_page e, m)) else
  if create =? 0 then Done None else
  '(pt_new, m) ← memory_alloc_page m;
  m ← sd (table + 8 * i) (pte_word (ptab_pte pt_new 0)) m;
  e ← ld (table + 8 * i) m;
  Done (Some (entry_page e, m)).

Definition walk_pt (root vma create : Z) (m : mem) : outcome (option Z * mem) :=
  if negb (wellformed_vma vma) then Done (None, m) else
  r ← walk_level root (VPN2 vma) create m;
  match r with
  | None => Done (None, m)
  | Some (pt1, m) =>
      r ← walk_level pt1 (VPN1 vma) create m;
      match r with
      | None => Done (None, m)
      | Some (pt0, m) => Done (Some (pt0 + 8 * VPN0 vma), m)
      end
  end.

Definition memory_alloc_and_map_page (vma rwxug_flags : Z) (m : mem) : outcome (Z * mem) :=
  if negb (wellformed_vma vma) then
    Panicked "not well formed because Address bits 63:38 must be all 0 or all 1"
  else
  '(newPP, m) ← memory_alloc_page m;
  let pt2 := active_space_root m in
  '(pt0_pte, m) ← walk_pt pt2 vma 1 m;
  pt0_pte ← deref pt0_pte;
  m ← sd pt0_pte (pte_word (leaf_pte newPP rwxug_flags)) m;
  Done (vma, m).

(** [int numPages]: the quotient is cut to [int], then counted up. *)
Definition num_pages (size : Z) : Z :=
  let n := s32 (size / PAGE_SIZE) in
  if 0 <? size mod PAGE_SIZE then n + 1 else n.

Definition memory_alloc_and_map_range (vma size rwxug_flags : Z) (m : mem) : outcome (Z * mem) :=
  m ← for_range (Z.to_nat (num_pages size)) 0
        (λ x m, '(_, m) ← memory_alloc_and_map_page (u64 (vma + x * PAGE_SIZE)) rwxug_flags m;
                Done m) m;
  Done (vma, m).

Definition set_flags (f : Z) (e : pte) : pte := Pte f (rsw e) (ppn e) (reserved e) (pbmt e) (pte_n e).

Definition memory_set_page_flags (vp rwxug_flags : Z) (m : mem) : outcome mem :=
  '(pte_0, m) ← walk_pt (active_space_root m) vp 0 m;
  match pte_0 with
  | None => Panicked "tryng to set the flag of something that does not have a pte"
  | Some a =>
      e ← ld a m;
      sd a (pte_word (set_flags (u8 (Z.lor (Z.lor (Z.lor rwxug_flags PTE_A) PTE_D) PTE_V))
                        (word_pte e))) m
  end.

Definition memory_set_range_flags (vp size rwxug_flags : Z) (m : mem) : outcome mem :=
  for_range (Z.to_nat (num_pages size)) 0
    (λ x m, memory_set_page_flags (u64 (vp + x * PAGE_SIZE)) rwxug_flags m) m.

(** ** Unmapping *)

(** The V flag is cleared in the copy [curr_pt0_entry] only. *)
Definition unmap_pt0_entry (pt0 vpn0 : Z) (m : mem) : outcome mem :=
  e ← ld (pt0 + 8 * vpn0) m;
  if negb (has PTE_V e) then Done m else
  if negb (has PTE_U e) then Done m else
  memory_free_page (entry_page e) m.

(** The entries that the two upper loops skip. *)
Definition unmap_skips (e : Z) : bool :=
  negb (has PTE_V e) || has PTE_R e || has PTE_W e || has PTE_X e || has PTE_G e.

Definition unmap_pt1_entry (pt1 vpn1 : Z) (m : mem) : outcome mem :=
  e ← ld (pt1 + 8 * vpn1) m;
  if unmap_skips e then Done m else
  for_range (Z.to_nat PTE_CNT) 0 (unmap_pt0_entry (entry_page e)) m.

Definition unmap_pt2_entry (pt2 vpn2 : Z) (m : mem) : outcome mem :=
  e ← ld (pt2 + 8 * vpn2) m;
  if unmap_skips e then Done m else
  for_range (Z.to_nat PTE_CNT) 0 (unmap_pt1_entry (entry_page e)) m.

Definition memory_unmap_and_free_user (m : mem) : outcome mem :=
  for_range (Z.to_nat PTE_CNT) 0 (unmap_pt2_entry (active_space_root m)) m.

Definition memory_space_reclaim (m : mem) : outcome mem :=
  m ← memory_unmap_and_free_user m;
  let '(_, m) := memory_space_switch (main_mtag m) m in
  Done m.

(** ** Page faults *)

(** The handler maps the page, or calls [process_exit]. *)
Inductive fault_result : Type :=
| FaultMapped (m : mem)
| FaultExit (m : mem).

Definition memory_handle_page_fault (vptr : Z) (m : mem) : outcome fault_result :=
  if (USER_START_VMA <=? vptr) && (vptr <=? USER_END_VMA) then
    '(_, m) ← memory_alloc_and_map_page vptr (Z.lor (Z.lor PTE_W PTE_R) PTE_U) m;
    Done (FaultMapped m)
  else Done (FaultExit m).

(** ** Cloning a memory space *)

Definition clone_pt0_entry (pt0_old pt0_new vpn0 : Z) (m : mem) : outcome mem :=
  e ← ld (pt0_old + 8 * vpn0) m;
  m ← sd (pt0_new + 8 * vpn0) e m;
  if negb (has PTE_V e) then Done m else
  if has PTE_G e then Done m else
  '(pp, m) ← memory_alloc_page m;
  m ← sd (pt0_new + 8 * vpn0) (pte_word (leaf_pte pp (flags (word_pte e)))) m;
  copy_words PAGE_WORDS pp (entry_page e) m.

Definition clone_pt1_entry (pt1_old pt1_new vpn1 : Z) (m : mem) : outcome mem :=
  e ← ld (pt1_old + 8 * vpn1) m;
  m ← sd (pt1_new + 8 * vpn1) e m;
  if negb (has PTE_V e) then Done m else
  if has PTE_G e then Done m else
  '(pt0_new, m) ← memory_alloc_page m;
  m ← sd (pt1_new + 8 * vpn1) (pte_word (ptab_pte pt0_new (flags (word_pte e)))) m;
  for_range (Z.to_nat PTE_CNT) 0 (clone_pt0_entry (entry_page e) pt0_new) m.

Definition clone_pt2_entry (pt2_old pt2_new vpn2 : Z) (m : mem) : outcome mem :=
  e ← ld (pt2_old + 8 * vpn2) m;
  m ← sd (pt2_new + 8 * vpn2) e m;
  if negb (has PTE_V e) then Done m else
  if has PTE_G e then Done m else
  '(pt1_new, m) ← memory_alloc_page m;
  m ← sd (pt2_new + 8 * vpn2) (pte_word (ptab_pte pt1_new (flags (word_pte e)))) m;
  for_range (Z.to_nat PTE_CNT) 0 (clone_pt1_entry (entry_page e) pt1_new) m.

Definition memory_space_clone (asid : Z) (m : mem) : outcome (Z * mem) :=
  let pt2_old := active_space_root m in
  '(pt2_new, m) ← memory_alloc_page m;
  m ← zero_words PAGE_WORDS pt2_new m;
  m ← for_range (Z.to_nat PTE_CNT) 0 (clone_pt2_entry pt2_old pt2_new) m;
  Done (make_mtag pt2_new, m).

(** ** Initialisation *)

(** The symbols of the linker script and the three static tables, which the
    linker places in .bss. *)
Record kimg : Type := Kimg {
  kimg_start : Z; kimg_text_start : Z; kimg_text_end : Z;
  kimg_rodata_start : Z; kimg_rodata_end : Z; kimg_data_start : Z; kimg_end : Z;
  main_pt2 : Z; main_pt1 : Z; main_pt0 : Z
}.

(** [for (pp = a; pp < fin; pp += step) body(pp)] *)
Fixpoint for_step (fuel : nat) (pp fin step : Z) (body : Z → mem → outcome mem) (m : mem) :
  outcome mem :=
  if pp <? fin then
    match fuel with
    | O => OutOfFuel
    | S k => m ← body pp m; for_step k (pp + step) fin step body m
    end
  else Done m.
Definition for_pages (pp fin step : Z) (body : Z → mem → outcome mem) (m : mem) : outcome mem :=
  for_step (Z.to_nat ((fin - pp) / step + 1)) pp fin step body m.

Definition map_main (k : kimg) (m : mem) : outcome mem :=
  let leaf (table index p flags : Z) := sd (table + 8 * index) (pte_word (leaf_pte p flags)) in
  m ← for_pages 0 RAM_START_PMA GIGA_SIZE
        (λ pma, leaf (main_pt2 k) (VPN2 pma) pma (Z.lor (Z.lor PTE_R PTE_W) PTE_G)) m;
  m ← sd (main_pt2 k + 8 * VPN2 RAM_START_PMA) (pte_word (ptab_pte (main_pt1 k) PTE_G)) m;
  m ← sd (main_pt1 k + 8 * VPN1 RAM_START_PMA) (pte_word (ptab_pte (main_pt0 k) PTE_G)) m;
  m ← for_pages (kimg_text_start k) (kimg_text_end k) PAGE_SIZE
        (λ pp, leaf (main_pt0 k) (VPN0 pp) pp (Z.lor (Z.lor PTE_R PTE_X) PTE_G)) m;
  m ← for_pages (kimg_rodata_start k) (kimg_rodata_end k) PAGE_SIZE
        (λ pp, leaf (main_pt0 k) (VPN0 pp) pp (Z.lor PTE_R PTE_G)) m;
  m ← for_pages (kimg_data_start k) (RAM_START + MEGA_SIZE) PAGE_SIZE
        (λ pp, leaf (main_pt0 k) (VPN0 pp) pp (Z.lor (Z.lor PTE_R PTE_W) PTE_G)) m;
  for_pages (RAM_START + MEGA_SIZE) RAM_END MEGA_SIZE
    (λ pp, leaf (main_pt1 k) (VPN1 pp) pp (Z.lor (Z.lor PTE_R PTE_W) PTE_G)) m.

(** The loop that links the free pages: [n] nodes after [page], the last one
    ended with NULL. *)
Fixpoint link_pages (n : nat) (page : Z) (m : mem) : outcome mem :=
  match n with
  | O => sd page 0 m
  | S n =>
      m ← sd page (u64 (page + PAGE_SIZE)) m;
      page ← ld page m;
      link_pages n page m
  end.

(** The end of the initial heap. *)
Definition init_heap_end (k : kimg) : Z :=
  let heap_start := kimg_end k in
  let heap_end := round_up_ptr heap_start PAGE_SIZE in
  if heap_end - heap_start <? HEAP_INIT_MIN
  then u64 (heap_end + round_up_size (HEAP_INIT_MIN - (heap_end - heap_start)) PAGE_SIZE)
  else heap_end.

Definition memory_init (k : kimg) (m : mem) : outcome (heap mem) :=
  _ ← kassert (RAM_START =? kimg_start k);
  if MEGA_SIZE <? kimg_end k - kimg_start k then Panicked "Kernel too large" else
  m ← map_main k m;
  let mtag := make_mtag (main_pt2 k) in
  let m := Mem (ram m) (free_list m) mtag mtag (memory_initialized m) in
  let heap_end' := init_heap_end k in
  if RAM_END <? heap_end' then Panicked "Not enough memory" else
  h ← heap_init (kimg_end k) heap_end' m;
  let m := set_free_list heap_end' (heap_pages h) in
  let page_cnt := (RAM_END - heap_end') / PAGE_SIZE in
  m ← link_pages (Z.to_nat (u64 (page_cnt - 1))) (free_list m) m;
  Done (Heap (heap_initialized h) (heap_start h) (heap_end h)
          (Mem (ram m) (free_list m) (satp m) (main_mtag m) true)).
