(* ===== verification/MemFacts.v ===== *)
(** Facts about the page allocator of Memory.v: what a load sees after a store,
    the linked list of free pages, and the proof that memory.c keeps the contract
    [Pages.PageAllocLaws]. *)
From Stdlib Require Import ZArith Lia.
From stdpp Require Import base gmap list sets strings.
From S2P Require Import Prelude Pages Heap Pte Memory.

Open Scope Z_scope.

(** A page frame of RAM. *)
Definition ram_page (p : Z) : Prop := p mod 4096 = 0 ∧ RAM_START ≤ p ∧ p + 4096 ≤ RAM_END.

Lemma RAM_START_eq : RAM_START = 0x80000000.
Proof. reflexivity. Qed.
Lemma RAM_END_eq : RAM_END = 0x80800000.
Proof. reflexivity. Qed.

Lemma ram_page_is_page p : ram_page p → is_page p.
Proof. unfold ram_page, is_page. rewrite RAM_START_eq, RAM_END_eq. lia. Qed.
#[export] Hint Resolve ram_page_is_page : core.

Lemma ram_page_disjoint p q a : ram_page p → ram_page q → in_page p a → in_page q a → p = q.
Proof. intros. by eapply is_page_disjoint; eauto. Qed.

Lemma in_page_self p : in_page p p.
Proof. unfold in_page. lia. Qed.
Lemma in_page_word p i : 0 ≤ i < 512 → in_page p (p + 8 * i).
Proof. unfold in_page. lia. Qed.
#[export] Hint Resolve in_page_self in_page_word : core.

(** ** Loads and stores *)

(** Everything but RAM and the free list is the same. *)
Definition same_regs (m m' : mem) : Prop :=
  satp m' = satp m ∧ main_mtag m' = main_mtag m ∧ memory_initialized m' = memory_initialized m.

#[export] Instance same_regs_preorder : PreOrder same_regs.
Proof. split; [done|]. unfold same_regs. intros ???. naive_solver congruence. Qed.

Lemma rd_set_free_list p m a : rd (set_free_list p m) a = rd m a.
Proof. done. Qed.

Lemma ram_word_page p i : ram_page p → 0 ≤ i < 512 → ram_word (p + 8 * i) = true.
Proof.
  unfold ram_page, ram_word. rewrite RAM_START_eq, RAM_END_eq. intros (Hp & H1 & H2) Hi.
  rewrite !andb_true_iff, Z.leb_le, Z.ltb_lt, Z.eqb_eq. split; [lia|].
  apply Z.div_exact in Hp; [|lia]. rewrite Hp.
  replace (4096 * (p / 4096) + 8 * i) with ((512 * (p / 4096) + i) * 8) by lia.
  by apply Z.mod_mul.
Qed.

Lemma ld_page p i m : ram_page p → 0 ≤ i < 512 → ld (p + 8 * i) m = Done (rd m (p + 8 * i)).
Proof. intros. unfold ld. by rewrite ram_word_page. Qed.
Lemma ld_page_head p m : ram_page p → ld p m = Done (rd m p).
Proof. intros Hp. pose proof (ld_page p 0 m Hp ltac:(lia)) as Hl. by rewrite Z.add_0_r in Hl. Qed.

(** The state after a store, and what a load sees in it. *)
Definition upd (a v : Z) (m : mem) : mem := set_ram (<[a := v]> (ram m)) m.
Lemma sd_page p i v m :
  ram_page p → 0 ≤ i < 512 → sd (p + 8 * i) v m = Done (upd (p + 8 * i) v m).
Proof. intros. unfold sd. by rewrite ram_word_page. Qed.
Lemma sd_page_head p v m : ram_page p → sd p v m = Done (upd p v m).
Proof. intros Hp. pose proof (sd_page p 0 v m Hp ltac:(lia)) as Hl. by rewrite Z.add_0_r in Hl. Qed.

Lemma rd_upd a v m b : rd (upd a v m) b = if decide (a = b) then v else rd m b.
Proof.
  unfold rd, upd, set_ram; cbn. destruct (decide (a = b)) as [->|].
  - by rewrite lookup_insert_eq.
  - by rewrite lookup_insert_ne.
Qed.
Lemma rd_upd_eq a v m : rd (upd a v m) a = v.
Proof. rewrite rd_upd. by case_decide. Qed.
Lemma rd_upd_ne a v m b : a ≠ b → rd (upd a v m) b = rd m b.
Proof. rewrite rd_upd. by case_decide. Qed.
Lemma same_regs_upd a v m : same_regs m (upd a v m).
Proof. done. Qed.

Lemma zero_words_spec n p m :
  (∀ i, 0 ≤ i < Z.of_nat n → ram_word (p + 8 * i) = true) →
  ∃ m', zero_words n p m = Done m' ∧ same_regs m m' ∧ free_list m' = free_list m ∧
    (∀ i, 0 ≤ i < Z.of_nat n → rd m' (p + 8 * i) = 0) ∧
    (∀ a, ¬ (p ≤ a < p + 8 * Z.of_nat n) → rd m' a = rd m a).
Proof.
  revert p m. induction n as [|n IH]; intros p m Hw.
  { exists m. split_and!; [done..| |done]. intros i Hi. lia. }
  cbn [zero_words]. unfold sd at 1.
  assert (ram_word p = true) as -> by (rewrite <- (Z.add_0_r p); apply (Hw 0); lia).
  cbn [mbind outcome_bind]. change (set_ram _ m) with (upd p 0 m).
  destruct (IH (p + 8) (upd p 0 m)) as (m' & Hz & Hr & Hf & H0 & Hfr).
  { intros i Hi. replace (p + 8 + 8 * i) with (p + 8 * (i + 1)) by lia. apply Hw. lia. }
  exists m'. split_and!; [done|done|done| |].
  - intros i Hi. destruct (decide (i = 0)) as [->|].
    + rewrite Hfr by lia. replace (p + 8 * 0) with p by lia. apply rd_upd_eq.
    + replace (p + 8 * i) with (p + 8 + 8 * (i - 1)) by lia. apply H0. lia.
  - intros a Ha. rewrite Hfr by lia. apply rd_upd_ne. lia.
Qed.

Lemma zero_page_spec p m :
  ram_page p →
  ∃ m', zero_words PAGE_WORDS p m = Done m' ∧ same_regs m m' ∧ free_list m' = free_list m ∧
    (∀ i, 0 ≤ i < 512 → rd m' (p + 8 * i) = 0) ∧
    (∀ a, ¬ in_page p a → rd m' a = rd m a).
Proof.
  intros Hp. apply (zero_words_spec PAGE_WORDS p m). intros i Hi. apply ram_word_page; [done|].
  change (Z.of_nat PAGE_WORDS) with 512 in Hi. lia.
Qed.

Lemma copy_words_spec n dst src m :
  (∀ i, 0 ≤ i < Z.of_nat n → ram_word (dst + 8 * i) = true ∧ ram_word (src + 8 * i) = true) →
  dst + 8 * Z.of_nat n ≤ src ∨ src + 8 * Z.of_nat n ≤ dst →
  ∃ m', copy_words n dst src m = Done m' ∧ same_regs m m' ∧ free_list m' = free_list m ∧
    (∀ i, 0 ≤ i < Z.of_nat n → rd m' (dst + 8 * i) = rd m (src + 8 * i)) ∧
    (∀ a, ¬ (dst ≤ a < dst + 8 * Z.of_nat n) → rd m' a = rd m a).
Proof.
  revert dst src m. induction n as [|n IH]; intros p q m Hw Hd.
  { exists m. split_and!; [done..| |done]. intros i Hi. lia. }
  cbn [copy_words]. destruct (Hw 0 ltac:(lia)) as [Hw1 Hw2].
  replace (p + 8 * 0) with p in Hw1 by lia. replace (q + 8 * 0) with q in Hw2 by lia.
  unfold ld at 1, sd at 1. rewrite Hw1, Hw2.
  cbn [mbind outcome_bind]. change (set_ram _ m) with (upd p (rd m q) m).
  destruct (IH (p + 8) (q + 8) (upd p (rd m q) m)) as (m' & Hz & Hr & Hf & H0 & Hfr).
  { intros i Hi. replace (p + 8 + 8 * i) with (p + 8 * (i + 1)) by lia.
    replace (q + 8 + 8 * i) with (q + 8 * (i + 1)) by lia. apply Hw. lia. }
  { lia. }
  exists m'. split_and!; [done|done|done| |].
  - intros i Hi. destruct (decide (i = 0)) as [->|].
    + rewrite Hfr by lia. rewrite !Z.mul_0_r, !Z.add_0_r. apply rd_upd_eq.
    + replace (p + 8 * i) with (p + 8 + 8 * (i - 1)) by lia.
      rewrite H0 by lia. rewrite rd_upd_ne by lia. f_equal. lia.
  - intros a Ha. rewrite Hfr by lia. apply rd_upd_ne. lia.
Qed.

Lemma copy_page_spec p q m :
  ram_page p → ram_page q → p ≠ q →
  ∃ m', copy_words PAGE_WORDS p q m = Done m' ∧ same_regs m m' ∧ free_list m' = free_list m ∧
    (∀ i, 0 ≤ i < 512 → rd m' (p + 8 * i) = rd m (q + 8 * i)) ∧
    (∀ a, ¬ in_page p a → rd m' a = rd m a).
Proof.
  intros Hp Hq Hne. apply (copy_words_spec PAGE_WORDS p q m).
  - change (Z.of_nat PAGE_WORDS) with 512. intros i Hi. split; by apply ram_word_page.
  - change (Z.of_nat PAGE_WORDS) with 512. destruct Hp as (Hp & _), Hq as (Hq & _).
    apply Z.div_exact in Hp, Hq; lia.
Qed.

(** ** The free list *)

Fixpoint fl_rep (m : mem) (p : Z) (l : list Z) : Prop :=
  match l with
  | [] => p = 0
  | q :: l => p = q ∧ fl_rep m (rd m p) l
  end.

Definition free_ok (m : mem) (l : list Z) : Prop :=
  fl_rep m (free_list m) l ∧ NoDup l ∧ Forall ram_page l.

Lemma fl_rep_ext m m' p l :
  (∀ q, q ∈ l → rd m' q = rd m q) → fl_rep m p l → fl_rep m' p l.
Proof.
  revert p. induction l as [|q l IH]; intros p Hq; cbn; [done|].
  intros (-> & Hr). split; [done|]. rewrite Hq by set_solver. apply IH; [set_solver|done].
Qed.

Lemma free_ok_ext m m' l :
  (∀ q, q ∈ l → rd m' q = rd m q) → free_list m' = free_list m → free_ok m l → free_ok m' l.
Proof. intros He Hf (Hl & Hn & Hr). split_and!; [|done..]. rewrite Hf. by eapply fl_rep_ext. Qed.

Lemma alloc_page_spec m p l :
  free_ok m (p :: l) →
  ∃ m', memory_alloc_page m = Done (p, m') ∧ free_ok m' l ∧ same_regs m m' ∧
    (∀ i, 0 ≤ i < 512 → rd m' (p + 8 * i) = 0) ∧ (∀ a, ¬ in_page p a → rd m' a = rd m a).
Proof.
  intros ((Hh & Hl) & Hn & Hp). apply NoDup_cons in Hn as [Hni Hn].
  apply Forall_cons in Hp as [Hp Hps].
  unfold memory_alloc_page. rewrite Hh in *.
  destruct (Z.eqb_spec p 0) as [->|_]; [destruct Hp as (_ & Hp & _); rewrite RAM_START_eq in Hp; lia|].
  rewrite ld_page_head by done. cbn [mbind outcome_bind].
  destruct (zero_page_spec p (set_free_list (rd m p) m) Hp) as (m' & Hz & Hr & Hf & H0 & Hfr).
  rewrite Hz. cbn [mbind outcome_bind]. exists m'. split_and!; try done.
  split_and!; [|done..]. rewrite Hf. cbn.
  eapply fl_rep_ext; [|exact Hl]. intros q Hq. rewrite Hfr; [done|].
  intros Hin. rewrite Forall_forall in Hps.
  assert (p = q) as -> by by eapply ram_page_disjoint; eauto. done.
Qed.

Lemma alloc_page_empty m : free_ok m [] → memory_alloc_page m = Panicked "No free pages available".
Proof. intros (Hl & _). cbn in Hl. unfold memory_alloc_page. by rewrite Hl. Qed.

Lemma free_page_spec m p l :
  free_ok m l → ram_page p → p ∉ l →
  ∃ m', memory_free_page p m = Done m' ∧ free_ok m' (p :: l) ∧ same_regs m m' ∧
    (∀ a, a ≠ p → rd m' a = rd m a).
Proof.
  intros (Hl & Hn & Hps) Hp Hni. unfold memory_free_page. cbn zeta.
  rewrite sd_page_head by done. cbn [mbind outcome_bind]. eexists. split_and!; [done| |done|].
  - split_and!; [|by apply NoDup_cons|by constructor]. cbn. split; [done|].
    rewrite rd_set_free_list, rd_upd_eq. eapply fl_rep_ext; [|exact Hl].
    intros q Hq. rewrite rd_set_free_list. apply rd_upd_ne. by intros ->.
  - intros a Ha. rewrite rd_set_free_list. by apply rd_upd_ne.
Qed.

(** memory.c implements the allocator's contract. *)
#[export] Program Instance mem_PageAllocLaws : PageAllocLaws mem := {
  free_pages := free_ok;
  page_ok := ram_page
}.
Next Obligation.
  intros m l (_ & Hn & Hp). split; [done|]. eapply Forall_impl; [exact Hp|]. auto.
Qed.
Next Obligation. by intros m l (_ & _ & Hp). Qed.
Next Obligation.
  intros m p l Hf. destruct (alloc_page_spec _ _ _ Hf) as (m' & ? & ? & _). eauto.
Qed.
Next Obligation. intros m Hf. eexists. by apply alloc_page_empty. Qed.
Next Obligation.
  intros m p l Hf Hp Hni. destruct (free_page_spec _ _ _ Hf Hp Hni) as (m' & ? & ? & _). eauto.
Qed.
