(* ===== verification/PageTables.v ===== *)
(** The invariant of a memory space and the correctness of the operations of
    Memory.v that extend it.

    A page of the space (a table or a mapped page) is named by the indices that
    lead to it, the last one first: [] is the root, [vpn2] a level 1 table,
    [vpn1; vpn2] a level 0 table and [vpn0; vpn1; vpn2] a mapped page.  Only the
    region above the kernel's three gigabytes (vpn2 >= 3) is described. *)
From Stdlib Require Import ZArith Lia.
From stdpp Require Import base gmap list sets strings.
From S2P Require Import Prelude Pages Heap Pte Memory MemFacts.

Open Scope Z_scope.

Fixpoint path_idx (p : list Z) : Prop :=
  match p with
  | [] => True
  | i :: p' => 0 ≤ i < 512 ∧ (p' = [] → 3 ≤ i) ∧ path_idx p'
  end.
Definition path_ok (p : list Z) : Prop := (length p ≤ 3)%nat ∧ path_idx p.

Lemma path_ok_tail i p : path_ok (i :: p) → path_ok p.
Proof. intros [Hl (_ & _ & Hp)]. cbn in Hl. split; [lia|done]. Qed.
Lemma path_ok_head i p : path_ok (i :: p) → 0 ≤ i < 512.
Proof. by intros [_ (Hi & _)]. Qed.
Lemma path_ok_nil : path_ok [].
Proof. split; cbn; [lia|done]. Qed.
#[export] Hint Resolve path_ok_tail path_ok_head path_ok_nil : core.

Section Space.
Context (root : Z).

(** The page that path [p] leads to, and the valid entry at the end of [p]. *)
Fixpoint node_at (m : mem) (p : list Z) : option Z :=
  match p with
  | [] => Some root
  | i :: p =>
      match node_at m p with
      | Some t => if has PTE_V (rd m (t + 8 * i)) then Some (entry_page (rd m (t + 8 * i))) else None
      | None => None
      end
  end.

Definition entry_at (m : mem) (p : list Z) : option Z :=
  match p with
  | [] => None
  | i :: p =>
      match node_at m p with
      | Some t => if has PTE_V (rd m (t + 8 * i)) then Some (rd m (t + 8 * i)) else None
      | None => None
      end
  end.

Lemma node_entry m i p : node_at m (i :: p) = entry_page <$> entry_at m (i :: p).
Proof. cbn. destruct (node_at m p); [by case_match|done]. Qed.

(** Every page of the space is a page of RAM that is not free, no page occurs
    twice, the kernel's entries are global and the tables' entries have no flag
    but V. *)
Record pt_inv (m : mem) (l : list Z) : Prop := {
  pt_free : free_ok m l;
  pt_page : ∀ p t, path_ok p → node_at m p = Some t → ram_page t ∧ t ∉ l;
  pt_inj : ∀ p p' t, path_ok p → path_ok p' → node_at m p = Some t → node_at m p' = Some t → p = p';
  pt_kernel : ∀ i, 0 ≤ i < 3 → has PTE_V (rd m (root + 8 * i)) = true →
    has PTE_G (rd m (root + 8 * i)) = true;
  pt_table : ∀ p e, path_ok p → (length p ≤ 2)%nat → entry_at m p = Some e →
    flags (word_pte e) = PTE_V
}.

Lemma node_ram m l p t : pt_inv m l → node_at m p = Some t → path_ok p → ram_page t.
Proof. intros Hi Hn Hp. by destruct (pt_page _ _ Hi p t Hp Hn). Qed.
Lemma node_not_free m l p t : pt_inv m l → node_at m p = Some t → path_ok p → t ∉ l.
Proof. intros Hi Hn Hp. by destruct (pt_page _ _ Hi p t Hp Hn). Qed.

(** Two entries of the space are at different addresses. *)
Lemma entry_addr_inj m l p p' t t' i i' :
  pt_inv m l → path_ok p → path_ok p' → node_at m p = Some t → node_at m p' = Some t' →
  0 ≤ i < 512 → 0 ≤ i' < 512 → t + 8 * i = t' + 8 * i' → p = p' ∧ i = i'.
Proof.
  intros Hi Hp Hp' Hn Hn' Hr Hr' He.
  assert (t = t') as ->.
  { eapply (ram_page_disjoint t t' (t + 8 * i)); [eapply node_ram; eauto|eapply node_ram; eauto|auto|].
    unfold in_page. lia. }
  split; [by eapply pt_inj|lia].
Qed.

(** ** Storing one valid entry *)

Section SetEntry.
Context (m m' : mem) (l : list Z) (p : list Z) (i t e : Z).
Hypothesis Hinv : pt_inv m l.
Hypothesis Hok : path_ok (i :: p).
Hypothesis Hnode : node_at m p = Some t.
Hypothesis Hentry : rd m' (t + 8 * i) = e.
Hypothesis Hvalid : has PTE_V e = true.
Hypothesis Hpage : ram_page (entry_page e).
Hypothesis Hfresh : ∀ p', path_ok p' → node_at m p' = Some (entry_page e) → p' = i :: p.
Hypothesis Hempty : (length p ≤ 1)%nat → ∀ j, 0 ≤ j < 512 → rd m' (entry_page e + 8 * j) = 0.
Hypothesis Hframe : ∀ a, a ≠ t + 8 * i → ¬ in_page (entry_page e) a → rd m' a = rd m a.

Lemma set_entry_rd p' j t' :
  path_ok (j :: p') → node_at m p' = Some t' → ¬ (i :: p) `suffix_of` p' → j :: p' ≠ i :: p →
  rd m' (t' + 8 * j) = rd m (t' + 8 * j).
Proof.
  intros Hp' Hn' Hs Hne. apply Hframe.
  - intros He. destruct (entry_addr_inj m l p' p t' t j i) as [-> ->]; eauto.
  - intros Hin. assert (t' = entry_page e) as ->.
    { eapply (ram_page_disjoint t' _ (t' + 8 * j)); [eapply node_ram|..]; eauto. }
    apply Hs. rewrite (Hfresh p'); eauto.
Qed.

Lemma set_entry_node p' :
  path_ok p' →
  node_at m' p' =
    if decide (p' = i :: p) then Some (entry_page e) else
    if decide ((i :: p) `suffix_of` p') then None else node_at m p'.
Proof.
  induction p' as [|j p' IH]; intros Hp'.
  { destruct (decide ([] = i :: p)); [done|].
    destruct (decide ((i :: p) `suffix_of` [])) as [Hs|]; [|done].
    by apply suffix_nil_inv in Hs. }
  specialize (IH (path_ok_tail _ _ Hp')). cbn [node_at]. rewrite IH. clear IH.
  destruct (decide (p' = i :: p)) as [->|Hne].
  { rewrite decide_False by (intros [= _ E%(f_equal length)]; cbn in E; lia).
    rewrite decide_True by (by exists [j]).
    rewrite Hempty; [done| |eauto]. destruct Hp' as [Hl _]. cbn in Hl. lia. }
  destruct (decide ((i :: p) `suffix_of` p')) as [Hs|Hs].
  { rewrite decide_False.
    - rewrite decide_True; [done|]. by apply suffix_cons_r.
    - intros [= _ ->]. apply suffix_length in Hs. cbn in Hs. lia. }
  destruct (node_at m p') as [t'|] eqn:Hn'.
  - destruct (decide (j :: p' = i :: p)) as [[= -> ->]|Hne'].
    { assert (t' = t) as -> by congruence. by rewrite Hentry, Hvalid. }
    rewrite decide_False by (intros [?|?]%suffix_cons_inv; congruence).
    by rewrite (set_entry_rd p' j t').
  - destruct (decide (j :: p' = i :: p)) as [[= -> ->]|Hne']; [congruence|].
    by rewrite decide_False by (intros [?|?]%suffix_cons_inv; congruence).
Qed.

Lemma set_entry_entry p' :
  path_ok p' →
  entry_at m' p' =
    if decide (p' = i :: p) then Some e else
    if decide ((i :: p) `suffix_of` p') then None else entry_at m p'.
Proof.
  intros Hp'. destruct p' as [|j p'].
  { destruct (decide ([] = i :: p)); [done|].
    destruct (decide ((i :: p) `suffix_of` [])) as [Hs|]; [|done].
    by apply suffix_nil_inv in Hs. }
  cbn [entry_at]. rewrite set_entry_node by eauto.
  destruct (decide (p' = i :: p)) as [->|Hne].
  { rewrite decide_False by (intros [= _ E%(f_equal length)]; cbn in E; lia).
    rewrite decide_True by (by exists [j]).
    rewrite Hempty; [done| |eauto]. destruct Hp' as [Hl _]. cbn in Hl. lia. }
  destruct (decide ((i :: p) `suffix_of` p')) as [Hs|Hs].
  { rewrite decide_False.
    - rewrite decide_True; [done|]. by apply suffix_cons_r.
    - intros [= _ ->]. apply suffix_length in Hs. cbn in Hs. lia. }
  destruct (node_at m p') as [t'|] eqn:Hn'.
  - destruct (decide (j :: p' = i :: p)) as [[= -> ->]|Hne'].
    { assert (t' = t) as -> by congruence. by rewrite Hentry, Hvalid. }
    rewrite decide_False by (intros [?|?]%suffix_cons_inv; congruence).
    by rewrite (set_entry_rd p' j t').
  - destruct (decide (j :: p' = i :: p)) as [[= -> ->]|Hne']; [congruence|].
    by rewrite decide_False by (intros [?|?]%suffix_cons_inv; congruence).
Qed.

Lemma set_entry_inv :
  free_list m' = free_list m → entry_page e ∉ l →
  ((length p ≤ 1)%nat → flags (word_pte e) = PTE_V) → pt_inv m' l.
Proof.
  intros Hfl Hni Hflags.
  pose proof (pt_page _ _ Hinv p t ltac:(eauto) Hnode) as [Htp Htl].
  pose proof (pt_free _ _ Hinv) as Hfree.
  assert (Hfr : ∀ q, q ∈ l → rd m' q = rd m q).
  { intros q Hq. destruct Hfree as (_ & _ & Hps). rewrite Forall_forall in Hps.
    apply Hframe.
    - intros ->. apply Htl. replace t with (t + 8 * i); [done|].
      eapply (ram_page_disjoint _ t (t + 8 * i)); eauto.
    - intros Hin. apply Hni. replace (entry_page e) with q; [done|].
      eapply (ram_page_disjoint q _ q); eauto. }
  split.
  - by eapply free_ok_ext.
  - intros p' t' Hp'. rewrite set_entry_node by done.
    case_decide; [intros [= <-]; done|]. case_decide; [done|]. by apply Hinv.
  - intros p1 p2 t' Hp1 Hp2. rewrite !set_entry_node by done.
    repeat case_decide; try done; intros Hn1 Hn2; simplify_eq; try done.
    + symmetry. by apply Hfresh.
    + by apply Hfresh.
    + by eapply pt_inj.
  - intros j Hj. rewrite Hframe; [by apply Hinv| |].
    + intros He. destruct (entry_addr_inj m l [] p root t j i) as [<- <-]; eauto; [lia|].
      destruct Hok as [_ (_ & Hk & _)]. specialize (Hk eq_refl). lia.
    + intros Hin. assert (root = entry_page e) as Hre.
      { eapply (ram_page_disjoint root _ (root + 8 * j)); [|done|apply in_page_word; lia|done].
        by eapply (pt_page _ _ Hinv []). }
      specialize (Hfresh [] path_ok_nil). cbn in Hfresh. rewrite Hre in Hfresh.
      by specialize (Hfresh eq_refl).
  - intros p' e' Hp' Hl. rewrite set_entry_entry by done.
    case_decide as Hpp; [intros [= <-]; subst p'; apply Hflags; cbn in Hl; lia|].
    case_decide; [done|]. by apply Hinv.
Qed.
End SetEntry.
End Space.

(** ** Steps that only extend the space *)

Section Steps.
Context (root : Z).
Abbreviation node_at := (node_at root).
Abbreviation entry_at := (entry_at root).
Abbreviation pt_inv := (pt_inv root).

(** From free pages [l] to [l'], by taking the pages [used]: only those and the
    tables of the space are written. *)
Record pt_step (m : mem) (l : list Z) (m' : mem) (l' used : list Z) : Prop := {
  ps_inv : pt_inv m' l';
  ps_regs : same_regs m m';
  ps_used : l = used ++ l';
  ps_nodes : ∀ p t, path_ok p → node_at m' p = Some t → node_at m p = Some t ∨ t ∈ used;
  ps_keep : ∀ p t, path_ok p → (length p ≤ 2)%nat → node_at m p = Some t → node_at m' p = Some t;
  ps_frame : ∀ a, (∀ q, q ∈ used → ¬ in_page q a) →
    (∀ p t, path_ok p → (length p ≤ 2)%nat → node_at m p = Some t → ¬ in_page t a) →
    rd m' a = rd m a
}.

Lemma pt_step_refl m l : pt_inv m l → pt_step m l m l [].
Proof. intros Hi. split; [done..|by left|done|done]. Qed.

Lemma pt_step_trans m1 l1 m2 l2 m3 l3 u1 u2 :
  pt_step m1 l1 m2 l2 u1 → pt_step m2 l2 m3 l3 u2 → pt_step m1 l1 m3 l3 (u1 ++ u2).
Proof.
  intros [Hi1 Hr1 Hu1 Hn1 Hk1 Hf1] [Hi2 Hr2 Hu2 Hn2 Hk2 Hf2]. split; [done|by etrans| | |by auto|].
  - by rewrite Hu1, Hu2, app_assoc.
  - intros p t Hp Hn. destruct (Hn2 p t Hp Hn) as [Hn'|]; [|set_solver].
    destruct (Hn1 p t Hp Hn'); set_solver.
  - intros a Ha Ht. rewrite Hf2, Hf1; [done|set_solver|done|set_solver|].
    intros p t Hp Hl Hn. destruct (Hn1 p t Hp Hn) as [|Hin]; [by eapply Ht|].
    apply Ha. set_solver.
Qed.

(** The mapped pages keep their contents. *)
Lemma pt_step_data m l m' l' used p d i :
  pt_inv m l → pt_step m l m' l' used → path_ok p → length p = 3%nat → node_at m p = Some d →
  0 ≤ i < 512 → rd m' (d + 8 * i) = rd m (d + 8 * i).
Proof.
  intros Hi Hs Hp Hl Hn Hr. pose proof (node_ram _ _ _ _ _ Hi Hn Hp) as Hd.
  apply (ps_frame _ _ _ _ _ Hs).
  - intros q Hq Hin. assert (d = q) as ->.
    { apply (ram_page_disjoint d q (d + 8 * i)); auto.
      destruct (pt_free _ _ _ Hi) as (_ & _ & Hps). rewrite Forall_forall in Hps.
      apply Hps. rewrite (ps_used _ _ _ _ _ Hs). set_solver. }
    apply (node_not_free _ _ _ _ _ Hi Hn Hp). rewrite (ps_used _ _ _ _ _ Hs). set_solver.
  - intros p' t Hp' Hl' Hn' Hin. assert (d = t) as ->.
    { apply (ram_page_disjoint d t (d + 8 * i)); auto. by eapply node_ram. }
    assert (p = p') as -> by by eapply pt_inj. lia.
Qed.

(** If the tables are unchanged, so is the space. *)
Lemma frame_entry m m' :
  (∀ p t i, path_ok (i :: p) → node_at m p = Some t → rd m' (t + 8 * i) = rd m (t + 8 * i)) →
  ∀ p, path_ok p → node_at m' p = node_at m p ∧ entry_at m' p = entry_at m p.
Proof.
  intros Hfr p. induction p as [|i p IH]; intros Hp; [done|].
  destruct (IH ltac:(eauto)) as [Hn _]. cbn. rewrite Hn.
  destruct (node_at m p) as [t|] eqn:Ht; [|done]. by rewrite (Hfr p t i).
Qed.

Lemma alloc_step m q l :
  pt_inv m (q :: l) →
  ∃ m', memory_alloc_page m = Done (q, m') ∧ pt_step m (q :: l) m' l [q] ∧
    (∀ p, path_ok p → node_at m' p = node_at m p ∧ entry_at m' p = entry_at m p) ∧
    (∀ i, 0 ≤ i < 512 → rd m' (q + 8 * i) = 0) ∧ (∀ a, ¬ in_page q a → rd m' a = rd m a).
Proof.
  intros Hi. destruct (alloc_page_spec m q l (pt_free _ _ _ Hi)) as (m' & Ha & Hf & Hr & H0 & Hfr).
  assert (Hq : ram_page q).
  { destruct (pt_free _ _ _ Hi) as (_ & _ & Hps). by apply Forall_cons in Hps as [? _]. }
  assert (Hnq : ∀ p t i, path_ok p → 0 ≤ i < 512 → node_at m p = Some t → ¬ in_page q (t + 8 * i)).
  { intros p t i Hp Hr' Hn Hin. assert (t = q) as ->.
    { apply (ram_page_disjoint t q (t + 8 * i)); auto. by eapply node_ram. }
    apply (node_not_free _ _ _ _ _ Hi Hn Hp). set_solver. }
  assert (Hsame := frame_entry m m' ltac:(intros; apply Hfr; eauto)).
  exists m'. split_and!; [done| |done|done|done]. split; [|done|done| |by intros p t Hp _; rewrite (proj1 (Hsame p Hp))|].
  - split.
    + done.
    + intros p t Hp. rewrite (proj1 (Hsame p Hp)). intros Hn.
      destruct (pt_page _ _ _ Hi p t Hp Hn). split; [done|set_solver].
    + intros p p' t Hp Hp'. rewrite (proj1 (Hsame p Hp)), (proj1 (Hsame p' Hp')). by eapply pt_inj.
    + intros i Hr'. rewrite Hfr; [by apply (pt_kernel _ _ _ Hi)|].
      apply (Hnq [] root); [done|lia|done].
    + intros p e Hp Hl. rewrite (proj2 (Hsame p Hp)). by eapply pt_table.
  - intros p t Hp. rewrite (proj1 (Hsame p Hp)). by left.
  - intros a Hau _. apply Hfr, Hau. set_solver.
Qed.

(** Nothing lies below an entry that is not valid. *)
Lemma invalid_below m i p :
  node_at m (i :: p) = None → ∀ p', (i :: p) `suffix_of` p' → node_at m p' = None ∧ entry_at m p' = None.
Proof.
  intros Hn p' [k ->]. induction k as [|j k IH]; cbn [app].
  { split; [done|]. rewrite node_entry in Hn. by destruct (entry_at m (i :: p)). }
  destruct IH as [IH _]. cbn. by rewrite IH.
Qed.

Lemma pt_inv_fresh m l used l0 q p :
  l0 = used ++ l → q ∈ used → pt_inv m l0 → path_ok p → node_at m p ≠ Some q.
Proof. intros -> Hq Hi Hp Hn. apply (node_not_free _ _ _ _ _ Hi Hn Hp). set_solver. Qed.

Lemma walk_level_valid t i create m e :
  ram_page t → 0 ≤ i < 512 → rd m (t + 8 * i) = e → has PTE_V e = true →
  walk_level t i create m = Done (Some (entry_page e, m)).
Proof.
  intros Ht Hr He Hv. unfold walk_level. rewrite ld_page by done. cbn [mbind outcome_bind].
  by rewrite He, Hv.
Qed.

(** Storing an entry that points to a page taken on the way. *)
Lemma pt_step_store m l m1 l1 used p i t e :
  pt_inv m l → pt_step m l m1 l1 used → path_ok (i :: p) → node_at m1 p = Some t →
  has PTE_V e = true → entry_page e ∈ used →
  (∀ p', path_ok p' → node_at m1 p' = Some (entry_page e) → p' = i :: p) →
  ((length p ≤ 1)%nat → ∀ j, 0 ≤ j < 512 → rd m1 (entry_page e + 8 * j) = 0) →
  ((length p ≤ 1)%nat → flags (word_pte e) = PTE_V) →
  ((length p ≤ 1)%nat → node_at m1 (i :: p) = None) →
  pt_step m l (upd (t + 8 * i) e m1) l1 used ∧
  (∀ p', path_ok p' →
    node_at (upd (t + 8 * i) e m1) p' =
      (if decide (p' = i :: p) then Some (entry_page e) else
       if decide ((i :: p) `suffix_of` p') then None else node_at m1 p') ∧
    entry_at (upd (t + 8 * i) e m1) p' =
      (if decide (p' = i :: p) then Some e else
       if decide ((i :: p) `suffix_of` p') then None else entry_at m1 p')).
Proof.
  intros Hi Hs Hp Hn Hv Hu Hfresh Hemp Hfl Hnew. pose proof (ps_inv _ _ _ _ _ Hs) as Hi1.
  pose proof (ps_used _ _ _ _ _ Hs) as Hl. destruct (pt_free _ _ _ Hi) as (_ & Hnd & Hps).
  rewrite Hl in Hnd, Hps. rewrite Forall_forall in Hps.
  assert (Hq : ram_page (entry_page e)) by (apply Hps; set_solver).
  assert (Ht : ram_page t) by (eapply node_ram; eauto).
  assert (Htq : t ≠ entry_page e).
  { intros ->. assert (p = i :: p) as Hx by eauto. apply (f_equal length) in Hx. cbn in Hx. lia. }
  set (m2 := upd (t + 8 * i) e m1).
  assert (He : rd m2 (t + 8 * i) = e) by apply rd_upd_eq.
  assert (Hfr : ∀ a, a ≠ t + 8 * i → ¬ in_page (entry_page e) a → rd m2 a = rd m1 a)
    by (intros; by apply rd_upd_ne).
  assert (Hemp2 : (length p ≤ 1)%nat → ∀ j, 0 ≤ j < 512 → rd m2 (entry_page e + 8 * j) = 0).
  { intros Hlen j Hj. unfold m2. rewrite rd_upd_ne; [auto|].
    intros Heq. apply Htq. apply (ram_page_disjoint _ _ (t + 8 * i)); auto.
    - apply in_page_word. eauto.
    - rewrite Heq. auto. }
  assert (Hni : entry_page e ∉ l1).
  { apply NoDup_app in Hnd as (_ & Hnd & _). auto. }
  split; [|intros p' Hp'; split; [eapply (set_entry_node root m1 m2)|eapply (set_entry_entry root m1 m2)]; eauto].
  split.
  - eapply (set_entry_inv root m1 m2); eauto.
  - apply (ps_regs _ _ _ _ _ Hs).
  - done.
  - intros p' t' Hp'. rewrite (set_entry_node root m1 m2 l1 p i t e) by eauto.
    case_decide; [intros [= <-]; by right|]. case_decide; [done|]. by apply (ps_nodes _ _ _ _ _ Hs).
  - intros p' t' Hp' Hlen Hn'. pose proof (ps_keep _ _ _ _ _ Hs p' t' Hp' Hlen Hn') as Hk.
    rewrite (set_entry_node root m1 m2 l1 p i t e) by eauto.
    assert (Hno : ¬ (i :: p) `suffix_of` p').
    { intros Hsuf. pose proof (suffix_length _ _ Hsuf) as Hlp. cbn [length] in Hlp.
      destruct (invalid_below m1 i p (Hnew ltac:(lia)) p' Hsuf) as [Hnone _]. congruence. }
    rewrite decide_False by (intros ->; by apply Hno). by rewrite decide_False.
  - intros a Ha Ha'. unfold m2. rewrite rd_upd_ne; [by apply (ps_frame _ _ _ _ _ Hs)|].
    assert (in_page t (t + 8 * i)) by (apply in_page_word; eauto). intros <-.
    destruct (ps_nodes _ _ _ _ _ Hs p t ltac:(eauto) Hn) as [Hn'|Hin]; [|by eapply Ha].
    destruct Hp as [Hlen Hp]. cbn in Hlen. apply (Ha' p t); [split; [lia|]|lia|done|done]. apply Hp.
Qed.

Lemma walk_level_create m l p i t :
  pt_inv m l → path_ok (i :: p) → (length p ≤ 1)%nat → node_at m p = Some t → (1 ≤ length l)%nat →
  ∃ t' m' l' used, walk_level t i 1 m = Done (Some (t', m')) ∧
    pt_step m l m' l' used ∧ (length used ≤ 1)%nat ∧ node_at m' (i :: p) = Some t' ∧
    (∀ p', path_ok p' → length p' = 3%nat → entry_at m' p' = entry_at m p').
Proof.
  intros Hi Hp Hl Hn Hlen. pose proof (node_ram _ _ _ _ _ Hi Hn ltac:(eauto)) as Ht.
  destruct (has PTE_V (rd m (t + 8 * i))) eqn:Hv.
  { exists (entry_page (rd m (t + 8 * i))), m, l, [].
    rewrite (walk_level_valid t i 1 m _ Ht ltac:(eauto) eq_refl Hv).
    split_and!; [done|by apply pt_step_refl|cbn; lia| |done]. cbn. by rewrite Hn, Hv. }
  destruct l as [|q l]; [cbn in Hlen; lia|].
  destruct (alloc_step m q l Hi) as (m1 & Ha & Hs1 & Hsame & H0 & Hfr1).
  assert (Hq : ram_page q).
  { destruct (pt_free _ _ _ Hi) as (_ & _ & Hps). by apply Forall_cons in Hps as [? _]. }
  assert (Hqe : entry_page (pte_word (ptab_pte q 0)) = q) by (apply ptab_entry_page; auto).
  destruct (pt_step_store m (q :: l) m1 l [q] p i t (pte_word (ptab_pte q 0))) as [Hs2 Hnodes].
  { done. } { done. } { done. } { by rewrite (proj1 (Hsame p ltac:(eauto))). } { apply ptab_valid. }
  { rewrite Hqe. set_solver. }
  { intros p' Hp'. rewrite Hqe, (proj1 (Hsame p' Hp')). intros Hn'. exfalso.
    eapply (pt_inv_fresh m l [q] _ q p'); eauto. set_solver. }
  { intros _. by rewrite Hqe. }
  { intros _. by rewrite word_pte_word by eauto with word. }
  { intros _. rewrite (proj1 (Hsame (i :: p) Hp)). cbn. by rewrite Hn, Hv. }
  exists q, (upd (t + 8 * i) (pte_word (ptab_pte q 0)) m1), l, [q]. split_and!; [|done|cbn; lia| |].
  - unfold walk_level. rewrite ld_page by eauto. cbn [mbind outcome_bind]. rewrite Hv.
    change (1 =? 0) with false. cbv iota. rewrite Ha. cbn [mbind outcome_bind].
    rewrite sd_page by eauto. cbn [mbind outcome_bind]. rewrite ld_page by eauto.
    cbn [mbind outcome_bind]. by rewrite rd_upd_eq, Hqe.
  - rewrite (proj1 (Hnodes (i :: p) Hp)). rewrite decide_True by done. by rewrite Hqe.
  - intros p' Hp' Hl'. rewrite (proj2 (Hnodes p' Hp')).
    rewrite decide_False by (intros ->; cbn in Hl'; lia).
    case_decide as Hsuf; [|by rewrite (proj2 (Hsame p' Hp'))].
    symmetry. eapply invalid_below; [|exact Hsuf]. cbn. by rewrite Hn, Hv.
Qed.
End Steps.

(** ** A space without user mappings *)

Lemma space_empty root m :
  (∀ i, 3 ≤ i < 512 → has PTE_V (rd m (root + 8 * i)) = false) →
  ∀ p i, path_ok (i :: p) → node_at root m (i :: p) = None ∧ entry_at root m (i :: p) = None.
Proof.
  intros He p. induction p as [|j p IH]; intros i Hp.
  - cbn. rewrite He; [done|]. destruct Hp as [_ (Hi & Hk' & _)]. specialize (Hk' eq_refl). lia.
  - destruct (IH j ltac:(eauto)) as [Hn _]. cbn in Hn |- *. by rewrite Hn.
Qed.

Lemma pt_inv_empty root m l :
  ram_page root → root ∉ l → free_ok m l →
  (∀ i, 3 ≤ i < 512 → has PTE_V (rd m (root + 8 * i)) = false) →
  (∀ i, 0 ≤ i < 3 → has PTE_V (rd m (root + 8 * i)) = true → has PTE_G (rd m (root + 8 * i)) = true) →
  pt_inv root m l.
Proof.
  intros Hr Hni Hf He Hk. pose proof (λ i p, space_empty root m He p i) as Hnone.
  split; [done| | |done|].
  - intros [|i p] t Hp; [by intros [= <-]|]. by rewrite (proj1 (Hnone i p Hp)).
  - intros [|i p] [|j p'] t Hp Hp'; [done|..].
    + by rewrite (proj1 (Hnone j p' Hp')).
    + by rewrite (proj1 (Hnone i p Hp)).
    + by rewrite (proj1 (Hnone i p Hp)).
  - intros [|i p] e Hp _; [done|]. by rewrite (proj2 (Hnone i p Hp)).
Qed.
