(* ===== verification/Mapping.v ===== *)
(** What the mapping operations of memory.c do to the translation of virtual
    addresses: [walk_pt], [memory_alloc_and_map_page] and [_range],
    [memory_set_page_flags] and [memory_handle_page_fault], in any memory space
    that satisfies the invariant of PageTables.v. *)
From Stdlib Require Import ZArith Lia.
From stdpp Require Import base gmap list sets strings.
From S2P Require Import Prelude Pages Heap Pte Memory MemFacts PageTables.

Open Scope Z_scope.

Definition path_of (vma : Z) : list Z := [VPN0 vma; VPN1 vma; VPN2 vma].

(** The addresses of the lower half above the kernel's three gigabytes. *)
Definition user_vma (vma : Z) : Prop := GIGA_SIZE * 3 ≤ vma < 2 ^ 38.

(** The valid level 0 entry that translates [vma]. *)
Definition translate (root vma : Z) (m : mem) : option Z := entry_at root m (path_of vma).

Lemma user_vma_path vma : user_vma vma → path_ok (path_of vma).
Proof.
  unfold user_vma. rewrite GIGA_SIZE_eq. intros Hv. split; [cbn; lia|]. cbn.
  split_and!; try apply VPN0_range; try apply VPN1_range; try apply VPN2_range; try done.
  intros _. rewrite VPN2_eq. rewrite Z.mod_small.
  - apply Z.div_le_lower_bound; lia.
  - split; [apply Z.div_pos; lia|]. apply Z.div_lt_upper_bound; lia.
Qed.
Lemma user_vma_wf vma : user_vma vma → wellformed_vma vma = true.
Proof.
  unfold user_vma. rewrite GIGA_SIZE_eq. intros Hv. unfold wellformed_vma.
  rewrite s64_small by lia. rewrite Z.shiftr_div_pow2 by lia. by rewrite Z.div_small by lia.
Qed.
#[export] Hint Resolve user_vma_path user_vma_wf : core.

Lemma path_of_inj a b :
  user_vma a → user_vma b → path_of a = path_of b → a / 4096 = b / 4096.
Proof.
  unfold user_vma. rewrite GIGA_SIZE_eq. intros Ha Hb [= H0 H1 H2].
  apply vpn_inj; auto; lia.
Qed.
Lemma path_of_page a b : a / 4096 = b / 4096 → path_of a = path_of b.
Proof.
  intros He. unfold path_of. rewrite !VPN0_eq, !VPN1_eq, !VPN2_eq. change (2 ^ 12) with 4096.
  change (2 ^ 21) with (4096 * 512). change (2 ^ 30) with (4096 * 262144).
  by rewrite <- !Z.div_div, He by lia.
Qed.

Section Mapping.
Context (root : Z).
Abbreviation node_at := (node_at root).
Abbreviation entry_at := (entry_at root).
Abbreviation pt_inv := (pt_inv root).
Abbreviation pt_step := (pt_step root).

(** ** walk_pt *)

Lemma walk_level_lookup m l p i t :
  pt_inv m l → path_ok (i :: p) → node_at m p = Some t →
  walk_level t i 0 m = Done (match node_at m (i :: p) with Some t' => Some (t', m) | None => None end).
Proof.
  intros Hi Hp Hn. pose proof (node_ram _ _ _ _ _ Hi Hn ltac:(eauto)) as Ht.
  unfold walk_level. rewrite ld_page by eauto. cbn. rewrite Hn.
  by destruct (has PTE_V (rd m (t + 8 * i))).
Qed.

Lemma walk_pt_lookup m l vma :
  pt_inv m l → user_vma vma →
  walk_pt root vma 0 m =
    Done (match node_at m [VPN1 vma; VPN2 vma] with
          | Some t => Some (t + 8 * VPN0 vma) | None => None end, m).
Proof.
  intros Hi Hv. pose proof (user_vma_path _ Hv) as Hp. unfold walk_pt.
  rewrite user_vma_wf by done. cbn [negb].
  rewrite (walk_level_lookup m l [] (VPN2 vma) root Hi) by (done || unfold path_of in Hp; eauto).
  cbn [mbind outcome_bind]. destruct (node_at m [VPN2 vma]) as [t1|] eqn:H1.
  - rewrite (walk_level_lookup m l [VPN2 vma] (VPN1 vma) t1 Hi) by (done || unfold path_of in Hp; eauto).
    cbn [mbind outcome_bind]. by destruct (node_at m [VPN1 vma; VPN2 vma]).
  - cbn [PageTables.node_at] in *. by rewrite H1.
Qed.

Lemma walk_pt_create m l vma :
  pt_inv m l → user_vma vma → (2 ≤ length l)%nat →
  ∃ t m' l' used, walk_pt root vma 1 m = Done (Some (t + 8 * VPN0 vma), m') ∧
    pt_step m l m' l' used ∧ (length used ≤ 2)%nat ∧ node_at m' [VPN1 vma; VPN2 vma] = Some t ∧
    (∀ p, path_ok p → length p = 3%nat → entry_at m' p = entry_at m p).
Proof.
  intros Hi Hv Hl. pose proof (user_vma_path _ Hv) as Hp. unfold path_of in Hp.
  destruct (walk_level_create root m l [] (VPN2 vma) root)
    as (t1 & m1 & l1 & u1 & Hw1 & Hs1 & Hu1 & Hn1 & He1); [done|eauto|cbn; lia|done|lia|].
  pose proof (ps_used _ _ _ _ _ _ Hs1) as Hl1. rewrite Hl1, length_app in Hl.
  destruct (walk_level_create root m1 l1 [VPN2 vma] (VPN1 vma) t1)
    as (t2 & m2 & l2 & u2 & Hw2 & Hs2 & Hu2 & Hn2 & He2);
    [by eapply ps_inv|eauto|cbn; lia|done|lia|].
  exists t2, m2, l2, (u1 ++ u2). split_and!.
  - unfold walk_pt. rewrite user_vma_wf by done. cbn [negb]. rewrite Hw1. cbn [mbind outcome_bind].
    rewrite Hw2. done.
  - by eapply pt_step_trans.
  - rewrite length_app. lia.
  - done.
  - intros p Hp' Hl'. by rewrite He2, He1.
Qed.

(** ** Mapping a page *)

Lemma map_page_step m l vma f :
  pt_inv m l → active_space_root m = root → user_vma vma → (3 ≤ length l)%nat →
  ∃ q m' l' used, memory_alloc_and_map_page vma f m = Done (vma, m') ∧
    pt_step m l m' l' used ∧ (length used ≤ 3)%nat ∧ head l = Some q ∧
    (∀ i, 0 ≤ i < 512 → rd m' (q + 8 * i) = 0) ∧
    (∀ p, path_ok p → length p = 3%nat →
       entry_at m' p = if decide (p = path_of vma) then Some (pte_word (leaf_pte q f)) else entry_at m p).
Proof.
  intros Hi Hroot Hv Hl. destruct l as [|q l]; [cbn in Hl; lia|].
  pose proof (user_vma_path _ Hv) as Hp.
  destruct (alloc_step root m q l Hi) as (m1 & Ha & Hs1 & Hsame & H0 & Hfr).
  assert (Hq : ram_page q).
  { destruct (pt_free _ _ _ Hi) as (_ & _ & Hps). by apply Forall_cons in Hps as [? _]. }
  destruct (walk_pt_create m1 l vma) as (t & m2 & l2 & u2 & Hw & Hs2 & Hu2 & Hn2 & He2);
    [by eapply ps_inv|done|cbn in Hl; lia|].
  pose proof (pt_step_trans _ _ _ _ _ _ _ _ _ Hs1 Hs2) as Hs12.
  pose proof (ps_inv _ _ _ _ _ _ Hs2) as Hi2.
  set (e := pte_word (leaf_pte q f)).
  assert (Hqe : entry_page e = q) by (apply leaf_entry_page; auto).
  assert (Hqn : ∀ p, path_ok p → node_at m2 p ≠ Some q).
  { intros p Hp' Hn'. destruct (ps_nodes _ _ _ _ _ _ Hs2 p q Hp' Hn') as [Hn''|Hin].
    - rewrite (proj1 (Hsame p Hp')) in Hn''.
      eapply (pt_inv_fresh root m l [q] _ q p); eauto. set_solver.
    - destruct (pt_free _ _ _ Hi) as (_ & Hnd & _). apply NoDup_cons in Hnd as [Hnq _].
      apply Hnq. rewrite (ps_used _ _ _ _ _ _ Hs2). set_solver. }
  destruct (pt_step_store root m (q :: l) m2 l2 ([q] ++ u2) [VPN1 vma; VPN2 vma] (VPN0 vma) t e)
    as [Hs3 Hnodes].
  { done. } { done. } { done. } { done. } { apply leaf_valid. } { rewrite Hqe. set_solver. }
  { intros p Hp'. rewrite Hqe. intros Hn'. by destruct (Hqn p Hp'). }
  { cbn. lia. } { cbn. lia. } { cbn. lia. }
  pose proof (node_ram _ _ _ _ _ Hi2 Hn2 ltac:(unfold path_of in Hp; eauto)) as Ht.
  exists q, (upd (t + 8 * VPN0 vma) e m2), l2, ([q] ++ u2). split_and!.
  - unfold memory_alloc_and_map_page. rewrite user_vma_wf by done. cbn [negb].
    rewrite Ha. cbn [mbind outcome_bind].
    replace (active_space_root m1) with root.
    2:{ rewrite <- Hroot. unfold active_space_root, active_space_mtag.
        by destruct (ps_regs _ _ _ _ _ _ Hs1) as (-> & _). }
    rewrite Hw. cbn [mbind outcome_bind deref]. by rewrite sd_page by eauto with word.
  - done.
  - rewrite length_app. cbn. lia.
  - done.
  - intros i Hr. rewrite rd_upd_ne.
    2:{ intros Heq. apply (Hqn [VPN1 vma; VPN2 vma]); [unfold path_of in Hp; eauto|].
        rewrite Hn2. f_equal. apply (ram_page_disjoint t q (q + 8 * i)); auto.
        rewrite <- Heq. apply in_page_word; eauto with word. }
    rewrite (ps_frame _ _ _ _ _ _ Hs2); [auto| |].
    + intros u Hu Hin. destruct (pt_free _ _ _ Hi) as (_ & Hnd & Hps).
      apply NoDup_cons in Hnd as [Hnq _]. apply Forall_cons in Hps as [_ Hps].
      rewrite Forall_forall in Hps. assert (Hul : u ∈ l) by (rewrite (ps_used _ _ _ _ _ _ Hs2); set_solver).
      assert (u = q) as -> by (apply (ram_page_disjoint u q (q + 8 * i)); auto). done.
    + intros p t' Hp' Hl' Hn' Hin.
      assert (t' = q) as ->.
      { apply (ram_page_disjoint t' q (q + 8 * i)); auto. exact (node_ram _ _ _ _ _ (ps_inv _ _ _ _ _ _ Hs1) Hn' Hp'). }
      rewrite (proj1 (Hsame p Hp')) in Hn'.
      eapply (pt_inv_fresh root m l [q] _ q p); eauto. set_solver.
  - intros p Hp' Hl'. rewrite (proj2 (Hnodes p Hp')). unfold path_of.
    case_decide as Hpp; [done|]. case_decide as Hsuf.
    { exfalso. apply Hpp. destruct Hsuf as [k ->]. rewrite length_app in Hl'. cbn in Hl'.
      by destruct k; [|cbn in Hl'; lia]. }
    rewrite He2 by done. apply Hsame. done.
Qed.

(** Translations that are not touched, with the contents of their pages. *)
Lemma translate_node v m e :
  user_vma v → translate root v m = Some e → node_at m (path_of v) = Some (entry_page e).
Proof. intros Hv He. unfold path_of. rewrite node_entry. unfold translate, path_of in He. by rewrite He. Qed.

Lemma step_data m l m' l' used v e i :
  pt_inv m l → pt_step m l m' l' used → user_vma v → translate root v m = Some e → 0 ≤ i < 512 →
  rd m' (entry_page e + 8 * i) = rd m (entry_page e + 8 * i).
Proof.
  intros Hi Hs Hv He Hr. eapply pt_step_data; [exact Hi|exact Hs|by apply user_vma_path|done| |done].
  by apply translate_node.
Qed.

(** [memory_alloc_and_map_page] on an address above the kernel's gigabytes,
    with three free pages, maps its page to the first free page, filled with
    zeros, with the requested flags and A, D and V; every other page keeps its
    translation and its contents, and the invariant of the memory space is kept. *)
Theorem memory_alloc_and_map_page_spec m l vma f :
  pt_inv m l → active_space_root m = root → user_vma vma → (3 ≤ length l)%nat →
  ∃ q m' l' used, memory_alloc_and_map_page vma f m = Done (vma, m') ∧
    pt_inv m' l' ∧ l = used ++ l' ∧ head l = Some q ∧
    translate root vma m' = Some (pte_word (leaf_pte q f)) ∧
    (∀ i, 0 ≤ i < 512 → rd m' (q + 8 * i) = 0) ∧
    (∀ v, user_vma v → v / 4096 ≠ vma / 4096 →
       translate root v m' = translate root v m ∧
       ∀ e i, translate root v m = Some e → 0 ≤ i < 512 →
         rd m' (entry_page e + 8 * i) = rd m (entry_page e + 8 * i)).
Proof.
  intros Hi Hroot Hv Hl.
  destruct (map_page_step m l vma f Hi Hroot Hv Hl) as (q & m' & l' & used & Hm & Hs & _ & Hq & H0 & He).
  exists q, m', l', used. split_and!; try done.
  - by eapply ps_inv.
  - by eapply ps_used.
  - unfold translate. rewrite He by (done || auto). by rewrite decide_True.
  - intros v Hv' Hne. split.
    + unfold translate. rewrite He by (done || auto). rewrite decide_False; [done|].
      intros Heq. by apply Hne, path_of_inj.
    + intros e i Ht Hr. by eapply step_data.
Qed.

(** ** Mapping a range *)

Lemma map_range_steps vma f n : ∀ x m l,
  pt_inv m l → active_space_root m = root → 0 ≤ x →
  (∀ y, x ≤ y < x + Z.of_nat n → user_vma (vma + y * 4096)) → (3 * n ≤ length l)%nat →
  ∃ m' l' used,
    for_range n x (λ x m, '(_, m) ← memory_alloc_and_map_page (u64 (vma + x * PAGE_SIZE)) f m; Done m) m
      = Done m' ∧
    pt_step m l m' l' used ∧ (length used ≤ 3 * n)%nat ∧
    (∀ v, user_vma v →
       if decide (x ≤ v / 4096 - vma / 4096 < x + Z.of_nat n) then
         ∃ q, q ∈ used ∧ translate root v m' = Some (pte_word (leaf_pte q f)) ∧
              ∀ i, 0 ≤ i < 512 → rd m' (q + 8 * i) = 0
       else translate root v m' = translate root v m).
Proof.
  induction n as [|n IH]; intros x m l Hi Hroot Hx Hu Hl.
  { exists m, l, []. split_and!; [done|by apply pt_step_refl|cbn; lia|]. intros v Hv.
    rewrite decide_False; [done|lia]. }
  assert (Hux : user_vma (vma + x * 4096)) by (apply Hu; lia).
  destruct (map_page_step m l (vma + x * 4096) f Hi Hroot Hux ltac:(lia))
    as (q & m1 & l1 & u1 & Hm & Hs1 & Hl1 & Hq & H0 & He).
  pose proof (ps_used _ _ _ _ _ _ Hs1) as Hu1. pose proof (ps_inv _ _ _ _ _ _ Hs1) as Hi1.
  assert (active_space_root m1 = root) as Hroot1.
  { rewrite <- Hroot. unfold active_space_root, active_space_mtag.
    by destruct (ps_regs _ _ _ _ _ _ Hs1) as (-> & _). }
  destruct (IH (x + 1) m1 l1 Hi1 Hroot1) as (m2 & l2 & u2 & Hf & Hs2 & Hl2 & Ht2); [lia|..].
  { intros y Hy. apply Hu. lia. } { rewrite Hu1, length_app in Hl. lia. }
  assert (Hdiv : (vma + x * 4096) / 4096 = vma / 4096 + x) by by rewrite Z.div_add.
  assert (Ht1 : ∀ v, user_vma v → translate root v m1 =
    if decide (v / 4096 - vma / 4096 = x) then Some (pte_word (leaf_pte q f)) else translate root v m).
  { intros v Hv. unfold translate. rewrite He by (done || auto). symmetry. case_decide as Hc.
    - rewrite decide_True; [done|]. apply path_of_page. lia.
    - rewrite decide_False; [done|]. intros Heq%path_of_inj; auto. lia. }
  exists m2, l2, (u1 ++ u2). split_and!.
  - cbn [for_range]. rewrite PAGE_SIZE_eq. unfold user_vma in Hux. rewrite GIGA_SIZE_eq in Hux.
    rewrite u64_small by lia. rewrite Hm. exact Hf.
  - by eapply pt_step_trans.
  - rewrite length_app. lia.
  - intros v Hv. specialize (Ht2 v Hv). specialize (Ht1 v Hv).
    destruct (decide (v / 4096 - vma / 4096 = x)) as [Hc|Hc].
    + rewrite decide_True by lia. rewrite decide_False in Ht2 by lia. rewrite Ht1 in Ht2.
      exists q. split_and!; [|done|].
      * apply elem_of_app. left. destruct u1 as [|q' u1].
        -- cbn in Hu1. assert (Hinq : q ∈ l1) by (rewrite <- Hu1; by apply head_Some_elem_of).
           exfalso. assert (Hqp : is_page q).
           { destruct (pt_free _ _ _ Hi1) as (_ & _ & Hps). rewrite Forall_forall in Hps. auto. }
           eapply (node_not_free _ _ _ _ q Hi1); [|by apply user_vma_path|exact Hinq].
           rewrite (translate_node v _ _ Hv Ht1). exact (f_equal Some (leaf_entry_page q f Hqp)).
        -- rewrite Hu1 in Hq. injection Hq as ->. by apply list_elem_of_here.
      * intros i Hr.
        assert (Hqp : is_page q).
        { destruct (pt_free _ _ _ Hi) as (_ & _ & Hps). rewrite Forall_forall in Hps.
          apply ram_page_is_page, Hps. by apply head_Some_elem_of. }
        pose proof (step_data _ _ _ _ _ v _ i Hi1 Hs2 Hv Ht1 Hr) as Hd.
        pose proof (leaf_entry_page q f Hqp) as Hlp. rewrite Hlp in Hd. rewrite Hd. auto.
    + destruct (decide (x ≤ v / 4096 - vma / 4096 < x + Z.of_nat (S n))).
      * rewrite decide_True in Ht2 by lia. destruct Ht2 as (q2 & Hq2 & Ht2 & H02).
        exists q2. split; [apply elem_of_app; by right|]. by split.
      * rewrite decide_False in Ht2 by lia. by rewrite Ht2, Ht1.
Qed.

Lemma num_pages_spec size :
  0 ≤ size < 2 ^ 42 → num_pages size = (size + 4095) / 4096.
Proof.
  intros Hs. unfold num_pages. rewrite PAGE_SIZE_eq.
  pose proof (Z.div_mod size 4096 ltac:(lia)). pose proof (Z.mod_pos_bound size 4096 ltac:(lia)).
  rewrite s32_small by lia. destruct (Z.ltb_spec 0 (size mod 4096)).
  - apply Z.div_unique with (size mod 4096 - 1); lia.
  - apply Z.div_unique with 4095; lia.
Qed.

(** C19: [memory_alloc_and_map_range] maps the ceil(size / 4096) pages that start
    with the page of [vma] to distinct fresh pages filled with zeros, and keeps
    every other translation, the contents of every other page and the invariant.
    On a page-aligned [vma] these are the pages of the range. *)
Theorem memory_alloc_and_map_range_spec m l vma size f :
  let n := (size + 4095) / 4096 in
  pt_inv m l → active_space_root m = root → user_vma vma → 0 ≤ size → vma + size ≤ 2 ^ 38 →
  3 * n ≤ Z.of_nat (length l) →
  ∃ m' l' used, memory_alloc_and_map_range vma size f m = Done (vma, m') ∧
    pt_inv m' l' ∧ l = used ++ l' ∧
    (∀ v, user_vma v → 0 ≤ v / 4096 - vma / 4096 < n →
       ∃ q, q ∈ used ∧ translate root v m' = Some (pte_word (leaf_pte q f)) ∧
            ∀ i, 0 ≤ i < 512 → rd m' (q + 8 * i) = 0) ∧
    (∀ v, user_vma v → ¬ (0 ≤ v / 4096 - vma / 4096 < n) →
       translate root v m' = translate root v m ∧
       ∀ e i, translate root v m = Some e → 0 ≤ i < 512 →
         rd m' (entry_page e + 8 * i) = rd m (entry_page e + 8 * i)) ∧
    (vma mod 4096 = 0 → ∀ a, vma ≤ a < vma + size → translate root a m' ≠ None).
Proof.
  intros n Hi Hroot Hv Hs Hend Hl.
  assert (Hn0 : 0 ≤ n) by (apply Z.div_pos; lia).
  assert (Hn : n * 4096 < size + 4096).
  { unfold n. pose proof (Z.div_mod (size + 4095) 4096 ltac:(lia)).
    pose proof (Z.mod_pos_bound (size + 4095) 4096 ltac:(lia)). lia. }
  unfold user_vma in Hv. rewrite GIGA_SIZE_eq in Hv.
  destruct (map_range_steps vma f (Z.to_nat n) 0 m l Hi Hroot ltac:(lia))
    as (m' & l' & used & Hf & Hst & _ & Ht).
  { intros y Hy. unfold user_vma. rewrite GIGA_SIZE_eq. lia. } { lia. }
  rewrite Z2Nat.id in Ht by lia. exists m', l', used. split_and!.
  - unfold memory_alloc_and_map_range. rewrite num_pages_spec by lia. fold n. by rewrite Hf.
  - by eapply ps_inv.
  - by eapply ps_used.
  - intros v Hv' Hc. specialize (Ht v Hv'). by rewrite decide_True in Ht by lia.
  - intros v Hv' Hc. specialize (Ht v Hv'). rewrite decide_False in Ht by lia.
    split; [done|]. intros e i He Hr. by eapply step_data.
  - intros Hal a Ha. assert (user_vma a) as Hua by (unfold user_vma; rewrite GIGA_SIZE_eq; lia).
    specialize (Ht a Hua). apply Z.div_exact in Hal; [|lia].
    rewrite decide_True in Ht; [by destruct Ht as (q & _ & -> & _)|].
    pose proof (Z.div_mod a 4096 ltac:(lia)). pose proof (Z.mod_pos_bound a 4096 ltac:(lia)).
    unfold n in *. pose proof (Z.div_mod (size + 4095) 4096 ltac:(lia)).
    pose proof (Z.mod_pos_bound (size + 4095) 4096 ltac:(lia)). lia.
Qed.

(** ** Changing flags *)

Definition new_flags (f : Z) : Z := u8 (Z.lor (Z.lor (Z.lor f PTE_A) PTE_D) PTE_V).

Lemma set_flags_word f e :
  let e' := pte_word (set_flags (new_flags f) (word_pte e)) in
  word_pte e' = set_flags (new_flags f) (word_pte e) ∧ entry_page e' = entry_page e ∧ has PTE_V e' = true.
Proof.
  assert (Hw : word_pte (pte_word (set_flags (new_flags f) (word_pte e))) = set_flags (new_flags f) (word_pte e)).
  { apply word_pte_word. unfold pte_fits, set_flags, word_pte; cbn.
    pose proof (u8_range (Z.lor (Z.lor (Z.lor f PTE_A) PTE_D) PTE_V)). unfold new_flags.
    split_and!; first [lia | apply Z.mod_pos_bound; lia]. }
  cbn zeta. split_and!; [done|by unfold entry_page; rewrite Hw|].
  unfold has. rewrite Hw. change PTE_V with (Z.shiftl 1 0) at 1. rewrite land_shiftl by lia.
  cbn [flags set_flags]. unfold new_flags. rewrite u8_testbit by lia. rewrite !Z.lor_spec.
  change (Z.testbit PTE_V 0) with true. by rewrite orb_true_r.
Qed.

(** The entry of a mapped page is rewritten in place; the mapped pages keep their
    contents. *)
Lemma set_page_flags_step m l vma f e :
  pt_inv m l → active_space_root m = root → user_vma vma → translate root vma m = Some e →
  ∃ m' e', memory_set_page_flags vma f m = Done m' ∧ pt_inv m' l ∧ same_regs m m' ∧
    word_pte e' = set_flags (new_flags f) (word_pte e) ∧ entry_page e' = entry_page e ∧
    (∀ v, user_vma v → translate root v m' = if decide (v / 4096 = vma / 4096) then Some e' else translate root v m) ∧
    (∀ p d i, path_ok p → length p = 3%nat → node_at m p = Some d → 0 ≤ i < 512 → rd m' (d + 8 * i) = rd m (d + 8 * i)).
Proof.
  intros Hi Hroot Hv He. unfold memory_set_page_flags. rewrite Hroot, (walk_pt_lookup m l) by done.
  cbn [mbind outcome_bind]. pose proof (user_vma_path _ Hv) as Hp. unfold path_of in Hp.
  pose proof He as He'. unfold translate, path_of in He'. cbn [PageTables.entry_at] in He'.
  destruct (node_at m [VPN1 vma; VPN2 vma]) as [t|] eqn:Hn; [|done].
  destruct (has PTE_V (rd m (t + 8 * VPN0 vma))) eqn:Hv0; [|done]. injection He' as <-.
  pose proof (node_ram _ _ _ _ _ Hi Hn ltac:(eauto)) as Ht.
  rewrite ld_page by eauto with word. cbn [mbind outcome_bind]. rewrite sd_page by eauto with word.
  set (e0 := rd m (t + 8 * VPN0 vma)) in *. fold (new_flags f).
  destruct (set_flags_word f e0) as (Hw & Hpg & Hval).
  set (e' := pte_word (set_flags (new_flags f) (word_pte e0))) in *.
  set (m' := upd (t + 8 * VPN0 vma) e' m).
  pose proof (translate_node _ _ _ Hv He) as Hnode.
  assert (Hfresh : ∀ p', path_ok p' → node_at m p' = Some (entry_page e') → p' = path_of vma).
  { intros p' Hp'. rewrite Hpg. intros Hn'. eapply pt_inj; eauto. }
  assert (Hfr : ∀ a, a ≠ t + 8 * VPN0 vma → ¬ in_page (entry_page e') a → rd m' a = rd m a)
    by (intros; by apply rd_upd_ne).
  assert (Hre : rd m' (t + 8 * VPN0 vma) = e') by apply rd_upd_eq.
  assert (Hram : ram_page (entry_page e')).
  { rewrite Hpg. by eapply node_ram; eauto. }
  exists m', e'. split_and!; [done| |apply same_regs_upd|done|done| |].
  - eapply (set_entry_inv root m m' l _ _ t e' Hi Hp Hn Hre Hval Hram Hfresh); cbn; [lia|done|done| |lia].
    rewrite Hpg. by eapply node_not_free; eauto.
  - intros v Hv'. unfold translate.
    rewrite (set_entry_entry root m m' l _ _ t e' Hi Hp Hn Hre Hval Hram Hfresh); [|cbn; lia|done|auto].
    case_decide as Hpp.
    + rewrite decide_True; [done|]. by apply path_of_inj.
    + rewrite decide_False.
      2:{ intros [k Hk]. apply Hpp. assert (length (path_of v) = length (k ++ path_of vma)) as Hlen by by rewrite Hk.
          rewrite length_app in Hlen. cbn in Hlen. destruct k; [done|cbn in Hlen; lia]. }
      rewrite decide_False; [done|]. intros Hq. by apply Hpp, path_of_page.
  - intros p d i Hpd Hl Hd Hr. apply rd_upd_ne. intros Heq.
    destruct (entry_addr_inj root m l [VPN1 vma; VPN2 vma] p t d (VPN0 vma) i Hi ltac:(eauto) Hpd Hn Hd
      ltac:(eauto with word) Hr Heq) as [<- _]. done.
Qed.

(** [memory_set_page_flags] on a mapped page replaces exactly the flags of its
    entry, with A, D and V added; the page it maps, every other translation and
    the invariant stay.  Without a level 0 table it panics; on an unmapped page
    whose level 0 table exists it makes the entry valid, so that a zero entry then
    maps physical page 0. *)
Theorem memory_set_page_flags_spec m l vma f :
  pt_inv m l → active_space_root m = root → user_vma vma →
  match node_at m [VPN1 vma; VPN2 vma] with
  | None => ∃ msg, memory_set_page_flags vma f m = Panicked msg
  | Some t =>
      ∃ m', memory_set_page_flags vma f m = Done m' ∧
        translate root vma m' =
          Some (pte_word (set_flags (new_flags f) (word_pte (rd m (t + 8 * VPN0 vma))))) ∧
        (rd m (t + 8 * VPN0 vma) = 0 → ∃ e, translate root vma m' = Some e ∧ entry_page e = 0) ∧
        ∀ e, translate root vma m = Some e →
          pt_inv m' l ∧ (∃ e', translate root vma m' = Some e' ∧ entry_page e' = entry_page e) ∧
          ∀ v, user_vma v → v / 4096 ≠ vma / 4096 → translate root v m' = translate root v m
  end.
Proof.
  intros Hi Hroot Hv. unfold memory_set_page_flags. rewrite Hroot, (walk_pt_lookup m l) by done.
  cbn [mbind outcome_bind]. pose proof (user_vma_path _ Hv) as Hp. unfold path_of in Hp.
  destruct (node_at m [VPN1 vma; VPN2 vma]) as [t|] eqn:Hn; [|by eexists].
  pose proof (node_ram _ _ _ _ _ Hi Hn ltac:(eauto)) as Ht.
  rewrite ld_page by eauto with word. cbn [mbind outcome_bind]. rewrite sd_page by eauto with word.
  set (e0 := rd m (t + 8 * VPN0 vma)). fold (new_flags f).
  destruct (set_flags_word f e0) as (Hw & Hpg & Hval).
  set (e' := pte_word (set_flags (new_flags f) (word_pte e0))) in *.
  set (m' := upd (t + 8 * VPN0 vma) e' m).
  assert (Hp1 : path_ok [VPN1 vma; VPN2 vma]) by eauto.
  assert (Hp2 : path_ok [VPN2 vma]) by eauto.
  assert (Htr : translate root vma m' = Some e').
  { assert (Hsame : node_at m' [VPN1 vma; VPN2 vma] = Some t); [|].
    2:{ unfold translate, path_of. cbn [PageTables.entry_at]. rewrite Hsame. unfold m'.
        by rewrite rd_upd_eq, Hval. }
    revert Hn. cbn [PageTables.node_at]. intros Hn.
    destruct (has PTE_V (rd m (root + 8 * VPN2 vma))) eqn:Hv2; [|done].
    assert (Hn1 : node_at m [VPN2 vma] = Some (entry_page (rd m (root + 8 * VPN2 vma))))
      by (cbn; by rewrite Hv2).
    assert (Hn0 : node_at m [VPN1 vma; VPN2 vma] = Some t) by (cbn; by rewrite Hv2).
    unfold m'. rewrite (rd_upd_ne _ _ _ (root + _)), Hv2.
    2:{ intros Heq. destruct (entry_addr_inj root m l _ _ _ _ _ _ Hi Hp1 path_ok_nil Hn0 eq_refl
          ltac:(eauto with word) ltac:(eauto with word) Heq) as [[=] _]. }
    rewrite rd_upd_ne; [done|].
    intros Heq. destruct (entry_addr_inj root m l _ _ _ _ _ _ Hi Hp1 Hp2 Hn0 Hn1
      ltac:(eauto with word) ltac:(eauto with word) Heq) as [[=] _]. }
  exists m'. split_and!; [done|done| |].
  - intros He0. exists e'. split; [done|]. by rewrite Hpg, He0.
  - intros e He. destruct (set_page_flags_step m l vma f e Hi Hroot Hv He)
      as (m2 & e2 & Hm2 & Hi2 & _ & _ & Hpg2 & Ht2 & _).
    unfold memory_set_page_flags in Hm2. rewrite Hroot, (walk_pt_lookup m l) in Hm2 by done.
    cbn [mbind outcome_bind] in Hm2. rewrite Hn, ld_page in Hm2 by eauto with word. cbn [mbind outcome_bind] in Hm2.
    rewrite sd_page in Hm2 by eauto with word. injection Hm2 as <-. split_and!.
    + exact Hi2.
    + exists e2. split; [|done]. pose proof (Ht2 vma Hv) as Hx. rewrite decide_True in Hx by done. exact Hx.
    + intros v Hv' Hne. pose proof (Ht2 v Hv') as Hx. rewrite decide_False in Hx by done. exact Hx.
Qed.
End Mapping.

(** ** Witnesses *)

(** An empty space with its root at the second page of RAM and ten free pages. *)
Definition root_example : Z := 0x80001000.
Definition free_example : list Z :=
  [0x80100000; 0x80101000; 0x80102000; 0x80103000; 0x80104000; 0x80105000; 0x80106000; 0x80107000; 0x80108000; 0x80109000].
Definition mem_example : mem :=
  Mem (list_to_map [(0x80100000, 0x80101000); (0x80101000, 0x80102000); (0x80102000, 0x80103000);
                    (0x80103000, 0x80104000); (0x80104000, 0x80105000); (0x80105000, 0x80106000);
                    (0x80106000, 0x80107000); (0x80107000, 0x80108000); (0x80108000, 0x80109000)])
    0x80100000 (make_mtag root_example) (make_mtag root_example) true.

Lemma mem_example_root i : 0 ≤ i < 512 → rd mem_example (root_example + 8 * i) = 0.
Proof.
  intros Hi. unfold rd, mem_example, root_example; cbn [ram list_to_map foldr uncurry].
  rewrite !lookup_insert_ne by (cbn; lia). by rewrite lookup_empty.
Qed.

Lemma mem_example_empty p : path_ok p → p ≠ [] → entry_at root_example mem_example p = None.
Proof.
  destruct p as [|i p]; [done|]. intros Hp _. refine (proj2 (space_empty root_example mem_example _ p i Hp)).
  intros j Hj. by rewrite mem_example_root by lia.
Qed.

Lemma mem_example_inv : pt_inv root_example mem_example free_example.
Proof.
  pose proof mem_example_root as Hz. apply pt_inv_empty.
  - unfold ram_page, root_example. rewrite RAM_START_eq, RAM_END_eq. repeat split; lia.
  - unfold root_example, free_example. rewrite !not_elem_of_cons. repeat split; try lia. apply not_elem_of_nil.
  - split_and!.
    + cbn. repeat split.
    + unfold free_example. repeat (apply NoDup_cons; split; [rewrite ?not_elem_of_cons; repeat split; try lia; apply not_elem_of_nil|]).
      apply NoDup_nil_2.
    + unfold free_example. repeat constructor; rewrite ?RAM_START_eq, ?RAM_END_eq; lia.
  - intros i Hi. rewrite Hz by lia. done.
  - intros i Hi. rewrite Hz by lia. done.
Qed.

Lemma memory_alloc_and_map_page_spec_witness :
  ∃ m', memory_alloc_and_map_page 0xC0001000 6 mem_example = Done (0xC0001000, m') ∧
    translate root_example 0xC0001000 m' = Some (pte_word (leaf_pte 0x80100000 6)).
Proof.
  destruct (memory_alloc_and_map_page_spec root_example mem_example free_example 0xC0001000 6)
    as (q & m' & l' & used & Hm & _ & _ & [= <-] & Ht & _);
    [apply mem_example_inv|reflexivity|unfold user_vma; rewrite GIGA_SIZE_eq; lia|cbn; lia|].
  exists m'. split; [exact Hm|exact Ht].
Defined.

Lemma memory_alloc_and_map_range_spec_witness :
  ∃ m', memory_alloc_and_map_range 0xC0001000 5000 6 mem_example = Done (0xC0001000, m') ∧
    translate root_example 0xC0002008 m' ≠ None.
Proof.
  destruct (memory_alloc_and_map_range_spec root_example mem_example free_example 0xC0001000 5000 6)
    as (m' & l' & used & Hm & _ & _ & _ & _ & Ht);
    [apply mem_example_inv|reflexivity|unfold user_vma; rewrite GIGA_SIZE_eq; lia|lia|lia|vm_compute; discriminate|].
  exists m'. split; [exact Hm|]. apply Ht; [reflexivity|lia].
Defined.

Lemma memory_set_page_flags_spec_witness :
  ∃ msg, memory_set_page_flags 0xC0001000 6 mem_example = Panicked msg.
Proof.
  apply (memory_set_page_flags_spec root_example mem_example free_example 0xC0001000 6);
    [apply mem_example_inv|reflexivity|unfold user_vma; rewrite GIGA_SIZE_eq; lia].
Defined.
