(* ===== verification/Spaces.v ===== *)
(** Memory spaces as a whole: what [memory_init] sets up, the page-fault
    handler, and what [memory_unmap_and_free_user] and [memory_space_reclaim]
    give back. *)
From Stdlib Require Import ZArith Lia.
From stdpp Require Import base gmap list sets strings.
From S2P Require Import Prelude Pages Heap Pte Memory MemFacts PageTables Mapping.

Open Scope Z_scope.

(** ** Loops *)

Lemma for_range_ind (P : Z → mem → Prop) body n : ∀ i m,
  P i m →
  (∀ x m, i ≤ x < i + Z.of_nat n → P x m → ∃ m', body x m = Done m' ∧ P (x + 1) m') →
  ∃ m', for_range n i body m = Done m' ∧ P (i + Z.of_nat n) m'.
Proof.
  induction n as [|n IH]; intros i m Hp Hb.
  { exists m. split; [done|]. by rewrite Z.add_0_r. }
  destruct (Hb i m ltac:(lia) Hp) as (m1 & H1 & Hp1).
  destruct (IH (i + 1) m1 Hp1) as (m2 & H2 & Hp2); [intros x m'' Hx; apply Hb; lia|].
  exists m2. split; [cbn [for_range]; by rewrite H1|]. by replace (i + Z.of_nat (S n)) with (i + 1 + Z.of_nat n) by lia.
Qed.

Lemma for_step_ind (P : mem → Prop) body step fin : 0 < step → ∀ fuel pp m,
  fin - pp < step * (Z.of_nat fuel + 1) →
  P m → (∀ x m, pp ≤ x < fin → P m → ∃ m', body x m = Done m' ∧ P m') →
  fin ≤ pp ∨ 0 < Z.of_nat fuel →
  fin - pp ≤ step * Z.of_nat fuel →
  ∃ m', for_step fuel pp fin step body m = Done m' ∧ P m'.
Proof.
  intros Hstep. induction fuel as [|fuel IH]; intros pp m Hf Hp Hb Hz Hle; cbn [for_step].
  - destruct (Z.ltb_spec pp fin); [lia|eauto].
  - destruct (Z.ltb_spec pp fin); [|eauto].
    destruct (Hb pp m ltac:(lia) Hp) as (m1 & H1 & Hp1). rewrite H1. cbn [mbind outcome_bind].
    apply IH; [lia|done|intros x m' Hx; apply Hb; lia|lia|lia].
Qed.

Lemma for_pages_ind (P : mem → Prop) pp fin step body m :
  0 < step → P m → (∀ x m, pp ≤ x < fin → P m → ∃ m', body x m = Done m' ∧ P m') →
  ∃ m', for_pages pp fin step body m = Done m' ∧ P m'.
Proof.
  intros Hs Hp Hb. unfold for_pages. destruct (Z.le_gt_cases fin pp) as [Hle|Hgt].
  { exists m. split; [|done]. destruct (Z.to_nat _); cbn [for_step]; by destruct (Z.ltb_spec pp fin); [lia|]. }
  assert (0 ≤ (fin - pp) / step) by (apply Z.div_pos; lia).
  pose proof (Z.div_mod (fin - pp) step ltac:(lia)).
  pose proof (Z.mod_pos_bound (fin - pp) step ltac:(lia)).
  apply for_step_ind; [done| |done|done| |]; lia.
Qed.

(** ** memory_init *)

(** [n] pages from [p] on. *)
Fixpoint pages_from (p : Z) (n : nat) : list Z :=
  match n with O => [] | S n => p :: pages_from (p + 4096) n end.

Lemma elem_of_pages_from n : ∀ p q, q ∈ pages_from p n → ∃ i, 0 ≤ i < Z.of_nat n ∧ q = p + 4096 * i.
Proof.
  induction n as [|n IH]; intros p q; cbn; [by intros Hq%elem_of_nil|].
  intros [->|Hq]%elem_of_cons; [exists 0; lia|]. destruct (IH _ _ Hq) as (i & Hi & ->).
  exists (i + 1). lia.
Qed.

Lemma pages_from_NoDup n : ∀ p, NoDup (pages_from p n).
Proof.
  induction n as [|n IH]; intros p; cbn; constructor; [|done].
  intros Hq%elem_of_pages_from. destruct Hq as (i & Hi & Hp). lia.
Qed.

Lemma pages_from_ram n p :
  p mod 4096 = 0 → RAM_START ≤ p → p + 4096 * Z.of_nat n ≤ RAM_END → Forall ram_page (pages_from p n).
Proof.
  intros Hp H1 H2. apply Forall_forall. intros q Hq%elem_of_pages_from.
  destruct Hq as (i & Hi & ->). unfold ram_page. split_and!; [|lia|lia].
  by rewrite Z.mul_comm, Z.mod_add by lia.
Qed.

Lemma link_pages_spec n : ∀ p m,
  p mod 4096 = 0 → RAM_START ≤ p → p + 4096 * Z.of_nat (S n) ≤ RAM_END →
  ∃ m', link_pages n p m = Done m' ∧ same_regs m m' ∧ free_list m' = free_list m ∧
    fl_rep m' p (pages_from p (S n)) ∧ (∀ a, a ∉ pages_from p (S n) → rd m' a = rd m a).
Proof.
  induction n as [|n IH]; intros p m Hp H1 H2.
  - assert (Hr : ram_page p) by (unfold ram_page; lia). cbn [link_pages]. rewrite sd_page_head by done.
    eexists. split_and!; [done..| |].
    + cbn. split; [done|]. by rewrite rd_upd_eq.
    + intros a Ha. apply rd_upd_ne. intros ->. apply Ha. cbn. by apply list_elem_of_here.
  - assert (Hr : ram_page p) by (unfold ram_page; lia).
    rewrite RAM_START_eq in H1. rewrite RAM_END_eq in H2.
    cbn [link_pages]. rewrite sd_page_head by done. cbn [mbind outcome_bind].
    rewrite ld_page_head, rd_upd_eq by done. cbn [mbind outcome_bind].
    rewrite PAGE_SIZE_eq, u64_small by lia.
    destruct (IH (p + 4096) (upd p (p + 4096) m)) as (m' & Hl & Hs & Hfl & Hf & Hfr).
    { rewrite Zplus_mod, Hp. done. } { rewrite RAM_START_eq. lia. } { rewrite RAM_END_eq. lia. }
    exists m'. split_and!; [done..| |].
    + change (fl_rep m' p (p :: pages_from (p + 4096) (S n))). split; [done|].
      rewrite Hfr; [by rewrite rd_upd_eq|].
      intros Hin%elem_of_pages_from. destruct Hin as (i & Hi & He). lia.
    + intros a Ha. change (a ∉ p :: pages_from (p + 4096) (S n)) in Ha.
      apply not_elem_of_cons in Ha as [Hne Ha]. rewrite Hfr by done. by apply rd_upd_ne.
Qed.

Lemma leaf_has p f k : 0 ≤ k < 8 →
  has (Z.shiftl 1 k) (pte_word (leaf_pte p f)) =
    Z.testbit (Z.lor (Z.lor (Z.lor f PTE_A) PTE_D) PTE_V) k.
Proof.
  intros Hk. unfold has. rewrite word_pte_word by eauto with word.
  rewrite land_shiftl by lia. cbn [flags leaf_pte]. by rewrite u8_testbit by lia.
Qed.
Lemma ptab_has p f k : 0 ≤ k < 8 →
  has (Z.shiftl 1 k) (pte_word (ptab_pte p f)) = Z.testbit (Z.lor f PTE_V) k.
Proof.
  intros Hk. unfold has. rewrite word_pte_word by eauto with word.
  rewrite land_shiftl by lia. cbn [flags ptab_pte]. by rewrite u8_testbit by lia.
Qed.

Lemma leaf_G p f :
  has PTE_G (pte_word (leaf_pte p f)) = Z.testbit (Z.lor (Z.lor (Z.lor f PTE_A) PTE_D) PTE_V) 5.
Proof. exact (leaf_has p f 5 ltac:(lia)). Qed.
Lemma ptab_G p f : has PTE_G (pte_word (ptab_pte p f)) = Z.testbit (Z.lor f PTE_V) 5.
Proof. exact (ptab_has p f 5 ltac:(lia)). Qed.

(** What the boot code and the linker script provide: the image starts at the
    start of RAM, fits a megapage, and holds the three tables, which are
    page-aligned and distinct. *)
Record kimg_ok (k : kimg) : Prop := {
  ko_start : kimg_start k = RAM_START;
  ko_end : RAM_START < kimg_end k ≤ RAM_START + MEGA_SIZE;
  ko_pt2 : ram_page (main_pt2 k) ∧ main_pt2 k + 4096 ≤ kimg_end k;
  ko_pt1 : ram_page (main_pt1 k) ∧ main_pt1 k + 4096 ≤ kimg_end k;
  ko_pt0 : ram_page (main_pt0 k) ∧ main_pt0 k + 4096 ≤ kimg_end k;
  ko_distinct : main_pt2 k ≠ main_pt1 k ∧ main_pt2 k ≠ main_pt0 k ∧ main_pt1 k ≠ main_pt0 k
}.

(** The root table during [map_main]. *)
Definition kernel_root (k : kimg) (m0 m : mem) : Prop :=
  same_regs m0 m ∧ free_list m = free_list m0 ∧
  (∀ i, 3 ≤ i < 512 → rd m (main_pt2 k + 8 * i) = 0) ∧
  (∀ i, 0 ≤ i < 3 → has PTE_V (rd m (main_pt2 k + 8 * i)) = true →
     has PTE_G (rd m (main_pt2 k + 8 * i)) = true).

Lemma kernel_root_other k m0 m t i v :
  ram_page (main_pt2 k) → ram_page t → main_pt2 k ≠ t → 0 ≤ i < 512 → kernel_root k m0 m →
  ∃ m', sd (t + 8 * i) v m = Done m' ∧ kernel_root k m0 m'.
Proof.
  intros H2 Ht Hne Hi (Hs & Hf & H3 & HG). rewrite sd_page by done. eexists. split; [done|].
  assert (Hrd : ∀ j, 0 ≤ j < 512 → rd (upd (t + 8 * i) v m) (main_pt2 k + 8 * j) = rd m (main_pt2 k + 8 * j)).
  { intros j Hj. apply rd_upd_ne. intros Heq. apply Hne.
    apply (ram_page_disjoint _ _ (t + 8 * i)); auto. rewrite Heq. auto. }
  split_and!; [by etrans|done| |]; intros j Hj; rewrite Hrd by lia; auto.
Qed.

Lemma kernel_root_low k m0 m i v :
  ram_page (main_pt2 k) → 0 ≤ i < 3 → has PTE_G v = true → kernel_root k m0 m →
  ∃ m', sd (main_pt2 k + 8 * i) v m = Done m' ∧ kernel_root k m0 m'.
Proof.
  intros H2 Hi HG' (Hs & Hf & H3 & HG). rewrite sd_page by (done || lia). eexists. split; [done|].
  split_and!; [by etrans|done| |].
  - intros j Hj. rewrite rd_upd_ne by lia. auto.
  - intros j Hj. rewrite rd_upd. case_decide; [done|auto].
Qed.

Lemma map_main_spec k m :
  kimg_ok k → (∀ i, 0 ≤ i < 512 → rd m (main_pt2 k + 8 * i) = 0) →
  ∃ m', map_main k m = Done m' ∧ kernel_root k m m'.
Proof.
  intros [_ _ [H2 _] [H1 _] [H0 _] (Hd1 & Hd2 & _)] Hz.
  assert (Hr : kernel_root k m m).
  { split_and!; [done|done| |]; intros i Hi; [apply Hz; lia|]. rewrite Hz by lia. done. }
  assert (Hother : ∀ t idx body pp fin step m1, ram_page t → main_pt2 k ≠ t → 0 < step →
    (∀ x, 0 ≤ idx x < 512) → kernel_root k m m1 →
    ∃ m', for_pages pp fin step (λ x, sd (t + 8 * idx x) (body x)) m1 = Done m' ∧ kernel_root k m m').
  { intros t idx body pp fin step m1 Ht Hne Hs Hidx Hk. apply for_pages_ind; [done|done|].
    intros x m2 Hx Hk2. by apply kernel_root_other. }
  unfold map_main.
  match goal with |- context [for_pages 0 ?fin ?st ?b ?mm] =>
    destruct (for_pages_ind (kernel_root k m) 0 fin st b mm) as (m1 & -> & Hk1) end; [done|done| |].
  { intros x m' Hx Hk. apply kernel_root_low; [done| |rewrite leaf_G; reflexivity|done].
    unfold RAM_START_PMA in Hx. rewrite VPN2_eq.
    assert (0 ≤ x / 2 ^ 30 < 2) by (split; [apply Z.div_pos; lia|apply Z.div_lt_upper_bound; lia]).
    rewrite Z.mod_small; lia. }
  cbn [mbind outcome_bind].
  destruct (kernel_root_low k m m1 (VPN2 RAM_START_PMA) (pte_word (ptab_pte (main_pt1 k) PTE_G)))
    as (m2 & -> & Hk2); [done|by cbn|rewrite ptab_G; reflexivity|done|]. cbn [mbind outcome_bind].
  destruct (kernel_root_other k m m2 (main_pt1 k) (VPN1 RAM_START_PMA) (pte_word (ptab_pte (main_pt0 k) PTE_G)))
    as (m3 & -> & Hk3); [done|done|done|apply VPN1_range|done|]. cbn [mbind outcome_bind].
  destruct (Hother (main_pt0 k) VPN0 (λ pp, pte_word (leaf_pte pp (Z.lor (Z.lor PTE_R PTE_X) PTE_G)))
    (kimg_text_start k) (kimg_text_end k) PAGE_SIZE m3) as (m4 & -> & Hk4);
    [done|done|done|apply VPN0_range|done|]. cbn [mbind outcome_bind].
  destruct (Hother (main_pt0 k) VPN0 (λ pp, pte_word (leaf_pte pp (Z.lor PTE_R PTE_G)))
    (kimg_rodata_start k) (kimg_rodata_end k) PAGE_SIZE m4) as (m5 & -> & Hk5);
    [done|done|done|apply VPN0_range|done|]. cbn [mbind outcome_bind].
  destruct (Hother (main_pt0 k) VPN0 (λ pp, pte_word (leaf_pte pp (Z.lor (Z.lor PTE_R PTE_W) PTE_G)))
    (kimg_data_start k) (RAM_START + MEGA_SIZE) PAGE_SIZE m5) as (m6 & -> & Hk6);
    [done|done|done|apply VPN0_range|done|]. cbn [mbind outcome_bind].
  apply (Hother (main_pt1 k) VPN1 (λ pp, pte_word (leaf_pte pp (Z.lor (Z.lor PTE_R PTE_W) PTE_G))));
    [done|done|done|apply VPN1_range|done].
Qed.

Lemma round_up_page p :
  0 ≤ p < 2 ^ 40 → p ≤ round_up_ptr p PAGE_SIZE < p + 4096 ∧ round_up_ptr p PAGE_SIZE mod 4096 = 0.
Proof.
  intros Hp. unfold round_up_ptr, round_up_addr. rewrite PAGE_SIZE_eq.
  rewrite (u64_small (p + 4096 - 1)) by lia.
  pose proof (Z.div_mod (p + 4096 - 1) 4096 ltac:(lia)).
  pose proof (Z.mod_pos_bound (p + 4096 - 1) 4096 ltac:(lia)).
  rewrite u64_small by lia. split; [lia|]. by apply Z.mod_mul.
Qed.

Lemma init_heap_end_spec k :
  0 ≤ kimg_end k < 2 ^ 40 →
  kimg_end k + HEAP_INIT_MIN ≤ init_heap_end k < kimg_end k + 8192 ∧ init_heap_end k mod 4096 = 0.
Proof.
  intros Hk. destruct (round_up_page (kimg_end k) Hk) as [Hr Hm].
  unfold init_heap_end. unfold HEAP_INIT_MIN.
  destruct (Z.ltb_spec (round_up_ptr (kimg_end k) PAGE_SIZE - kimg_end k) 256) as [Hlt|]; [|split; [lia|done]].
  set (d := 256 - (round_up_ptr (kimg_end k) PAGE_SIZE - kimg_end k)).
  destruct (round_up_page d ltac:(lia)) as [Hr' Hm'].
  assert (round_up_size d PAGE_SIZE = 4096) as ->.
  { change (round_up_size d PAGE_SIZE) with (round_up_ptr d PAGE_SIZE).
    apply Z.div_exact in Hm'; [|lia]. lia. }
  rewrite u64_small by lia. split; [lia|]. rewrite Zplus_mod, Hm. done.
Qed.

Lemma memory_init_runs k m :
  kimg_ok k → (∀ i, 0 ≤ i < 512 → rd m (main_pt2 k + 8 * i) = 0) →
  ∃ h, memory_init k m = Done h ∧
    let m' := heap_pages h in
    let free := pages_from (heap_end h) (Z.to_nat ((RAM_END - heap_end h) / 4096)) in
    heap_start h = kimg_end k ∧ HEAP_INIT_MIN ≤ heap_end h - heap_start h ∧
    heap_inv h [] free ∧ free_ok m' free ∧
    active_space_root m' = main_pt2 k ∧ active_space_mtag m' = main_mtag m' ∧
    pt_inv (main_pt2 k) m' free ∧ heap_end h = init_heap_end k ∧ heap_end h ≤ RAM_END ∧
    (∀ p, path_ok p → p ≠ [] → entry_at (main_pt2 k) m' p = None).
Proof.
  intros Hk Hz. destruct (map_main_spec k m Hk Hz) as (m1 & Hm1 & Hs1 & Hf1 & H3 & HG).
  pose proof (ko_end _ Hk) as He. rewrite RAM_START_eq, MEGA_SIZE_eq in He.
  destruct (init_heap_end_spec k ltac:(lia)) as [Hhe Hhm]. unfold HEAP_INIT_MIN in Hhe.
  set (he := init_heap_end k) in *. set (cnt := (RAM_END - he) / 4096).
  assert (Hcnt : he + 4096 * cnt = RAM_END ∧ 1 ≤ cnt).
  { unfold cnt. apply Z.div_exact in Hhm; [|lia]. rewrite Hhm, RAM_END_eq.
    replace (0x80800000 - 4096 * (he / 4096)) with ((0x80800 - he / 4096) * 4096) by lia.
    rewrite Z.div_mul by lia. lia. }
  set (m2 := set_free_list he (Mem (ram m1) (free_list m1) (make_mtag (main_pt2 k)) (make_mtag (main_pt2 k))
    (memory_initialized m1))).
  destruct (link_pages_spec (Z.to_nat (cnt - 1)) he m2 Hhm) as (m3 & Hl & Hs3 & Hf3 & Hfl & Hfr).
  { rewrite RAM_START_eq. lia. } { lia. }
  replace (S (Z.to_nat (cnt - 1))) with (Z.to_nat cnt) in * by lia.
  set (m4 := Mem (ram m3) (free_list m3) (satp m3) (main_mtag m3) true).
  exists (Heap true (kimg_end k) he m4). cbn zeta. cbn [heap_end heap_start heap_pages].
  assert (Hlow : ∀ i, 0 ≤ i < 512 → main_pt2 k + 8 * i < he) by (intros; destruct (ko_pt2 _ Hk); lia).
  assert (Hrd : ∀ i, 0 ≤ i < 512 → rd m4 (main_pt2 k + 8 * i) = rd m1 (main_pt2 k + 8 * i)).
  { intros i Hi. change (rd m3 (main_pt2 k + 8 * i) = rd m2 (main_pt2 k + 8 * i)). apply Hfr.
    intros Hin%elem_of_pages_from. destruct Hin as (j & Hj & Heq). specialize (Hlow i Hi). lia. }
  assert (Hnotin : main_pt2 k ∉ pages_from he (Z.to_nat cnt)).
  { intros Hin%elem_of_pages_from. destruct Hin as (j & Hj & Heq).
    specialize (Hlow 0 ltac:(lia)). lia. }
  assert (Hfree : free_ok m4 (pages_from he (Z.to_nat cnt))).
  { split_and!; [|apply pages_from_NoDup|apply pages_from_ram; [done|rewrite RAM_START_eq; lia|lia]].
    change (free_list m4) with (free_list m3). rewrite Hf3. cbn [free_list m2 set_free_list].
    eapply fl_rep_ext; [|exact Hfl]. done. }
  assert (Hinv : pt_inv (main_pt2 k) m4 (pages_from he (Z.to_nat cnt))).
  { apply pt_inv_empty; [apply (ko_pt2 _ Hk)|done|done| |].
    - intros i Hi. rewrite Hrd, H3 by lia. done.
    - intros i Hi. rewrite Hrd by lia. auto. }
  assert (satp m3 = make_mtag (main_pt2 k) ∧ main_mtag m3 = make_mtag (main_pt2 k)) as [Hsat Hmt].
  { destruct Hs3 as (-> & -> & _). done. }
  split_and!.
  - unfold memory_init. rewrite (ko_start _ Hk). change (RAM_START =? RAM_START) with true.
    cbn [kassert mbind outcome_bind]. rewrite MEGA_SIZE_eq, RAM_START_eq.
    destruct (Z.ltb_spec 2097152 (kimg_end k - 0x80000000)); [lia|].
    rewrite Hm1. cbn [mbind outcome_bind]. fold he.
    destruct (Z.ltb_spec RAM_END he); [rewrite RAM_END_eq in *; lia|].
    unfold heap_init. destruct (Z.ltb_spec (kimg_end k) he); [|lia].
    cbn [kassert mbind outcome_bind heap_pages heap_initialized heap_start heap_end].
    rewrite PAGE_SIZE_eq. fold cnt. fold m2. rewrite u64_small by (rewrite RAM_END_eq in *; lia).
    change (free_list m2) with he. rewrite Hl. done.
  - done.
  - unfold HEAP_INIT_MIN. lia.
  - split; cbn [heap_start heap_end heap_pages]; try lia; try done; try by constructor.
    + replace he with (he / 4096 * 256 * 16) by (apply Z.div_exact in Hhm; lia). by apply Z.mod_mul.
    + apply Forall_forall. intros q Hq%elem_of_pages_from. destruct Hq as (j & Hj & ->).
      unfold disjoint_range; cbn. lia.
  - done.
  - unfold active_space_root, active_space_mtag. cbn [satp m4]. rewrite Hsat.
    apply mtag_root. apply ram_page_is_page, (ko_pt2 _ Hk).
  - unfold active_space_mtag. cbn. by rewrite Hsat, Hmt.
  - done.
  - done.
  - lia.
  - intros [|i p] Hp Hne; [done|]. apply (space_empty _ _); [|done]. intros j Hj. rewrite Hrd, H3 by lia. done.
Qed.

(** C23: [memory_init] on a well-formed kernel image leaves a free list with every
    page frame from the end of the initial heap to the end of RAM, in increasing
    order; a heap of at least [HEAP_INIT_MIN] bytes between the image and those
    pages that satisfies the heap invariant; and, active, the main memory space,
    which satisfies the invariant of memory spaces and maps no user page. *)
Theorem memory_init_spec k m :
  kimg_ok k → (∀ i, 0 ≤ i < 512 → rd m (main_pt2 k + 8 * i) = 0) →
  ∃ h, memory_init k m = Done h ∧
    let m' := heap_pages h in
    let free := pages_from (heap_end h) (Z.to_nat ((RAM_END - heap_end h) / 4096)) in
    heap_start h = kimg_end k ∧ HEAP_INIT_MIN ≤ heap_end h - heap_start h ∧
    heap_inv h [] free ∧ free_ok m' free ∧
    active_space_root m' = main_pt2 k ∧ active_space_mtag m' = main_mtag m' ∧
    pt_inv (main_pt2 k) m' free ∧ (∀ v, user_vma v → translate (main_pt2 k) v m' = None).
Proof.
  intros Hk Hz. destruct (memory_init_runs k m Hk Hz) as (h & Hh & Hs & Hmin & Hi & Hf & Hr & Hm & Hpt & _ & _ & Hno).
  exists h. split; [done|]. do 7 (split; [done|]). intros v Hv. unfold translate. by rewrite Hno by (apply (user_vma_path v Hv) || done).
Qed.

(** ** memory_unmap_and_free_user *)

Section Unmap.
Context (root : Z) (m0 : mem) (l : list Z).
Hypothesis Hinv : pt_inv root m0 l.

(** The position of a mapped page in the order of the three loops. *)
Definition position (a b c : Z) : Z := (a * 512 + b) * 512 + c.

(** [d] is a page that the space maps with the U flag, at the indices a, b, c. *)
Definition user_page (a b c d : Z) : Prop :=
  path_ok [c; b; a] ∧
  ∃ e, entry_at root m0 [c; b; a] = Some e ∧ has PTE_U e = true ∧ d = entry_page e.

(** [d] is the last of the user pages before position [k]. *)
Definition last_before (k d : Z) : Prop :=
  ∃ a b c, user_page a b c d ∧ position a b c < k ∧
    ∀ a' b' c' d', user_page a' b' c' d' → position a' b' c' < k → position a' b' c' ≤ position a b c.

(** The state when the loops have reached position [k]: the user pages before it
    are on the free list, the last one first, and the links of this list are all that
    was written. *)
Definition unmapped_to (k : Z) (m : mem) : Prop :=
  ∃ fr, free_ok m (fr ++ l) ∧ same_regs m0 m ∧
    (∀ d, d ∈ fr ↔ ∃ a b c, user_page a b c d ∧ position a b c < k) ∧
    (∀ x, x ∉ fr → rd m x = rd m0 x) ∧
    (∀ d, head fr = Some d → last_before k d).

Lemma user_page_node a b c d : user_page a b c d → node_at root m0 [c; b; a] = Some d.
Proof. intros (_ & e & He & _ & ->). by rewrite node_entry, He. Qed.

Lemma user_page_inj a b c a' b' c' d :
  user_page a b c d → user_page a' b' c' d → a = a' ∧ b = b' ∧ c = c'.
Proof.
  intros H1 H2. pose proof (user_page_node _ _ _ _ H1). pose proof (user_page_node _ _ _ _ H2).
  assert ([c; b; a] = [c'; b'; a']) as [= -> -> ->]; [|done].
  eapply pt_inj; [exact Hinv|apply H1|apply H2|done|done].
Qed.

(** The loops read the tables as they were. *)
Lemma unmapped_rd k m p t i :
  unmapped_to k m → path_ok p → (length p ≤ 2)%nat → node_at root m0 p = Some t → 0 ≤ i < 512 →
  ram_page t ∧ rd m (t + 8 * i) = rd m0 (t + 8 * i).
Proof.
  intros (fr & _ & _ & Hfr & Hrd & _) Hp Hl Hn Hi. pose proof (node_ram _ _ _ _ _ Hinv Hn Hp) as Ht.
  split; [done|]. apply Hrd. intros Hin. apply Hfr in Hin as (a & b & c & Hu & _).
  pose proof (user_page_node _ _ _ _ Hu) as Hd. destruct Hu as [Hok _].
  pose proof (node_ram _ _ _ _ _ Hinv Hd Hok) as Hdr.
  assert (t = t + 8 * i) as Heq by (apply (ram_page_disjoint _ _ (t + 8 * i)); auto).
  rewrite <- Heq in Hd. assert (p = [c; b; a]) as -> by by eapply pt_inj. cbn in Hl. lia.
Qed.

Lemma unmapped_skip k k' m :
  unmapped_to k m → k ≤ k' → (∀ a b c d, user_page a b c d → ¬ (k ≤ position a b c < k')) →
  unmapped_to k' m.
Proof.
  intros (fr & Hf & Hs & Hfr & Hrd & Hlast) Hle Hno. exists fr. split_and!; [done|done| |done|].
  - intros d. rewrite Hfr. split; intros (a & b & c & Hu & Hk); exists a, b, c; (split; [done|]); [lia|].
    specialize (Hno _ _ _ _ Hu). lia.
  - intros d Hd. destruct (Hlast d Hd) as (a & b & c & Hu & Hk & Hmax). exists a, b, c. split; [done|]. split; [lia|].
    intros a' b' c' d' Hu' Hk'. apply (Hmax _ _ _ _ Hu'). specialize (Hno _ _ _ _ Hu'). lia.
Qed.

Lemma unmapped_push a b c d m :
  unmapped_to (position a b c) m → user_page a b c d →
  ∃ m', memory_free_page d m = Done m' ∧ unmapped_to (position a b c + 1) m'.
Proof.
  intros (fr & Hf & Hs & Hfr & Hrd & _) Hu. pose proof (user_page_node _ _ _ _ Hu) as Hd.
  pose proof (node_ram _ _ _ _ _ Hinv Hd ltac:(apply Hu)) as Hdr.
  destruct (free_page_spec m d (fr ++ l) Hf Hdr) as (m' & Hm & Hf' & Hs' & Hrd').
  { intros [Hin|Hin]%elem_of_app.
    - apply Hfr in Hin as (a' & b' & c' & Hu' & Hk).
      destruct (user_page_inj _ _ _ _ _ _ _ Hu Hu') as (-> & -> & ->). lia.
    - by apply (node_not_free _ _ _ _ _ Hinv Hd ltac:(apply Hu)). }
  exists m'. split; [done|]. exists (d :: fr). split_and!; [done|by etrans| | |].
  - intros x. rewrite elem_of_cons, Hfr. split.
    + intros [->|(a' & b' & c' & Hu' & Hk)]; [exists a, b, c|exists a', b', c']; (split; [done|lia]).
    + intros (a' & b' & c' & Hu' & Hk).
      destruct (decide (position a' b' c' = position a b c)) as [Heq|]; [|right; exists a', b', c'; split; [done|lia]].
      left. unfold position in Heq. destruct Hu as [[_ (Hc & _ & Hb & _)] (e & He & _ & ->)].
      destruct Hu' as [[_ (Hc' & _ & Hb' & _)] (e' & He' & _ & ->)].
      assert (a' = a ∧ b' = b ∧ c' = c) as (-> & -> & ->) by lia. congruence.
  - intros x [Hne Hni]%not_elem_of_cons. rewrite Hrd' by done. by apply Hrd.
  - intros d' [= <-]. exists a, b, c. split; [done|]. split; [lia|]. intros. lia.
Qed.

Lemma unmap_pt0_step a b t c m :
  path_ok [c; b; a] → node_at root m0 [b; a] = Some t → unmapped_to (position a b c) m →
  ∃ m', unmap_pt0_entry t c m = Done m' ∧ unmapped_to (position a b (c + 1)) m'.
Proof.
  intros Hp Hn Hj. assert (Hc : 0 ≤ c < 512) by eauto.
  destruct (unmapped_rd _ _ [b; a] t c Hj ltac:(eauto) ltac:(cbn; lia) Hn Hc) as [Ht Hrd].
  replace (position a b (c + 1)) with (position a b c + 1) by (unfold position; lia).
  unfold unmap_pt0_entry. rewrite ld_page by done. cbn [mbind outcome_bind]. rewrite Hrd.
  set (e := rd m0 (t + 8 * c)).
  assert (He : entry_at root m0 [c; b; a] = if has PTE_V e then Some e else None)
    by (cbn in *; by rewrite Hn).
  assert (Hskip : (∀ d, ¬ user_page a b c d) → unmapped_to (position a b c + 1) m).
  { intros Hno. eapply unmapped_skip; [exact Hj|lia|]. intros a' b' c' d Hu Hk.
    apply (Hno d). assert (a' = a ∧ b' = b ∧ c' = c) as (<- & <- & <-); [|done].
    unfold position in Hk. destruct Hp as [_ (_ & _ & Hb & _)].
    destruct Hu as [[_ (Hc' & _ & Hb' & _)] _]. lia. }
  destruct (has PTE_V e) eqn:Hv; cbn [negb].
  2:{ exists m. split; [done|]. apply Hskip. intros d (_ & e' & He' & _). congruence. }
  destruct (has PTE_U e) eqn:Hu; cbn [negb].
  2:{ exists m. split; [done|]. apply Hskip. intros d (_ & e' & He' & Hu' & _). congruence. }
  apply unmapped_push; [done|]. split; [done|]. by exists e.
Qed.

(** The flags of a table's entry do not let the loops skip it. *)
Lemma table_not_skipped p e :
  path_ok p → (length p ≤ 2)%nat → entry_at root m0 p = Some e → unmap_skips e = false.
Proof.
  intros Hp Hl He. pose proof (pt_table _ _ _ Hinv p e Hp Hl He) as Hf.
  unfold unmap_skips, has. by rewrite Hf.
Qed.

Lemma unmap_pt1_step a t b m :
  path_ok [b; a] → node_at root m0 [a] = Some t → unmapped_to (position a b 0) m →
  ∃ m', unmap_pt1_entry t b m = Done m' ∧ unmapped_to (position a (b + 1) 0) m'.
Proof.
  intros Hp Hn Hj. assert (Hb : 0 ≤ b < 512) by eauto.
  destruct (unmapped_rd _ _ [a] t b Hj ltac:(eauto) ltac:(cbn; lia) Hn Hb) as [Ht Hrd].
  unfold unmap_pt1_entry. rewrite ld_page by done. cbn [mbind outcome_bind]. rewrite Hrd.
  destruct (has PTE_V (rd m0 (t + 8 * b))) eqn:Hv.
  - assert (He : entry_at root m0 [b; a] = Some (rd m0 (t + 8 * b)))
      by (cbn in *; by rewrite Hn, Hv).
    rewrite (table_not_skipped [b; a] _ Hp ltac:(cbn; lia) He).
    assert (Hn' : node_at root m0 [b; a] = Some (entry_page (rd m0 (t + 8 * b))))
      by by rewrite node_entry, He.
    destruct (for_range_ind (λ x m, unmapped_to (position a b x) m)
      (unmap_pt0_entry (entry_page (rd m0 (t + 8 * b)))) (Z.to_nat PTE_CNT) 0 m Hj) as (m' & Hm & Hj').
    { intros x m1 Hx Hj1. apply unmap_pt0_step; [|done|done].
      destruct Hp as [Hl Hp]. split; [cbn; lia|]. rewrite PTE_CNT_eq in Hx.
      split; [lia|]. by split. }
    exists m'. split; [done|]. replace (position a (b + 1) 0) with (position a b (0 + Z.of_nat (Z.to_nat PTE_CNT))); [done|].
    rewrite PTE_CNT_eq. unfold position. lia.
  - unfold unmap_skips. rewrite Hv. cbn [negb orb]. exists m. split; [done|].
    eapply unmapped_skip; [exact Hj|unfold position; lia|]. intros a' b' c' d Hu Hk.
    assert (a' = a ∧ b' = b) as [-> ->].
    { unfold position in Hk. destruct Hu as [[_ (Hc' & _ & Hb' & _)] _]. lia. }
    destruct Hu as (_ & e & He & _).
    destruct (invalid_below root m0 b [a] ltac:(cbn in *; by rewrite Hn, Hv) [c'; b; a]) as [_ Hno];
      [by exists [c']|congruence].
Qed.

Lemma unmap_pt2_step a m :
  0 ≤ a < 512 → unmapped_to (position a 0 0) m →
  ∃ m', unmap_pt2_entry root a m = Done m' ∧ unmapped_to (position (a + 1) 0 0) m'.
Proof.
  intros Ha Hj.
  destruct (unmapped_rd _ _ [] root a Hj path_ok_nil ltac:(cbn; lia) eq_refl Ha) as [Ht Hrd].
  unfold unmap_pt2_entry. rewrite ld_page by done. cbn [mbind outcome_bind]. rewrite Hrd.
  assert (Hskip : (∀ b c d, ¬ user_page a b c d) → unmapped_to (position (a + 1) 0 0) m).
  { intros Hno. eapply unmapped_skip; [exact Hj|unfold position; lia|]. intros a' b' c' d Hu Hk.
    apply (Hno b' c' d). assert (a' = a) as <-; [|done].
    unfold position in Hk. destruct Hu as [[_ (Hc' & _ & Hb' & _)] _]. lia. }
  destruct (has PTE_V (rd m0 (root + 8 * a))) eqn:Hv.
  - destruct (Z.lt_ge_cases a 3) as [Hlt|Hge].
    { unfold unmap_skips. rewrite (pt_kernel _ _ _ Hinv a) by (done || lia). rewrite orb_true_r.
      exists m. split; [done|]. apply Hskip. intros b c d [[_ (_ & _ & _ & _ & _ & H3 & _)] _].
      specialize (H3 eq_refl). lia. }
    assert (Hp : path_ok [a]) by (split; cbn; [lia|done]).
    assert (He : entry_at root m0 [a] = Some (rd m0 (root + 8 * a))) by (cbn; by rewrite Hv).
    rewrite (table_not_skipped [a] _ Hp ltac:(cbn; lia) He).
    assert (Hn' : node_at root m0 [a] = Some (entry_page (rd m0 (root + 8 * a))))
      by by rewrite node_entry, He.
    destruct (for_range_ind (λ x m, unmapped_to (position a x 0) m)
      (unmap_pt1_entry (entry_page (rd m0 (root + 8 * a)))) (Z.to_nat PTE_CNT) 0 m Hj) as (m' & Hm & Hj').
    { intros x m1 Hx Hj1. apply unmap_pt1_step; [|done|done].
      split; [cbn; lia|]. rewrite PTE_CNT_eq in Hx. split; [lia|]. split; [done|apply Hp]. }
    exists m'. split; [done|]. replace (position (a + 1) 0 0) with (position a (0 + Z.of_nat (Z.to_nat PTE_CNT)) 0); [done|].
    rewrite PTE_CNT_eq. unfold position. lia.
  - unfold unmap_skips. rewrite Hv. cbn [negb orb]. exists m. split; [done|].
    apply Hskip. intros b c d (_ & e & He & _).
    destruct (invalid_below root m0 a [] ltac:(cbn; by rewrite Hv) [c; b; a]) as [_ Hno];
      [by exists [c; b]|congruence].
Qed.

Lemma unmap_all m :
  same_regs m0 m → free_ok m l → (∀ x, rd m x = rd m0 x) → active_space_root m = root →
  ∃ m', memory_unmap_and_free_user m = Done m' ∧ unmapped_to (position 512 0 0) m'.
Proof.
  intros Hs Hf Hrd Hroot. unfold memory_unmap_and_free_user. rewrite Hroot.
  apply (for_range_ind (λ x m, unmapped_to (position x 0 0) m)).
  - exists []. split_and!; [done|done| |done|done]. intros d. split; [by intros ?%elem_of_nil|].
    intros (a & b & c & [[_ (Hc & _ & Hb & _ & Ha & _)] _] & Hk). unfold position in Hk. lia.
  - intros x m1 Hx. apply unmap_pt2_step. rewrite PTE_CNT_eq in Hx. lia.
Qed.
End Unmap.

Lemma reclaim_runs root m l :
  pt_inv root m l → active_space_root m = root →
  ∃ m' fr, memory_space_reclaim m = Done m' ∧ satp m' = main_mtag m ∧ free_ok m' (fr ++ l) ∧
    (∀ d, d ∈ fr ↔ ∃ p e, path_ok p ∧ length p = 3%nat ∧ entry_at root m p = Some e ∧
                          has PTE_U e = true ∧ d = entry_page e) ∧
    (∀ p, path_ok p → entry_at root m' p = entry_at root m p).
Proof.
  intros Hi Hroot.
  destruct (unmap_all root m l Hi m) as (m1 & Hm & Hj); [done|by eapply pt_free|done|done|].
  pose proof Hj as (fr & Hf & Hs & Hfr & Hrd & _).
  destruct (memory_space_switch (main_mtag m1) m1) as [old m'] eqn:Hsw.
  injection Hsw as _ <-. eexists _, fr. split_and!.
  - unfold memory_space_reclaim. by rewrite Hm.
  - destruct Hs as (_ & Hmt & _). cbn. done.
  - eapply free_ok_ext; [| |exact Hf]; done.
  - intros d. rewrite Hfr. split.
    + intros (a & b & c & [Hp (e & He & Hu & ->)] & _). by exists [c; b; a], e.
    + intros (p & e & Hp & Hl & He & Hu & ->).
      destruct p as [|c [|b [|a [|]]]]; try done. exists a, b, c. split; [split; [done|by exists e]|].
      destruct Hp as [_ Hp]. cbn in Hp. unfold position. lia.
  - intros p Hp. apply (frame_entry root m); [|done]. intros p' t i Hp' Hn.
    change (rd m1 (t + 8 * i) = rd m (t + 8 * i)).
    apply (unmapped_rd root m l Hi _ m1 p' t i Hj); eauto. destruct Hp' as [Hl _]. cbn in Hl. lia.
Qed.

(** C20: [memory_space_reclaim] puts on the free list exactly the pages that the
    active space maps with the U flag, ahead of the pages that were free, and
    makes the main space active.  It clears no entry: every translation of the
    reclaimed space, the freed pages' included, is as it was. *)
Theorem memory_space_reclaim_spec root m l :
  pt_inv root m l → active_space_root m = root →
  ∃ m' fr, memory_space_reclaim m = Done m' ∧ satp m' = main_mtag m ∧ free_ok m' (fr ++ l) ∧
    (∀ d, d ∈ fr ↔ ∃ p e, path_ok p ∧ length p = 3%nat ∧ entry_at root m p = Some e ∧
                          has PTE_U e = true ∧ d = entry_page e) ∧
    (∀ p, path_ok p → entry_at root m' p = entry_at root m p).
Proof. apply reclaim_runs. Qed.

Lemma handle_fault_maps root m l v :
  pt_inv root m l → active_space_root m = root → (3 ≤ length l)%nat → USER_START_VMA ≤ v ≤ USER_END_VMA →
  ∃ q m' l', memory_handle_page_fault v m = Done (FaultMapped m') ∧ pt_inv root m' l' ∧
    translate root v m' = Some (pte_word (leaf_pte q (Z.lor (Z.lor PTE_W PTE_R) PTE_U))) ∧
    (∀ i, 0 ≤ i < 512 → rd m' (q + 8 * i) = 0) ∧
    (∀ v', user_vma v' → v' / 4096 ≠ v / 4096 → translate root v' m' = translate root v' m).
Proof.
  intros Hi Hroot Hl Hv. unfold memory_handle_page_fault.
  assert (Hu : user_vma v).
  { unfold user_vma, USER_START_VMA, USER_END_VMA in *. rewrite GIGA_SIZE_eq. lia. }
  destruct (map_page_step root m l v (Z.lor (Z.lor PTE_W PTE_R) PTE_U) Hi Hroot Hu Hl)
    as (q & m' & l' & used & Hm & Hs & _ & _ & H0 & He).
  exists q, m', l'. split_and!; [|by eapply ps_inv| |done|].
  - destruct (Z.leb_spec USER_START_VMA v); [|lia].
    destruct (Z.leb_spec v USER_END_VMA); [|lia]. cbn [andb]. by rewrite Hm.
  - unfold translate. rewrite He by (done || auto). by rewrite decide_True.
  - intros v' Hv' Hne. unfold translate. rewrite He by (done || auto).
    rewrite decide_False; [done|]. intros Heq. by apply Hne, path_of_inj.
Qed.

(** C21: [memory_handle_page_fault] maps the page of an address of the user region
    (its end included) readable, writable and user-accessible to a zeroed free
    page, and keeps the other translations and the invariant; for any other
    address it leaves memory alone and the process exits. *)
Theorem memory_handle_page_fault_spec root m l v :
  pt_inv root m l → active_space_root m = root → (3 ≤ length l)%nat →
  (USER_START_VMA ≤ v ≤ USER_END_VMA →
     ∃ q m' l', memory_handle_page_fault v m = Done (FaultMapped m') ∧ pt_inv root m' l' ∧
       translate root v m' = Some (pte_word (leaf_pte q (Z.lor (Z.lor PTE_W PTE_R) PTE_U))) ∧
       (∀ i, 0 ≤ i < 512 → rd m' (q + 8 * i) = 0) ∧
       (∀ v', user_vma v' → v' / 4096 ≠ v / 4096 → translate root v' m' = translate root v' m)) ∧
  (¬ (USER_START_VMA ≤ v ≤ USER_END_VMA) → memory_handle_page_fault v m = Done (FaultExit m)).
Proof.
  intros Hi Hroot Hl. split; [by eapply handle_fault_maps|]. intros Hv. unfold memory_handle_page_fault.
  destruct (Z.leb_spec USER_START_VMA v); [|done].
  destruct (Z.leb_spec v USER_END_VMA); [lia|done].
Qed.

(** ** Witnesses *)

(** An image of 1 MB whose tables are its last three pages. *)
Definition kimg_example : kimg :=
  Kimg RAM_START RAM_START (RAM_START + 0x10000) (RAM_START + 0x10000) (RAM_START + 0x18000)
    (RAM_START + 0x18000) (RAM_START + 0x20010) (RAM_START + 0x1d000) (RAM_START + 0x1e000)
    (RAM_START + 0x1f000).

Lemma kimg_example_ok : kimg_ok kimg_example.
Proof. split; unfold ram_page; cbn; rewrite ?RAM_START_eq, ?RAM_END_eq, ?MEGA_SIZE_eq; repeat split; try lia; reflexivity. Qed.

Lemma memory_init_spec_witness :
  ∃ h, memory_init kimg_example (Mem ∅ 0 0 0 false) = Done h ∧
    HEAP_INIT_MIN ≤ heap_end h - heap_start h ∧ active_space_root (heap_pages h) = RAM_START + 0x1d000.
Proof.
  destruct (memory_init_spec kimg_example (Mem ∅ 0 0 0 false)) as (h & Hh & ? & ? & _ & _ & ? & _).
  - apply kimg_example_ok.
  - intros i Hi. unfold rd. cbn. by rewrite lookup_empty.
  - exists h. split_and!; done.
Defined.

Lemma memory_space_reclaim_spec_witness :
  ∃ m' fr, memory_space_reclaim mem_example = Done m' ∧ free_ok m' (fr ++ free_example).
Proof.
  destruct (memory_space_reclaim_spec root_example mem_example free_example mem_example_inv eq_refl)
    as (m' & fr & ? & _ & ? & _). eauto.
Defined.

Lemma memory_handle_page_fault_spec_witness :
  memory_handle_page_fault 0x1000 mem_example = Done (FaultExit mem_example) ∧
  ∃ m', memory_handle_page_fault 0xC0001238 mem_example = Done (FaultMapped m').
Proof.
  split.
  - apply (memory_handle_page_fault_spec root_example mem_example free_example 0x1000 mem_example_inv eq_refl);
      [cbn; lia|unfold USER_START_VMA; lia].
  - destruct (memory_handle_page_fault_spec root_example mem_example free_example 0xC0001238 mem_example_inv eq_refl)
      as [H _]; [cbn; lia|].
    destruct H as (q & m' & l' & Hm & _); [unfold USER_START_VMA, USER_END_VMA; lia|]. eauto.
Defined.
