(* ===== verification/Thread.v ===== *)
(** Threads (src/src/kern/thread.c).

    Thread structures are named by their addresses; a thread list is the ready
    list or the wait list of a condition, linked through [list_next].  A function
    that gives up the CPU is cut at [_thread_swtch]: its first part ends in the
    state in which the next thread is current, and what it does when it is
    resumed is a second definition.  Names and trace output are kept as data. *)
From Stdlib Require Import ZArith Lia.
From stdpp Require Import base gmap list strings.
From S2P Require Import Prelude Pages Heap Pte Memory.

Open Scope Z_scope.

Definition NTHR : Z := 16.
Definition MAIN_TID : Z := 0.
Definition IDLE_TID : Z := NTHR - 1.

Inductive thread_state : Type :=
| THREAD_UNINITIALIZED
| THREAD_STOPPED
| THREAD_WAITING
| THREAD_RUNNING
| THREAD_READY
| THREAD_EXITED.

#[export] Instance thread_state_eq_dec : EqDecision thread_state.
Proof. solve_decision. Defined.

(** A condition: the [child_exit] member of a thread, or an object of its own. *)
Definition cond_id : Type := Z + Z.
Definition ChildExit (t : Z) : cond_id := inl t.
Definition CondObj (c : Z) : cond_id := inr c.

Record thread_context : Type := Ctx { ctx_s : list Z; ctx_ra : Z; ctx_sp : Z }.

Record thread : Type := Thread {
  context : thread_context;
  tname : string;
  stack_base : Z;
  stack_size : Z;
  tstate : thread_state;
  tid : Z;
  tproc : option Z;
  parent : option Z;
  list_next : option Z;
  wait_cond : option cond_id
}.

(** [struct thread_list]; a list is the ready list ([None]) or a wait list. *)
Record thread_list : Type := TList { lhead : option Z; ltail : option Z }.
Definition list_id : Type := option cond_id.
Definition READY_LIST : list_id := None.

Record sched : Type := Sched {
  threads : gmap Z thread;
  tlists : gmap list_id thread_list;
  thrtab : list (option Z);
  CURTHR : Z;
  sie : bool;
  main_thread : Z;
  idle_thread : Z;
  proc_mtag : gmap Z Z;
  kheap : heap mem
}.

(** ** Access to the state *)

Definition with_threads (f : gmap Z thread → gmap Z thread) (s : sched) : sched :=
  Sched (f (threads s)) (tlists s) (thrtab s) (CURTHR s) (sie s) (main_thread s) (idle_thread s)
    (proc_mtag s) (kheap s).
Definition with_lists (f : gmap list_id thread_list → gmap list_id thread_list) (s : sched) : sched :=
  Sched (threads s) (f (tlists s)) (thrtab s) (CURTHR s) (sie s) (main_thread s) (idle_thread s)
    (proc_mtag s) (kheap s).
Definition with_thrtab (f : list (option Z) → list (option Z)) (s : sched) : sched :=
  Sched (threads s) (tlists s) (f (thrtab s)) (CURTHR s) (sie s) (main_thread s) (idle_thread s)
    (proc_mtag s) (kheap s).
Definition with_sie (b : bool) (s : sched) : sched :=
  Sched (threads s) (tlists s) (thrtab s) (CURTHR s) b (main_thread s) (idle_thread s)
    (proc_mtag s) (kheap s).
Definition with_heap (h : heap mem) (s : sched) : sched :=
  Sched (threads s) (tlists s) (thrtab s) (CURTHR s) (sie s) (main_thread s) (idle_thread s)
    (proc_mtag s) h.

Definition get_thr (t : Z) (s : sched) : outcome thread := deref (threads s !! t).
Definition upd_thr (t : Z) (f : thread → thread) (s : sched) : outcome sched :=
  th ← get_thr t s;
  Done (with_threads <[t := f th]> s).

Definition set_next (n : option Z) (th : thread) : thread :=
  Thread (context th) (tname th) (stack_base th) (stack_size th) (tstate th) (tid th) (tproc th)
    (parent th) n (wait_cond th).
Definition set_state (x : thread_state) (th : thread) : thread :=
  Thread (context th) (tname th) (stack_base th) (stack_size th) x (tid th) (tproc th)
    (parent th) (list_next th) (wait_cond th).
Definition set_wait (c : option cond_id) (th : thread) : thread :=
  Thread (context th) (tname th) (stack_base th) (stack_size th) (tstate th) (tid th) (tproc th)
    (parent th) (list_next th) c.
Definition set_parent (p : option Z) (th : thread) : thread :=
  Thread (context th) (tname th) (stack_base th) (stack_size th) (tstate th) (tid th) (tproc th)
    p (list_next th) (wait_cond th).
Definition set_proc (p : option Z) (th : thread) : thread :=
  Thread (context th) (tname th) (stack_base th) (stack_size th) (tstate th) (tid th) p
    (parent th) (list_next th) (wait_cond th).
Definition set_stack (b n : Z) (th : thread) : thread :=
  Thread (context th) (tname th) b n (tstate th) (tid th) (tproc th)
    (parent th) (list_next th) (wait_cond th).
Definition set_context (c : thread_context) (th : thread) : thread :=
  Thread c (tname th) (stack_base th) (stack_size th) (tstate th) (tid th) (tproc th)
    (parent th) (list_next th) (wait_cond th).

(** A list that was never written is all zeroes. *)
Definition get_list (l : list_id) (s : sched) : thread_list := default (TList None None) (tlists s !! l).
Definition set_list (l : list_id) (x : thread_list) (s : sched) : sched := with_lists <[l := x]> s.

Definition thrtab_get (i : Z) (s : sched) : outcome (option Z) :=
  if (0 <=? i) && (i <? NTHR) then Done (default None (thrtab s !! Z.to_nat i)) else Undefined.
Definition thrtab_set (i : Z) (t : option Z) (s : sched) : sched :=
  with_thrtab <[Z.to_nat i := t]> s.

(** intr.h: sstatus.SIE *)
Definition intr_enable (s : sched) : bool * sched := (sie s, with_sie true s).
Definition intr_disable (s : sched) : bool * sched := (sie s, with_sie false s).
Definition intr_restore (saved : bool) (s : sched) : sched := with_sie saved s.

(** ** Thread lists *)

Definition tlclear (l : list_id) (s : sched) : sched := set_list l (TList None None) s.

Definition tlempty (l : list_id) (s : sched) : bool :=
  match lhead (get_list l s) with None => true | Some _ => false end.

(** The store to [thr->list_next] comes before the test for NULL. *)
Definition tlinsert (l : list_id) (thr : option Z) (s : sched) : outcome sched :=
  thr ← deref thr;
  s ← upd_thr thr (set_next None) s;
  s ← match ltail (get_list l s) with
      | Some t =>
          _ ← kassert (negb (tlempty l s));
          upd_thr t (set_next (Some thr)) s
      | None =>
          _ ← kassert (tlempty l s);
          Done (set_list l (TList (Some thr) None) s)
      end;
  Done (set_list l (TList (lhead (get_list l s)) (Some thr)) s).

Definition tlremove (l : list_id) (s : sched) : outcome (option Z * sched) :=
  match lhead (get_list l s) with
  | None => Done (None, s)
  | Some thr =>
      th ← get_thr thr s;
      let s := set_list l (TList (list_next th) (ltail (get_list l s))) s in
      s ← match list_next th with
          | Some _ => upd_thr thr (set_next None) s
          | None => Done (set_list l (TList None None) s)
          end;
      s ← upd_thr thr (set_next None) s;
      Done (Some thr, s)
  end.

Definition is_null {A} (p : option A) : bool := match p with None => true | Some _ => false end.

Definition tlappend (l0 l1 : list_id) (s : sched) : outcome sched :=
  let L0 := get_list l0 s in
  let L1 := get_list l1 s in
  s ← match lhead L0 with
      | Some _ =>
          t0 ← (if is_null (ltail L0) then Panicked "assertion failed" else deref (ltail L0));
          match lhead L1 with
          | Some _ =>
              _ ← kassert (negb (is_null (ltail L1)));
              s ← upd_thr t0 (set_next (lhead L1)) s;
              Done (set_list l0 (TList (lhead L0) (ltail L1)) s)
          | None => Done s
          end
      | None =>
          _ ← kassert (is_null (ltail L0));
          Done (set_list l0 (TList (lhead L1) (ltail L1)) s)
      end;
  Done (set_list l1 (TList None None) s).

(** ** Conditions *)

Definition condition_init (c : cond_id) (s : sched) : sched := tlclear (Some c) s.

(** The loop that marks the waiting threads ready, from [thr] on; [fuel] bounds
    the length of the list. *)
Fixpoint wake_loop (fuel : nat) (c : cond_id) (thr : option Z) (s : sched) : outcome sched :=
  match thr with
  | None => Done s
  | Some t =>
      match fuel with
      | O => OutOfFuel
      | S k =>
          th ← get_thr t s;
          _ ← kassert (bool_decide (tstate th = THREAD_WAITING));
          _ ← kassert (bool_decide (wait_cond th = Some c));
          s ← upd_thr t (set_state THREAD_READY) s;
          s ← upd_thr t (set_wait None) s;
          th ← get_thr t s;
          wake_loop k c (list_next th) s
      end
  end.

Definition condition_broadcast (c : cond_id) (s : sched) : outcome sched :=
  if tlempty (Some c) s then Done s else
  let '(saved, s) := intr_disable s in
  s ← wake_loop (size (threads s)) c (lhead (get_list (Some c) s)) s;
  s ← tlappend READY_LIST (Some c) s;
  Done (intr_restore saved (tlclear (Some c) s)).

(** ** Switching threads *)

(** [_thread_swtch] makes the thread current; the registers it saves are those
    of the context. *)
Definition thread_swtch (next : Z) (s : sched) : sched :=
  Sched (threads s) (tlists s) (thrtab s) next (sie s) (main_thread s) (idle_thread s)
    (proc_mtag s) (kheap s).

Definition switch_space (mtag : Z) (s : sched) : sched :=
  let h := kheap s in
  with_heap (Heap (heap_initialized h) (heap_start h) (heap_end h)
               (memory_space_switch mtag (heap_pages h)).2) s.

(** [suspend_self] up to [_thread_swtch]: the saved interrupt state and the new
    state, in which the resumed thread is current. *)
Definition suspend_self (s : sched) : outcome (bool * sched) :=
  _ ← kassert (negb (tlempty READY_LIST s));
  let susp := CURTHR s in
  let '(saved, s) := intr_disable s in
  '(next, s) ← tlremove READY_LIST s;
  next ← deref next;
  th ← get_thr next s;
  _ ← kassert (bool_decide (tstate th = THREAD_READY));
  s ← upd_thr next (set_state THREAD_RUNNING) s;
  sth ← get_thr susp s;
  s ← (if bool_decide (tstate sth = THREAD_RUNNING) then
         s ← upd_thr susp (set_state THREAD_READY) s;
         tlinsert READY_LIST (Some susp) s
       else Done s);
  let '(_, s) := intr_enable s in
  nth ← get_thr next s;
  s ← match tproc nth with
      | None => Done s
      | Some p =>
          let '(st, s) := intr_disable s in
          mtag ← deref (proc_mtag s !! p);
          Done (intr_restore st (switch_space mtag s))
      end;
  Done (saved, thread_swtch next s).

(** The rest of [suspend_self], in a thread that is resumed inside it: the thread
    that ran before is [prev]. *)
Definition suspend_self_resume (saved : bool) (prev : Z) (s : sched) : outcome sched :=
  pth ← get_thr prev s;
  s ← (if bool_decide (tstate pth = THREAD_EXITED) then
         let h := kheap s in
         m ← memory_free_page (stack_base pth - PAGE_SIZE) (heap_pages h);
         upd_thr prev (set_stack 0 0)
           (with_heap (Heap (heap_initialized h) (heap_start h) (heap_end h) m) s)
       else Done s);
  Done (intr_restore saved s).

Definition condition_wait (c : cond_id) (s : sched) : outcome (bool * sched) :=
  th ← get_thr (CURTHR s) s;
  _ ← kassert (bool_decide (tstate th = THREAD_RUNNING));
  s ← upd_thr (CURTHR s) (set_state THREAD_WAITING) s;
  s ← upd_thr (CURTHR s) (set_wait (Some c)) s;
  s ← upd_thr (CURTHR s) (set_next None) s;
  let '(saved, s) := intr_disable s in
  s ← tlinsert (Some c) (Some (CURTHR s)) s;
  suspend_self (intr_restore saved s).

Definition thread_yield (s : sched) : outcome (bool * sched) :=
  th ← get_thr (CURTHR s) s;
  _ ← kassert (bool_decide (tstate th = THREAD_RUNNING));
  suspend_self s.

(** ** Creation and exit *)

Definition running_thread (s : sched) : outcome Z := th ← get_thr (CURTHR s) s; Done (tid th).

(** The first free slot after slot 0, or NTHR. *)
Fixpoint find_slot (i : Z) (l : list (option Z)) : Z :=
  match l with
  | [] => i
  | None :: _ => i
  | Some _ :: l => find_slot (i + 1) l
  end.

(** [sizeof (struct thread)] and [sizeof (struct thread_stack_anchor)] on RV64. *)
Definition sizeof_thread : Z := 200.
Definition sizeof_anchor : Z := 16.

(** [_thread_setup]: sp, s11 = start, s0 = arg and ra = the entry glue; the glue
    is at an address of thrasm.s. *)
Definition thread_setup (thr ksp start arg glue : Z) (s : sched) : outcome sched :=
  upd_thr thr (λ th,
    set_context (Ctx (<[11%nat := start]> (<[0%nat := arg]> (ctx_s (context th)))) glue ksp) th) s.

(** The part that [thread_spawn] and [thread_fork_to_user] share: a slot, a thread
    structure and a stack page whose anchor points back to it. *)
Definition new_thread (name : string) (s : sched) : outcome (Z * Z * sched) :=
  let i := find_slot 1 (drop 1 (thrtab s)) in
  if i =? NTHR then Panicked "Too many threads" else
  '(child, h) ← kmalloc sizeof_thread (kheap s);
  '(page, m) ← memory_alloc_page (heap_pages h);
  let anchor := page + PAGE_SIZE - sizeof_anchor in
  m ← sd anchor child m;
  m ← sd (anchor + 8) 0 m;
  let s := with_heap (Heap (heap_initialized h) (heap_start h) (heap_end h) m) s in
  let s := thrtab_set i (Some child) s in
  cur ← get_thr (CURTHR s) s;
  let th := Thread (Ctx (replicate 12 0) 0 0) name anchor (anchor - page) THREAD_UNINITIALIZED
              i (tproc cur) (Some (CURTHR s)) None None in
  Done (i, child, with_threads <[child := th]> s).

Definition thread_spawn (name : string) (start arg glue : Z) (s : sched) : outcome (Z * sched) :=
  '(i, child, s) ← new_thread name s;
  s ← upd_thr child (set_state THREAD_READY) s;
  let '(saved, s) := intr_disable s in
  s ← tlinsert READY_LIST (Some child) s;
  let s := intr_restore saved s in
  th ← get_thr child s;
  s ← thread_setup child (stack_base th) start arg glue s;
  Done (i, s).

(** [thread_exit]: the main thread halts the machine. *)
Inductive exit_result : Type :=
| HaltSuccess
| Switched (saved : bool) (s : sched).

Definition thread_exit (s : sched) : outcome exit_result :=
  if CURTHR s =? main_thread s then Done HaltSuccess else
  s ← upd_thr (CURTHR s) (set_state THREAD_EXITED) s;
  th ← get_thr (CURTHR s) s;
  p ← (if is_null (parent th) then Panicked "assertion failed" else deref (parent th));
  s ← condition_broadcast (ChildExit p) s;
  '(saved, s) ← suspend_self s;
  Done (Switched saved s).

(** The [for] loop of [recycle_thread] over the slots. *)
Fixpoint reparent (l : list (option Z)) (thr : Z) (p : option Z) (s : sched) : outcome sched :=
  match l with
  | [] => Done s
  | None :: l => reparent l thr p s
  | Some c :: l =>
      th ← get_thr c s;
      s ← (if bool_decide (parent th = Some thr) then upd_thr c (set_parent p) s else Done s);
      reparent l thr p s
  end.

(** [kfree] does nothing, so the structure stays readable; the slot is what the
    thread manager gives up. *)
Definition recycle_thread (i : Z) (s : sched) : outcome sched :=
  t ← thrtab_get i s;
  _ ← kassert ((0 <? i) && (i <? NTHR) && negb (is_null t));
  t ← deref t;
  th ← get_thr t s;
  _ ← kassert (bool_decide (tstate th = THREAD_EXITED));
  s ← reparent (drop 1 (thrtab s)) t (parent th) s;
  let s := thrtab_set i None s in
  h ← kfree t (kheap s);
  Done (with_heap h s).

(** A call that may suspend its caller: it returned, or the caller now waits and
    continues later with the same test. *)
Inductive blocking (A : Type) : Type :=
| Returned (a : A) (s : sched)
| Blocked (saved : bool) (s : sched).
Arguments Returned {A}.
Arguments Blocked {A}.

(** The loop test of [thread_join]. *)
Definition thread_join_loop (i child : Z) (s : sched) : outcome (blocking Z) :=
  th ← get_thr child s;
  if bool_decide (tstate th = THREAD_EXITED) then
    s ← recycle_thread i s;
    Done (Returned i s)
  else
    '(saved, s) ← condition_wait (ChildExit (CURTHR s)) s;
    Done (Blocked saved s).

(** [thrtab[tid]] is read before [tid] is tested. *)
Definition thread_join (i : Z) (s : sched) : outcome (blocking Z) :=
  child ← thrtab_get i s;
  if (i <=? 0) || (NTHR <=? i) then Done (Returned (-1) s) else
  match child with
  | None => Done (Returned (-1) s)
  | Some child =>
      th ← get_thr child s;
      if bool_decide (parent th = Some (CURTHR s)) then thread_join_loop i child s
      else Done (Returned (-1) s)
  end.

(** The first scan of [thread_join_any]: an exited child's slot, or the number of
    children. *)
Fixpoint scan_children (i : Z) (l : list (option Z)) (cnt : Z) (s : sched) : outcome (Z + Z) :=
  match l with
  | [] => Done (inr cnt)
  | None :: l => scan_children (i + 1) l cnt s
  | Some t :: l =>
      th ← get_thr t s;
      if bool_decide (parent th = Some (CURTHR s)) then
        if bool_decide (tstate th = THREAD_EXITED) then Done (inl i)
        else scan_children (i + 1) l (cnt + 1) s
      else scan_children (i + 1) l cnt s
  end.

Definition thread_join_any (s : sched) : outcome (blocking Z) :=
  r ← scan_children 1 (drop 1 (thrtab s)) 0 s;
  match r with
  | inl i => thread_join i s
  | inr cnt =>
      if cnt =? 0 then Panicked "thread_wait called by childless thread" else
      '(saved, s) ← condition_wait (ChildExit (CURTHR s)) s;
      Done (Blocked saved s)
  end.

(** The second scan, after the wait. *)
Definition thread_join_any_resume (s : sched) : outcome (Z * sched) :=
  r ← scan_children 1 (drop 1 (thrtab s)) 0 s;
  match r with
  | inl i => s ← recycle_thread i s; Done (i, s)
  | inr _ => Panicked "spurious child_exit signal"
  end.

(** The tests [0 <= tid || tid < NTHR] always hold. *)
Definition thread_process (i : Z) (s : sched) : outcome (option Z) :=
  _ ← kassert ((0 <=? i) || (i <? NTHR));
  t ← thrtab_get i s;
  _ ← kassert (negb (is_null t));
  t ← deref t;
  th ← get_thr t s;
  Done (tproc th).

Definition thread_set_process (i : Z) (p : option Z) (s : sched) : outcome sched :=
  _ ← kassert ((0 <=? i) || (i <? NTHR));
  t ← thrtab_get i s;
  _ ← kassert (negb (is_null t));
  t ← deref t;
  upd_thr t (set_proc p) s.

Definition thread_name (i : Z) (s : sched) : outcome string :=
  _ ← kassert ((0 <=? i) || (i <? NTHR));
  t ← thrtab_get i s;
  _ ← kassert (negb (is_null t));
  t ← deref t;
  th ← get_thr t s;
  Done (tname th).

Definition thread_state_name (x : thread_state) : string :=
  match x with
  | THREAD_UNINITIALIZED => "UNINITIALIZED"
  | THREAD_STOPPED => "STOPPED"
  | THREAD_WAITING => "WAITING"
  | THREAD_RUNNING => "RUNNING"
  | THREAD_READY => "READY"
  | THREAD_EXITED => "EXITED"
  end.

(** [thread_fork_to_user]: the child gets the parent's registers; the parent is
    put on the ready list while it is still the current thread.  [proc_tid] is
    the store [child_proc->tid = tid], returned to the caller. *)
Definition thread_fork_to_user (child_mtag : Z) (s : sched) : outcome (Z * sched) :=
  '(i, child, s) ← new_thread "downie-child" s;
  cur ← get_thr (CURTHR s) s;
  cth ← get_thr child s;
  s ← upd_thr child (set_context (Ctx (ctx_s (context cur)) (ctx_ra (context cur)) (stack_base cth))) s;
  let '(st, s) := intr_disable s in
  let s := intr_restore st (switch_space child_mtag s) in
  let '(_, s) := intr_disable s in
  s ← upd_thr child (set_state THREAD_RUNNING) s;
  s ← upd_thr (CURTHR s) (set_state THREAD_READY) s;
  s ← tlinsert READY_LIST (Some (CURTHR s)) s;
  let '(_, s) := intr_enable s in
  Done (i, s).

(** ** Initialisation *)

(** The stacks of thrasm.s: the addresses of the anchors and of the lowest byte. *)
Record stacks : Type := Stacks {
  main_stack_anchor : Z; main_stack_lowest : Z;
  idle_stack_anchor : Z; idle_stack_lowest : Z
}.

Definition init_main_thread (k : stacks) (s : sched) : outcome sched :=
  upd_thr (main_thread s)
    (set_stack (main_stack_anchor k) (main_stack_anchor k - main_stack_lowest k)) s.

Definition init_idle_thread (k : stacks) (idle_func glue : Z) (s : sched) : outcome sched :=
  s ← upd_thr (idle_thread s)
        (set_stack (idle_stack_anchor k) (idle_stack_anchor k - idle_stack_lowest k)) s;
  s ← thread_setup (idle_thread s) (idle_stack_anchor k) idle_func 0 glue s;
  tlinsert READY_LIST (Some (idle_thread s)) s.

Definition set_running_thread (t : Z) (s : sched) : sched := thread_swtch t s.

Definition thread_init (k : stacks) (idle_func glue : Z) (s : sched) : outcome sched :=
  s ← init_main_thread k s;
  s ← init_idle_thread k idle_func glue s;
  Done (set_running_thread (main_thread s) s).

(** The static initialisers of main_thread, idle_thread and thrtab. *)
Definition main_thread_init : thread :=
  Thread (Ctx (replicate 12 0) 0 0) "main" 0 0 THREAD_RUNNING MAIN_TID None None None None.
Definition idle_thread_init (main : Z) : thread :=
  Thread (Ctx (replicate 12 0) 0 0) "idle" 0 0 THREAD_READY IDLE_TID None (Some main) None None.
Definition boot_sched (main idle : Z) (h : heap mem) : sched :=
  Sched (<[idle := idle_thread_init main]> {[ main := main_thread_init ]}) ∅
    (Some main :: replicate 14 None ++ [Some idle]) 0 false main idle ∅ h.

(** One pass of the idle loop: it yields when a thread is ready, and waits for an
    interrupt otherwise. *)
Definition idle_thread_func (s : sched) : outcome (option (bool * sched)) :=
  if negb (tlempty READY_LIST s) then
    r ← thread_yield s;
    Done (Some r)
  else Done None.
