(* ===== verification/Csr.v ===== *)
(** Control and status registers (src/src/kern/csr.h) and the interrupt flag
    (src/src/kern/intr.h).

    The registers are those of the privileged architecture: sstatus, sie and sip are
    views of mstatus, mie and mip.  The functions of intr.h, which the model of the
    threads has on the flag [sie] of its state, are here on the bits of sstatus, and
    the last section shows that this is the same. *)
From Stdlib Require Import ZArith Lia.
From stdpp Require Import base gmap list strings.
From S2P Require Import Prelude Pages Heap Pte Memory Thread.

Open Scope Z_scope.

Inductive csr : Type :=
| Mstatus | Medeleg | Mideleg | Mie | Mtvec | Mcounteren | Mscratch | Mepc | Mcause | Mtval | Mip
| Pmpcfg0 | Pmpaddr0
| Sstatus | Sie | Stvec | Scounteren | Sscratch | Sepc | Scause | Stval | Sip | Satp.

#[export] Instance csr_eq_dec : EqDecision csr.
Proof. solve_decision. Defined.

(** What the registers hold; nothing is stored for the three views. *)
Definition csrfile : Type := csr → Z.

Definition csr_upd (c : csr) (v : Z) (f : csrfile) : csrfile := λ c', if decide (c' = c) then v else f c'.

(** The bits of [v] where the mask is set, those of [old] elsewhere. *)
Definition merge (mask v old : Z) : Z := Z.lor (Z.land old (Z.lnot mask)) (Z.land v mask).

(** SIE, SPIE, UBE, SPP, VS, FS, XS, SUM, MXR, UXL and SD. *)
Definition SSTATUS_MASK : Z := 0x80000003000DE762.
(** The bits of mip that software writes: SSIP, STIP and SEIP. *)
Definition MIP_MASK : Z := 0x222.

Definition csr_read (c : csr) (f : csrfile) : Z :=
  match c with
  | Sstatus => Z.land (f Mstatus) SSTATUS_MASK
  | Sie => Z.land (f Mie) (f Mideleg)
  | Sip => Z.land (f Mip) (f Mideleg)
  | _ => f c
  end.

(** The lowest bit of an exception program counter is always 0; only SSIP of sip can
    be written. *)
Definition csr_write (c : csr) (v : Z) (f : csrfile) : csrfile :=
  match c with
  | Sstatus => csr_upd Mstatus (merge SSTATUS_MASK v (f Mstatus)) f
  | Sie => csr_upd Mie (merge (f Mideleg) v (f Mie)) f
  | Sip => csr_upd Mip (merge (Z.land 2 (f Mideleg)) v (f Mip)) f
  | Mip => csr_upd Mip (merge MIP_MASK v (f Mip)) f
  | Mepc | Sepc => csr_upd c (Z.land (u64 v) (Z.lnot 1)) f
  | _ => csr_upd c (u64 v) f
  end.
Definition csr_set (c : csr) (mask : Z) (f : csrfile) : csrfile := csr_write c (Z.lor (csr_read c f) mask) f.
Definition csr_clear (c : csr) (mask : Z) (f : csrfile) : csrfile := csr_write c (Z.land (csr_read c f) (Z.lnot mask)) f.

(** ** csr.h *)

Definition RISCV_MIE_SSIE : Z := Z.shiftl 1 1.
Definition RISCV_MIE_MSIE : Z := Z.shiftl 1 3.
Definition RISCV_MIE_STIE : Z := Z.shiftl 1 5.
Definition RISCV_MIE_MTIE : Z := Z.shiftl 1 7.
Definition RISCV_MIE_SEIE : Z := Z.shiftl 1 9.
Definition RISCV_MIE_MEIE : Z := Z.shiftl 1 11.
Definition RISCV_SIE_SSIE : Z := Z.shiftl 1 1.
Definition RISCV_SIE_STIE : Z := Z.shiftl 1 5.
Definition RISCV_MIP_SSIP : Z := Z.shiftl 1 1.
Definition RISCV_MIP_STIP : Z := Z.shiftl 1 5.
Definition RISCV_MIP_SEIP : Z := Z.shiftl 1 9.
Definition RISCV_SSTATUS_SIE : Z := Z.shiftl 1 1.
Definition RISCV_SSTATUS_SPIE : Z := Z.shiftl 1 5.
Definition RISCV_SSTATUS_SUM : Z := Z.shiftl 1 18.

(** The results of type [intptr_t] are signed. *)
Definition csrr_mcause (f : csrfile) : Z := s64 (csr_read Mcause f).
Definition csrr_scause (f : csrfile) : Z := s64 (csr_read Scause f).
Definition csrr_mtval (f : csrfile) : Z := csr_read Mtval f.
Definition csrr_stval (f : csrfile) : Z := csr_read Stval f.
Definition csrw_mepc (mepc_new : Z) (f : csrfile) : csrfile := csr_write Mepc mepc_new f.
Definition csrr_mepc (f : csrfile) : Z := csr_read Mepc f.
Definition csrw_sepc (sepc_new : Z) (f : csrfile) : csrfile := csr_write Sepc sepc_new f.
Definition csrr_sepc (f : csrfile) : Z := csr_read Sepc f.
Definition csrw_mscratch (mscratch_new : Z) (f : csrfile) : csrfile := csr_write Mscratch mscratch_new f.
Definition csrr_mscratch (f : csrfile) : Z := csr_read Mscratch f.
Definition csrw_sscratch (sscratch_new : Z) (f : csrfile) : csrfile := csr_write Sscratch sscratch_new f.
Definition csrr_sscratch (f : csrfile) : Z := csr_read Sscratch f.
Definition csrw_mtvec (handler : Z) (f : csrfile) : csrfile := csr_write Mtvec handler f.
Definition csrw_stvec (handler : Z) (f : csrfile) : csrfile := csr_write Stvec handler f.
Definition csrw_mie (mask : Z) (f : csrfile) : csrfile := csr_write Mie mask f.
Definition csrs_mie (mask : Z) (f : csrfile) : csrfile := csr_set Mie mask f.
Definition csrc_mie (mask : Z) (f : csrfile) : csrfile := csr_clear Mie mask f.
Definition csrw_sie (mask : Z) (f : csrfile) : csrfile := csr_write Sie mask f.
Definition csrs_sie (mask : Z) (f : csrfile) : csrfile := csr_set Sie mask f.
Definition csrc_sie (mask : Z) (f : csrfile) : csrfile := csr_clear Sie mask f.
Definition csrw_mip (mask : Z) (f : csrfile) : csrfile := csr_write Mip mask f.
Definition csrs_mip (mask : Z) (f : csrfile) : csrfile := csr_set Mip mask f.
Definition csrc_mip (mask : Z) (f : csrfile) : csrfile := csr_clear Mip mask f.
Definition csrw_sip (mask : Z) (f : csrfile) : csrfile := csr_write Sip mask f.
Definition csrs_sip (mask : Z) (f : csrfile) : csrfile := csr_set Sip mask f.
Definition csrc_sip (mask : Z) (f : csrfile) : csrfile := csr_clear Sip mask f.
Definition csrr_mstatus (f : csrfile) : Z := s64 (csr_read Mstatus f).
Definition csrs_mstatus (mask : Z) (f : csrfile) : csrfile := csr_set Mstatus mask f.
Definition csrc_mstatus (mask : Z) (f : csrfile) : csrfile := csr_clear Mstatus mask f.
Definition csrr_sstatus (f : csrfile) : Z := s64 (csr_read Sstatus f).
Definition csrs_sstatus (mask : Z) (f : csrfile) : csrfile := csr_set Sstatus mask f.
Definition csrc_sstatus (mask : Z) (f : csrfile) : csrfile := csr_clear Sstatus mask f.
Definition csrr_satp (f : csrfile) : Z := csr_read Satp f.
Definition csrw_satp (satp_new : Z) (f : csrfile) : csrfile := csr_write Satp satp_new f.
Definition csrrw_satp (satp_new : Z) (f : csrfile) : Z * csrfile := (csr_read Satp f, csr_write Satp satp_new f).

(** ** intr.h *)

(** The old sstatus, as an int, and the registers. *)
Definition intr_enable (f : csrfile) : Z * csrfile := (s32 (csr_read Sstatus f), csr_set Sstatus RISCV_SSTATUS_SIE f).
Definition intr_disable (f : csrfile) : Z * csrfile := (s32 (csr_read Sstatus f), csr_clear Sstatus RISCV_SSTATUS_SIE f).
Definition intr_restore (saved_intr_state : Z) (f : csrfile) : csrfile :=
  csr_set Sstatus (Z.land saved_intr_state RISCV_SSTATUS_SIE) (csr_clear Sstatus RISCV_SSTATUS_SIE f).
Definition intr_enabled (f : csrfile) : Z := if Z.land (csrr_sstatus f) RISCV_SSTATUS_SIE =? 0 then 0 else 1.
Definition intr_disabled (f : csrfile) : Z := if Z.land (csrr_sstatus f) RISCV_SSTATUS_SIE =? 0 then 1 else 0.

(** ** Bits *)

Lemma csr_upd_same c v f : csr_upd c v f c = v.
Proof. unfold csr_upd. by rewrite decide_True. Qed.
Lemma csr_upd_ne c c' v f : c' ≠ c → csr_upd c v f c' = f c'.
Proof. intros. unfold csr_upd. by rewrite decide_False. Qed.

Lemma merge_spec mask v old i : 0 ≤ i → Z.testbit (merge mask v old) i = if Z.testbit mask i then Z.testbit v i else Z.testbit old i.
Proof.
  intros Hi. unfold merge. rewrite Z.lor_spec, !Z.land_spec, Z.lnot_spec by done.
  destruct (Z.testbit mask i), (Z.testbit v i), (Z.testbit old i); done.
Qed.

(** The bits of a view through a mask. *)
Lemma sstatus_bit f i : Z.testbit (csr_read Sstatus f) i = (Z.testbit (f Mstatus) i && Z.testbit SSTATUS_MASK i).
Proof. apply Z.land_spec. Qed.

Lemma sstatus_write_bit v f i : 0 ≤ i →
  Z.testbit (csr_write Sstatus v f Mstatus) i = if Z.testbit SSTATUS_MASK i then Z.testbit v i else Z.testbit (f Mstatus) i.
Proof. intros Hi. cbn [csr_write]. rewrite csr_upd_same. by apply merge_spec. Qed.

Lemma sstatus_write_other v f c : c ≠ Mstatus → csr_write Sstatus v f c = f c.
Proof. apply csr_upd_ne. Qed.

Lemma sstatus_set_bit mask f i : 0 ≤ i →
  Z.testbit (csr_set Sstatus mask f Mstatus) i = Z.testbit (f Mstatus) i || (Z.testbit SSTATUS_MASK i && Z.testbit mask i).
Proof.
  intros Hi. unfold csr_set. rewrite sstatus_write_bit, Z.lor_spec, sstatus_bit by done.
  destruct (Z.testbit SSTATUS_MASK i); cbn [andb]; [by rewrite andb_true_r|by rewrite orb_false_r].
Qed.

Lemma sstatus_clear_bit mask f i : 0 ≤ i →
  Z.testbit (csr_clear Sstatus mask f Mstatus) i = Z.testbit (f Mstatus) i && negb (Z.testbit SSTATUS_MASK i && Z.testbit mask i).
Proof.
  intros Hi. unfold csr_clear. rewrite sstatus_write_bit, Z.land_spec, Z.lnot_spec, sstatus_bit by done.
  destruct (Z.testbit SSTATUS_MASK i); cbn [andb negb]; [by rewrite andb_true_r|by rewrite andb_true_r].
Qed.

(** A constant with one bit. *)
Lemma bit_spec n i : 0 ≤ n → Z.testbit (Z.shiftl 1 n) i = bool_decide (i = n).
Proof.
  intros Hn. rewrite Z.shiftl_1_l. destruct (decide (i = n)) as [->|Hne].
  - rewrite bool_decide_true by done. by apply Z.pow2_bits_true.
  - rewrite bool_decide_false by done. by apply Z.pow2_bits_false.
Qed.

Lemma land_bit v n : 0 ≤ n → (Z.land v (Z.shiftl 1 n) =? 0) = negb (Z.testbit v n).
Proof.
  intros Hn. destruct (Z.testbit v n) eqn:Hb; cbn [negb].
  - apply Z.eqb_neq. intros Hz. assert (Ht : Z.testbit (Z.land v (Z.shiftl 1 n)) n = true); [|by rewrite Hz, Z.bits_0 in Ht].
    by rewrite Z.land_spec, bit_spec, Hb, bool_decide_true.
  - apply Z.eqb_eq, Z.bits_inj'. intros i Hi. rewrite Z.land_spec, bit_spec, Z.bits_0 by done.
    case_bool_decide; [subst; by rewrite Hb|by rewrite andb_false_r].
Qed.

Lemma low_bits w v i : 0 ≤ i < w → Z.testbit ((v + 2 ^ (w - 1)) mod 2 ^ w - 2 ^ (w - 1)) i = Z.testbit v i.
Proof.
  intros Hi. rewrite <- (Z.mod_pow2_bits_low _ w) by lia. rewrite <- (Z.mod_pow2_bits_low v w) by lia. f_equal.
  rewrite Zminus_mod_idemp_l. f_equal. lia.
Qed.
Lemma s32_bit v i : 0 ≤ i < 32 → Z.testbit (s32 v) i = Z.testbit v i.
Proof. apply (low_bits 32). Qed.
Lemma s64_bit v i : 0 ≤ i < 64 → Z.testbit (s64 v) i = Z.testbit v i.
Proof. apply (low_bits 64). Qed.

(** ** The interrupt flag *)

(** sstatus.SIE *)
Definition irq_on (f : csrfile) : bool := Z.testbit (f Mstatus) 1.

(** Nothing but the flag differs. *)
Record same_but_sie (f g : csrfile) : Prop := {
  sb_csr c : c ≠ Mstatus → g c = f c;
  sb_bit i : 0 ≤ i → i ≠ 1 → Z.testbit (g Mstatus) i = Z.testbit (f Mstatus) i
}.

#[export] Instance same_but_sie_preorder : PreOrder same_but_sie.
Proof. split; [by split|]. intros f g h [H1 H2] [H3 H4]. split; intros; [by rewrite H3, H1|by rewrite H4, H2]. Qed.

Lemma set_sie b f : same_but_sie f (csr_set Sstatus (if b : bool then RISCV_SSTATUS_SIE else 0) f) ∧
  irq_on (csr_set Sstatus (if b then RISCV_SSTATUS_SIE else 0) f) = irq_on f || b.
Proof.
  unfold irq_on. split; [split|].
  - intros c Hc. by apply sstatus_write_other.
  - intros i Hi Hne. rewrite sstatus_set_bit by done. destruct b; [|by rewrite Z.bits_0, andb_false_r, orb_false_r].
    unfold RISCV_SSTATUS_SIE. by rewrite bit_spec, bool_decide_false, andb_false_r, orb_false_r.
  - rewrite sstatus_set_bit by done. by destruct b.
Qed.

Lemma clear_sie f : same_but_sie f (csr_clear Sstatus RISCV_SSTATUS_SIE f) ∧ irq_on (csr_clear Sstatus RISCV_SSTATUS_SIE f) = false.
Proof.
  unfold irq_on. split; [split|].
  - intros c Hc. by apply sstatus_write_other.
  - intros i Hi Hne. rewrite sstatus_clear_bit by done. unfold RISCV_SSTATUS_SIE.
    by rewrite bit_spec, bool_decide_false, andb_false_r, andb_true_r.
  - rewrite sstatus_clear_bit by done. apply andb_false_r.
Qed.

Lemma saved_flag v : Z.land (s32 v) RISCV_SSTATUS_SIE = if Z.testbit v 1 then RISCV_SSTATUS_SIE else 0.
Proof.
  pose proof (land_bit (s32 v) 1 ltac:(lia)) as Hl. fold RISCV_SSTATUS_SIE in Hl. rewrite s32_bit in Hl by lia.
  apply Z.bits_inj'. intros i Hi. unfold RISCV_SSTATUS_SIE. rewrite Z.land_spec, bit_spec by done. case_bool_decide as Hd.
  - subst i. rewrite s32_bit, andb_true_r by lia. by destruct (Z.testbit v 1).
  - rewrite andb_false_r. destruct (Z.testbit v 1); [|by rewrite Z.bits_0]. rewrite bit_spec by done. by rewrite bool_decide_false.
Qed.

Lemma restore_flag v g : same_but_sie g (intr_restore (s32 v) g) ∧ irq_on (intr_restore (s32 v) g) = Z.testbit v 1.
Proof.
  unfold intr_restore. rewrite saved_flag. destruct (clear_sie g) as [Hs Ho].
  destruct (set_sie (Z.testbit v 1) (csr_clear Sstatus RISCV_SSTATUS_SIE g)) as [Hs' Ho']. split; [by etrans|]. by rewrite Ho', Ho.
Qed.

(** C33: the functions of intr.h on sstatus are those that the model of the threads
    has on its flag: disabling and enabling return the old flag and set it, restoring
    what either returned gives the old flag back, in whatever state, and nothing else
    of any register changes. *)
Theorem intr_flag_equiv (f g : csrfile) (s s' : sched) :
  irq_on f = sie s →
  let d := intr_disable f in let e := intr_enable f in
  irq_on d.2 = sie (Thread.intr_disable s).2 ∧ same_but_sie f d.2 ∧
  irq_on e.2 = sie (Thread.intr_enable s).2 ∧ same_but_sie f e.2 ∧
  (∀ r, r ∈ [d.1; e.1] → irq_on (intr_restore r g) = sie (Thread.intr_restore (Thread.intr_disable s).1 s') ∧ same_but_sie g (intr_restore r g)) ∧
  (intr_enabled f ≠ 0 ↔ sie s = true) ∧ (intr_disabled f ≠ 0 ↔ sie s = false).
Proof.
  intros Hf d e. destruct (clear_sie f) as [Hc Hc']. destruct (set_sie true f) as [He He'].
  assert (Hbit : Z.testbit (csr_read Sstatus f) 1 = sie s) by (rewrite sstatus_bit, andb_true_r; exact Hf).
  split; [exact Hc'|]. split; [exact Hc|]. split; [unfold e; cbn [intr_enable snd Thread.intr_enable]; rewrite He'; by rewrite orb_true_r|].
  split; [exact He|]. split.
  - assert (Hr : irq_on (intr_restore (s32 (csr_read Sstatus f)) g) = sie s ∧ same_but_sie g (intr_restore (s32 (csr_read Sstatus f)) g)).
    { destruct (restore_flag (csr_read Sstatus f) g) as [H1 H2]. by rewrite H2. }
    intros r Hr'. unfold d, e in Hr'. cbn [intr_disable intr_enable fst] in Hr'. rewrite !elem_of_cons, elem_of_nil in Hr'.
    destruct Hr' as [->|[->|[]]]; exact Hr.
  - unfold intr_enabled, intr_disabled, csrr_sstatus, RISCV_SSTATUS_SIE. rewrite land_bit, s64_bit, Hbit by lia.
    by destruct (sie s).
Qed.

Lemma intr_flag_equiv_witness :
  let f : csrfile := λ c, if decide (c = Mstatus) then 0xA00000002 else 0 in
  let s := Sched ∅ ∅ [] 0 true 0 0 ∅ (Heap.Heap false 0 0 (Memory.Mem ∅ 0 0 0 false)) in
  intr_enabled f = 1 ∧ irq_on (intr_disable f).2 = false ∧ irq_on (intr_restore (intr_disable f).1 (intr_disable f).2) = true.
Proof.
  intros f s. split; [reflexivity|]. destruct (intr_flag_equiv f (intr_disable f).2 s s eq_refl) as (H1 & _ & _ & _ & H2 & _).
  split; [exact H1|]. exact (proj1 (H2 _ (list_elem_of_here _ _))).
Defined.
