(* ===== verification/Frames.v ===== *)
(** What the operations on threads leave alone.

    A relation between states that single writes to the links and states of threads
    preserve ([ListFrame]) is preserved by every operation on lists and conditions;
    one that changing the current thread and the active space preserve as well
    ([SwitchFrame]), by every operation that gives up the CPU. *)
From Stdlib Require Import ZArith Lia.
From stdpp Require Import base gmap list strings.
From S2P Require Import Prelude Pages Heap Pte Memory Thread.

Open Scope Z_scope.

(** The writes to a thread that lists and conditions make. *)
Inductive link_write : (thread → thread) → Prop :=
| lw_next n : link_write (set_next n)
| lw_state x : link_write (set_state x)
| lw_wait c : link_write (set_wait c).

Class ListFrame (R : sched → sched → Prop) : Prop := {
  lf_preorder :: PreOrder R;
  lf_write t f s th : link_write f → threads s !! t = Some th → R s (with_threads <[t := f th]> s);
  lf_list l x s : R s (set_list l x s);
  lf_sie b s : R s (with_sie b s)
}.

Class SwitchFrame (R : sched → sched → Prop) : Prop := {
  sf_list :: ListFrame R;
  sf_space mtag s : R s (switch_space mtag s);
  sf_switch t s : R s (thread_swtch t s)
}.

(** Peel the binds off a hypothesis that a call returns. *)
Ltac peel H :=
  let x := fresh "x" in let E := fresh "E" in
  apply bind_Done in H as (x & E & H).

Section ListFrame.
Context (R : sched → sched → Prop) `{!ListFrame R}.

Lemma frame_upd t f s s' : link_write f → upd_thr t f s = Done s' → R s s'.
Proof. intros Hf Hu. peel Hu. injection Hu as <-. apply lf_write; [done|]. by apply deref_Done. Qed.

Ltac write := first [by eapply frame_upd; [apply lw_next|] | by eapply frame_upd; [apply lw_state|] | by eapply frame_upd; [apply lw_wait|]].

Lemma frame_tlinsert l t s s' : tlinsert l t s = Done s' → R s s'.
Proof.
  unfold tlinsert. intros Hi. peel Hi. apply bind_Done in Hi as (s1 & H1 & Hi). apply bind_Done in Hi as (s2 & H2 & [= <-]).
  etrans; [write|]. trans s2; [|apply lf_list].
  destruct (ltail (get_list l s1)); peel H2; [write|injection H2 as <-; apply lf_list].
Qed.

Lemma frame_tlremove l t s s' : tlremove l s = Done (t, s') → R s s'.
Proof.
  unfold tlremove. destruct (lhead (get_list l s)); [|by intros [= _ <-]]. intros Hr. peel Hr. apply bind_Done in Hr as (s1 & H1 & Hr).
  apply bind_Done in Hr as (s2 & H2 & [= _ <-]). trans s1; [|write].
  destruct (list_next x); (etrans; [apply lf_list|]); [write|injection H1 as <-; apply lf_list].
Qed.

Lemma frame_tlappend l0 l1 s s' : tlappend l0 l1 s = Done s' → R s s'.
Proof.
  unfold tlappend. intros Ha. apply bind_Done in Ha as (s1 & H1 & [= <-]). etrans; [|apply lf_list]. destruct (lhead (get_list l0 s)).
  - peel H1. destruct (lhead (get_list l1 s)); [|by injection H1 as <-]. peel H1. apply bind_Done in H1 as (s2 & H2 & [= <-]).
    etrans; [write|apply lf_list].
  - peel H1. injection H1 as <-. apply lf_list.
Qed.

Lemma frame_wake fuel c : ∀ thr s s', wake_loop fuel c thr s = Done s' → R s s'.
Proof.
  induction fuel as [|fuel IH]; intros [t|] s s'; cbn [wake_loop]; try done; try (by intros [= <-]). intros Hw.
  do 3 peel Hw. apply bind_Done in Hw as (s1 & H1 & Hw). apply bind_Done in Hw as (s2 & H2 & Hw). peel Hw.
  trans s1; [write|]. trans s2; [write|by eapply IH].
Qed.

Lemma frame_broadcast c s s' : condition_broadcast c s = Done s' → R s s'.
Proof.
  unfold condition_broadcast. case_match; [by intros [= <-]|]. cbn [intr_disable]. intros Hb.
  apply bind_Done in Hb as (s1 & H1 & Hb). apply bind_Done in Hb as (s2 & H2 & [= <-]).
  etrans; [apply (lf_sie false)|]. trans s1; [by eapply frame_wake|]. trans s2; [by eapply frame_tlappend|].
  etrans; [apply lf_list|apply lf_sie].
Qed.
End ListFrame.

Section SwitchFrame.
Context (R : sched → sched → Prop) `{!SwitchFrame R}.

Ltac write := first [by eapply (frame_upd R); [apply lw_next|] | by eapply (frame_upd R); [apply lw_state|] | by eapply (frame_upd R); [apply lw_wait|]].

Lemma frame_suspend s saved s' : suspend_self s = Done (saved, s') → R s s'.
Proof.
  unfold suspend_self, intr_disable, intr_enable, intr_restore. intros Hs. peel Hs. apply bind_Done in Hs as ([nx s1] & H1 & Hs).
  do 3 peel Hs. apply bind_Done in Hs as (s2 & H2 & Hs). peel Hs. apply bind_Done in Hs as (s3 & H3 & Hs). peel Hs.
  apply bind_Done in Hs as (s4 & H4 & [= _ <-]).
  etrans; [apply (lf_sie false)|]. trans s1; [eapply (frame_tlremove R); exact H1|]. trans s2; [write|].
  trans s3.
  { case_bool_decide; [|by injection H3 as <-]. apply bind_Done in H3 as (s5 & H5 & H3). trans s5; [write|by eapply (frame_tlinsert R)]. }
  etrans; [apply (lf_sie true)|]. trans s4; [|apply sf_switch].
  match type of H4 with context [tproc ?th] => destruct (tproc th) end; [|by injection H4 as <-].
  peel H4. injection H4 as <-. etrans; [apply (lf_sie false)|]. etrans; [apply sf_space|apply lf_sie].
Qed.

Lemma frame_yield s saved s' : thread_yield s = Done (saved, s') → R s s'.
Proof. unfold thread_yield. intros Hy. do 2 peel Hy. by eapply frame_suspend. Qed.

Lemma frame_wait c s saved s' : condition_wait c s = Done (saved, s') → R s s'.
Proof.
  unfold condition_wait, intr_disable, intr_restore. intros Hw. do 2 peel Hw. apply bind_Done in Hw as (s1 & H1 & Hw).
  apply bind_Done in Hw as (s2 & H2 & Hw). apply bind_Done in Hw as (s3 & H3 & Hw). apply bind_Done in Hw as (s4 & H4 & Hw).
  trans s1; [write|]. trans s2; [write|]. trans s3; [write|].
  etrans; [apply (lf_sie false)|]. trans s4; [by eapply (frame_tlinsert R)|]. etrans; [apply lf_sie|by eapply frame_suspend].
Qed.

Lemma frame_exit s saved s' : thread_exit s = Done (Switched saved s') → R s s'.
Proof.
  unfold thread_exit. case_match; [done|]. intros He. apply bind_Done in He as (s1 & H1 & He). do 2 peel He.
  apply bind_Done in He as (s2 & H2 & He). apply bind_Done in He as ([sv s3] & H3 & [= _ <-]).
  trans s1; [write|]. trans s2; [by eapply (frame_broadcast R)|by eapply frame_suspend].
Qed.
End SwitchFrame.
