(* ===== verification/ThreadLists.v ===== *)
(** The intrusive thread lists of thread.c implement sequences.

    [tl_rep s l ts]: the list [l] of state [s] links exactly the threads [ts], in
    order.  [tlinsert] appends, [tlremove] takes the first and [tlappend]
    concatenates, and none of them changes a thread but for [list_next]. *)
From Stdlib Require Import ZArith Lia.
From stdpp Require Import base gmap list sets strings.
From S2P Require Import Prelude Pages Heap Pte Memory Thread.

Definition tl_rep (s : sched) (l : list_id) (ts : list Z) : Prop :=
  lhead (get_list l s) = head ts ∧ ltail (get_list l s) = last ts ∧ NoDup ts ∧
  ∀ i t, ts !! i = Some t → ∃ th, threads s !! t = Some th ∧ list_next th = ts !! S i.

(** The states differ only in the links of threads and in the lists. *)
Definition same_but_links (s s' : sched) : Prop :=
  (∀ x, set_next None <$> threads s' !! x = set_next None <$> threads s !! x) ∧
  thrtab s' = thrtab s ∧ CURTHR s' = CURTHR s ∧ sie s' = sie s ∧
  main_thread s' = main_thread s ∧ idle_thread s' = idle_thread s ∧
  proc_mtag s' = proc_mtag s ∧ kheap s' = kheap s.

#[export] Instance same_but_links_preorder : PreOrder same_but_links.
Proof.
  split; [done|]. intros s1 s2 s3 (H1 & ?) (H2 & ?). split; [|naive_solver congruence].
  intros x. by rewrite H2, H1.
Qed.

Lemma same_but_links_lookup s s' x th :
  same_but_links s s' → threads s !! x = Some th →
  ∃ th', threads s' !! x = Some th' ∧ set_next None th' = set_next None th.
Proof.
  intros (Hx & _) Ht. specialize (Hx x). rewrite Ht in Hx.
  destruct (threads s' !! x) as [th'|] eqn:Ht'; [|done].
  apply (inj Some) in Hx. eauto.
Qed.
Lemma same_but_links_lookup' s s' x th' :
  same_but_links s s' → threads s' !! x = Some th' →
  ∃ th, threads s !! x = Some th ∧ set_next None th' = set_next None th.
Proof.
  intros (Hx & _) Ht. specialize (Hx x). rewrite Ht in Hx.
  destruct (threads s !! x) as [th|] eqn:Ht'; [|done].
  apply (inj Some) in Hx. eauto.
Qed.

(** The fields that a change of link keeps. *)
Lemma set_next_fields th th' :
  set_next None th' = set_next None th →
  tstate th' = tstate th ∧ wait_cond th' = wait_cond th ∧ tproc th' = tproc th ∧
  parent th' = parent th ∧ tid th' = tid th ∧ stack_base th' = stack_base th.
Proof. destruct th, th'; cbn. by intros [= ]; subst. Qed.

Lemma get_set_list l l' x s : get_list l (set_list l' x s) = if decide (l' = l) then x else get_list l s.
Proof.
  unfold get_list, set_list; cbn. destruct (decide (l' = l)) as [->|].
  - by rewrite lookup_insert_eq.
  - by rewrite lookup_insert_ne.
Qed.
Lemma get_set_list_eq l x s : get_list l (set_list l x s) = x.
Proof. rewrite get_set_list. by case_decide. Qed.
Lemma get_set_list_ne l l' x s : l' ≠ l → get_list l (set_list l' x s) = get_list l s.
Proof. rewrite get_set_list. by case_decide. Qed.

Lemma tl_rep_ext s s' l ts :
  tl_rep s l ts → get_list l s' = get_list l s →
  (∀ x th, x ∈ ts → threads s !! x = Some th →
     ∃ th', threads s' !! x = Some th' ∧ list_next th' = list_next th) →
  tl_rep s' l ts.
Proof.
  intros (Hh & Ht & Hn & Hc) Hl Hx. unfold tl_rep. rewrite Hl. split_and!; [done..|].
  intros i t Hi. destruct (Hc i t Hi) as (th & Hth & Hnx).
  destruct (Hx t th) as (th' & Hth' & Hnx'); [by eapply list_elem_of_lookup_2|done|].
  exists th'. split; [done|]. by rewrite Hnx', Hnx.
Qed.

Lemma get_thr_eq t s th : threads s !! t = Some th → get_thr t s = Done th.
Proof. intros Ht. unfold get_thr. by rewrite Ht. Qed.
Lemma upd_thr_eq t f s th :
  threads s !! t = Some th → upd_thr t f s = Done (with_threads <[t := f th]> s).
Proof. intros Ht. unfold upd_thr, get_thr. by rewrite Ht. Qed.

Lemma same_links_upd t n s th :
  threads s !! t = Some th → same_but_links s (with_threads <[t := set_next n th]> s).
Proof.
  intros Ht. split; [|done]. intros x. cbn. destruct (decide (x = t)) as [->|].
  - rewrite lookup_insert_eq, Ht. done.
  - by rewrite lookup_insert_ne.
Qed.

Lemma tlempty_rep s l ts : tl_rep s l ts → tlempty l s = bool_decide (ts = []).
Proof. intros (Hh & _). unfold tlempty. rewrite Hh. by destruct ts. Qed.

(** A list that shares no thread with the changed ones keeps its contents. *)
Definition frames (s s' : sched) (l : list_id) (changed : list Z) : Prop :=
  ∀ l' ts', l' ≠ l → tl_rep s l' ts' → (∀ x, x ∈ ts' → x ∉ changed) → tl_rep s' l' ts'.

Lemma tl_member s l ts t : tl_rep s l ts → t ∈ ts → ∃ th, threads s !! t = Some th.
Proof.
  intros (_ & _ & _ & Hc) Ht. apply list_elem_of_lookup in Ht as [i Hi].
  destruct (Hc i t Hi) as (th & ? & _). eauto.
Qed.

Lemma tlinsert_rep s l ts t th :
  tl_rep s l ts → t ∉ ts → threads s !! t = Some th →
  ∃ s', tlinsert l (Some t) s = Done s' ∧ tl_rep s' l (ts ++ [t]) ∧ same_but_links s s' ∧
    frames s s' l (t :: ts).
Proof.
  intros Hrep Hni Hth. pose proof Hrep as (Hh & Ht & Hnd & Hc).
  assert (Hnd' : NoDup (ts ++ [t])).
  { apply NoDup_app. split_and!; [done| |apply NoDup_singleton]. intros x Hx. set_solver. }
  unfold tlinsert. cbn [deref mbind outcome_bind]. rewrite (upd_thr_eq _ _ _ _ Hth). cbn [mbind outcome_bind].
  set (s1 := with_threads <[t := set_next None th]> s).
  change (get_list l s1) with (get_list l s). change (tlempty l s1) with (tlempty l s).
  rewrite (tlempty_rep _ _ _ Hrep), Ht.
  destruct (last ts) as [z|] eqn:Hz.
  - assert (Hzin : z ∈ ts) by (apply last_Some in Hz as [ts' ->]; set_solver).
    rewrite bool_decide_eq_false_2 by (intros ->; done). cbn [negb kassert mbind outcome_bind].
    assert (Hzt : z ≠ t) by (intros ->; done).
    destruct (tl_member _ _ _ _ Hrep Hzin) as (zth & Hzth).
    assert (Hz1 : threads s1 !! z = Some zth) by (cbn; by rewrite lookup_insert_ne).
    rewrite (upd_thr_eq _ _ _ _ Hz1). cbn [mbind outcome_bind].
    set (s2 := with_threads <[z := set_next (Some t) zth]> s1).
    change (get_list l s2) with (get_list l s).
    eexists. split; [done|]. split_and!.
    + split_and!.
      * rewrite get_set_list_eq. cbn. rewrite Hh. destruct ts; [done|done].
      * rewrite get_set_list_eq. cbn. by rewrite last_snoc.
      * done.
      * intros i x Hi. cbn. apply lookup_app_Some in Hi as [Hi|[Hlen Hi]].
        -- destruct (Hc i x Hi) as (xth & Hx & Hnx).
           assert (x ≠ t) by (intros ->; apply Hni; by eapply list_elem_of_lookup_2).
           destruct (decide (x = z)) as [->|Hxz].
           ++ rewrite lookup_insert_eq. eexists. split; [done|]. cbn.
              assert (S i = length ts) as Hi'.
              { rewrite last_lookup in Hz. assert (i = pred (length ts)) as -> by exact (NoDup_lookup ts _ _ z Hnd Hi Hz).
                apply lookup_lt_Some in Hi. lia. }
              rewrite lookup_app_r by lia. by rewrite Hi', Nat.sub_diag.
           ++ rewrite lookup_insert_ne, lookup_insert_ne by done. exists xth. split; [done|].
              rewrite Hnx. destruct (ts !! S i) as [y|] eqn:Hy; [by rewrite (lookup_app_l_Some _ _ _ _ Hy)|].
              exfalso. apply Hxz. rewrite last_lookup in Hz. apply lookup_ge_None in Hy.
              pose proof (lookup_lt_Some _ _ _ Hi). replace (pred (length ts)) with i in Hz by lia. congruence.
        -- destruct (i - length ts)%nat as [|k] eqn:Hk; [|done]. cbn in Hi. injection Hi as <-.
           rewrite lookup_insert_ne, lookup_insert_eq by done. eexists. split; [done|]. cbn.
           rewrite lookup_app_r by lia. replace (S i - length ts)%nat with 1%nat by lia. done.
    + etrans; [by apply (same_links_upd t None)|]. etrans; [apply (same_links_upd z (Some t)); exact Hz1|]. done.
    + intros l' ts' Hne Hrep' Hx. eapply tl_rep_ext; [exact Hrep'|by rewrite get_set_list_ne|].
      intros x xth Hin Hxth. exists xth. split; [|done]. cbn.
      specialize (Hx x Hin). rewrite lookup_insert_ne, lookup_insert_ne by set_solver. done.
  - apply last_None in Hz as ->. rewrite bool_decide_eq_true_2 by done. cbn [kassert mbind outcome_bind].
    rewrite get_set_list_eq. cbn [lhead].
    eexists. split; [done|]. split_and!.
    + split_and!; [by rewrite get_set_list_eq..|done|].
      intros i x Hi. destruct i; [|done]. cbn in Hi. injection Hi as <-. cbn.
      rewrite lookup_insert_eq. by eexists.
    + etrans; [by apply (same_links_upd t None)|]. done.
    + intros l' ts' Hne Hrep' Hx. eapply tl_rep_ext; [exact Hrep'|by rewrite !get_set_list_ne|].
      intros x xth Hin Hxth. exists xth. split; [|done]. cbn.
      specialize (Hx x Hin). rewrite lookup_insert_ne by set_solver. done.
Qed.

Lemma tlremove_empty s l : tl_rep s l [] → tlremove l s = Done (None, s).
Proof. intros (Hh & _). unfold tlremove. by rewrite Hh. Qed.

Lemma tlremove_rep s l t ts :
  tl_rep s l (t :: ts) →
  ∃ s', tlremove l s = Done (Some t, s') ∧ tl_rep s' l ts ∧ same_but_links s s' ∧ frames s s' l [t].
Proof.
  intros (Hh & Ht & Hnd & Hc). apply NoDup_cons in Hnd as [Hni Hnd].
  destruct (Hc 0%nat t eq_refl) as (th & Hth & Hnx). cbn in Hnx.
  unfold tlremove. rewrite Hh. cbn [head]. unfold get_thr. rewrite Hth. cbn [deref mbind outcome_bind].
  assert (Hfin : ∀ s0 L, threads s0 = threads s ∨ threads s0 = <[t := set_next None th]> (threads s) →
    thrtab s0 = thrtab s → CURTHR s0 = CURTHR s → sie s0 = sie s → main_thread s0 = main_thread s →
    idle_thread s0 = idle_thread s → proc_mtag s0 = proc_mtag s → kheap s0 = kheap s →
    (∀ l', get_list l' s0 = if decide (l = l') then L else get_list l' s) →
    L = TList (head ts) (last ts) →
    ∃ s', ('(a, b) ← (s1 ← upd_thr t (set_next None) s0; Done (Some t, s1)); Done (a, b)) = Done (Some t, s') ∧
      tl_rep s' l ts ∧ same_but_links s s' ∧ frames s s' l [t]).
  { intros s0 L Hthr H1 H2 H3 H4 H5 H6 H7 Hl HL.
    assert (Ht0 : ∃ th0, threads s0 !! t = Some th0 ∧ set_next None th0 = set_next None th).
    { destruct Hthr as [->| ->]; [by exists th|]. rewrite lookup_insert_eq. by eexists. }
    destruct Ht0 as (th0 & Hth0 & Heq0). rewrite (upd_thr_eq _ _ _ _ Hth0). cbn [mbind outcome_bind].
    assert (Hx : ∀ x, x ≠ t → <[t := set_next None th0]> (threads s0) !! x = threads s !! x).
    { intros x Hne. rewrite lookup_insert_ne by done. destruct Hthr as [->| ->]; [done|].
      by rewrite lookup_insert_ne. }
    eexists. split; [done|]. split_and!.
    - unfold tl_rep. change (get_list l (with_threads _ s0)) with (get_list l s0).
      rewrite Hl, decide_True, HL by done. split_and!; [done..|].
      intros i x Hi. destruct (Hc (S i) x Hi) as (xth & Hxth & Hxn). exists xth. cbn.
      rewrite Hx; [done|]. intros ->. apply Hni. by eapply list_elem_of_lookup_2.
    - split; [|done]. intros x. cbn. destruct (decide (x = t)) as [->|Hne].
      + rewrite lookup_insert_eq, Hth. cbn. by rewrite Heq0.
      + by rewrite Hx.
    - intros l' ts' Hne Hrep' Hch. eapply tl_rep_ext; [exact Hrep'| |].
      + change (get_list l' (with_threads _ s0)) with (get_list l' s0). rewrite Hl. by rewrite decide_False.
      + intros x xth Hin Hxth. exists xth. split; [|done]. cbn. rewrite Hx; [done|].
        specialize (Hch x Hin). set_solver. }
  rewrite Hnx. destruct ts as [|u ts].
  - cbn [lookup list_lookup mbind outcome_bind].
    edestruct (Hfin (set_list l (TList None None) (set_list l (TList None (ltail (get_list l s))) s))
      (TList None None)) as (s' & Hs' & Hr & Hsm & Hf); try done; [by left| |].
    + intros l'. rewrite !get_set_list. by repeat case_decide.
    + exists s'. split; [|done]. cbn [with_lists set_list] in *.
      revert Hs'. destruct (upd_thr t (set_next None) _); by cbn.
  - cbn [lookup list_lookup mbind outcome_bind].
    set (s0 := set_list l (TList (Some u) (ltail (get_list l s))) s).
    assert (Hs0 : threads s0 !! t = Some th) by done.
    rewrite (upd_thr_eq _ _ _ _ Hs0). cbn [mbind outcome_bind].
    edestruct (Hfin (with_threads <[t := set_next None th]> s0)
      (TList (Some u) (ltail (get_list l s)))) as (s' & Hs' & Hr & Hsm & Hf); try done; [by right| | |].
    + intros l'. change (get_list l' (with_threads _ s0)) with (get_list l' s0). apply get_set_list.
    + rewrite Ht. done.
    + exists s'. split; [|done]. revert Hs'. destruct (upd_thr t (set_next None) _); by cbn.
Qed.

Lemma tlappend_rep s l0 l1 a b :
  l0 ≠ l1 → tl_rep s l0 a → tl_rep s l1 b → (∀ x, x ∈ a → x ∉ b) →
  ∃ s', tlappend l0 l1 s = Done s' ∧ tl_rep s' l0 (a ++ b) ∧ tl_rep s' l1 [] ∧ same_but_links s s' ∧
    ∀ l' ts', l' ≠ l0 → l' ≠ l1 → tl_rep s l' ts' → (∀ x, x ∈ ts' → x ∉ a) → tl_rep s' l' ts'.
Proof.
  intros Hne Ha Hb Hd. pose proof Ha as (Hh0 & Ht0 & Hn0 & Hc0). pose proof Hb as (Hh1 & Ht1 & Hn1 & Hc1).
  assert (Hnd : NoDup (a ++ b)) by (apply NoDup_app; auto).
  assert (Hnil : ∀ s0, tl_rep (set_list l1 (TList None None) s0) l1 []).
  { intros s0. split_and!; [by rewrite get_set_list_eq..|constructor|]. intros i t Hi. done. }
  unfold tlappend. rewrite Hh0, Ht0, Hh1, Ht1.
  destruct a as [|a0 a']; cbn [head].
  { cbn [last is_null kassert mbind outcome_bind]. eexists. split; [done|]. split_and!; [|done|done|].
    - split_and!; [rewrite get_set_list_ne, get_set_list_eq by done; done..|done|]. intros i t Hi. apply Hc1. done.
    - intros l' ts' H0 H1 Hrep _. eapply tl_rep_ext; [exact Hrep|by rewrite !get_set_list_ne|]. eauto. }
  set (a := a0 :: a') in *. destruct (last a) as [z|] eqn:Hz; [|by apply last_None in Hz].
  cbn [is_null deref mbind outcome_bind].
  destruct b as [|b0 b']; cbn [head].
  { cbn [mbind outcome_bind]. eexists. split; [done|]. rewrite app_nil_r. split_and!; [|done|done|].
    - eapply tl_rep_ext; [exact Ha|by rewrite get_set_list_ne|]. eauto.
    - intros l' ts' H0 H1 Hrep _. eapply tl_rep_ext; [exact Hrep|by rewrite !get_set_list_ne|]. eauto. }
  set (b := b0 :: b') in *. destruct (last b) as [w|] eqn:Hw; [|by apply last_None in Hw].
  cbn [is_null negb kassert mbind outcome_bind].
  assert (Hzin : z ∈ a) by (apply last_Some in Hz as [ts' ->]; set_solver).
  destruct (tl_member _ _ _ _ Ha Hzin) as (zth & Hzth).
  rewrite (upd_thr_eq _ _ _ _ Hzth). cbn [mbind outcome_bind].
  eexists. split; [done|]. split_and!; [|done| |].
  - split_and!.
    + rewrite get_set_list_ne, get_set_list_eq by done. done.
    + rewrite get_set_list_ne, get_set_list_eq by done. cbn [ltail]. by rewrite last_app, Hw.
    + done.
    + intros i x Hi. cbn [threads with_threads set_list with_lists]. apply lookup_app_Some in Hi as [Hi|[Hlen Hi]].
      * destruct (Hc0 i x Hi) as (xth & Hx & Hnx). destruct (decide (x = z)) as [->|Hxz].
        -- rewrite lookup_insert_eq. eexists. split; [done|]. cbn [list_next set_next].
           assert (S i = length a) as Hi'.
           { rewrite last_lookup in Hz. rewrite (NoDup_lookup a _ _ z Hn0 Hi Hz).
             pose proof (lookup_lt_Some _ _ _ Hi). lia. }
           rewrite lookup_app_r by lia. by rewrite Hi', Nat.sub_diag.
        -- rewrite lookup_insert_ne by done. exists xth. split; [done|]. rewrite Hnx.
           destruct (a !! S i) as [y|] eqn:Hy; [by rewrite (lookup_app_l_Some _ _ _ _ Hy)|].
           exfalso. apply Hxz. rewrite last_lookup in Hz. apply lookup_ge_None in Hy.
           pose proof (lookup_lt_Some _ _ _ Hi). replace (pred (length a)) with i in Hz by lia. congruence.
      * destruct (Hc1 _ x Hi) as (xth & Hx & Hnx). rewrite lookup_insert_ne.
        2:{ intros <-. apply (Hd z Hzin). by eapply list_elem_of_lookup_2. }
        exists xth. split; [done|]. rewrite Hnx, lookup_app_r by lia. f_equal. lia.
  - etrans; [by apply (same_links_upd z (head b))|]. done.
  - intros l' ts' H0 H1 Hrep Hx. eapply tl_rep_ext; [exact Hrep|by rewrite !get_set_list_ne|].
    intros x xth Hin Hxth. exists xth. split; [|done]. cbn. rewrite lookup_insert_ne; [done|].
    intros <-. by apply (Hx z).
Qed.

(** ** Waking the threads of a wait list *)

Definition wake (th : thread) : thread := set_wait None (set_state THREAD_READY th).

Lemma wake_loop_spec c ts : ∀ fuel s,
  NoDup ts → (length ts ≤ fuel)%nat →
  (∀ i t, ts !! i = Some t → ∃ th, threads s !! t = Some th ∧ list_next th = ts !! S i ∧
     tstate th = THREAD_WAITING ∧ wait_cond th = Some c) →
  ∃ f, wake_loop fuel c (head ts) s = Done (with_threads f s) ∧
    ∀ x, f (threads s) !! x = (if decide (x ∈ ts) then wake else id) <$> threads s !! x.
Proof.
  induction ts as [|t ts IH]; intros fuel s Hnd Hl Hc.
  { exists id. split; [by destruct fuel, s|]. intros x. rewrite decide_False by set_solver.
    cbn. by destruct (threads s !! x). }
  destruct fuel as [|fuel]; [cbn in Hl; lia|]. apply NoDup_cons in Hnd as [Hni Hnd].
  destruct (Hc 0%nat t eq_refl) as (th & Hth & Hnx & Hst & Hwc). cbn in Hnx.
  cbn [head wake_loop]. unfold get_thr. rewrite Hth. cbn [deref mbind outcome_bind].
  rewrite Hst, Hwc. rewrite !bool_decide_eq_true_2 by done. cbn [kassert mbind outcome_bind].
  rewrite (upd_thr_eq _ _ _ _ Hth). cbn [mbind outcome_bind].
  set (s1 := with_threads <[t := set_state THREAD_READY th]> s).
  assert (H1 : threads s1 !! t = Some (set_state THREAD_READY th)) by (cbn; by rewrite lookup_insert_eq).
  rewrite (upd_thr_eq _ _ _ _ H1). cbn [mbind outcome_bind].
  set (s2 := with_threads <[t := set_wait None (set_state THREAD_READY th)]> s1).
  assert (H2 : threads s2 !! t = Some (wake th)) by (cbn; by rewrite lookup_insert_eq).
  rewrite H2. cbn [deref mbind outcome_bind]. cbn [list_next wake set_wait set_state]. rewrite Hnx.
  assert (Hx2 : ∀ x, x ≠ t → threads s2 !! x = threads s !! x).
  { intros x Hxt. cbn. by rewrite !lookup_insert_ne. }
  replace (ts !! 0%nat) with (head ts) by (by destruct ts).
  destruct (IH fuel s2 Hnd ltac:(cbn in Hl; lia)) as (f & Hf & Hfx).
  { intros i x Hi. destruct (Hc (S i) x Hi) as (xth & Hx & ?). exists xth. rewrite Hx2; [done|].
    intros ->. apply Hni. by eapply list_elem_of_lookup_2. }
  exists (λ m, f (<[t := wake th]> (<[t := set_state THREAD_READY th]> m))). split; [exact Hf|].
  intros x. change (f (threads s2) !! x = (if decide (x ∈ t :: ts) then wake else id) <$> threads s !! x).
  rewrite Hfx. destruct (decide (x = t)) as [->|Hxt].
  - rewrite H2, Hth. rewrite decide_False by done. by rewrite decide_True by set_solver.
  - rewrite Hx2 by done. destruct (decide (x ∈ ts)).
    + by rewrite decide_True by set_solver.
    + by rewrite decide_False by set_solver.
Qed.

Lemma members_bounded s l ts : tl_rep s l ts → (length ts ≤ size (threads s))%nat.
Proof.
  intros Hrep. pose proof Hrep as (_ & _ & Hnd & _).
  rewrite <- size_dom. rewrite <- (size_list_to_set (C:=gset Z)) by done.
  apply subseteq_size. intros x Hx. apply elem_of_list_to_set in Hx.
  destruct (tl_member _ _ _ _ Hrep Hx) as (th & Hth). by apply elem_of_dom_2 in Hth.
Qed.
