(* ===== verification/Scheduler.v ===== *)
(** The scheduler of thread.c refines an abstract scheduler: a running thread, a
    queue of ready threads and a queue of waiting threads per condition. *)
From Stdlib Require Import ZArith Lia.
From stdpp Require Import base gmap list sets strings.
From S2P Require Import Prelude Pages Heap Pte Memory Thread ThreadLists.

(** ** The abstract scheduler *)

Record asched : Type := ASched {
  run : Z;
  ready : list Z;
  waitq : cond_id → list Z
}.

Definition set_waitq (c : cond_id) (q : list Z) (w : cond_id → list Z) : cond_id → list Z :=
  λ c', if decide (c' = c) then q else w c'.

(** Give up the CPU; the running thread stays runnable when [still] is set. *)
Definition a_suspend (still : bool) (a : asched) : option asched :=
  match ready a with
  | [] => None
  | n :: r => Some (ASched n (r ++ if still then [run a] else []) (waitq a))
  end.
Definition a_broadcast (c : cond_id) (a : asched) : asched :=
  ASched (run a) (ready a ++ waitq a c) (set_waitq c [] (waitq a)).
Definition a_wait (c : cond_id) (a : asched) : option asched :=
  a_suspend false (ASched (run a) (ready a) (set_waitq c (waitq a c ++ [run a]) (waitq a))).

(** ** The representation *)

(** What the scheduler looks at in a thread, besides the links. *)
Definition view (th : thread) : thread_state * option cond_id * option Z * option Z :=
  (tstate th, wait_cond th, tproc th, parent th).

Definition views (s : sched) (x : Z) : option (thread_state * option cond_id * option Z * option Z) :=
  view <$> threads s !! x.

Record sched_rep (s : sched) (a : asched) : Prop := {
  sr_lists : tl_rep s READY_LIST (ready a) ∧ ∀ c, tl_rep s (Some c) (waitq a c);
  sr_ready : ∀ x st w p q, views s x = Some (st, w, p, q) → x ∈ ready a ↔ st = THREAD_READY;
  sr_wait : ∀ x st w p q c, views s x = Some (st, w, p, q) →
    x ∈ waitq a c ↔ st = THREAD_WAITING ∧ w = Some c;
  sr_cur : CURTHR s = run a;
  sr_run : ∀ x st w p q, views s x = Some (st, w, p, q) → st = THREAD_RUNNING → x = run a;
  sr_idle : ∃ st w p q, views s (idle_thread s) = Some (st, w, p, q) ∧
    (st = THREAD_READY ∨ st = THREAD_RUNNING);
  sr_proc : ∀ x st w p q, views s x = Some (st, w, Some p, q) → is_Some (proc_mtag s !! p)
}.

(** The current thread is RUNNING: the state between calls. *)
Definition running (s : sched) : Prop :=
  ∃ w p q, views s (CURTHR s) = Some (THREAD_RUNNING, w, p, q).

Lemma views_links s s' : same_but_links s s' → ∀ x, views s' x = views s x.
Proof.
  intros (Hx & _) x. unfold views. specialize (Hx x).
  destruct (threads s !! x) as [th|], (threads s' !! x) as [th'|]; try done.
  apply (inj Some) in Hx. cbn [fmap option_fmap option_map]. f_equal.
  apply set_next_fields in Hx as (H1 & H2 & H3 & H4 & _). unfold view. congruence.
Qed.

Lemma views_upd t f s th x :
  threads s !! t = Some th →
  views (with_threads <[t := f th]> s) x = if decide (x = t) then Some (view (f th)) else views s x.
Proof.
  intros Ht. unfold views. cbn. destruct (decide (x = t)) as [->|].
  - by rewrite lookup_insert_eq.
  - by rewrite lookup_insert_ne.
Qed.

Lemma views_Some s x st w p q :
  views s x = Some (st, w, p, q) →
  ∃ th, threads s !! x = Some th ∧ tstate th = st ∧ wait_cond th = w ∧ tproc th = p ∧ parent th = q.
Proof.
  unfold views. destruct (threads s !! x) as [th|]; [|done]. intros [= <- <- <- <-]. eauto 10.
Qed.
Lemma views_thread s x th : threads s !! x = Some th → views s x = Some (view th).
Proof. intros Ht. unfold views. by rewrite Ht. Qed.

(** Changing only states keeps every list. *)
Lemma tl_rep_upd t f s th l ts :
  threads s !! t = Some th → list_next (f th) = list_next th →
  tl_rep s l ts → tl_rep (with_threads <[t := f th]> s) l ts.
Proof.
  intros Ht Hf Hrep. eapply tl_rep_ext; [exact Hrep|done|]. intros x xth _ Hx. cbn.
  destruct (decide (x = t)) as [->|].
  - rewrite lookup_insert_eq. assert (xth = th) as -> by congruence. eauto.
  - rewrite lookup_insert_ne by done. eauto.
Qed.

Lemma tl_rep_sie b s l ts : tl_rep s l ts → tl_rep (with_sie b s) l ts.
Proof. intros Hrep. eapply tl_rep_ext; [exact Hrep|done|]. eauto. Qed.

Lemma sched_rep_sie b s a : sched_rep s a → sched_rep (with_sie b s) a.
Proof.
  intros [H1 H2 H3 H4 H5 H6 H7]. by split.
Qed.

(** A thread is in at most one list. *)
Lemma sr_disjoint s a x c : sched_rep s a → x ∈ ready a → x ∉ waitq a c.
Proof.
  intros Hr Hx Hc. destruct (sr_lists _ _ Hr) as [Hl _].
  destruct (tl_member _ _ _ _ Hl Hx) as (th & Hth). pose proof (views_thread _ _ _ Hth) as Hv.
  apply (sr_ready _ _ Hr _ _ _ _ _ Hv) in Hx. apply (sr_wait _ _ Hr _ _ _ _ _ _ Hv) in Hc as [Hc _].
  congruence.
Qed.
Lemma sr_disjoint_wait s a x c c' : sched_rep s a → x ∈ waitq a c → x ∈ waitq a c' → c = c'.
Proof.
  intros Hr Hx Hc. destruct (sr_lists _ _ Hr) as [_ Hl].
  destruct (tl_member _ _ _ _ (Hl c) Hx) as (th & Hth). pose proof (views_thread _ _ _ Hth) as Hv.
  apply (sr_wait _ _ Hr _ _ _ _ _ _ Hv) in Hx as [_ Hx].
  apply (sr_wait _ _ Hr _ _ _ _ _ _ Hv) in Hc as [_ Hc]. congruence.
Qed.

(** ** suspend_self *)

(** The part of [suspend_self] that the address space depends on. *)
Lemma switch_done (p : option Z) (s : sched) :
  (∀ q, p = Some q → is_Some (proc_mtag s !! q)) →
  ∃ h, match p with
    | None => Done s
    | Some p =>
        let '(st, s) := intr_disable s in
        mtag ← deref (proc_mtag s !! p);
        Done (intr_restore st (switch_space mtag s))
    end = Done (with_heap h s).
Proof.
  intros Hp. destruct p as [q|]; [|exists (kheap s); by destruct s].
  destruct (Hp q eq_refl) as [mt Hmt]. cbn. rewrite Hmt. cbn. by eexists.
Qed.

Lemma suspend_self_rep s a st w p q n r :
  sched_rep s a → views s (CURTHR s) = Some (st, w, p, q) → st ≠ THREAD_READY → ready a = n :: r →
  (st = THREAD_RUNNING ∨ CURTHR s ≠ idle_thread s) →
  ∃ s', suspend_self s = Done (sie s, s') ∧
    sched_rep s' (ASched n (r ++ if decide (st = THREAD_RUNNING) then [run a] else []) (waitq a)) ∧
    running s' ∧ sie s' = true ∧
    (∀ x, views s' x = if decide (x = n) then (λ '(_, w, p, q), (THREAD_RUNNING, w, p, q)) <$> views s x
       else if decide (x = CURTHR s ∧ st = THREAD_RUNNING) then
         (λ '(_, w, p, q), (THREAD_READY, w, p, q)) <$> views s x
       else views s x) ∧
    idle_thread s' = idle_thread s ∧ main_thread s' = main_thread s ∧ thrtab s' = thrtab s.
Proof.
  intros Hrep Hcur Hst Hready Hidle. pose proof (sr_lists _ _ Hrep) as [Hl Hlw].
  pose proof (sr_cur _ _ Hrep) as Hrun. set (cur := CURTHR s) in *.
  assert (Hn : n ∈ ready a) by (rewrite Hready; set_solver).
  destruct (tl_member _ _ _ _ Hl Hn) as (nth & Hnth). pose proof (views_thread _ _ _ Hnth) as Hnv.
  pose proof (proj1 (sr_ready _ _ Hrep _ _ _ _ _ Hnv) Hn) as Hnst.
  assert (Hnc : n ≠ cur) by (intros ->; unfold view in Hnv; congruence).
  assert (Hcr : cur ∉ ready a) by (intros Hin; by apply (sr_ready _ _ Hrep _ _ _ _ _ Hcur) in Hin).
  unfold suspend_self. rewrite (tlempty_rep _ _ _ Hl), Hready.
  rewrite bool_decide_eq_false_2 by done. cbn [negb kassert mbind outcome_bind intr_disable].
  rewrite Hready in Hl.
  destruct (tlremove_rep _ _ _ _ (tl_rep_sie false _ _ _ Hl)) as (s2 & Hrm & Hl2 & Hsm2 & Hf2).
  rewrite Hrm. cbn [mbind outcome_bind deref].
  pose proof (views_links _ _ Hsm2) as Hv2. change (∀ x, views s2 x = views s x) in Hv2.
  assert (Hlw2 : ∀ c, tl_rep s2 (Some c) (waitq a c)).
  { intros c. apply Hf2; [done|by apply tl_rep_sie|]. intros x Hx ->%list_elem_of_singleton.
    by apply (sr_disjoint _ _ _ c Hrep Hn). }
  assert (Hn2 : views s2 n = Some (view nth)) by by rewrite Hv2.
  destruct (threads s2 !! n) as [nth2|] eqn:Hnth2; [|unfold views in Hn2; by rewrite Hnth2 in Hn2].
  assert (Hnview : view nth2 = view nth) by (unfold views in Hn2; rewrite Hnth2 in Hn2; by apply (inj Some)).
  assert (tstate nth2 = THREAD_READY) as Hst2 by (unfold view in Hnview; congruence).
  rewrite (get_thr_eq _ _ _ Hnth2). cbn [mbind outcome_bind]. rewrite Hst2.
  rewrite bool_decide_eq_true_2 by done. cbn [kassert mbind outcome_bind].
  rewrite (upd_thr_eq _ _ _ _ Hnth2). cbn [mbind outcome_bind].
  set (s3 := with_threads <[n := set_state THREAD_RUNNING nth2]> s2).
  assert (Hl3 : tl_rep s3 READY_LIST r) by (by apply (tl_rep_upd n (set_state THREAD_RUNNING))).
  assert (Hlw3 : ∀ c, tl_rep s3 (Some c) (waitq a c)) by (intros c; by apply (tl_rep_upd n (set_state THREAD_RUNNING))).
  assert (Hv3 : ∀ x, views s3 x = if decide (x = n) then Some (view (set_state THREAD_RUNNING nth2)) else views s x).
  { intros x. unfold s3. rewrite (views_upd _ (set_state THREAD_RUNNING) _ _ _ Hnth2). by rewrite Hv2. }
  assert (Hc3 : views s3 cur = Some (st, w, p, q)) by (rewrite Hv3, decide_False; done).
  destruct (views_Some _ _ _ _ _ _ Hc3) as (cth & Hcth & Hcst & _).
  change (CURTHR s) with cur. fold s3.
  rewrite (get_thr_eq _ _ _ Hcth). cbn [mbind outcome_bind].
  assert (∃ s4, (if bool_decide (tstate cth = THREAD_RUNNING)
      then s4 ← upd_thr cur (set_state THREAD_READY) s3; tlinsert READY_LIST (Some cur) s4
      else Done s3) = Done s4 ∧
    tl_rep s4 READY_LIST (r ++ if decide (st = THREAD_RUNNING) then [run a] else []) ∧
    (∀ c, tl_rep s4 (Some c) (waitq a c)) ∧
    (∀ x, views s4 x = if decide (x = cur ∧ st = THREAD_RUNNING)
        then (λ '(_, w, p, q), (THREAD_READY, w, p, q)) <$> views s3 x else views s3 x) ∧
    idle_thread s4 = idle_thread s ∧ main_thread s4 = main_thread s ∧ thrtab s4 = thrtab s ∧
    proc_mtag s4 = proc_mtag s) as (s4 & Hs4 & Hl4 & Hlw4 & Hv4 & Hid4 & Hm4 & Htab4 & Hpm4).
  { rewrite Hcst. destruct (decide (st = THREAD_RUNNING)) as [Hr|Hr].
    - rewrite bool_decide_eq_true_2 by done. rewrite (upd_thr_eq _ _ _ _ Hcth). cbn [mbind outcome_bind].
      set (s3' := with_threads <[cur := set_state THREAD_READY cth]> s3).
      assert (Hc3' : threads s3' !! cur = Some (set_state THREAD_READY cth)) by (cbn; by rewrite lookup_insert_eq).
      destruct (tlinsert_rep s3' READY_LIST r cur (set_state THREAD_READY cth)) as (s4 & Hi & Hl4 & Hsm4 & Hf4);
        [by apply (tl_rep_upd cur (set_state THREAD_READY))|by rewrite Hready in Hcr; set_solver|done|].
      exists s4. split_and!; [done|by rewrite <- Hrun| | | | | |].
      + intros c. apply Hf4; [done|by apply (tl_rep_upd cur (set_state THREAD_READY))|]. intros x Hx Hin.
        apply elem_of_cons in Hin as [->|Hin].
        * apply (sr_wait _ _ Hrep _ _ _ _ _ _ Hcur) in Hx as [Hx _]. congruence.
        * apply (sr_disjoint _ _ x c Hrep); [rewrite Hready; set_solver|done].
      + intros x. rewrite (views_links _ _ Hsm4). unfold s3'. rewrite (views_upd _ (set_state THREAD_READY) _ _ _ Hcth).
        destruct (decide (x = cur)) as [->|]; [|by rewrite decide_False by naive_solver].
        rewrite decide_True by done. rewrite (views_thread _ _ _ Hcth). done.
      + destruct Hsm4 as (_ & _ & _ & _ & _ & -> & _). apply Hsm2.
      + destruct Hsm4 as (_ & _ & _ & _ & -> & _). apply Hsm2.
      + destruct Hsm4 as (_ & -> & _). apply Hsm2.
      + destruct Hsm4 as (_ & _ & _ & _ & _ & _ & -> & _). apply Hsm2.
    - rewrite bool_decide_eq_false_2 by done. exists s3. rewrite app_nil_r.
      split_and!; [done|done|done| |apply Hsm2..]. intros x. by rewrite decide_False by naive_solver. }
  rewrite Hs4. cbn [mbind outcome_bind intr_enable].
  assert (Hvn4 : views s4 n = Some (view (set_state THREAD_RUNNING nth2))).
  { rewrite Hv4, decide_False by naive_solver. by rewrite Hv3, decide_True. }
  destruct (views_Some _ _ _ _ _ _ Hvn4) as (nth4 & Hnth4 & _ & _ & Hpn & _).
  rewrite (get_thr_eq n (with_sie true s4) nth4 Hnth4). cbn [mbind outcome_bind].
  destruct (switch_done (tproc nth4) (with_sie true s4)) as (h & Hsw).
  { intros pq Hq. change (proc_mtag (with_sie true s4)) with (proc_mtag s4). rewrite Hpm4.
    apply (sr_proc _ _ Hrep n THREAD_READY (wait_cond nth) pq (parent nth)).
    rewrite Hnv. unfold view in *. rewrite Hpn in Hq. cbn in Hq. congruence. }
  cbn [intr_disable mbind outcome_bind] in Hsw. rewrite Hsw. cbn [mbind outcome_bind].
  set (s5 := thread_swtch n (with_heap h (with_sie true s4))).
  assert (Hv5 : ∀ x, views s5 x = views s4 x) by done.
  assert (Hvfin : ∀ x, views s5 x =
     if decide (x = n) then (λ '(_, w, p, q), (THREAD_RUNNING, w, p, q)) <$> views s x
     else if decide (x = cur ∧ st = THREAD_RUNNING) then
       (λ '(_, w, p, q), (THREAD_READY, w, p, q)) <$> views s x
     else views s x).
  { intros x. rewrite Hv5, Hv4, Hv3. destruct (decide (x = n)) as [->|]; [|done].
    rewrite decide_False by naive_solver. rewrite Hnv. cbn. unfold view in *. cbn. congruence. }
  exists s5. split_and!; [done| | |done|done|done|done|done].
  - split.
    + split; [|intros c]; (eapply tl_rep_ext; [first [exact Hl4|exact (Hlw4 c)]|done|eauto]).
    + intros x st' w' p' q'. rewrite Hvfin. cbn [ready]. intros Hv. rewrite elem_of_app.
      destruct (decide (x = n)) as [->|Hxn].
      { rewrite Hnv in Hv. cbn in Hv. injection Hv as <- <- <- <-. split; [|done]. intros [Hin|Hin].
        - destruct Hl as (_ & _ & Hnd & _). apply NoDup_cons in Hnd as [? _]. done.
        - destruct (decide (st = THREAD_RUNNING)); [|by apply elem_of_nil in Hin].
          apply list_elem_of_singleton in Hin. congruence. }
      destruct (decide (x = cur ∧ st = THREAD_RUNNING)) as [[-> Hr]|Hnr].
      { rewrite Hcur in Hv. cbn in Hv. injection Hv as <- <- <- <-. rewrite decide_True by done.
        split; [done|]. intros _. right. rewrite <- Hrun. by apply list_elem_of_singleton. }
      rewrite <- (sr_ready _ _ Hrep _ _ _ _ _ Hv), Hready, elem_of_cons. split.
      * intros [Hin|Hin]; [by right|]. destruct (decide (st = THREAD_RUNNING)); [|by apply elem_of_nil in Hin].
        apply list_elem_of_singleton in Hin. destruct Hnr. split; [congruence|done].
      * intros [->|Hin]; [done|by left].
    + intros x st' w' p' q' c. rewrite Hvfin. cbn [waitq]. intros Hv.
      destruct (decide (x = n)) as [->|Hxn].
      { rewrite Hnv in Hv. cbn in Hv. injection Hv as <- <- <- <-. split; [|by intros [? _]].
        intros Hin. by destruct (sr_disjoint _ _ n c Hrep Hn). }
      destruct (decide (x = cur ∧ st = THREAD_RUNNING)) as [[-> Hr]|Hnr].
      { rewrite Hcur in Hv. cbn in Hv. injection Hv as <- <- <- <-. rewrite (sr_wait _ _ Hrep _ _ _ _ _ _ Hcur).
        split; intros [Hx _]; congruence. }
      by apply (sr_wait _ _ Hrep _ _ _ _ _ _ Hv).
    + done.
    + intros x st' w' p' q'. rewrite Hvfin. cbn [run]. intros Hv ->.
      destruct (decide (x = n)) as [->|Hxn]; [done|].
      destruct (decide (x = cur ∧ st = THREAD_RUNNING)) as [[-> Hr]|Hnr].
      { rewrite Hcur in Hv. cbn in Hv. simplify_eq. }
      pose proof (sr_run _ _ Hrep _ _ _ _ _ Hv eq_refl) as ->. rewrite <- Hrun in *. destruct Hnr.
      split; [done|]. congruence.
    + change (idle_thread s5) with (idle_thread s4). rewrite Hid4, Hvfin.
      destruct (sr_idle _ _ Hrep) as (st' & w' & p' & q' & Hv & Hor). rewrite Hv. cbn.
      destruct (decide (idle_thread s = n)); [by eauto 10|].
      destruct (decide (idle_thread s = cur ∧ st = THREAD_RUNNING)); [by eauto 10|]. eauto 10.
    + intros x st' w' p' q'. rewrite Hvfin. change (proc_mtag s5) with (proc_mtag s4). rewrite Hpm4.
      destruct (decide (x = n)) as [->|Hxn].
      { rewrite Hnv. cbn. intros [= <- <- Hp' <-]. eapply (sr_proc _ _ Hrep n). rewrite Hnv. unfold view.
        by rewrite Hp'. }
      destruct (decide (x = cur ∧ st = THREAD_RUNNING)) as [[-> Hr]|Hnr].
      { rewrite Hcur. cbn. intros [= <- <- -> <-]. eapply (sr_proc _ _ Hrep cur). exact Hcur. }
      apply (sr_proc _ _ Hrep).
  - exists (wait_cond nth), (tproc nth), (parent nth). change (CURTHR s5) with n.
    rewrite Hvfin, decide_True by done. by rewrite Hnv.
Qed.

(** ** condition_broadcast *)

Lemma set_waitq_eq c q w : set_waitq c q w c = q.
Proof. unfold set_waitq. by rewrite decide_True. Qed.
Lemma set_waitq_ne c c' q w : c' ≠ c → set_waitq c q w c' = w c'.
Proof. intros. unfold set_waitq. by rewrite decide_False. Qed.

(** The fields that no operation on lists touches. *)
Definition same_rest (s s' : sched) : Prop :=
  CURTHR s' = CURTHR s ∧ idle_thread s' = idle_thread s ∧ main_thread s' = main_thread s ∧
  thrtab s' = thrtab s ∧ proc_mtag s' = proc_mtag s ∧ kheap s' = kheap s.

Lemma condition_broadcast_rep c s a :
  sched_rep s a →
  ∃ s', condition_broadcast c s = Done s' ∧ sched_rep s' (a_broadcast c a) ∧
    (∀ x, x ∉ waitq a c → views s' x = views s x) ∧ same_rest s s' ∧ sie s' = sie s.
Proof.
  intros Hrep. pose proof (sr_lists _ _ Hrep) as [Hl Hlw].
  unfold condition_broadcast. rewrite (tlempty_rep _ _ _ (Hlw c)).
  destruct (decide (waitq a c = [])) as [He|Hne].
  { rewrite bool_decide_eq_true_2 by done. exists s. split_and!; [done| |done|done|done].
    destruct Hrep as [_ H2 H3 H4 H5 H6 H7]. split; cbn; rewrite ?He, ?app_nil_r; try done.
    - split; [done|]. intros c'. unfold set_waitq. case_decide as Hc; [by rewrite Hc, <- He|done].
    - intros x st w p q c' Hv. rewrite <- (H3 x st w p q c' Hv). unfold set_waitq.
      case_decide as Hc; [by rewrite Hc, He|done]. }
  rewrite bool_decide_eq_false_2 by done. cbn [intr_disable].
  change (get_list (Some c) (with_sie false s)) with (get_list (Some c) s).
  pose proof (Hlw c) as (Hh & _ & Hnd & Hc). rewrite Hh.
  destruct (wake_loop_spec c (waitq a c) (size (threads (with_sie false s))) (with_sie false s) Hnd)
    as (f & Hw & Hf).
  { by apply (members_bounded s (Some c)). }
  { intros i t Hi. destruct (Hc i t Hi) as (th & Hth & Hnx). exists th. split; [done|]. split; [done|].
    pose proof (views_thread _ _ _ Hth) as Hv. apply (sr_wait _ _ Hrep _ _ _ _ _ _ Hv).
    by eapply list_elem_of_lookup_2. }
  change (threads (with_sie false s)) with (threads s) in *.
  rewrite Hw. cbn [mbind outcome_bind]. set (s1 := with_threads f (with_sie false s)).
  assert (Hnext : ∀ l ts, tl_rep s l ts → tl_rep s1 l ts).
  { intros l ts Ht. eapply tl_rep_ext; [exact Ht|done|]. intros x th _ Hth. cbn. rewrite Hf, Hth.
    eexists. split; [done|]. by case_decide. }
  assert (Hdisj : ∀ x, x ∈ ready a → x ∉ waitq a c) by (intros x Hx; by apply (sr_disjoint s)).
  destruct (tlappend_rep s1 READY_LIST (Some c) (ready a) (waitq a c)) as (s2 & Ha & Hl2 & Hc2 & Hsm2 & Hf2);
    [done|auto|auto|done|].
  rewrite Ha. cbn [mbind outcome_bind].
  assert (Hv1 : ∀ x, views s1 x = if decide (x ∈ waitq a c)
      then (λ '(_, _, p, q), (THREAD_READY, None, p, q)) <$> views s x else views s x).
  { intros x. unfold views, s1. cbn [threads with_threads]. change (threads (with_sie false s)) with (threads s).
    rewrite Hf. case_decide; by destruct (threads s !! x). }
  assert (Hv2 : ∀ x, views s2 x = views s1 x) by (by apply views_links).
  eexists. split; [done|].
  set (s3 := intr_restore (sie s) (tlclear (Some c) s2)).
  assert (Hg : ∀ l, get_list l s3 = if decide (Some c = l) then TList None None else get_list l s2)
    by (intros l; exact (get_set_list l (Some c) (TList None None) s2)).
  assert (Hrest : same_rest s s3).
  { destruct Hsm2 as (_ & ? & ? & ? & ? & ? & ? & ?). done. }
  assert (Hv3 : ∀ x, views s3 x = if decide (x ∈ waitq a c)
      then (λ '(_, _, p, q), (THREAD_READY, None, p, q)) <$> views s x else views s x).
  { intros x. change (views s3 x) with (views s2 x). by rewrite Hv2. }
  split_and!; [|intros x Hx; by rewrite Hv3, decide_False|done|done].
  split.
  - split.
    + eapply tl_rep_ext; [exact Hl2|by rewrite Hg|eauto].
    + intros c'. cbn [waitq a_broadcast]. unfold set_waitq. case_decide as Hcc.
      * subst c'. eapply tl_rep_ext; [exact Hc2| |eauto].
        rewrite Hg, decide_True by done. destruct Hc2 as (Hh2 & Ht2 & _).
        destruct (get_list (Some c) s2); cbn in *; congruence.
      * eapply tl_rep_ext; [apply (Hf2 (Some c') (waitq a c'))| |eauto]; [done|congruence|auto| |].
        -- intros x Hx Hin. by apply (sr_disjoint s a x c').
        -- rewrite Hg, decide_False; [done|congruence].
  - intros x st w p q. rewrite Hv3. cbn [ready a_broadcast]. rewrite elem_of_app. case_decide as Hx.
    + destruct (views s x) as [[[[st' w'] p'] q']|]; [|done]. cbn. intros [= <- <- <- <-]. tauto.
    + intros Hv. rewrite (sr_ready _ _ Hrep _ _ _ _ _ Hv). tauto.
  - intros x st w p q c'. rewrite Hv3. cbn [waitq a_broadcast]. case_decide as Hx.
    + destruct (views s x) as [[[[st' w'] p'] q']|] eqn:Hv; [|done]. cbn. intros [= <- <- <- <-].
      split; [|by intros [? _]]. unfold set_waitq. case_decide as Hcc; [by intros ?%elem_of_nil|].
      intros Hin. by destruct Hcc; eapply (sr_disjoint_wait s a x).
    + intros Hv. rewrite <- (sr_wait _ _ Hrep _ _ _ _ _ _ Hv). unfold set_waitq. case_decide as Hcc; [|done].
      subst c'. split; [by intros ?%elem_of_nil|done].
  - destruct Hrest as (-> & _). apply (sr_cur _ _ Hrep).
  - intros x st w p q. rewrite Hv3. case_decide as Hx; [|apply (sr_run _ _ Hrep)].
    destruct (views s x) as [[[[st' w'] p'] q']|]; [|done]. cbn. by intros [= <- <- <- <-].
  - destruct Hrest as (_ & -> & _). destruct (sr_idle _ _ Hrep) as (st & w & p & q & Hv & Hor).
    rewrite Hv3, Hv. case_decide; cbn; eauto 10.
  - intros x st w p q. rewrite Hv3. destruct Hrest as (_ & _ & _ & _ & -> & _). case_decide as Hx.
    + destruct (views s x) as [[[[st' w'] p'] q']|] eqn:Hv; [|done]. cbn. intros [= <- <- -> <-].
      by eapply (sr_proc _ _ Hrep x).
    + apply (sr_proc _ _ Hrep).
Qed.

(** ** condition_wait, thread_yield, thread_exit *)

(** A thread that is not the idle thread always finds a thread to switch to. *)
Lemma ready_nonempty s a : sched_rep s a → CURTHR s ≠ idle_thread s → ready a ≠ [].
Proof.
  intros Hrep Hne He. destruct (sr_idle _ _ Hrep) as (st & w & p & q & Hv & Hor).
  destruct Hor as [->| ->].
  - pose proof (proj2 (sr_ready _ _ Hrep _ _ _ _ _ Hv) eq_refl) as Hin. rewrite He in Hin.
    by apply elem_of_nil in Hin.
  - apply (sr_run _ _ Hrep) in Hv; [|done]. apply Hne. by rewrite (sr_cur _ _ Hrep).
Qed.

Lemma running_not_listed s a w p q :
  sched_rep s a → views s (CURTHR s) = Some (THREAD_RUNNING, w, p, q) →
  (CURTHR s ∉ ready a) ∧ (∀ c, CURTHR s ∉ waitq a c).
Proof.
  intros Hrep Hv. split.
  - intros Hin. by apply (sr_ready _ _ Hrep _ _ _ _ _ Hv) in Hin.
  - intros c Hin. by apply (sr_wait _ _ Hrep _ _ _ _ _ _ Hv) in Hin as [? _].
Qed.

Lemma condition_wait_rep c s a :
  sched_rep s a → running s → CURTHR s ≠ idle_thread s →
  ∃ s' a', condition_wait c s = Done (sie s, s') ∧ a_wait c a = Some a' ∧ sched_rep s' a' ∧
    running s' ∧ idle_thread s' = idle_thread s ∧ main_thread s' = main_thread s.
Proof.
  intros Hrep (w & p & q & Hv) Hne. destruct (running_not_listed _ _ _ _ _ Hrep Hv) as [Hnr Hnw].
  pose proof (ready_nonempty _ _ Hrep Hne) as Hre. pose proof (sr_lists _ _ Hrep) as [Hl Hlw].
  pose proof (sr_cur _ _ Hrep) as Hcur. set (cur := CURTHR s) in *.
  destruct (views_Some _ _ _ _ _ _ Hv) as (th & Hth & Hst & _ & Hp & Hq).
  unfold condition_wait. change (CURTHR s) with cur. rewrite (get_thr_eq _ _ _ Hth). cbn [mbind outcome_bind].
  rewrite Hst, bool_decide_eq_true_2 by done. cbn [kassert mbind outcome_bind].
  rewrite (upd_thr_eq _ _ _ _ Hth). cbn [mbind outcome_bind].
  set (th1 := set_state THREAD_WAITING th). set (s1 := with_threads <[cur := th1]> s).
  assert (H1 : threads s1 !! cur = Some th1) by (cbn; by rewrite lookup_insert_eq).
  change (CURTHR s1) with cur. rewrite (upd_thr_eq _ _ _ _ H1). cbn [mbind outcome_bind].
  set (th2 := set_wait (Some c) th1). set (s2 := with_threads <[cur := th2]> s1).
  assert (H2 : threads s2 !! cur = Some th2) by (cbn; by rewrite lookup_insert_eq).
  change (CURTHR s2) with cur. rewrite (upd_thr_eq _ _ _ _ H2). cbn [mbind outcome_bind intr_disable].
  set (th3 := set_next None th2). set (s3 := with_sie false (with_threads <[cur := th3]> s2)).
  assert (H3 : threads s3 !! cur = Some th3) by (cbn; by rewrite lookup_insert_eq).
  assert (Ho3 : ∀ x, x ≠ cur → threads s3 !! x = threads s !! x) by (intros x Hx; cbn; by rewrite !lookup_insert_ne).
  assert (Hl3 : ∀ l ts, tl_rep s l ts → cur ∉ ts → tl_rep s3 l ts).
  { intros l ts Ht Hni. eapply tl_rep_ext; [exact Ht|done|]. intros x xth Hin Hx.
    rewrite Ho3 by (intros ->; done). eauto. }
  change (CURTHR s3) with cur.
  destruct (tlinsert_rep s3 (Some c) (waitq a c) cur th3) as (s4 & Hi & Hl4 & Hsm4 & Hf4); [auto|auto|done|].
  rewrite Hi. cbn [mbind outcome_bind].
  set (s5 := intr_restore (sie _) s4). set (a1 := ASched (run a) (ready a) (set_waitq c (waitq a c ++ [run a]) (waitq a))).
  assert (Hv5 : ∀ x, views s5 x = if decide (x = cur) then Some (THREAD_WAITING, Some c, p, q) else views s x).
  { intros x. change (views s5 x) with (views s4 x). rewrite (views_links _ _ Hsm4).
    destruct (decide (x = cur)) as [->|Hx].
    - rewrite (views_thread _ _ _ H3). unfold view. cbn. by rewrite Hp, Hq.
    - unfold views. by rewrite Ho3. }
  assert (Hsame : CURTHR s5 = cur ∧ idle_thread s5 = idle_thread s ∧ main_thread s5 = main_thread s ∧
    proc_mtag s5 = proc_mtag s ∧ sie s5 = sie s).
  { destruct Hsm4 as (_ & ? & ? & ? & ? & ? & ? & ?). done. }
  destruct Hsame as (Hcur5 & Hid5 & Hm5 & Hpm5 & Hsie5).
  assert (Hrep5 : sched_rep s5 a1).
  { split.
    - split.
      + eapply (tl_rep_ext s4); [|done|eauto]. apply Hf4; [done|by apply Hl3|].
        intros x Hx Hin. apply elem_of_cons in Hin as [->|Hin]; [done|]. by apply (sr_disjoint s a x c).
      + intros c'. cbn [waitq a1]. unfold set_waitq. case_decide as Hcc.
        * subst c'. rewrite <- Hcur. eapply (tl_rep_ext s4); [exact Hl4|done|eauto].
        * eapply (tl_rep_ext s4); [|done|eauto]. apply Hf4; [congruence|by apply Hl3|].
          intros x Hx Hin. apply elem_of_cons in Hin as [->|Hin]; [by apply (Hnw c')|].
          by destruct Hcc; eapply (sr_disjoint_wait s a x).
    - intros x st' w' p' q'. rewrite Hv5. cbn [ready a1]. case_decide as Hx.
      + subst x. intros [= <- <- <- <-]. split; [done|done].
      + apply (sr_ready _ _ Hrep).
    - intros x st' w' p' q' c'. rewrite Hv5. cbn [waitq a1]. case_decide as Hx.
      + subst x. intros [= <- <- <- <-]. unfold set_waitq. case_decide as Hcc.
        * subst c'. split; [done|]. intros _. rewrite Hcur. set_solver.
        * split; [intros Hin; by destruct (Hnw c')|intros [_ [= ?]]; congruence].
      + intros Hvx. rewrite <- (sr_wait _ _ Hrep _ _ _ _ _ _ Hvx). unfold set_waitq. case_decide as Hcc; [|done].
        subst c'. rewrite elem_of_app, list_elem_of_singleton. rewrite <- Hcur. tauto.
    - by rewrite Hcur5.
    - intros x st' w' p' q'. rewrite Hv5. case_decide; [by intros [= <- <- <- <-]|]. apply (sr_run _ _ Hrep).
    - rewrite Hid5, Hv5, decide_False by done. apply (sr_idle _ _ Hrep).
    - intros x st' w' p' q'. rewrite Hv5, Hpm5. case_decide as Hx.
      + intros [= <- <- -> <-]. by eapply (sr_proc _ _ Hrep cur).
      + apply (sr_proc _ _ Hrep). }
  destruct (ready a) as [|n r] eqn:Hrd; [done|].
  destruct (suspend_self_rep s5 a1 THREAD_WAITING (Some c) p q n r) as (s6 & Hs6 & Hrep6 & Hrun6 & _ & _ & Hid6 & Hm6 & _).
  { done. } { rewrite Hcur5, Hv5. by rewrite decide_True. } { done. } { done. } { right. congruence. }
  exists s6, (ASched n (r ++ []) (waitq a1)). rewrite Hs6. rewrite Hsie5.
  split_and!; [done|unfold a_wait, a_suspend; cbn; by rewrite Hrd|done|done|congruence|congruence].
Qed.

Lemma thread_yield_rep s a :
  sched_rep s a → running s → ready a ≠ [] →
  ∃ s' a', thread_yield s = Done (sie s, s') ∧ a_suspend true a = Some a' ∧ sched_rep s' a' ∧
    running s' ∧ idle_thread s' = idle_thread s ∧ main_thread s' = main_thread s.
Proof.
  intros Hrep (w & p & q & Hv) Hne. destruct (views_Some _ _ _ _ _ _ Hv) as (th & Hth & Hst & _).
  unfold thread_yield. rewrite (get_thr_eq _ _ _ Hth). cbn [mbind outcome_bind].
  rewrite Hst, bool_decide_eq_true_2 by done. cbn [kassert mbind outcome_bind].
  destruct (ready a) as [|n r] eqn:Hrd; [done|].
  destruct (suspend_self_rep s a _ _ _ _ n r Hrep Hv) as (s' & Hs & Hrep' & Hrun' & _ & _ & Hid & Hm & _);
    [done|done|by left|].
  exists s'. eexists. split; [done|]. unfold a_suspend. rewrite Hrd. split; [done|]. done.
Qed.

(** Marking the running thread exited leaves every queue. *)
Lemma exited_rep s a w p q th :
  sched_rep s a → views s (CURTHR s) = Some (THREAD_RUNNING, w, p, q) →
  threads s !! CURTHR s = Some th → CURTHR s ≠ idle_thread s →
  sched_rep (with_threads <[CURTHR s := set_state THREAD_EXITED th]> s) a.
Proof.
  intros Hrep Hv Hth Hne. set (cur := CURTHR s) in *.
  destruct (running_not_listed _ _ _ _ _ Hrep Hv) as [Hnr Hnw].
  pose proof (views_thread _ _ _ Hth) as Hvt. rewrite Hv in Hvt. injection Hvt as Hst Hw Hp Hq.
  assert (Hv' : ∀ x, views (with_threads <[cur := set_state THREAD_EXITED th]> s) x =
    if decide (x = cur) then Some (THREAD_EXITED, w, p, q) else views s x).
  { intros x. rewrite (views_upd cur (set_state THREAD_EXITED) s th x Hth). unfold view. cbn.
    by rewrite <- Hw, <- Hp, <- Hq. }
  pose proof (sr_lists _ _ Hrep) as [Hl Hlw]. split.
  - split; [|intros c]; by apply (tl_rep_upd cur (set_state THREAD_EXITED)).
  - intros x st' w' p' q'. rewrite Hv'. case_decide as Hx; [|apply (sr_ready _ _ Hrep)].
    subst x. by intros [= <- <- <- <-].
  - intros x st' w' p' q' c. rewrite Hv'. case_decide as Hx; [|apply (sr_wait _ _ Hrep)].
    subst x. intros [= <- <- <- <-]. split; [intros Hin; by destruct (Hnw c)|by intros [? _]].
  - apply (sr_cur _ _ Hrep).
  - intros x st' w' p' q'. rewrite Hv'. case_decide as Hx; [by intros [= <- <- <- <-]|apply (sr_run _ _ Hrep)].
  - cbn [idle_thread with_threads]. rewrite Hv', decide_False by done. apply (sr_idle _ _ Hrep).
  - intros x st' w' p' q'. rewrite Hv'. cbn [proc_mtag with_threads]. case_decide as Hx; [|apply (sr_proc _ _ Hrep)].
    intros [= <- <- -> <-]. subst x. by eapply (sr_proc _ _ Hrep cur).
Qed.

Lemma thread_exit_rep s a w p par :
  sched_rep s a → views s (CURTHR s) = Some (THREAD_RUNNING, w, p, Some par) →
  CURTHR s ≠ idle_thread s → CURTHR s ≠ main_thread s →
  ∃ s' a', thread_exit s = Done (Switched (sie s) s') ∧
    a_suspend false (a_broadcast (ChildExit par) a) = Some a' ∧ sched_rep s' a' ∧ running s' ∧
    idle_thread s' = idle_thread s ∧ main_thread s' = main_thread s ∧
    views s' (CURTHR s) = Some (THREAD_EXITED, w, p, Some par).
Proof.
  intros Hrep Hv Hni Hnm. destruct (views_Some _ _ _ _ _ _ Hv) as (th & Hth & Hst & Hw & Hp & Hq).
  destruct (running_not_listed _ _ _ _ _ Hrep Hv) as [Hnr Hnw].
  pose proof (exited_rep _ _ _ _ _ _ Hrep Hv Hth Hni) as Hrep1.
  unfold thread_exit. destruct (Z.eqb_spec (CURTHR s) (main_thread s)) as [|_]; [done|].
  rewrite (upd_thr_eq _ _ _ _ Hth). cbn [mbind outcome_bind].
  set (cur := CURTHR s) in *. set (s1 := with_threads <[cur := set_state THREAD_EXITED th]> s) in *.
  assert (H1 : threads s1 !! cur = Some (set_state THREAD_EXITED th)) by (cbn; by rewrite lookup_insert_eq).
  change (CURTHR s1) with cur. rewrite (get_thr_eq _ _ _ H1). cbn [mbind outcome_bind parent set_state].
  rewrite Hq. cbn [is_null deref mbind outcome_bind].
  destruct (condition_broadcast_rep (ChildExit par) s1 a Hrep1) as (s2 & Hb & Hrep2 & Hv2 & Hr2 & Hsie2).
  rewrite Hb. cbn [mbind outcome_bind].
  destruct Hr2 as (Hc2 & Hi2 & Hm2 & Ht2 & Hpm2 & _).
  assert (Hcv : views s2 cur = Some (THREAD_EXITED, w, p, Some par)).
  { rewrite Hv2 by apply Hnw. rewrite (views_thread _ _ _ H1). unfold view, set_state. cbn. by rewrite Hw, Hp, Hq. }
  pose proof (ready_nonempty s2 _ Hrep2 ltac:(rewrite Hc2, Hi2; done)) as Hre.
  destruct (ready (a_broadcast (ChildExit par) a)) as [|n r] eqn:Hrd; [done|].
  assert (Hcur2 : CURTHR s2 = cur) by by rewrite Hc2.
  destruct (suspend_self_rep s2 _ THREAD_EXITED w p (Some par) n r Hrep2)
    as (s3 & Hs3 & Hrep3 & Hrun3 & _ & Hv3 & Hid3 & Hm3 & _); [by rewrite Hcur2|done|done|right; by rewrite Hcur2, Hi2|].
  rewrite Hs3. cbn [mbind outcome_bind]. exists s3. eexists. rewrite Hsie2. split; [done|].
  unfold a_suspend. rewrite Hrd. split; [done|]. split; [exact Hrep3|]. split_and!; [done|by rewrite Hid3, Hi2|by rewrite Hm3, Hm2|].
  rewrite Hv3, decide_False, decide_False; [done|by intros [_ ?]|].
  intros ->. assert (n ∈ ready (a_broadcast (ChildExit par) a)) as Hn by (rewrite Hrd; set_solver).
  by apply (sr_ready _ _ Hrep2 _ _ _ _ _ Hcv) in Hn.
Qed.

(** ** Operations and the refinement *)

Inductive sched_op : Type :=
| OpYield
| OpWait (c : cond_id)
| OpBroadcast (c : cond_id)
| OpExit.

Definition run_op (op : sched_op) (s : sched) : outcome sched :=
  match op with
  | OpYield => '(_, s) ← thread_yield s; Done s
  | OpWait c => '(_, s) ← condition_wait c s; Done s
  | OpBroadcast c => condition_broadcast c s
  | OpExit =>
      r ← thread_exit s;
      match r with HaltSuccess => Panicked "halt_success" | Switched _ s => Done s end
  end.

(** When thread.c lets an operation be called: the idle thread yields only to a
    ready thread and never blocks or exits, and the main thread halts instead of
    exiting. *)
Definition op_allowed (op : sched_op) (s : sched) : Prop :=
  match op with
  | OpYield => tlempty READY_LIST s = false
  | OpWait _ => CURTHR s ≠ idle_thread s
  | OpBroadcast _ => True
  | OpExit => CURTHR s ≠ idle_thread s ∧ CURTHR s ≠ main_thread s ∧
      ∃ th p, threads s !! CURTHR s = Some th ∧ parent th = Some p
  end.

(** The abstract scheduler's step for the same operation. *)
Inductive a_step : sched_op → asched → asched → Prop :=
| AYield a a' : a_suspend true a = Some a' → a_step OpYield a a'
| AWait c a a' : a_wait c a = Some a' → a_step (OpWait c) a a'
| ABroadcast c a : a_step (OpBroadcast c) a (a_broadcast c a)
| AExit p a a' : a_suspend false (a_broadcast (ChildExit p) a) = Some a' → a_step OpExit a a'.

Lemma run_op_refines op s a :
  sched_rep s a → running s → op_allowed op s →
  ∃ s' a', run_op op s = Done s' ∧ a_step op a a' ∧ sched_rep s' a' ∧ running s' ∧
    idle_thread s' = idle_thread s ∧ main_thread s' = main_thread s.
Proof.
  intros Hrep Hrun Hop. destruct op as [|c|c|]; cbn [run_op op_allowed] in *.
  - rewrite (tlempty_rep _ _ (ready a)) in Hop by apply (sr_lists _ _ Hrep).
    apply bool_decide_eq_false_1 in Hop.
    destruct (thread_yield_rep _ _ Hrep Hrun Hop) as (s' & a' & Hy & Ha & Hrep' & Hrun' & Hi & Hm).
    exists s', a'. rewrite Hy. split_and!; [done|by constructor|done..].
  - destruct (condition_wait_rep c _ _ Hrep Hrun Hop) as (s' & a' & Hy & Ha & Hrep' & Hrun' & Hi & Hm).
    exists s', a'. rewrite Hy. split_and!; [done|by constructor|done..].
  - destruct (condition_broadcast_rep c _ _ Hrep) as (s' & Hb & Hrep' & Hv & (Hc & Hi & Hm & _) & _).
    exists s'. eexists. split_and!; [done|constructor|done| |done|done].
    destruct Hrun as (w & p & q & Hr). exists w, p, q. rewrite Hc, Hv; [done|].
    by eapply running_not_listed.
  - destruct Hop as (Hi & Hm & th & p & Hth & Hp). destruct Hrun as (w & pr & q & Hr).
    assert (q = Some p) as ->. { rewrite (views_thread _ _ _ Hth) in Hr. injection Hr. congruence. }
    destruct (thread_exit_rep _ _ _ _ _ Hrep Hr Hi Hm) as (s' & a' & He & Ha & Hrep' & Hrun' & Hi' & Hm' & _).
    exists s', a'. rewrite He. split_and!; [done|by econstructor|done..].
Qed.

(** C14: Each scheduler operation of thread.c, called as thread.c allows it in a
    state that represents an abstract scheduler, returns (no assertion fails and
    the ready list is never empty when the CPU is given up), and the state it
    returns represents the abstract scheduler after the same operation: yielding
    is round robin, waiting enqueues at the condition, broadcasting moves all
    waiters to the ready queue in order, exiting wakes the parent. *)
Theorem scheduler_refinement op s a :
  sched_rep s a → running s → op_allowed op s →
  ∃ s' a', run_op op s = Done s' ∧ a_step op a a' ∧ sched_rep s' a' ∧ running s'.
Proof.
  intros Hrep Hrun Hop. destruct (run_op_refines op s a Hrep Hrun Hop) as (s' & a' & ? & ? & ? & ? & _).
  eauto 10.
Qed.

(** ** thread_init *)

Definition boot_abs (s : sched) : asched := ASched (main_thread s) [idle_thread s] (λ _, []).

Lemma thread_init_rep k idle_func glue main idle h :
  main ≠ idle →
  ∃ s, thread_init k idle_func glue (boot_sched main idle h) = Done s ∧
    sched_rep s (boot_abs s) ∧ running s ∧ main_thread s = main ∧ idle_thread s = idle.
Proof.
  intros Hne. unfold thread_init, init_main_thread, init_idle_thread, thread_setup.
  set (s0 := boot_sched main idle h).
  assert (H0m : threads s0 !! main = Some main_thread_init)
    by (cbn; rewrite lookup_insert_ne by done; by rewrite lookup_singleton_eq).
  change (main_thread s0) with main. rewrite (upd_thr_eq _ _ _ _ H0m). cbn [mbind outcome_bind].
  set (s1 := with_threads _ s0).
  assert (H1i : threads s1 !! idle = Some (idle_thread_init main))
    by (cbn; rewrite lookup_insert_ne by done; by rewrite lookup_insert_eq).
  change (idle_thread s1) with idle. rewrite (upd_thr_eq _ _ _ _ H1i). cbn [mbind outcome_bind].
  set (th1 := set_stack _ _ (idle_thread_init main)). set (s2 := with_threads <[idle := th1]> s1).
  assert (H2i : threads s2 !! idle = Some th1) by (cbn; by rewrite lookup_insert_eq).
  change (idle_thread s2) with idle. rewrite (upd_thr_eq _ _ _ _ H2i). cbn [mbind outcome_bind].
  set (th2 := set_context _ th1). set (s3 := with_threads <[idle := th2]> s2).
  assert (H3i : threads s3 !! idle = Some th2) by (cbn; by rewrite lookup_insert_eq).
  assert (Hempty : ∀ l, tl_rep s3 l []).
  { intros l. split_and!; [done|done|constructor|done]. }
  change (idle_thread s3) with idle.
  destruct (tlinsert_rep s3 READY_LIST [] idle th2 (Hempty _)) as (s4 & Hi & Hl4 & Hsm4 & Hf4); [set_solver|done|].
  rewrite Hi. cbn [mbind outcome_bind]. eexists. split; [done|].
  assert (main_thread s4 = main ∧ idle_thread s4 = idle ∧ proc_mtag s4 = ∅) as (Hm4 & Hi4 & Hp4).
  { destruct Hsm4 as (_ & _ & _ & _ & -> & -> & -> & _). done. }
  set (s5 := set_running_thread (main_thread s4) s4).
  assert (Hv : ∀ x, views s5 x = if decide (x = idle) then Some (THREAD_READY, None, None, Some main)
     else if decide (x = main) then Some (THREAD_RUNNING, None, None, None) else None).
  { intros x. change (views s5 x) with (views s4 x). rewrite (views_links _ _ Hsm4).
    unfold views, s3, s2, s1, s0. cbn [threads with_threads boot_sched].
    destruct (decide (x = idle)) as [->|Hxi]; [by rewrite lookup_insert_eq|].
    rewrite !(lookup_insert_ne _ idle) by done. destruct (decide (x = main)) as [->|Hxm].
    - by rewrite lookup_insert_eq.
    - rewrite (lookup_insert_ne _ main) by done. rewrite (lookup_insert_ne _ idle) by done.
      by rewrite lookup_singleton_ne. }
  change (main_thread s5) with (main_thread s4). change (idle_thread s5) with (idle_thread s4).
  rewrite Hm4, Hi4. split_and!; [|exists None, None, None|done|done].
  2:{ change (CURTHR s5) with (main_thread s4). rewrite Hv, Hm4, decide_False, decide_True by done. done. }
  unfold boot_abs. change (main_thread s5) with (main_thread s4). change (idle_thread s5) with (idle_thread s4).
  rewrite Hm4, Hi4. split; cbn [ready waitq run].
  - split; [eapply (tl_rep_ext s4); [exact Hl4|done|eauto]|]. intros c.
    eapply (tl_rep_ext s4); [apply (Hf4 (Some c) []); [done|done|set_solver]|done|eauto].
  - intros x st w p q. rewrite Hv, list_elem_of_singleton. case_decide as Hx; [by intros [= <- <- <- <-]|].
    case_decide; by intros [= <- <- <- <-].
  - intros x st w p q c. rewrite Hv. intros Hx. split; [by intros ?%elem_of_nil|].
    intros [-> _]. by repeat case_decide.
  - done.
  - intros x st w p q. rewrite Hv. case_decide; [by intros [= <- <- <- <-]|].
    case_decide; [done|done].
  - change (idle_thread s5) with (idle_thread s4). rewrite Hi4, Hv, decide_True by done. eauto 10.
  - intros x st w p q. rewrite Hv. by repeat case_decide.
Qed.

(** ** thread_spawn *)

Lemma views_not_listed s a x :
  sched_rep s a → threads s !! x = None → (x ∉ ready a) ∧ (∀ c, x ∉ waitq a c).
Proof.
  intros Hrep Hx. destruct (sr_lists _ _ Hrep) as [Hl Hlw]. split.
  - intros Hin. destruct (tl_member _ _ _ _ Hl Hin) as (th & ?). congruence.
  - intros c Hin. destruct (tl_member _ _ _ _ (Hlw c) Hin) as (th & ?). congruence.
Qed.

(** A new structure that no list mentions, in the state in which [tlinsert] puts
    it on the ready list. *)
Lemma spawn_insert_rep s s1 a child th :
  sched_rep s a → running s → threads s !! child = None →
  threads s1 = <[child := th]> (threads s) → tlists s1 = tlists s → CURTHR s1 = CURTHR s →
  idle_thread s1 = idle_thread s → proc_mtag s1 = proc_mtag s →
  tstate th = THREAD_READY → (∀ p, tproc th = Some p → is_Some (proc_mtag s !! p)) →
  ∃ s', tlinsert READY_LIST (Some child) s1 = Done s' ∧
    sched_rep s' (ASched (run a) (ready a ++ [child]) (waitq a)) ∧ running s' ∧
    same_but_links s1 s'.
Proof.
  intros Hrep (w & p & q & Hr) Hnew Hth Hls Hcur Hid Hpm Hst Hproc.
  destruct (views_not_listed _ _ _ Hrep Hnew) as [Hnr Hnw].
  destruct (sr_lists _ _ Hrep) as [Hl Hlw].
  assert (Ht : ∀ l ts, tl_rep s l ts → child ∉ ts → tl_rep s1 l ts).
  { intros l ts Hts Hni. eapply tl_rep_ext; [exact Hts|unfold get_list; by rewrite Hls|].
    intros x xth Hin Hx. rewrite Hth, lookup_insert_ne by (intros ->; done). eauto. }
  assert (Hc1 : threads s1 !! child = Some th) by by rewrite Hth, lookup_insert_eq.
  destruct (tlinsert_rep s1 READY_LIST (ready a) child th) as (s2 & Hi & Hl2 & Hsm & Hf); [auto|done|done|].
  exists s2. split; [done|].
  assert (Hv : ∀ x, views s2 x = if decide (x = child) then Some (view th) else views s x).
  { intros x. rewrite (views_links _ _ Hsm). unfold views. rewrite Hth. destruct (decide (x = child)) as [->|].
    - by rewrite lookup_insert_eq.
    - by rewrite lookup_insert_ne. }
  pose proof Hsm as (_ & _ & Hc2 & _ & _ & Hi2 & Hp2 & _).
  assert (Hne : CURTHR s ≠ child).
  { intros He. rewrite He in Hr. unfold views in Hr. by rewrite Hnew in Hr. }
  assert (Hrest : running s2).
  { exists w, p, q. rewrite Hc2, Hcur, Hv, decide_False by done. done. }
  split_and!; [|done|done].
  split; cbn [ready waitq run].
  - split; [done|]. intros c. apply Hf; [done|by apply Ht|]. intros x Hx Hin.
    apply elem_of_cons in Hin as [->|Hin]; [by apply (Hnw c)|]. by apply (sr_disjoint s a x c).
  - intros x st' w' p' q'. rewrite Hv, elem_of_app, list_elem_of_singleton. case_decide as Hx.
    + intros [= <- _ _ _]. rewrite Hst. tauto.
    + intros Hvx. rewrite (sr_ready _ _ Hrep _ _ _ _ _ Hvx). tauto.
  - intros x st' w' p' q' c. rewrite Hv. case_decide as Hx; [|apply (sr_wait _ _ Hrep)].
    subst x. intros [= <- _ _ _]. rewrite Hst. split; [intros Hin; by destruct (Hnw c)|by intros [? _]].
  - rewrite Hc2, Hcur. apply (sr_cur _ _ Hrep).
  - intros x st' w' p' q'. rewrite Hv. case_decide as Hx; [|apply (sr_run _ _ Hrep)].
    intros [= <- _ _ _]. by rewrite Hst.
  - rewrite Hi2, Hid, Hv. destruct (sr_idle _ _ Hrep) as (st' & w' & p' & q' & Hvi & Hor).
    rewrite decide_False; [eauto 10|]. intros He. rewrite He in Hvi. unfold views in Hvi. by rewrite Hnew in Hvi.
  - intros x st' w' p' q'. rewrite Hv, Hp2, Hpm. case_decide as Hx; [|apply (sr_proc _ _ Hrep)].
    intros [= _ _ Hp' _]. by apply Hproc.
Qed.

Lemma thread_spawn_rep name start arg glue s a i s' child h :
  sched_rep s a → running s → kmalloc sizeof_thread (kheap s) = Done (child, h) →
  threads s !! child = None → thread_spawn name start arg glue s = Done (i, s') →
  sched_rep s' (ASched (run a) (ready a ++ [child]) (waitq a)) ∧ running s' ∧
  idle_thread s' = idle_thread s ∧ main_thread s' = main_thread s ∧
  i = find_slot 1 (drop 1 (thrtab s)) ∧ thrtab s' = <[Z.to_nat i := Some child]> (thrtab s) ∧
  ∃ th, threads s' !! child = Some th ∧ tid th = i ∧ parent th = Some (CURTHR s) ∧ tname th = name ∧
    ctx_sp (context th) = stack_base th.
Proof.
  intros Hrep Hrun Hk Hnew Hsp. unfold thread_spawn in Hsp.
  apply bind_Done in Hsp as ([[i' c'] s1] & Hnt & Hsp).
  unfold new_thread in Hnt. destruct (Z.eqb_spec (find_slot 1 (drop 1 (thrtab s))) NTHR); [done|].
  rewrite Hk in Hnt. cbn [mbind outcome_bind] in Hnt.
  apply bind_Done in Hnt as ([page m1] & Hal & Hnt).
  apply bind_Done in Hnt as (m2 & Hs1 & Hnt). apply bind_Done in Hnt as (m3 & Hs2 & Hnt).
  apply bind_Done in Hnt as (cth & Hcth & Hnt). unfold get_thr in Hcth. apply deref_Done in Hcth.
  cbn [thrtab_set with_thrtab with_heap CURTHR threads] in Hcth.
  injection Hnt as <- <- <-.
  set (anchor := (page + PAGE_SIZE - sizeof_anchor)%Z) in *.
  set (th0 := Thread _ _ _ _ _ _ _ _ _ _) in Hsp.
  set (s0 := thrtab_set _ _ _) in Hsp. set (s1 := with_threads <[child := th0]> s0) in Hsp.
  assert (H1 : threads s1 !! child = Some th0) by (cbn; by rewrite lookup_insert_eq).
  rewrite (upd_thr_eq _ _ _ _ H1) in Hsp. cbn [mbind outcome_bind intr_disable] in Hsp.
  set (th1 := set_state THREAD_READY th0) in Hsp.
  set (s2 := with_sie false (with_threads <[child := th1]> s1)) in Hsp.
  destruct (spawn_insert_rep s s2 a child th1 Hrep Hrun Hnew) as (s3 & Hi & Hrep3 & Hrun3 & Hsm3); try done.
  { cbn. by rewrite insert_insert_eq. }
  { intros p Hp. cbn in Hp. pose proof (views_thread _ _ _ Hcth) as Hv. unfold view in Hv. rewrite Hp in Hv.
    by eapply (sr_proc _ _ Hrep). }
  rewrite Hi in Hsp. cbn [mbind outcome_bind] in Hsp.
  destruct (same_but_links_lookup s2 s3 child th1 Hsm3) as (th3 & Hth3 & Hnx3).
  { cbn. by rewrite lookup_insert_eq. }
  rewrite (get_thr_eq child (intr_restore (sie (with_threads <[child:=th1]> s1)) s3) th3 Hth3) in Hsp. cbn [mbind outcome_bind] in Hsp.
  unfold thread_setup in Hsp.
  rewrite (upd_thr_eq child _ (intr_restore (sie (with_threads <[child:=th1]> s1)) s3) th3 Hth3) in Hsp. cbn [mbind outcome_bind] in Hsp.
  injection Hsp as <- <-. set (s4 := intr_restore _ s3). set (th4 := set_context _ th3).
  assert (Hv4 : ∀ x, views (with_threads <[child := th4]> s4) x = views s4 x).
  { intros x. change (views (with_threads <[child := set_context (context th4) th3]> s4) x = views s4 x).
    rewrite (views_upd child (set_context (context th4)) s4 th3 x Hth3).
    case_decide as Hx; [|done]. subst x. by rewrite (views_thread s4 child th3 Hth3). }
  assert (Hrep4 : sched_rep s4 (ASched (run a) (ready a ++ [child]) (waitq a))) by by apply sched_rep_sie.
  split_and!.
  - destruct Hrep4 as [[Hl4 Hlw4] G2 G3 G4 G5 G6 G7]. split; try done.
    + split; [|intros c]; by apply (tl_rep_upd child (set_context (context th4)) s4 th3).
    + intros x st w p q. rewrite Hv4. apply G2.
    + intros x st w p q c. rewrite Hv4. apply G3.
    + intros x st w p q. rewrite Hv4. apply G5.
    + destruct G6 as (st & w & p & q & ? & ?). exists st, w, p, q. by rewrite Hv4.
    + intros x st w p q. rewrite Hv4. apply G7.
  - destruct Hrun3 as (w & p & q & Hr). exists w, p, q. rewrite Hv4. exact Hr.
  - destruct Hsm3 as (_ & _ & _ & _ & _ & Hi3 & _). exact Hi3.
  - destruct Hsm3 as (_ & _ & _ & _ & Hm3 & _). exact Hm3.
  - done.
  - destruct Hsm3 as (_ & Htab3 & _). exact Htab3.
  - exists th4. cbn [threads with_threads]. rewrite lookup_insert_eq. split; [done|].
    destruct (set_next_fields _ _ Hnx3) as (_ & _ & _ & Hpar & Htid & _).
    split_and!; [exact Htid|exact Hpar| |done].
    apply (f_equal tname) in Hnx3. exact Hnx3.
Qed.

(** ** Reachable states *)

Inductive reachable : sched → Prop :=
| r_init k idle_func glue main idle h s :
    main ≠ idle → thread_init k idle_func glue (boot_sched main idle h) = Done s → reachable s
| r_op op s s' :
    reachable s → op_allowed op s → run_op op s = Done s' → reachable s'
| r_spawn name start arg glue s i s' child h :
    reachable s → kmalloc sizeof_thread (kheap s) = Done (child, h) → threads s !! child = None →
    thread_spawn name start arg glue s = Done (i, s') → reachable s'.

(** C29: In every state that the scheduler reaches from [thread_init] by spawning,
    yielding, waiting, broadcasting and exiting, exactly the current thread is
    RUNNING, the ready list links exactly the READY threads, and the wait list of a
    condition links exactly the threads WAITING for it, each once. *)
Theorem reachable_consistent s :
  reachable s →
  (∃ th, threads s !! CURTHR s = Some th ∧ tstate th = THREAD_RUNNING) ∧
  ∃ rq wq, tl_rep s READY_LIST rq ∧ (∀ c, tl_rep s (Some c) (wq c)) ∧
    ∀ t th, threads s !! t = Some th →
      (tstate th = THREAD_RUNNING ↔ t = CURTHR s) ∧ (t ∈ rq ↔ tstate th = THREAD_READY) ∧
      (∀ c, t ∈ wq c ↔ tstate th = THREAD_WAITING ∧ wait_cond th = Some c).
Proof.
  intros Hreach. assert (∃ a, sched_rep s a ∧ running s) as (a & Hrep & Hrun).
  { induction Hreach as [k f g main idle h s Hne Hinit|op s s' _ (a & Hrep & Hrun) Hop Hs|
      name start arg glue s i s' child h _ (a & Hrep & Hrun) Hk Hnew Hsp].
    - destruct (thread_init_rep k f g main idle h Hne) as (s' & Hi & Hrep & Hrun & _).
      assert (s' = s) as -> by congruence. eauto.
    - destruct (run_op_refines op s a Hrep Hrun Hop) as (s2 & a2 & Hs2 & _ & Hrep2 & Hrun2 & _).
      assert (s2 = s') as -> by congruence. eauto.
    - destruct (thread_spawn_rep _ _ _ _ _ _ _ _ _ _ Hrep Hrun Hk Hnew Hsp) as (Hrep' & Hrun' & _). eauto. }
  destruct Hrun as (w & p & q & Hr). destruct (views_Some _ _ _ _ _ _ Hr) as (cth & Hcth & Hcst & _).
  destruct (sr_lists _ _ Hrep) as [Hl Hlw]. split; [eauto|]. exists (ready a), (waitq a).
  split_and!; [done|done|]. intros t th Hth. pose proof (views_thread _ _ _ Hth) as Hv. split_and!.
  - rewrite (sr_cur _ _ Hrep). split; [apply (sr_run _ _ Hrep _ _ _ _ _ Hv)|].
    rewrite <- (sr_cur _ _ Hrep). intros ->. congruence.
  - apply (sr_ready _ _ Hrep _ _ _ _ _ Hv).
  - intros c. apply (sr_wait _ _ Hrep _ _ _ _ _ _ Hv).
Qed.

(** ** Witnesses *)

Definition heap_boot : heap mem := Heap true 0x80200000 0x80201000 (Mem ∅ 0 0 0 true).
Definition stacks_example : stacks := Stacks 0x80001ff0 0x80001000 0x80003000 0x80002000.

Lemma scheduler_refinement_witness :
  ∃ s s', thread_init stacks_example 0x80004000 0x80004100 (boot_sched 0x80005000 0x80005100 heap_boot) = Done s ∧
    run_op (OpWait (CondObj 0x80006000)) s = Done s' ∧ CURTHR s' = 0x80005100.
Proof.
  destruct (thread_init_rep stacks_example 0x80004000 0x80004100 0x80005000 0x80005100 heap_boot)
    as (s & Hs & Hrep & Hrun & Hm & Hi); [done|]. exists s.
  pose proof (sr_cur _ _ Hrep) as Hc. unfold boot_abs in Hc. cbn in Hc.
  destruct (scheduler_refinement (OpWait (CondObj 0x80006000)) s (boot_abs s) Hrep Hrun)
    as (s' & a' & Hs' & Ha & Hrep' & _).
  - cbn. rewrite Hc, Hm, Hi. done.
  - exists s'. split_and!; [done|done|]. rewrite (sr_cur _ _ Hrep').
    inversion Ha as [|c x y Hw E1 E2 E3| |]; subst. unfold a_wait, a_suspend in Hw. cbn in Hw.
    injection Hw as <-. cbn. done.
Defined.

Lemma reachable_consistent_witness :
  ∃ s, reachable s ∧ ∃ th, threads s !! CURTHR s = Some th ∧ tstate th = THREAD_RUNNING.
Proof.
  destruct (thread_init_rep stacks_example 0x80004000 0x80004100 0x80005000 0x80005100 heap_boot)
    as (s & Hs & _); [done|]. exists s.
  assert (Hr : reachable s) by (eapply (r_init stacks_example 0x80004000 0x80004100 0x80005000 0x80005100 heap_boot); [done|exact Hs]).
  split; [exact Hr|]. apply (reachable_consistent s Hr).
Defined.
