(* ===== verification/Lock.v ===== *)
(** The sleep lock of src/src/kern/lock.h.

    A lock is its condition and the id of its holder.  [lock_acquire] either
    returns at once or waits; the code after [condition_wait] is
    [lock_acquire_resume]. *)
From Stdlib Require Import ZArith Lia.
From stdpp Require Import base gmap list sets strings.
From S2P Require Import Prelude Pages Heap Pte Memory Thread ThreadLists Scheduler.

Open Scope Z_scope.

Definition UNLOCK : Z := 1.

Record lock : Type := Lock { lock_cond : cond_id; lock_tid : Z }.

Definition lock_init (c : cond_id) (s : sched) : lock * sched :=
  (Lock c (-1), condition_init c s).

Definition lock_acquire (lk : lock) (s : sched) : outcome (blocking lock) :=
  if lock_tid lk =? - UNLOCK then
    t ← running_thread s;
    Done (Returned (Lock (lock_cond lk) t) s)
  else
    '(saved, s) ← condition_wait (lock_cond lk) s;
    Done (Blocked saved s).

Definition lock_acquire_resume (lk : lock) (s : sched) : outcome lock :=
  t ← running_thread s;
  Done (Lock (lock_cond lk) t).

Definition lock_release (lk : lock) (s : sched) : outcome (lock * sched) :=
  let lk := Lock (lock_cond lk) (-1) in
  s ← condition_broadcast (lock_cond lk) s;
  Done (lk, s).

(** A free lock is taken at once by the running thread; a held lock puts the
    running thread at the end of the lock's wait queue and switches to the first
    ready thread; releasing a lock frees it and makes all its waiters ready, in
    order. *)
Theorem lock_protocol lk s a th :
  sched_rep s a → running s → CURTHR s ≠ idle_thread s → threads s !! CURTHR s = Some th →
  (lock_tid lk = -1 → lock_acquire lk s = Done (Returned (Lock (lock_cond lk) (tid th)) s)) ∧
  (lock_tid lk ≠ -1 → ∃ s' a', lock_acquire lk s = Done (Blocked (sie s) s') ∧
     a_wait (lock_cond lk) a = Some a' ∧ sched_rep s' a' ∧ running s') ∧
  (∃ s', lock_release lk s = Done (Lock (lock_cond lk) (-1), s') ∧
     sched_rep s' (a_broadcast (lock_cond lk) a)).
Proof.
  intros Hrep Hrun Hne Hth. unfold lock_acquire, lock_release, UNLOCK. split_and!.
  - intros ->. change (-1 =? - (1)) with true. unfold running_thread. by rewrite (get_thr_eq _ _ _ Hth).
  - intros Hn. destruct (Z.eqb_spec (lock_tid lk) (- (1))); [lia|].
    destruct (condition_wait_rep (lock_cond lk) s a Hrep Hrun Hne) as (s' & a' & Hw & ? & ? & ? & _).
    exists s', a'. by rewrite Hw.
  - destruct (condition_broadcast_rep (lock_cond lk) s a Hrep) as (s' & Hb & ? & _).
    exists s'. cbn [lock_cond]. by rewrite Hb.
Qed.

(** C37: The lock does not exclude: [lock_release] makes every waiter ready, and a
    waiter that is resumed becomes the holder without looking at the lock, so the
    second of two waiters takes the lock while the first still holds it. *)
Theorem lock_not_exclusive lk s a b c r :
  sched_rep s a → waitq a (lock_cond lk) = b :: c :: r →
  ∃ lk1 s1 a1, lock_release lk s = Done (lk1, s1) ∧ sched_rep s1 a1 ∧
    b ∈ ready a1 ∧ c ∈ ready a1 ∧
    ∀ s2 s3 tb tc, threads s2 !! CURTHR s2 = Some tb → threads s3 !! CURTHR s3 = Some tc →
      ∃ lk2, lock_acquire_resume lk1 s2 = Done lk2 ∧ lock_tid lk2 = tid tb ∧
        ∃ lk3, lock_acquire_resume lk2 s3 = Done lk3 ∧ lock_tid lk3 = tid tc.
Proof.
  intros Hrep Hw. unfold lock_release, lock_acquire_resume, running_thread.
  destruct (condition_broadcast_rep (lock_cond lk) s a Hrep) as (s1 & Hb & Hrep1 & _).
  exists (Lock (lock_cond lk) (-1)), s1, (a_broadcast (lock_cond lk) a).
  cbn [lock_cond ready a_broadcast]. rewrite Hb, Hw. split_and!; [done|done|set_solver|set_solver|].
  intros s2 s3 tb tc H2 H3. rewrite (get_thr_eq _ _ _ H2), (get_thr_eq _ _ _ H3). cbn. eauto 10.
Qed.

(** ** Witnesses *)

(** A state with four threads: main runs, idle is ready, and two others wait for
    the condition of a lock. *)
Definition waiter (c : cond_id) (i : Z) (next : option Z) : thread :=
  Thread (Ctx [] 0 0) "waiter" 0 0 THREAD_WAITING i None (Some 10) next (Some c).
Definition lock_sched : sched :=
  Sched (list_to_map [(10, main_thread_init); (11, idle_thread_init 10);
                      (12, waiter (CondObj 1) 1 (Some 13)); (13, waiter (CondObj 1) 2 None)])
    (list_to_map [(READY_LIST, TList (Some 11) (Some 11)); (Some (CondObj 1), TList (Some 12) (Some 13))])
    (Some 10 :: Some 12 :: Some 13 :: replicate 12 None ++ [Some 11]) 10 true 10 11 ∅ heap_boot.
Definition lock_abs : asched := ASched 10 [11] (set_waitq (CondObj 1) [12; 13] (λ _, [])).

Lemma lock_sched_rep : sched_rep lock_sched lock_abs.
Proof.
  assert (Hv : ∀ x, views lock_sched x =
    if decide (x = 10) then Some (THREAD_RUNNING, None, None, None) else
    if decide (x = 11) then Some (THREAD_READY, None, None, Some 10) else
    if decide (x = 12) then Some (THREAD_WAITING, Some (CondObj 1), None, Some 10) else
    if decide (x = 13) then Some (THREAD_WAITING, Some (CondObj 1), None, Some 10) else None).
  { intros x. unfold views, lock_sched. cbn [threads list_to_map foldr uncurry].
    destruct (decide (x = 10)) as [->|H10]; [done|]. rewrite lookup_insert_ne by done.
    destruct (decide (x = 11)) as [->|H11]; [done|]. rewrite lookup_insert_ne by done.
    destruct (decide (x = 12)) as [->|H12]; [done|]. rewrite lookup_insert_ne by done.
    destruct (decide (x = 13)) as [->|H13]; [done|]. by rewrite lookup_insert_ne. }
  assert (Hnd : NoDup [12; 13]) by (apply NoDup_cons; split; [set_solver|apply NoDup_singleton]).
  split.
  - split.
    + split_and!; [done|done|apply NoDup_singleton|]. intros [|i] t Hi; [|done].
      cbn in Hi. injection Hi as <-. by eexists.
    + intros c. cbn [waitq lock_abs]. unfold set_waitq. case_decide as Hc.
      * subst c. split_and!; [done|done|done|].
        intros [|[|i]] t Hi; cbn in Hi; [injection Hi as <-; by eexists..|done].
      * assert (Hl : get_list (Some c) lock_sched = TList None None).
        { unfold get_list, lock_sched. cbn [tlists list_to_map foldr uncurry].
          rewrite lookup_insert_ne by done. rewrite lookup_insert_ne by (intros [= <-]; by apply Hc). by rewrite lookup_empty. }
        split_and!; [by rewrite Hl..|constructor|done].
  - intros x st w p q. rewrite Hv. cbn [ready lock_abs]. rewrite list_elem_of_singleton.
    repeat case_decide; intros [= <- <- <- <-]; split; intros; subst; try done; lia.
  - intros x st w p q c. rewrite Hv. cbn [waitq lock_abs]. unfold set_waitq.
    destruct (decide (c = CondObj 1)) as [->|Hc].
    + assert (x ∈ [12; 13] ↔ x = 12 ∨ x = 13) as -> by set_solver.
      repeat case_decide; intros [= <- <- <- <-]; split; intros Hx; subst; try done; try tauto;
        destruct Hx; done.
    + repeat case_decide; intros [= <- <- <- <-]; (split; [by intros ?%elem_of_nil|]);
        intros [? [= He]]; try done; by destruct Hc.
  - done.
  - intros x st w p q. rewrite Hv. repeat case_decide; intros [= <- <- <- <-]; done.
  - exists THREAD_READY, None, None, (Some 10). split; [by rewrite Hv|by left].
  - intros x st w p q. rewrite Hv. by repeat case_decide; intros [= ].
Qed.

Lemma lock_protocol_witness :
  lock_acquire (Lock (CondObj 1) (-1)) lock_sched = Done (Returned (Lock (CondObj 1) 0) lock_sched).
Proof.
  apply (lock_protocol (Lock (CondObj 1) (-1)) lock_sched lock_abs main_thread_init);
    [apply lock_sched_rep|by exists None, None, None|done|reflexivity|reflexivity].
Defined.

Lemma lock_not_exclusive_witness :
  ∃ lk1 s1 a1, lock_release (Lock (CondObj 1) 0) lock_sched = Done (lk1, s1) ∧ sched_rep s1 a1 ∧
    12 ∈ ready a1 ∧ 13 ∈ ready a1.
Proof.
  destruct (lock_not_exclusive (Lock (CondObj 1) 0) lock_sched lock_abs 12 13 [] lock_sched_rep eq_refl)
    as (lk1 & s1 & a1 & ? & ? & ? & ? & _).
  exists lk1, s1, a1. auto.
Defined.
