(* ===== verification/ThreadJoin.v ===== *)
(** Joining, recycling and the stack of an exited thread (thread.c). *)
From Stdlib Require Import ZArith Lia.
From stdpp Require Import base gmap list sets strings.
From S2P Require Import Prelude Pages Heap Pte Memory MemFacts Thread ThreadLists.

Open Scope Z_scope.

Lemma thrtab_get_eq i s :
  0 ≤ i < NTHR → thrtab_get i s = Done (default None (thrtab s !! Z.to_nat i)).
Proof.
  intros Hi. unfold thrtab_get. destruct (Z.leb_spec 0 i); [|lia]. by destruct (Z.ltb_spec i NTHR); [|lia].
Qed.

(** The effect of the re-parenting loop on the table of threads. *)
Lemma reparent_spec t p l : ∀ s,
  (∀ c, Some c ∈ l → is_Some (threads s !! c)) → p ≠ Some t →
  ∃ f, reparent l t p s = Done (with_threads f s) ∧
    ∀ x, f (threads s) !! x =
      (λ th, if bool_decide (Some x ∈ l ∧ parent th = Some t) then set_parent p th else th) <$> threads s !! x.
Proof.
  induction l as [|[c|] l IH]; intros s Hl Hp; cbn [reparent].
  - exists id. split; [by destruct s|]. intros x. cbn. destruct (threads s !! x); cbn; [|done].
    rewrite bool_decide_eq_false_2; [done|]. intros [?%elem_of_nil _]. done.
  - destruct (Hl c) as [cth Hcth]; [set_solver|]. rewrite (get_thr_eq _ _ _ Hcth). cbn [mbind outcome_bind].
    destruct (bool_decide_reflect (parent cth = Some t)) as [Hpar|Hpar].
    + rewrite (upd_thr_eq _ _ _ _ Hcth). cbn [mbind outcome_bind].
      destruct (IH (with_threads <[c := set_parent p cth]> s)) as (f & Hf & Hfx); [|done|].
      { intros x Hx. cbn. destruct (decide (x = c)) as [->|]; [by rewrite lookup_insert_eq|].
        rewrite lookup_insert_ne by done. apply Hl. set_solver. }
      exists (λ m, f (<[c := set_parent p cth]> m)). split; [exact Hf|]. intros x.
      specialize (Hfx x). cbn [threads with_threads] in Hfx. rewrite Hfx.
      destruct (decide (x = c)) as [->|Hne].
      * rewrite lookup_insert_eq, Hcth. cbn [fmap option_fmap option_map]. f_equal.
        rewrite (bool_decide_eq_true_2 (Some c ∈ Some c :: l ∧ _)) by (split; [set_solver|done]).
        rewrite bool_decide_eq_false_2; [done|]. by intros [_ ?].
      * rewrite lookup_insert_ne by done. destruct (threads s !! x) as [th|]; [|done]. cbn [fmap option_fmap option_map]. f_equal.
        erewrite bool_decide_ext; [done|]. set_solver.
    + cbn [mbind outcome_bind]. destruct (IH s) as (f & Hf & Hfx); [|done|].
      { intros x Hx. apply Hl. set_solver. }
      exists f. split; [done|]. intros x. rewrite Hfx. destruct (threads s !! x) as [th|] eqn:Hx; [|done].
      cbn [fmap option_fmap option_map]. f_equal. erewrite bool_decide_ext; [done|].
      rewrite elem_of_cons. split; [tauto|]. intros [[[= ->]|?] ?]; [|tauto]. congruence.
  - destruct (IH s) as (f & Hf & Hfx); [|done|]. { intros x Hx. apply Hl. set_solver. }
    exists f. split; [done|]. intros x. rewrite Hfx. destruct (threads s !! x) as [th|]; [|done].
    cbn [fmap option_fmap option_map]. f_equal. erewrite bool_decide_ext; [done|]. set_solver.
Qed.

(** The table: sixteen slots, each NULL or a live structure. *)
Definition thrtab_ok (s : sched) : Prop :=
  length (thrtab s) = 16%nat ∧ ∀ c, Some c ∈ thrtab s → is_Some (threads s !! c).

Lemma recycle_thread_spec i t th s :
  thrtab_ok s → 0 < i < NTHR → thrtab s !! Z.to_nat i = Some (Some t) →
  threads s !! t = Some th → tstate th = THREAD_EXITED → parent th ≠ Some t →
  ∃ s', recycle_thread i s = Done s' ∧ thrtab s' = <[Z.to_nat i := None]> (thrtab s) ∧
    CURTHR s' = CURTHR s ∧ tlists s' = tlists s ∧ kheap s' = kheap s ∧
    ∀ x, threads s' !! x =
      (λ xth, if bool_decide (Some x ∈ drop 1 (thrtab s) ∧ parent xth = Some t)
              then set_parent (parent th) xth else xth) <$> threads s !! x.
Proof.
  intros [Hlen Hlive] Hi Ht Hth Hst Hpar. unfold recycle_thread.
  rewrite thrtab_get_eq by lia. rewrite Ht. cbn [default mbind outcome_bind is_null negb id].
  destruct (Z.ltb_spec 0 i); [|lia]. destruct (Z.ltb_spec i NTHR); [|lia].
  cbn [andb kassert mbind outcome_bind deref]. rewrite (get_thr_eq _ _ _ Hth). cbn [mbind outcome_bind].
  rewrite Hst, bool_decide_eq_true_2 by done. cbn [kassert mbind outcome_bind].
  destruct (reparent_spec t (parent th) (drop 1 (thrtab s)) s) as (f & Hf & Hfx); [|done|].
  { intros c Hc. apply Hlive. rewrite <- (take_drop 1 (thrtab s)). set_solver. }
  rewrite Hf. cbn [mbind outcome_bind kfree]. eexists. split; [done|]. done.
Qed.

(** [thread_join] on a slot of the table: it returns -1, and changes nothing,
    for an empty slot and for a thread that is not the caller's child; it recycles
    an exited child (its slot becomes free, its children in the table become the
    caller's, no list changes) and returns its id; otherwise it waits on the
    caller's own child_exit condition.  An id outside the table is read before it
    is tested. *)
Theorem thread_join_spec i s :
  thrtab_ok s → (∀ t th, threads s !! t = Some th → parent th ≠ Some t) →
  (¬ (0 ≤ i < NTHR) → thread_join i s = Undefined) ∧
  (0 < i < NTHR →
   match default None (thrtab s !! Z.to_nat i) with
   | None => thread_join i s = Done (Returned (-1) s)
   | Some t => ∃ th, threads s !! t = Some th ∧
       (parent th ≠ Some (CURTHR s) → thread_join i s = Done (Returned (-1) s)) ∧
       (parent th = Some (CURTHR s) → tstate th = THREAD_EXITED →
          ∃ s', thread_join i s = Done (Returned i s') ∧
            thrtab s' = <[Z.to_nat i := None]> (thrtab s) ∧ tlists s' = tlists s ∧
            ∀ x xth, threads s !! x = Some xth → threads s' !! x =
              Some (if bool_decide (Some x ∈ drop 1 (thrtab s) ∧ parent xth = Some t)
                    then set_parent (Some (CURTHR s)) xth else xth)) ∧
       (parent th = Some (CURTHR s) → tstate th ≠ THREAD_EXITED →
          thread_join i s = '(saved, s') ← condition_wait (ChildExit (CURTHR s)) s; Done (Blocked saved s'))
   end).
Proof.
  intros Hok Hself. split.
  { intros Hi. unfold thread_join, thrtab_get. destruct (Z.leb_spec 0 i); [|done].
    destruct (Z.ltb_spec i NTHR); [lia|done]. }
  intros Hi. unfold thread_join. rewrite thrtab_get_eq by lia. cbn [mbind outcome_bind].
  destruct (Z.leb_spec i 0); [lia|]. destruct (Z.leb_spec NTHR i); [lia|]. cbn [orb].
  destruct (thrtab s !! Z.to_nat i) as [[t|]|] eqn:Ht; cbn [default id]; [|done|done].
  destruct (proj2 Hok t) as [th Hth]; [by eapply list_elem_of_lookup_2|].
  exists th. split; [done|]. rewrite (get_thr_eq _ _ _ Hth). cbn [mbind outcome_bind].
  unfold thread_join_loop. rewrite (get_thr_eq _ _ _ Hth). cbn [mbind outcome_bind].
  split_and!.
  - intros Hp. by rewrite bool_decide_eq_false_2.
  - intros Hp Hst. rewrite Hp, Hst, !bool_decide_eq_true_2 by done.
    destruct (recycle_thread_spec i t th s) as (s' & Hr & Htab & _ & Hl & _ & Hx); [done|done|done|done|done|by apply Hself|].
    rewrite Hr. exists s'. split_and!; [done|done|done|]. intros x xth Hxth. rewrite Hx, Hxth, Hp. done.
  - intros Hp Hst. rewrite Hp, bool_decide_eq_true_2, bool_decide_eq_false_2 by done. done.
Qed.

(** The stack page of an exited thread is not given back: [suspend_self] frees
    [stack_base - PAGE_SIZE], and [stack_base] is the anchor, sixteen bytes below
    the end of the page, so what is put on the free list is an address inside the
    page before it, and the free list is no longer a list of page frames. *)
Theorem exited_stack_misfreed saved prev page th s :
  threads s !! prev = Some th → tstate th = THREAD_EXITED →
  stack_base th = page + PAGE_SIZE - sizeof_anchor →
  ram_page page → RAM_START < page →
  ∃ s', suspend_self_resume saved prev s = Done s' ∧
    free_list (heap_pages (kheap s')) = page - 16 ∧ (page - 16) mod 4096 = 4080 ∧
    ∀ l, ¬ free_ok (heap_pages (kheap s')) l.
Proof.
  intros Hth Hst Hsb (Hp & H1 & H2) Hlt. rewrite RAM_START_eq in *. rewrite RAM_END_eq in *.
  assert (Hmod : (page - 16) mod 4096 = 4080).
  { rewrite Zminus_mod, Hp. done. }
  assert (Hw : ram_word (page - 16) = true).
  { unfold ram_word. rewrite RAM_START_eq, RAM_END_eq, !andb_true_iff, Z.leb_le, Z.ltb_lt, Z.eqb_eq.
    apply Z.div_exact in Hp; [|lia]. split; [lia|].
    replace (page - 16) with ((512 * (page / 4096) - 2) * 8) by lia. by apply Z.mod_mul. }
  unfold suspend_self_resume. rewrite (get_thr_eq _ _ _ Hth). cbn [mbind outcome_bind].
  rewrite Hst, bool_decide_eq_true_2 by done. rewrite Hsb. unfold sizeof_anchor.
  replace (page + PAGE_SIZE - 16 - PAGE_SIZE) with (page - 16) by lia.
  unfold memory_free_page. cbn zeta. unfold sd. rewrite Hw. cbn [mbind outcome_bind].
  match goal with |- context [upd_thr prev ?f ?s1] => rewrite (upd_thr_eq prev f s1 th Hth) end.
  cbn [mbind outcome_bind]. eexists. split; [done|]. cbn. split_and!; [done|done|].
  intros l (Hfl & _ & Hps). cbn in Hfl. destruct l as [|q l]; cbn in Hfl; [lia|].
  destruct Hfl as [Hq _]. apply Forall_cons in Hps as [(Hqp & _) _]. rewrite <- Hq, Hmod in Hqp. lia.
Qed.

(** ** Witnesses *)

Definition exited_child : thread :=
  Thread (Ctx [] 0 0) "child" 0x80205ff0 0xff0 THREAD_EXITED 1 None (Some 10) None None.
Definition join_sched : sched :=
  Sched (<[12 := exited_child]> (<[11 := idle_thread_init 10]> {[ 10 := main_thread_init ]})) ∅
    (Some 10 :: Some 12 :: replicate 13 None ++ [Some 11]) 10 true 10 11 ∅
    (Heap true 0x80200000 0x80201000 (Mem ∅ 0 0 0 true)).

Lemma thread_join_spec_witness :
  ∃ s', thread_join 1 join_sched = Done (Returned 1 s') ∧ thrtab s' !! 1%nat = Some None.
Proof.
  destruct (thread_join_spec 1 join_sched) as [_ H].
  - split; [done|]. intros c Hc. cbn in Hc. rewrite !elem_of_cons in Hc.
    destruct_or!; simplify_eq; try done. by apply elem_of_nil in Hc.
  - intros t th Ht. cbn in Ht. apply lookup_insert_Some in Ht as [[<- <-]|[_ Ht]]; [done|].
    apply lookup_insert_Some in Ht as [[<- <-]|[_ Ht]]; [done|].
    apply lookup_singleton_Some in Ht as [<- <-]. done.
  - specialize (H ltac:(unfold NTHR; lia)). cbn in H. destruct H as (th & [= <-] & _ & H & _).
    destruct (H eq_refl eq_refl) as (s' & Hj & Htab & _). exists s'. split; [exact Hj|]. by rewrite Htab.
Defined.

Lemma exited_stack_misfreed_witness :
  ∃ s', suspend_self_resume true 12 join_sched = Done s' ∧
    free_list (heap_pages (kheap s')) = 0x80205000 - 16.
Proof.
  destruct (exited_stack_misfreed true 12 0x80205000 exited_child join_sched) as (s' & ? & ? & _);
    [reflexivity|reflexivity|reflexivity|unfold ram_page; rewrite RAM_START_eq, RAM_END_eq; repeat split; lia
    |rewrite RAM_START_eq; lia|].
  eauto.
Defined.
