(* ===== verification/ThreadTree.v ===== *)
(** The table of threads (thread.c) is a tree: what [thrtab], the ids and the parent
    pointers of threads mean in every state that the thread manager reaches. *)
From Stdlib Require Import ZArith Lia.
From stdpp Require Import base gmap list sets strings.
From S2P Require Import Prelude Pages Heap Pte Memory MemFacts Thread Frames ThreadLists Scheduler ThreadJoin.

Open Scope Z_scope.

(** ** Identities *)

(** The id and the parent of a thread. *)
Definition ident (s : sched) (x : Z) : option (Z * option Z) := (λ th, (tid th, parent th)) <$> threads s !! x.

Record same_idents (s s' : sched) : Prop := {
  si_ident x : ident s' x = ident s x;
  si_tab : thrtab s' = thrtab s;
  si_main : main_thread s' = main_thread s;
  si_idle : idle_thread s' = idle_thread s
}.

#[export] Instance same_idents_preorder : PreOrder same_idents.
Proof. split; [by split|]. intros a b c [] []. split; congruence. Qed.

Lemma same_idents_upd t f s th : threads s !! t = Some th → tid (f th) = tid th → parent (f th) = parent th →
  same_idents s (with_threads <[t := f th]> s).
Proof.
  intros Ht Hi Hp. split; try done. intros x. unfold ident. cbn. destruct (decide (x = t)) as [->|].
  - rewrite lookup_insert_eq, Ht. cbn. by rewrite Hi, Hp.
  - by rewrite lookup_insert_ne.
Qed.

#[export] Instance same_idents_frame : SwitchFrame same_idents.
Proof.
  split; [split; [exact _|..]|..]; try (intros; by split).
  intros t f s th Hf Ht. apply same_idents_upd; by destruct Hf.
Qed.

(** ** The tree *)

Definition in_table (s : sched) (t : Z) : Prop := Some t ∈ thrtab s.
Definition child_of (s : sched) (c p : Z) : Prop := in_table s c ∧ ∃ i, ident s c = Some (i, Some p).

Record thread_tree (s : sched) : Prop := {
  tt_length : length (thrtab s) = 16%nat;
  tt_main : thrtab s !! 0%nat = Some (Some (main_thread s)) ∧ ident s (main_thread s) = Some (0, None);
  tt_slot i t : thrtab s !! i = Some (Some t) → i ≠ 0%nat →
    ∃ p, ident s t = Some (Z.of_nat i, Some p) ∧ in_table s p;
  tt_acyclic : ∃ rank : Z → nat, ∀ c p, child_of s c p → (rank p < rank c)%nat
}.

Lemma in_table_lookup s t : in_table s t ↔ ∃ i, thrtab s !! i = Some (Some t).
Proof. apply list_elem_of_lookup. Qed.

Lemma tree_idents s s' : same_idents s s' → thread_tree s → thread_tree s'.
Proof.
  intros [Hi Ht Hm _] [Hl Hmain Hs [rank Hr]]. split; unfold in_table, child_of in *; rewrite ?Ht, ?Hm, ?Hi; try done.
  - intros i t Hit Hi0. rewrite Hi. by apply Hs.
  - exists rank. intros c p. unfold in_table. rewrite Ht, Hi. apply Hr.
Qed.

(** Every thread of the table has the id of its slot. *)
Lemma tree_slot s i t : thread_tree s → thrtab s !! i = Some (Some t) → ∃ q, ident s t = Some (Z.of_nat i, q).
Proof.
  intros Htr Ht. destruct (decide (i = 0%nat)) as [->|Hi].
  - destruct (tt_main _ Htr) as [H0 Hid]. rewrite H0 in Ht. injection Ht as <-. eauto.
  - destruct (tt_slot _ Htr i t Ht Hi) as (p & Hp & _). eauto.
Qed.

Lemma tree_slot_inj s i j t : thread_tree s → thrtab s !! i = Some (Some t) → thrtab s !! j = Some (Some t) → i = j.
Proof. intros Htr Hi Hj. destruct (tree_slot s i t Htr Hi) as [q Hq], (tree_slot s j t Htr Hj) as [q' Hq']. rewrite Hq in Hq'. injection Hq'. lia. Qed.

(** The chain of parents leads to the main thread. *)
Lemma tree_root s t : thread_tree s → in_table s t → rtc (child_of s) t (main_thread s).
Proof.
  intros Htr. destruct (tt_acyclic _ Htr) as [rank Hr]. remember (rank t) as n eqn:Hn. revert t Hn.
  induction n as [n IH] using lt_wf_ind. intros t -> Ht. pose proof Ht as Hin. apply in_table_lookup in Ht as [i Hi].
  destruct (decide (i = 0%nat)) as [->|Hi0].
  - destruct (tt_main _ Htr) as [H0 _]. rewrite H0 in Hi. injection Hi as <-. apply rtc_refl.
  - destruct (tt_slot _ Htr i t Hi Hi0) as (p & Hp & Hpin). assert (Hc : child_of s t p) by (split; eauto).
    eapply rtc_l; [exact Hc|]. by eapply IH; [by apply Hr|done|].
Qed.

(** ** Spawning *)

Lemma find_slot_spec l : ∀ i, i ≤ find_slot i l ≤ i + Z.of_nat (length l) ∧
  (find_slot i l < i + Z.of_nat (length l) → l !! Z.to_nat (find_slot i l - i) = Some None).
Proof.
  induction l as [|[t|] l IH]; intros i; cbn [find_slot length]; [lia| |].
  - destruct (IH (i + 1)) as [Hb Hl]. split; [lia|]. intros Hlt. specialize (Hl ltac:(lia)).
    replace (Z.to_nat (find_slot (i + 1) l - i)) with (S (Z.to_nat (find_slot (i + 1) l - (i + 1)))) by lia. done.
  - rewrite Z.sub_diag. split; [lia|done].
Qed.

(** A new thread in a free slot, with a parent of the table. *)
Lemma tree_insert s s' i child p : thread_tree s → (0 < i < 16)%nat → thrtab s !! i = Some None → in_table s p →
  ident s child = None → thrtab s' = <[i := Some child]> (thrtab s) → main_thread s' = main_thread s →
  ident s' child = Some (Z.of_nat i, Some p) → (∀ x, x ≠ child → ident s' x = ident s x) → thread_tree s'.
Proof.
  intros Htr Hi Hfree Hp Hnew Htab Hm Hc Hx. pose proof Htr as [Hl [H0 Hid0] Hs [rank Hr]].
  assert (Hin : ∀ x, in_table s x → in_table s' x ∧ x ≠ child).
  { intros x Hin. apply in_table_lookup in Hin as [j Hj]. destruct (tree_slot s j x Htr Hj) as [q Hq]. split; [|by intros ->; rewrite Hq in Hnew].
    apply in_table_lookup. exists j. rewrite Htab, list_lookup_insert_ne; [done|]. intros <-. by rewrite Hfree in Hj. }
  assert (Hmc : main_thread s ≠ child) by (intros He; by rewrite He, Hnew in Hid0). split.
  - by rewrite Htab, length_insert.
  - rewrite Hm, Hx, Htab, list_lookup_insert_ne by (done || lia). done.
  - intros j t. rewrite Htab. intros Hj Hj0. apply list_lookup_insert_Some in Hj as [(<- & [= <-] & _)|(Hne & Hj)].
    + exists p. split; [done|by apply Hin].
    + destruct (Hs j t Hj Hj0) as (q & Hq & Hqin). exists q. split; [|by apply Hin]. rewrite Hx; [done|]. by apply Hin, in_table_lookup; exists j.
  - exists (λ x, if decide (x = child) then S (rank p) else rank x). intros c q [Hcin [n Hcq]].
    assert (Hold : ∀ x, x ≠ child → in_table s' x → in_table s x).
    { intros x Hne Hx'. apply in_table_lookup in Hx' as [j Hj]. rewrite Htab in Hj.
      apply list_lookup_insert_Some in Hj as [(<- & [= <-] & _)|(_ & Hj)]; [done|]. apply in_table_lookup. eauto. }
    destruct (decide (c = child)) as [->|Hne].
    + rewrite Hc in Hcq. injection Hcq as _ <-. destruct (Hin p Hp) as [_ Hpc]. repeat case_decide; try done. lia.
    + rewrite Hx in Hcq by done. assert (Hch : child_of s c q) by (split; [by apply Hold|eauto]). specialize (Hr _ _ Hch).
      repeat case_decide; try done. subst q. exfalso.
      pose proof (Hold c Hne Hcin) as [j Hj]%in_table_lookup. destruct (decide (j = 0%nat)) as [->|Hj0].
      * rewrite H0 in Hj. injection Hj as <-. rewrite Hid0 in Hcq. done.
      * destruct (Hs j c Hj Hj0) as (q' & Hq' & Hqin). rewrite Hcq in Hq'. injection Hq' as _ <-. by destruct (Hin child Hqin).
Qed.

(** ** Recycling *)

(** The slot of [t] becomes free, and the children of [t] become its parent's. *)
Lemma tree_remove s s' i t p : thread_tree s → (0 < i)%nat → thrtab s !! i = Some (Some t) → ident s t = Some (Z.of_nat i, Some p) →
  thrtab s' = <[i := None]> (thrtab s) → main_thread s' = main_thread s →
  (∀ x n q, ident s x = Some (n, q) → ident s' x = Some (n, if decide (Some x ∈ drop 1 (thrtab s) ∧ q = Some t) then Some p else q)) →
  thread_tree s'.
Proof.
  intros Htr Hi Ht Hid Htab Hm Hx. pose proof Htr as [Hl [H0 Hid0] Hs [rank Hr]].
  assert (Hpt : (rank p < rank t)%nat) by (apply Hr; split; [apply in_table_lookup|]; eauto).
  assert (Hin : ∀ x, in_table s' x ↔ in_table s x ∧ x ≠ t).
  { intros x. rewrite !in_table_lookup, Htab. split.
    - intros [j Hj]. apply list_lookup_insert_Some in Hj as [(_ & ? & _)|(Hne & Hj)]; [done|]. split; [eauto|].
      intros ->. by apply Hne, (tree_slot_inj s i j t).
    - intros [[j Hj] Hne]. exists j. rewrite list_lookup_insert_ne; [done|]. intros ->. rewrite Ht in Hj. by injection Hj as <-. }
  assert (Hdrop : ∀ j x, thrtab s !! j = Some (Some x) → j ≠ 0%nat → Some x ∈ drop 1 (thrtab s)).
  { intros j x Hj Hj0. apply list_elem_of_lookup. exists (j - 1)%nat. rewrite lookup_drop. by replace (1 + (j - 1))%nat with j by lia. }
  assert (Hpin : in_table s p) by (destruct (Hs i t Ht ltac:(lia)) as (q & Hq & Hqin); rewrite Hid in Hq; by injection Hq as <-).
  assert (Hpne : p ≠ t) by (intros ->; lia). split.
  - by rewrite Htab, length_insert.
  - rewrite Hm, (Hx _ _ _ Hid0), Htab, list_lookup_insert_ne, decide_False by (lia || by intros [_ ?]). done.
  - intros j x. rewrite Htab. intros Hj Hj0. apply list_lookup_insert_Some in Hj as [(_ & ? & _)|(Hne & Hj)]; [done|].
    destruct (Hs j x Hj Hj0) as (q & Hq & Hqin). rewrite (Hx _ _ _ Hq). case_decide as Hc.
    + exists p. split; [done|]. by apply Hin.
    + exists q. split; [done|]. apply Hin. split; [done|]. intros ->. apply Hc. split; [by eapply Hdrop|done].
  - exists rank. intros c q [[Hcin Hct]%Hin [n Hcq]]. pose proof Hcin as [j Hj]%in_table_lookup. destruct (tree_slot s j c Htr Hj) as [q0 Hq0].
    rewrite (Hx _ _ _ Hq0) in Hcq. injection Hcq as <- Hcq. case_decide as Hc.
    + injection Hcq as <-. destruct Hc as [_ ->]. specialize (Hr c t ltac:(split; eauto)). lia.
    + subst q0. apply Hr. split; eauto.
Qed.

Lemma tree_thrtab_ok s : thread_tree s → thrtab_ok s.
Proof.
  intros Htr. split; [apply Htr|]. intros c Hc. apply in_table_lookup in Hc as [i Hi]. destruct (tree_slot s i c Htr Hi) as [q Hq].
  unfold ident in Hq. by destruct (threads s !! c).
Qed.

(** The states differ in the parents of threads and in the table. *)
Record same_but_parents (s s' : sched) : Prop := {
  sp_threads x : ∃ g, threads s' !! x = (λ th, set_parent (g th) th) <$> threads s !! x;
  sp_lists : tlists s' = tlists s;
  sp_cur : CURTHR s' = CURTHR s;
  sp_idle : idle_thread s' = idle_thread s;
  sp_mtag : proc_mtag s' = proc_mtag s
}.

Lemma recycle_tree i s s' : thread_tree s → recycle_thread i s = Done s' →
  ∃ t th, thrtab s !! Z.to_nat i = Some (Some t) ∧ threads s !! t = Some th ∧ tstate th = THREAD_EXITED ∧
    thread_tree s' ∧ thrtab s' = <[Z.to_nat i := None]> (thrtab s) ∧ same_but_parents s s'.
Proof.
  intros Htr Hrec. unfold recycle_thread in Hrec. apply bind_Done in Hrec as (o & Ho & Hrec). apply bind_Done in Hrec as (u & Hu & Hrec).
  apply kassert_Done, andb_true_iff in Hu as [[Hi1 Hi2]%andb_true_iff Hnull]. apply Z.ltb_lt in Hi1, Hi2.
  apply bind_Done in Hrec as (t & Ht & Hrec). apply deref_Done in Ht as ->. rewrite thrtab_get_eq in Ho by lia. injection Ho as Ho.
  assert (Hslot : thrtab s !! Z.to_nat i = Some (Some t)) by (destruct (thrtab s !! Z.to_nat i); [by cbn in Ho; subst|done]).
  apply bind_Done in Hrec as (th & Hth & Hrec). apply deref_Done in Hth. apply bind_Done in Hrec as (u' & E & Hrec). apply kassert_Done, bool_decide_eq_true in E.
  destruct (tt_slot _ Htr _ t Hslot ltac:(lia)) as (p & Hid & Hp). pose proof Hid as Hpar. unfold ident in Hpar. rewrite Hth in Hpar. injection Hpar as Htid Hpar.
  assert (Hne : parent th ≠ Some t).
  { rewrite Hpar. intros [= ->]. destruct (tt_acyclic _ Htr) as [rank Hr]. specialize (Hr t t ltac:(split; eauto)). lia. }
  destruct (reparent_spec t (parent th) (drop 1 (thrtab s)) s) as (f & Hf & Hfx); [|done|].
  { intros c Hc. apply (proj2 (tree_thrtab_ok s Htr)). rewrite <- (take_drop 1 (thrtab s)). set_solver. }
  rewrite Hf in Hrec. cbn [mbind outcome_bind kfree] in Hrec. injection Hrec as <-. exists t, th. do 3 (split; [done|]).
  split; [|split; [done|split; try done; intros x; cbn [threads with_heap thrtab_set with_thrtab with_threads]; rewrite Hfx]].
  - eapply (tree_remove s _ (Z.to_nat i) t p); try done; [lia|]. intros x n q Hx. unfold ident in *. cbn [threads with_heap thrtab_set with_thrtab with_threads].
    rewrite Hfx. destruct (threads s !! x) as [xth|]; [|done]. cbn in Hx |- *. injection Hx as <- <-. rewrite Hpar.
    case_bool_decide as Hc; case_decide; tauto.
  - exists (λ xth, if bool_decide (Some x ∈ drop 1 (thrtab s) ∧ parent xth = Some t) then parent th else parent xth).
    destruct (threads s !! x) as [xth|]; [|done]. cbn. case_bool_decide; [done|]. by destruct xth.
Qed.

Lemma same_but_parents_rep s s' a : same_but_parents s s' → sched_rep s a → sched_rep s' a.
Proof.
  intros [Hx Hl Hc Hi Hm] Hrep. pose proof Hrep as [[Hl0 Hl1] Hr Hw Hcur Hrun (st & w & q & r & Hv & Hst) Hp].
  assert (Hviews : ∀ x st w q r, views s' x = Some (st, w, q, r) → ∃ r', views s x = Some (st, w, q, r')).
  { intros x st' w' q' r'. unfold views. destruct (Hx x) as [g ->]. destruct (threads s !! x) as [th|]; [|done]. cbn. unfold view. cbn. intros [= <- <- <- _]. eauto. }
  assert (Hlist : ∀ l ts, tl_rep s l ts → tl_rep s' l ts).
  { intros l ts (H1 & H2 & H3 & H4). unfold tl_rep, get_list. rewrite Hl. split_and!; [done|done|done|]. intros j t Hj.
    destruct (H4 j t Hj) as (th & Hth & Hn). destruct (Hx t) as [g ->]. rewrite Hth. eexists. split; [done|]. done. }
  split; rewrite ?Hc, ?Hi, ?Hm; [split; [by apply Hlist|intros c; by apply Hlist]|..]; try done.
  - intros x st' w' q' r' (r0 & H0)%Hviews. by eapply Hr.
  - intros x st' w' q' r' c (r0 & H0)%Hviews. by eapply Hw.
  - intros x st' w' q' r' (r0 & H0)%Hviews. by eapply Hrun.
  - unfold views in *. destruct (Hx (idle_thread s)) as [g ->]. destruct (threads s !! idle_thread s) as [th|]; [|done]. cbn in Hv |- *. injection Hv as <- <- <- <-.
    eexists _, _, _, _. by split.
  - intros x st' w' q' r' (r0 & H0)%Hviews. by eapply Hp.
Qed.

(** ** Reachable states *)

(** The state that a call leaves, whether its caller goes on or waits. *)
Definition after {A} (r : blocking A) : sched := match r with Returned _ s => s | Blocked _ s => s end.

(** The states that the thread manager reaches: starting, the operations of the
    scheduler, spawning a thread whose structure is new, and joining; the idle thread
    does not join. *)
Inductive thread_reach : sched → Prop :=
| th_init k idle_func glue main idle h s :
    main ≠ idle → thread_init k idle_func glue (boot_sched main idle h) = Done s → thread_reach s
| th_op op s s' : thread_reach s → op_allowed op s → run_op op s = Done s' → thread_reach s'
| th_spawn name start arg glue s i s' child h :
    thread_reach s → kmalloc sizeof_thread (kheap s) = Done (child, h) → threads s !! child = None →
    thread_spawn name start arg glue s = Done (i, s') → thread_reach s'
| th_join i s r : thread_reach s → CURTHR s ≠ idle_thread s → thread_join i s = Done r → thread_reach (after r)
| th_join_any s r : thread_reach s → CURTHR s ≠ idle_thread s → thread_join_any s = Done r → thread_reach (after r)
| th_join_any_resume s i s' : thread_reach s → thread_join_any_resume s = Done (i, s') → thread_reach s'.

(** The threads that run, are ready or wait. *)
Definition listed (a : asched) (t : Z) : Prop := t = run a ∨ t ∈ ready a ∨ ∃ c, t ∈ waitq a c.

Lemma suspend_listed still a a' t : a_suspend still a = Some a' → listed a' t → listed a t.
Proof.
  unfold a_suspend, listed. destruct (ready a) as [|n r]; [done|]. intros [= <-]. cbn [run ready waitq]. rewrite elem_of_app, elem_of_cons.
  intros [->|[[?|Ht]|?]]; try tauto. destruct still; [apply list_elem_of_singleton in Ht; tauto|by apply elem_of_nil in Ht].
Qed.

Lemma broadcast_listed c a t : listed (a_broadcast c a) t → listed a t.
Proof.
  unfold listed, a_broadcast, set_waitq. cbn [run ready waitq]. rewrite elem_of_app. intros [?|[[?|?]|[c' Hc]]]; eauto.
  case_decide; [by apply elem_of_nil in Hc|eauto].
Qed.

Lemma step_listed op a a' t : a_step op a a' → listed a' t → listed a t.
Proof.
  intros Hs Ht. destruct Hs as [a a' Ha|c a a' Ha|c a|p a a' Ha].
  - by eapply suspend_listed.
  - apply (suspend_listed _ _ _ _ Ha) in Ht. unfold listed, set_waitq in *. cbn [run ready waitq] in Ht.
    destruct Ht as [?|[?|[c' Hc]]]; eauto. case_decide; [|eauto]. rewrite elem_of_app, list_elem_of_singleton in Hc. destruct Hc; eauto.
  - by eapply broadcast_listed.
  - by eapply broadcast_listed, suspend_listed.
Qed.

Definition tree_inv (s : sched) : Prop :=
  ∃ a, sched_rep s a ∧ running s ∧ (∀ t, listed a t → in_table s t) ∧ thread_tree s.

Lemma op_idents op s s' : run_op op s = Done s' → same_idents s s'.
Proof.
  destruct op as [|c|c|]; cbn [run_op]; intros Hr.
  - apply bind_Done in Hr as ([saved s1] & Hr & [= <-]). by eapply (frame_yield same_idents).
  - apply bind_Done in Hr as ([saved s1] & Hr & [= <-]). by eapply (frame_wait same_idents).
  - by eapply (frame_broadcast same_idents).
  - apply bind_Done in Hr as ([|saved s1] & Hr & Hs); [done|]. injection Hs as <-. by eapply (frame_exit same_idents).
Qed.

Lemma op_inv op s s' : tree_inv s → op_allowed op s → run_op op s = Done s' → tree_inv s'.
Proof.
  intros (a & Hrep & Hrun & Hl & Htr) Hop Hs. destruct (run_op_refines op s a Hrep Hrun Hop) as (s2 & a' & Hs2 & Ha & Hrep' & Hrun' & _).
  rewrite Hs in Hs2. injection Hs2 as <-. pose proof (op_idents _ _ _ Hs) as Hi. exists a'. split; [done|]. split; [done|].
  split; [|by eapply tree_idents]. intros t Ht. unfold in_table. rewrite (si_tab _ _ Hi). by eapply Hl, step_listed.
Qed.

Lemma recycle_inv i s s' : tree_inv s → recycle_thread i s = Done s' → tree_inv s'.
Proof.
  intros (a & Hrep & Hrun & Hl & Htr) Hrec. destruct (recycle_tree i s s' Htr Hrec) as (t & th & Hslot & Hth & Hst & Htr' & Htab & Hsame).
  pose proof (same_but_parents_rep _ _ _ Hsame Hrep) as Hrep'. exists a. split; [done|]. split; [|split; [|done]].
  - destruct Hrun as (w & p & q & Hv). unfold running. rewrite (sp_cur _ _ Hsame). unfold views in *. destruct (sp_threads _ _ Hsame (CURTHR s)) as [g ->].
    destruct (threads s !! CURTHR s) as [cth|]; [|done]. cbn in Hv |- *. injection Hv as Hcst _ _ _. eexists _, _, _. unfold view. cbn. by rewrite Hcst.
  - intros x Hx. pose proof (Hl x Hx) as [j Hj]%in_table_lookup. apply in_table_lookup. exists j. rewrite Htab, list_lookup_insert_ne; [done|].
    intros <-. rewrite Hslot in Hj. injection Hj as <-. pose proof (views_thread _ _ _ Hth) as Hv. unfold view in Hv. rewrite Hst in Hv.
    destruct Hx as [->|[Hx|[c Hx]]].
    + destruct Hrun as (w & p & q & Hr). rewrite (sr_cur _ _ Hrep), Hv in Hr. done.
    + apply (sr_ready _ _ Hrep _ _ _ _ _ Hv) in Hx. done.
    + apply (sr_wait _ _ Hrep _ _ _ _ _ _ Hv) in Hx. by destruct Hx.
Qed.

Lemma join_inv i s r : tree_inv s → CURTHR s ≠ idle_thread s → thread_join i s = Done r → tree_inv (after r).
Proof.
  intros Hinv Hidle Hj. unfold thread_join in Hj. apply bind_Done in Hj as (o & _ & Hj). case_match; [by injection Hj as <-|].
  destruct o as [child|]; [|by injection Hj as <-]. apply bind_Done in Hj as (th & _ & Hj). case_bool_decide; [|by injection Hj as <-].
  unfold thread_join_loop in Hj. apply bind_Done in Hj as (th' & _ & Hj). case_bool_decide.
  - apply bind_Done in Hj as (s1 & Hr & [= <-]). by eapply recycle_inv.
  - apply bind_Done in Hj as ([saved s1] & Hw & [= <-]). eapply (op_inv (OpWait _) s s1 Hinv Hidle). cbn [run_op]. by rewrite Hw.
Qed.

Lemma join_any_inv s r : tree_inv s → CURTHR s ≠ idle_thread s → thread_join_any s = Done r → tree_inv (after r).
Proof.
  intros Hinv Hidle Hj. unfold thread_join_any in Hj. apply bind_Done in Hj as ([i|cnt] & _ & Hj); [by eapply join_inv|].
  case_match; [done|]. apply bind_Done in Hj as ([saved s1] & Hw & [= <-]).
  eapply (op_inv (OpWait _) s s1 Hinv Hidle). cbn [run_op]. by rewrite Hw.
Qed.

Lemma spawn_idents name start arg glue s i s' child h :
  kmalloc sizeof_thread (kheap s) = Done (child, h) → thread_spawn name start arg glue s = Done (i, s') →
  i ≠ NTHR ∧ ∀ x, x ≠ child → ident s' x = ident s x.
Proof.
  intros Hk Hsp. unfold thread_spawn in Hsp. apply bind_Done in Hsp as ([[i1 c1] s1] & Hnew & Hsp).
  apply bind_Done in Hsp as (s2 & H2 & Hsp). cbn [intr_disable] in Hsp. apply bind_Done in Hsp as (s3 & H3 & Hsp).
  apply bind_Done in Hsp as (th & _ & Hsp). apply bind_Done in Hsp as (s4 & H4 & [= <- <-]).
  assert (Hids : same_idents s1 s4).
  { trans s2; [by eapply (frame_upd same_idents); [apply lw_state|]|]. etrans; [apply (lf_sie false)|].
    trans s3; [by eapply (frame_tlinsert same_idents)|]. etrans; [apply (lf_sie (sie s2))|].
    unfold thread_setup in H4. peel H4. injection H4 as <-. apply deref_Done in E. by apply (same_idents_upd _ (set_context _)). }
  unfold new_thread in Hnew. case_match eqn:Hn; [done|]. apply Z.eqb_neq in Hn. rewrite Hk in Hnew. cbn [mbind outcome_bind] in Hnew.
  apply bind_Done in Hnew as ([page m] & _ & Hnew). do 2 peel Hnew. apply bind_Done in Hnew as (cur & _ & [= <- <- <-]). split; [done|]. intros y Hy. rewrite (si_ident _ _ Hids).
  unfold ident. cbn. by rewrite lookup_insert_ne.
Qed.

Lemma spawn_inv name start arg glue s i s' child h : tree_inv s →
  kmalloc sizeof_thread (kheap s) = Done (child, h) → threads s !! child = None →
  thread_spawn name start arg glue s = Done (i, s') → tree_inv s'.
Proof.
  intros (a & Hrep & Hrun & Hl & Htr) Hk Hnew Hsp. destruct (spawn_idents _ _ _ _ _ _ _ _ _ Hk Hsp) as [Hi Hids].
  destruct (thread_spawn_rep _ _ _ _ _ _ _ _ _ _ Hrep Hrun Hk Hnew Hsp) as (Hrep' & Hrun' & _ & Hm & Hslot & Htab & th & Hth & Htid & Hpar & _).
  pose proof (find_slot_spec (drop 1 (thrtab s)) 1) as [Hb Hfree]. rewrite <- Hslot in Hb, Hfree.
  rewrite length_drop, (tt_length _ Htr) in Hb, Hfree. unfold NTHR in Hi. specialize (Hfree ltac:(lia)). rewrite lookup_drop in Hfree.
  replace (1 + Z.to_nat (i - 1))%nat with (Z.to_nat i) in Hfree by lia.
  assert (Htr' : thread_tree s').
  { eapply (tree_insert s s' (Z.to_nat i) child (CURTHR s)); try done; [lia| |unfold ident; by rewrite Hnew|].
    - apply Hl. left. apply (sr_cur _ _ Hrep).
    - unfold ident. rewrite Hth. cbn. rewrite Htid, Hpar. do 2 f_equal. lia. }
  eexists. split; [exact Hrep'|]. split; [done|]. split; [|done]. intros t Ht.
  assert (Hold : listed a t ∨ t = child).
  { unfold listed in *. cbn [run ready waitq] in Ht. rewrite elem_of_app, list_elem_of_singleton in Ht. tauto. }
  apply in_table_lookup. rewrite Htab. destruct Hold as [Hold| ->].
  - apply Hl, in_table_lookup in Hold as [j Hj]. exists j. rewrite list_lookup_insert_ne; [done|]. intros <-. by rewrite Hfree in Hj.
  - exists (Z.to_nat i). apply list_lookup_insert_eq. apply lookup_lt_Some in Hfree. done.
Qed.

Lemma init_inv k f g main idle h s : main ≠ idle → thread_init k f g (boot_sched main idle h) = Done s → tree_inv s.
Proof.
  intros Hne Hinit. destruct (thread_init_rep k f g main idle h Hne) as (s' & Hs' & Hrep & Hrun & Hm & Hid). rewrite Hinit in Hs'. injection Hs' as <-.
  set (s0 := boot_sched main idle h) in *.
  assert (Hids : same_idents s0 s).
  { unfold thread_init, init_main_thread, init_idle_thread, thread_setup in Hinit. apply bind_Done in Hinit as (s1 & H1 & Hinit).
    apply bind_Done in Hinit as (s4 & H4 & [= <-]). apply bind_Done in H4 as (s2 & H2 & H4). apply bind_Done in H4 as (s3 & H3 & H4).
    assert (Hu : ∀ t fn sa sb, (∀ th, tid (fn th) = tid th ∧ parent (fn th) = parent th) → upd_thr t fn sa = Done sb → same_idents sa sb).
    { intros t fn sa sb Hfn Hu. peel Hu. injection Hu as <-. apply deref_Done in E. by apply same_idents_upd; [|apply Hfn..]. }
    trans s1; [eapply Hu; [|exact H1]; done|]. trans s2; [eapply Hu; [|exact H2]; done|]. trans s3; [eapply Hu; [|exact H3]; done|].
    trans s4; [by eapply (frame_tlinsert same_idents)|]. apply sf_switch. }
  assert (Himain : ident s0 main = Some (0, None)) by (unfold ident; cbn; rewrite lookup_insert_ne, lookup_singleton_eq by done; done).
  assert (Hiidle : ident s0 idle = Some (15, Some main)) by (unfold ident; cbn; rewrite lookup_insert_eq; done).
  assert (Hslots : ∀ j t, thrtab s0 !! j = Some (Some t) → j = 0%nat ∧ t = main ∨ j = 15%nat ∧ t = idle).
  { intros j t. cbn. intros Hj. do 16 (destruct j as [|j]; [cbn in Hj; simplify_eq; auto|]). done. }
  assert (Htr : thread_tree s0).
  { split; [done|done| |].
    - intros j t Hj Hj0. destruct (Hslots j t Hj) as [[-> _]|[-> ->]]; [done|]. exists main. split; [done|]. apply in_table_lookup. by exists 0%nat.
    - exists (λ x, if decide (x = main) then 0%nat else 1%nat). intros c p [Hc [n Hp]]. apply in_table_lookup in Hc as [j Hj].
      destruct (Hslots j c Hj) as [[_ ->]|[_ ->]]; [by rewrite Himain in Hp|]. rewrite Hiidle in Hp. injection Hp as _ <-.
      repeat case_decide; congruence || lia. }
  exists (boot_abs s). split; [done|]. split; [done|]. split; [|by eapply tree_idents]. intros t Ht. apply in_table_lookup. rewrite (si_tab _ _ Hids).
  unfold listed, boot_abs in Ht. cbn [run ready waitq] in Ht. rewrite Hm, Hid, list_elem_of_singleton in Ht.
  destruct Ht as [->|[->|[c Hc]]]; [by exists 0%nat|by exists 15%nat|by apply elem_of_nil in Hc].
Qed.

(** C28: the table of threads is well typed.  In every state that the thread manager
    reaches by starting, scheduling, spawning and joining: the table has sixteen slots
    and the first is the main thread; a slot holds NULL or a thread whose id is the
    number of the slot, and the parents of the threads in the table lead, through
    threads in the table, to the main thread; the id of the running thread names that
    thread, and every thread that is ready has a slot. *)
Theorem thread_table_typed s : thread_reach s →
  length (thrtab s) = 16%nat ∧ thrtab s !! 0%nat = Some (Some (main_thread s)) ∧
  (∀ i t, thrtab s !! i = Some (Some t) → (∃ th, threads s !! t = Some th ∧ tid th = Z.of_nat i) ∧ rtc (child_of s) t (main_thread s)) ∧
  (∃ i, running_thread s = Done i ∧ thrtab_get i s = Done (Some (CURTHR s))) ∧
  (∀ t th, threads s !! t = Some th → tstate th = THREAD_READY → thrtab s !! Z.to_nat (tid th) = Some (Some t)).
Proof.
  intros Hreach. assert (Hinv : tree_inv s).
  { induction Hreach; [by eapply init_inv|by eapply op_inv|by eapply spawn_inv|by eapply join_inv|by eapply join_any_inv|].
    unfold thread_join_any_resume in H. apply bind_Done in H as ([j|cnt] & _ & Hj); [|done]. apply bind_Done in Hj as (s1 & Hr & [= _ <-]). by eapply recycle_inv. }
  destruct Hinv as (a & Hrep & Hrun & Hl & Htr).
  assert (Hslot : ∀ i t, thrtab s !! i = Some (Some t) → ∃ th, threads s !! t = Some th ∧ tid th = Z.of_nat i).
  { intros i t Hi. destruct (tree_slot s i t Htr Hi) as [q Hq]. unfold ident in Hq. destruct (threads s !! t) as [th|]; [|done]. injection Hq as Hq _. eauto. }
  assert (Hown : ∀ t th, listed a t → threads s !! t = Some th → thrtab s !! Z.to_nat (tid th) = Some (Some t) ∧ 0 ≤ tid th < NTHR).
  { intros t th Ht Hth. apply Hl, in_table_lookup in Ht as [i Hi]. destruct (Hslot i t Hi) as (th' & Hth' & Hid). rewrite Hth in Hth'. injection Hth' as <-.
    rewrite Hid, Nat2Z.id. split; [done|]. apply lookup_lt_Some in Hi. rewrite (tt_length _ Htr) in Hi. unfold NTHR. lia. }
  split; [apply Htr|]. split; [apply (tt_main _ Htr)|]. split; [|split].
  - intros i t Hi. split; [by apply Hslot|]. apply tree_root; [done|]. apply in_table_lookup. eauto.
  - destruct Hrun as (w & p & q & Hv). destruct (views_Some _ _ _ _ _ _ Hv) as (th & Hth & _). exists (tid th).
    split; [unfold running_thread; by rewrite (get_thr_eq _ _ _ Hth)|]. destruct (Hown (CURTHR s) th) as [Ho Hb]; [left; apply (sr_cur _ _ Hrep)|done|].
    rewrite thrtab_get_eq, Ho by done. done.
  - intros t th Hth Hst. apply Hown; [|done]. right. left. apply (sr_ready _ _ Hrep _ _ _ _ _ (views_thread _ _ _ Hth)). done.
Qed.

(** ** Witness *)

(** The main thread spawns a thread and joins it: it waits, the idle thread yields to
    the new one, which exits, and after the idle thread has yielded again the main
    thread recycles it. *)
Definition tree_heap : heap mem := Heap true 0x80200000 0x80201000 (Mem ∅ 0x80300000 0 0 true).
Definition tree_boot : outcome sched := thread_init stacks_example 0x80004000 0x80004100 (boot_sched 0x80005000 0x80005100 tree_heap).
Definition tree_spawned : outcome sched := s ← tree_boot; '(_, s) ← thread_spawn "worker" 0x80004200 7 0x80004100 s; Done s.
Definition tree_joining : outcome sched := s ← tree_spawned; r ← thread_join 1 s; Done (after r).
Definition tree_worker : outcome sched := s ← tree_joining; run_op OpYield s.
Definition tree_exited : outcome sched := s ← tree_worker; run_op OpExit s.
Definition tree_resumed : outcome sched := s ← tree_exited; run_op OpYield s.
Definition tree_joined : outcome sched := s ← tree_resumed; r ← thread_join 1 s; Done (after r).

Definition run_tid (o : outcome sched) : option Z := match o with Done s => match running_thread s with Done i => Some i | _ => None end | _ => None end.
Example tree_runs : run_tid <$> [tree_boot; tree_spawned; tree_joining; tree_worker; tree_exited; tree_resumed; tree_joined] =
  [Some 0; Some 0; Some 15; Some 1; Some 15; Some 0; Some 0].
Proof. vm_compute. reflexivity. Qed.

Definition holds (f : sched → bool) (o : outcome sched) : bool := match o with Done s => f s | _ => false end.
Lemma holds_Done f o s : holds f o = true → o = Done s → f s = true.
Proof. by intros Hf ->. Qed.

Definition not_idle (s : sched) : bool := negb (CURTHR s =? idle_thread s).
Definition may_yield (s : sched) : bool := negb (tlempty READY_LIST s).
Definition may_exit (s : sched) : bool :=
  not_idle s && negb (CURTHR s =? main_thread s) && match threads s !! CURTHR s with Some th => negb (is_null (parent th)) | None => false end.
Definition new_block (s : sched) : bool :=
  match kmalloc sizeof_thread (kheap s) with Done (c, _) => is_null (threads s !! c) | _ => false end.

(** What the steps rely on holds. *)
Lemma tree_steps : holds new_block tree_boot && holds not_idle tree_spawned && holds may_yield tree_joining && holds may_exit tree_worker &&
  holds may_yield tree_exited && holds not_idle tree_resumed = true.
Proof. vm_compute. reflexivity. Qed.

Lemma not_idle_spec s : not_idle s = true → CURTHR s ≠ idle_thread s.
Proof. intros Hn%negb_true_iff. by apply Z.eqb_neq. Qed.

Lemma tree_joined_reach s : tree_joined = Done s → thread_reach s.
Proof.
  pose proof tree_steps as H. rewrite !andb_true_iff in H. destruct H as [[[[[C0 C1] C2] C3] C4] C5]. intros Hs.
  apply bind_Done in Hs as (s5 & H5 & Hs). apply bind_Done in Hs as (r6 & H6 & [= <-]). pose proof (not_idle_spec _ (holds_Done _ _ _ C5 H5)) as D5.
  apply bind_Done in H5 as (s4 & H4 & H5). pose proof (proj1 (negb_true_iff _) (holds_Done _ _ _ C4 H4)) as D4.
  apply bind_Done in H4 as (s3 & H3 & H4). pose proof (holds_Done _ _ _ C3 H3) as D3. apply andb_true_iff in D3 as [[D3 D3']%andb_true_iff D3''].
  apply bind_Done in H3 as (s2 & H2 & H3). pose proof (proj1 (negb_true_iff _) (holds_Done _ _ _ C2 H2)) as D2.
  apply bind_Done in H2 as (s1 & H1 & H2). apply bind_Done in H2 as (r2 & H2 & [= <-]). pose proof (not_idle_spec _ (holds_Done _ _ _ C1 H1)) as D1.
  apply bind_Done in H1 as (s0 & H0 & H1). apply bind_Done in H1 as ([i s1'] & Hsp & [= ->]). pose proof (holds_Done _ _ _ C0 H0) as D0.
  eapply th_join; [|exact D5|exact H6]. eapply (th_op OpYield); [|exact D4|exact H5]. eapply (th_op OpExit); [| |exact H4].
  - eapply (th_op OpYield); [|exact D2|exact H3]. eapply th_join; [|exact D1|exact H2].
    unfold new_block in D0. destruct (kmalloc sizeof_thread (kheap s0)) as [[c h]| | |] eqn:Hk; [|discriminate D0..].
    eapply th_spawn; [eapply th_init; [|exact H0]; discriminate|exact Hk| |exact Hsp]. destruct (threads s0 !! c); [discriminate D0|reflexivity].
  - split; [apply not_idle_spec, D3|]. split; [apply Z.eqb_neq, negb_true_iff, D3'|]. destruct (threads s3 !! CURTHR s3) as [th|]; [|discriminate D3''].
    exists th. destruct (parent th) as [p|] eqn:Hp; [|discriminate D3'']. exists p. split; reflexivity || exact Hp.
Qed.

Definition slot_free (s : sched) : bool := match thrtab s !! 1%nat with Some None => true | _ => false end.

Lemma thread_table_typed_witness :
  ∃ s, tree_joined = Done s ∧ thrtab s !! 1%nat = Some None ∧ thrtab_get 0 s = Done (Some (CURTHR s)).
Proof.
  assert (Hd : holds slot_free tree_joined = true) by (vm_compute; reflexivity).
  assert (Ht : run_tid tree_joined = Some 0) by (vm_compute; reflexivity).
  destruct tree_joined as [s| | |] eqn:Hs; [|discriminate Hd..].
  destruct (thread_table_typed s (tree_joined_reach s Hs)) as (_ & _ & _ & (i & Hi & Hget) & _).
  exists s. split; [reflexivity|]. cbn [run_tid] in Ht. rewrite Hi in Ht. injection Ht as ->. split; [|exact Hget].
  cbn [holds] in Hd. unfold slot_free in Hd. destruct (thrtab s !! 1%nat) as [[t|]|]; [discriminate Hd|reflexivity|discriminate Hd].
Defined.
