(* ===== verification/Io.v ===== *)
(** Abstract I/O objects (src/src/kern/io.c, io.h, error.h).

    An I/O object is a state with the operations of [struct io_ops]; an operation
    that is NULL is [None].  A read returns its count and the bytes it stored at
    the start of the buffer; a control call takes and returns the 64-bit value its
    argument points to. *)
From Stdlib Require Import ZArith Lia.
From stdpp Require Import base list strings.
From S2P Require Import Prelude CString.

Open Scope Z_scope.

(** ** error.h and io.h *)

Definition EINVAL : Z := 1.
Definition EBUSY : Z := 2.
Definition ENOTSUP : Z := 3.
Definition ENODEV : Z := 4.
Definition EIO : Z := 5.
Definition EBADFMT : Z := 6.
Definition ENOENT : Z := 7.
Definition EACCESS : Z := 8.
Definition EBADFD : Z := 9.
Definition EMFILE : Z := 10.

Definition IOCTL_GETLEN : Z := 1.
Definition IOCTL_SETLEN : Z := 2.
Definition IOCTL_GETPOS : Z := 3.
Definition IOCTL_SETPOS : Z := 4.
Definition IOCTL_FLUSH : Z := 5.
Definition IOCTL_GETBLKSZ : Z := 6.

Class IoOps (σ : Type) : Type := {
  op_close : option (σ → outcome σ);
  op_read : option (Z → σ → outcome (Z * list Z * σ));
  op_write : option (list Z → σ → outcome (Z * σ));
  op_ctl : option (Z → Z → σ → outcome (Z * Z * σ))
}.

Definition CR : Z := 13.
Definition NL : Z := 10.

Section Io.
Context {σ : Type} `{IoOps σ}.

(** The reference count is 32 bits wide; the object's close is called when it
    drops to zero, and must not be NULL. *)
Definition ioref (refcnt : Z) : Z := u32 (refcnt + 1).
Definition ioclose (refcnt : Z) (s : σ) : outcome (Z * σ) :=
  let refcnt := u32 (refcnt - 1) in
  if refcnt =? 0 then f ← deref op_close; s ← f s; Done (refcnt, s)
  else Done (refcnt, s).

Definition ioread (bufsz : Z) (s : σ) : outcome (Z * list Z * σ) :=
  match op_read with
  | Some f => f bufsz s
  | None => Done (- ENOTSUP, [], s)
  end.

Definition ioctl (cmd arg : Z) (s : σ) : outcome (Z * Z * σ) :=
  match op_ctl with
  | Some f => f cmd arg s
  | None => Done (- ENOTSUP, arg, s)
  end.

Definition ioseek (pos : Z) (s : σ) : outcome (Z * σ) :=
  '(r, _, s) ← ioctl IOCTL_SETPOS pos s;
  Done (r, s).

(** The loop of [ioread_full]; [got] is what the buffer holds so far. *)
Fixpoint ioread_full_loop (fuel : nat) (f : Z → σ → outcome (Z * list Z * σ)) (bufsz acc : Z)
    (got : list Z) (s : σ) : outcome (Z * list Z * σ) :=
  if acc <? bufsz then
    match fuel with
    | O => OutOfFuel
    | S k =>
        '(cnt, data, s) ← f (bufsz - acc) s;
        if cnt <? 0 then Done (cnt, got, s) else
        if cnt =? 0 then Done (acc, got, s) else
        ioread_full_loop k f bufsz (acc + cnt) (got ++ data) s
    end
  else Done (acc, got, s).

(** Every round but the last reads at least one byte. *)
Definition ioread_full (bufsz : Z) (s : σ) : outcome (Z * list Z * σ) :=
  match op_read with
  | None => Done (- ENOTSUP, [], s)
  | Some f => ioread_full_loop (S (Z.to_nat bufsz)) f bufsz 0 [] s
  end.

(** The loop of [iowrite]: [buf] is what is left of the buffer. *)
Fixpoint iowrite_loop (fuel : nat) (f : list Z → σ → outcome (Z * σ)) (buf : list Z) (acc : Z) (s : σ)
    : outcome (Z * σ) :=
  match buf with
  | [] => Done (acc, s)
  | _ =>
      match fuel with
      | O => OutOfFuel
      | S k =>
          '(cnt, s) ← f buf s;
          if cnt <? 0 then Done (cnt, s) else
          if cnt =? 0 then Done (acc, s) else
          iowrite_loop k f (drop (Z.to_nat cnt) buf) (acc + cnt) s
      end
  end.

Definition iowrite (buf : list Z) (s : σ) : outcome (Z * σ) :=
  match op_write with
  | None => Done (- ENOTSUP, s)
  | Some f => iowrite_loop (length buf) f buf 0 s
  end.

Definition ioputc (c : Z) (s : σ) : outcome (Z * σ) :=
  '(wlen, s) ← iowrite [c] s;
  if wlen <? 0 then Done (wlen, s) else
  if wlen =? 0 then Done (- EIO, s) else
  Done (u8 c, s).

Definition iogetc (s : σ) : outcome (Z * σ) :=
  '(rlen, data, s) ← ioread 1 s;
  if rlen <? 0 then Done (rlen, s) else
  if rlen =? 0 then Done (- EIO, s) else
  c ← deref (head data);
  Done (u8 c, s).

Definition ioputs (str : list Z) (s : σ) : outcome (Z * σ) :=
  slen ← strlen str;
  '(wlen, s) ← iowrite (take (Z.to_nat slen) str) s;
  if wlen <? 0 then Done (wlen, s) else
  '(wlen, s) ← iowrite [NL] s;
  if wlen <? 0 then Done (wlen, s) else
  Done (0, s).

(** [struct iovprintf_state] is the object and the first error. *)
Definition iovprintf_putc (c : Z) (st : σ * Z) : outcome (σ * Z) :=
  let '(s, err) := st in
  if err =? 0 then
    '(result, s) ← ioputc c s;
    if result <? 0 then Done (s, result) else Done (s, err)
  else Done (s, err).

Definition iovprintf (fmt : list Z) (args : list va) (s : σ) : outcome (Z * σ) :=
  '(nout, (s, err)) ← vgprintf iovprintf_putc fmt args (s, 0);
  Done (if err =? 0 then s64 nout else err, s).
Definition ioprintf (fmt : list Z) (args : list va) (s : σ) : outcome (Z * σ) := iovprintf fmt args s.
End Io.

(** ** I/O literals: a block of memory as a file *)

(** [lit_open] is false once [iolit_close] has set the operations to NULL. *)
Record io_lit : Type := IoLit { lit_buf : list Z; lit_size : Z; lit_pos : Z; lit_open : bool }.

Definition iolit_init (buf : list Z) (size : Z) : io_lit := IoLit buf size 0 true.

(** The length that [iolit_read] and [iolit_write] move. *)
Definition iolit_len (l : io_lit) (len : Z) : Z :=
  if lit_size l <=? u64 (lit_pos l + len) then u64 (lit_size l - lit_pos l) else len.

Definition iolit_read (len : Z) (l : io_lit) : outcome (Z * list Z * io_lit) :=
  if lit_size l <? lit_pos l then Done (- EIO, [], l) else
  let len := iolit_len l len in
  data ← memcpy (replicate (Z.to_nat len) 0) (drop (Z.to_nat (lit_pos l)) (lit_buf l)) len;
  Done (s64 len, data, IoLit (lit_buf l) (lit_size l) (u64 (lit_pos l + len)) (lit_open l)).

Definition iolit_write (data : list Z) (l : io_lit) : outcome (Z * io_lit) :=
  if lit_size l <? lit_pos l then Done (- EIO, l) else
  let len := iolit_len l (Z.of_nat (length data)) in
  rest ← memcpy (drop (Z.to_nat (lit_pos l)) (lit_buf l)) data len;
  Done (s64 len,
        IoLit (take (Z.to_nat (lit_pos l)) (lit_buf l) ++ rest) (lit_size l) (u64 (lit_pos l + len)) (lit_open l)).

Definition iolit_close (l : io_lit) : outcome io_lit := Done (IoLit [] 0 0 false).

Definition iolit_ctl (cmd arg : Z) (l : io_lit) : outcome (Z * Z * io_lit) :=
  if cmd =? IOCTL_GETLEN then Done (s32 (lit_size l), lit_size l, l) else
  if cmd =? IOCTL_GETPOS then Done (s32 (lit_pos l), lit_pos l, l) else
  if cmd =? IOCTL_SETPOS then
    if lit_size l <? arg then Done (- EIO, arg, l)
    else Done (0, arg, IoLit (lit_buf l) (lit_size l) arg (lit_open l))
  else
  if cmd =? IOCTL_GETBLKSZ then Done (s32 (lit_size l), lit_size l, l) else
  Done (- EINVAL, arg, l).

#[export] Instance iolit_ops : IoOps io_lit := {
  op_close := Some iolit_close;
  op_read := Some iolit_read;
  op_write := Some iolit_write;
  op_ctl := Some iolit_ctl
}.

(** ** The terminal: line endings and line editing *)

(** The raw object is kept with its reference count. *)
Record io_term (σ : Type) : Type := IoTerm { rawio : σ; rawref : Z; cr_out : bool; cr_in : bool }.
Arguments IoTerm {σ}.
Arguments rawio {σ}.
Arguments rawref {σ}.
Arguments cr_out {σ}.
Arguments cr_in {σ}.

Section Term.
Context {σ : Type} `{IoOps σ}.

Definition ioterm_init (raw : σ) (refcnt : Z) : io_term σ := IoTerm raw refcnt false false.

Definition ioterm_close (t : io_term σ) : outcome (io_term σ) :=
  '(refcnt, raw) ← ioclose (rawref t) (rawio t);
  Done (IoTerm raw refcnt (cr_out t) (cr_in t)).

(** The scan of [ioterm_read] over the bytes just read: the flag and the bytes
    that stay in the buffer. *)
Fixpoint fix_input (cr : bool) (bs : list Z) : bool * list Z :=
  match bs with
  | [] => (cr, [])
  | ch :: bs =>
      if cr then
        if ch =? CR then let '(c, out) := fix_input true bs in (c, NL :: out) else
        if ch =? NL then fix_input false bs else
        let '(c, out) := fix_input false bs in (c, ch :: out)
      else
        if ch =? CR then let '(c, out) := fix_input true bs in (c, NL :: out) else
        let '(c, out) := fix_input false bs in (c, ch :: out)
  end.

(** The outer loop reads again while no byte is left in the buffer. *)
Fixpoint ioterm_read (fuel : nat) (len : Z) (t : io_term σ) : outcome (Z * list Z * io_term σ) :=
  match fuel with
  | O => OutOfFuel
  | S k =>
      '(cnt, data, raw) ← ioread len (rawio t);
      if cnt <? 0 then Done (cnt, [], IoTerm raw (rawref t) (cr_out t) (cr_in t)) else
      let '(cr, out) := fix_input (cr_in t) (take (Z.to_nat cnt) data) in
      let t := IoTerm raw (rawref t) (cr_out t) cr in
      match out with
      | [] => ioterm_read k len t
      | _ => Done (Z.of_nat (length out), out, t)
      end
  end.

(** Write out [pending]; the count, and what is not written yet. *)
Definition flush (pending : list Z) (t : io_term σ) : outcome (Z * list Z * io_term σ) :=
  '(cnt, raw) ← iowrite pending (rawio t);
  Done (cnt, drop (Z.to_nat cnt) pending, IoTerm raw (rawref t) (cr_out t) (cr_in t)).

Definition raw_putc (c : Z) (t : io_term σ) : outcome (Z * io_term σ) :=
  '(cnt, raw) ← ioputc c (rawio t);
  Done (cnt, IoTerm raw (rawref t) (cr_out t) (cr_in t)).

Definition set_cr_out (b : bool) (t : io_term σ) : io_term σ := IoTerm (rawio t) (rawref t) b (cr_in t).

(** The loop of [ioterm_write]: [pending] is the buffer from wp to rp, [rest] from
    rp on. *)
Fixpoint ioterm_write_loop (pending rest : list Z) (acc : Z) (t : io_term σ) : outcome (Z * io_term σ) :=
  match rest with
  | [] =>
      match pending with
      | [] => Done (acc, t)
      | _ =>
          '(cnt, _, t) ← flush pending t;
          if cnt <? 0 then Done (cnt, t) else
          if cnt =? 0 then Done (acc, t) else
          Done (acc + cnt, t)
      end
  | ch :: rest' =>
      if ch =? CR then
        (* \r at the end of the buffer or before another character *)
        let lone (k : list Z → Z → io_term σ → outcome (Z * io_term σ)) :=
          '(cnt, pending, t) ← flush (pending ++ [ch]) t;
          if cnt <? 0 then Done (cnt, t) else
          if cnt =? 0 then Done (acc, t) else
          '(r, t) ← raw_putc NL t;
          if r <? 0 then Done (r, t) else
          k pending (acc + cnt) (set_cr_out true t) in
        match rest' with
        | [] => lone (λ pending acc t, ioterm_write_loop pending rest' acc t)
        | c2 :: rest'' =>
            if c2 =? NL then ioterm_write_loop (pending ++ [ch; c2]) rest'' acc (set_cr_out false t)
            else lone (λ pending acc t, ioterm_write_loop pending rest' acc t)
        end
      else if ch =? NL then
        if cr_out t then ioterm_write_loop (drop 1 (pending ++ [ch])) rest' acc (set_cr_out false t)
        else
          let newline (pending : list Z) (acc : Z) (t : io_term σ) :=
            '(r, t) ← raw_putc CR t;
            if r <? 0 then Done (r, t) else
            ioterm_write_loop (pending ++ [ch]) rest' acc (set_cr_out false t) in
          match pending with
          | [] => newline [] acc t
          | _ =>
              '(cnt, pending, t) ← flush pending t;
              if cnt <? 0 then Done (cnt, t) else
              if cnt =? 0 then Done (acc, t) else
              newline pending (acc + cnt) t
          end
      else ioterm_write_loop (pending ++ [ch]) rest' acc (set_cr_out false t)
  end.

Definition ioterm_write (buf : list Z) (t : io_term σ) : outcome (Z * io_term σ) :=
  ioterm_write_loop [] buf 0 t.

Definition ioterm_ioctl (cmd arg : Z) (t : io_term σ) : outcome (Z * Z * io_term σ) :=
  if negb (cmd =? IOCTL_SETPOS) then
    '(r, arg, raw) ← ioctl cmd arg (rawio t);
    Done (r, arg, IoTerm raw (rawref t) (cr_out t) (cr_in t))
  else Done (- ENOTSUP, arg, t).
End Term.

(** The terminal as an I/O object; [fuel] bounds the rounds of a read. *)
Definition ioterm_ops {σ} `{IoOps σ} (fuel : nat) : IoOps (io_term σ) := {|
  op_close := Some ioterm_close;
  op_read := Some (ioterm_read fuel);
  op_write := Some ioterm_write;
  op_ctl := Some ioterm_ioctl
|}.

Section Getsn.
Context {σ : Type} `{IoOps σ}.

(** [ioterm_getsn]: [line] is the text before p, [n] the room that is left.  The
    result is the line with its NUL, or NULL.  The character is the low byte of
    what [iogetc] returned. *)
Fixpoint ioterm_getsn (fuel rfuel : nat) (line : list Z) (n : Z) (t : io_term σ)
    : outcome (option (list Z) * io_term σ) :=
  match fuel with
  | O => OutOfFuel
  | S k =>
      '(r, t) ← @iogetc _ (ioterm_ops rfuel) t;
      let c := u8 r in
      if c =? 91 then ioterm_getsn k rfuel line n (IoTerm (rawio t) (rawref t) (cr_out t) false) else
      if (c =? CR) || (c =? NL) then
        '(r, t) ← raw_putc CR t;
        if r <? 0 then Done (None, t) else
        '(r, t) ← raw_putc NL t;
        if r <? 0 then Done (None, t) else
        Done (Some (line ++ [0]), t)
      else if (c =? 8) || (c =? 127) then
        match line with
        | _ :: _ =>
            '(r, t) ← raw_putc 8 t;
            if r <? 0 then Done (None, t) else
            '(r, t) ← raw_putc 32 t;
            if r <? 0 then Done (None, t) else
            '(r, t) ← raw_putc 8 t;
            if r <? 0 then Done (None, t) else
            ioterm_getsn k rfuel (take (length line - 1) line) (n + 1) t
        | [] =>
            '(r, t) ← raw_putc 7 t;
            if r <? 0 then Done (None, t) else
            ioterm_getsn k rfuel line n t
        end
      else
        if 1 <? n then
          '(r, t) ← raw_putc c t;
          if r <? 0 then Done (None, t) else
          ioterm_getsn k rfuel (line ++ [c]) (n - 1) t
        else
          '(r, t) ← raw_putc 7 t;
          if r <? 0 then Done (None, t) else
          ioterm_getsn k rfuel line n t
  end.
End Getsn.
