(* ===== verification/IoSpec.v ===== *)
(** What the I/O layer promises and what it delivers.

    [IoSource] and [IoSink] are the contracts of an object that delivers a stream
    of bytes and of one that collects bytes, each possibly in pieces; the
    functions of io.c are proved against them, and I/O literals implement the
    first. *)
From Stdlib Require Import ZArith Lia.
From stdpp Require Import base list strings.
From S2P Require Import Prelude CString Io.

Open Scope Z_scope.

(** [source s] is what is still to be read from a usable object: a read for at
    least one byte returns a non-empty prefix of it, or 0 at its end. *)
Class IoSource (σ : Type) `{IoOps σ} : Type := {
  source : σ → list Z;
  source_ok : σ → Prop;
  source_read : Z → σ → outcome (Z * list Z * σ);
  source_op : op_read = Some source_read;
  source_law : ∀ n s, source_ok s → 0 < n < 2 ^ 63 →
    ∃ k s', source_ok s' ∧ source_read n s = Done (Z.of_nat k, take k (source s), s') ∧
      source s' = drop k (source s) ∧ (k ≤ length (source s))%nat ∧ Z.of_nat k ≤ n ∧
      (source s ≠ [] → (1 ≤ k)%nat)
}.

(** [sink s] is what has been written: a write appends a non-empty prefix of its
    data. *)
Class IoSink (σ : Type) `{IoOps σ} : Type := {
  sink : σ → list Z;
  sink_write : list Z → σ → outcome (Z * σ);
  sink_op : op_write = Some sink_write;
  sink_law : ∀ data s, data ≠ [] →
    ∃ k s', sink_write data s = Done (Z.of_nat k, s') ∧ sink s' = sink s ++ take k data ∧
      (1 ≤ k ≤ length data)%nat
}.

Section Source.
Context {σ : Type} `{IoSource σ}.

Lemma ioread_full_loop_spec bufsz : ∀ fuel acc got s,
  0 ≤ acc ≤ bufsz → bufsz - acc < Z.of_nat fuel → bufsz < 2 ^ 63 → source_ok s →
  ∃ s', ioread_full_loop fuel source_read bufsz acc got s =
      Done (acc + Z.min (bufsz - acc) (Z.of_nat (length (source s))),
            got ++ take (Z.to_nat (bufsz - acc)) (source s), s') ∧
    source s' = drop (Z.to_nat (bufsz - acc)) (source s).
Proof.
  induction fuel as [|fuel IH]; intros acc got s Ha Hf Hb Hok; [lia|]. cbn [ioread_full_loop].
  destruct (Z.ltb_spec acc bufsz) as [Hlt|Hge].
  2:{ exists s. replace (bufsz - acc) with 0 by lia. change (Z.to_nat 0) with 0%nat. cbn [take].
      rewrite drop_0, app_nil_r. split; [|done]. repeat f_equal. lia. }
  destruct (source_law (bufsz - acc) s Hok ltac:(lia)) as (k & s' & Hok' & Hr & Hs' & Hkl & Hkn & Hk1).
  rewrite Hr. cbn [mbind outcome_bind]. destruct (Z.ltb_spec (Z.of_nat k) 0); [lia|].
  destruct (Z.eqb_spec (Z.of_nat k) 0) as [Hk0|Hk0].
  - assert (Hnil : source s = []).
    { destruct (source s) eqn:He; [done|]. specialize (Hk1 ltac:(done)). lia. }
    exists s'. rewrite Hs', Hnil, take_nil, drop_nil, app_nil_r. split; [|by rewrite drop_nil].
    repeat f_equal. cbn. lia.
  - destruct (IH (acc + Z.of_nat k) (got ++ take k (source s)) s') as (s2 & H2 & Hs2).
    { lia. } { lia. } { lia. } { done. }
    exists s2. rewrite H2, Hs2, Hs', length_drop, drop_drop. split; [|f_equal; lia].
    assert (Hacc : acc + Z.of_nat k + Z.min (bufsz - (acc + Z.of_nat k)) (Z.of_nat (length (source s) - k)) =
      acc + Z.min (bufsz - acc) (Z.of_nat (length (source s)))) by lia.
    rewrite Hacc, <- app_assoc.
    replace (Z.to_nat (bufsz - acc)) with (k + Z.to_nat (bufsz - (acc + Z.of_nat k)))%nat by lia.
    by rewrite <- take_take_drop.
Qed.

(** [ioread_full] on any object that delivers a stream returns, whatever the
    sizes of the pieces it is read in, the first [bufsz] bytes of the stream, or
    all of it when it is shorter, and leaves the rest. *)
Theorem ioread_full_spec bufsz s :
  0 ≤ bufsz < 2 ^ 63 → source_ok s →
  ∃ s', ioread_full bufsz s =
      Done (Z.min bufsz (Z.of_nat (length (source s))), take (Z.to_nat bufsz) (source s), s') ∧
    source s' = drop (Z.to_nat bufsz) (source s).
Proof.
  intros Hb Hok. unfold ioread_full. rewrite source_op.
  destruct (ioread_full_loop_spec bufsz (S (Z.to_nat bufsz)) 0 [] s) as (s' & Hr & Hs'); [lia|lia|lia|done|].
  rewrite Z.sub_0_r in *. exists s'. rewrite Hr. split; [|done]. repeat f_equal.
Qed.

(** At the end of the input [ioterm_read] never returns: every round reads
    zero bytes, and the loop goes on while no byte is in the buffer. *)
Theorem ioterm_read_spins_at_eof fuel len (t : io_term σ) :
  0 < len < 2 ^ 63 → source_ok (rawio t) → source (rawio t) = [] → ioterm_read fuel len t = OutOfFuel.
Proof.
  intros Hlen. revert t. induction fuel as [|fuel IH]; intros t Hok He; [done|]. cbn [ioterm_read].
  unfold ioread. rewrite source_op.
  destruct (source_law len (rawio t) Hok Hlen) as (k & s' & Hok' & Hr & Hs' & Hk & _).
  rewrite Hr, He in *. cbn in Hk. assert (k = 0%nat) as -> by lia. cbn [mbind outcome_bind take fix_input].
  change (Z.of_nat 0 <? 0) with false. cbv iota. apply IH; cbn; [done|]. by rewrite Hs'.
Qed.
End Source.

Section Sink.
Context {σ : Type} `{IoSink σ}.

Lemma iowrite_loop_spec : ∀ fuel buf acc s,
  (length buf ≤ fuel)%nat →
  ∃ s', iowrite_loop fuel sink_write buf acc s = Done (acc + Z.of_nat (length buf), s') ∧
    sink s' = sink s ++ buf.
Proof.
  induction fuel as [|fuel IH]; intros buf acc s Hf.
  { destruct buf; [|cbn in Hf; lia]. exists s. cbn. rewrite app_nil_r, Z.add_0_r. done. }
  destruct buf as [|c buf]; [exists s; cbn; rewrite app_nil_r, Z.add_0_r; done|].
  set (b := c :: buf) in *. destruct (sink_law b s ltac:(done)) as (k & s1 & Hw & Hs1 & Hk).
  change (iowrite_loop (S fuel) sink_write b acc s) with
    ('(cnt, s) ← sink_write b s;
     if cnt <? 0 then Done (cnt, s) else if cnt =? 0 then Done (acc, s) else
     iowrite_loop fuel sink_write (drop (Z.to_nat cnt) b) (acc + cnt) s).
  rewrite Hw. cbn [mbind outcome_bind]. destruct (Z.ltb_spec (Z.of_nat k) 0); [lia|].
  destruct (Z.eqb_spec (Z.of_nat k) 0); [lia|]. rewrite Nat2Z.id.
  destruct (IH (drop k b) (acc + Z.of_nat k) s1) as (s2 & H2 & Hs2); [rewrite length_drop; lia|].
  exists s2. rewrite H2, Hs2, Hs1, length_drop, <- app_assoc, take_drop. split; [|done].
  by replace (acc + Z.of_nat k + Z.of_nat (length b - k)) with (acc + Z.of_nat (length b)) by lia.
Qed.

Lemma iowrite_spec buf s :
  ∃ s', iowrite buf s = Done (Z.of_nat (length buf), s') ∧ sink s' = sink s ++ buf.
Proof. unfold iowrite. rewrite sink_op. by apply (iowrite_loop_spec (length buf) buf 0). Qed.

Lemma ioputc_spec c s : ∃ s', ioputc c s = Done (u8 c, s') ∧ sink s' = sink s ++ [c].
Proof. unfold ioputc. destruct (iowrite_spec [c] s) as (s' & -> & Hs). cbn. eauto. Qed.

(** ** ioterm_write against the automaton of the comment in io.c *)

(** One bit of state, [cr]: the last character written was a carriage return. *)
Fixpoint norm_out (cr : bool) (bs : list Z) : bool * list Z :=
  match bs with
  | [] => (cr, [])
  | ch :: bs =>
      if ch =? CR then let '(c, out) := norm_out true bs in (c, CR :: NL :: out) else
      if ch =? NL then
        if cr then norm_out false bs
        else let '(c, out) := norm_out false bs in (c, CR :: NL :: out)
      else let '(c, out) := norm_out false bs in (c, ch :: out)
  end.

(** What a sink holds after the loop: the pending bytes go out as they are. *)
Lemma flush_spec pending t :
  ∃ raw, flush pending t = Done (Z.of_nat (length pending), [], IoTerm raw (rawref t) (cr_out t) (cr_in t)) ∧
    sink raw = sink (rawio t) ++ pending.
Proof.
  unfold flush. destruct (iowrite_spec pending (rawio t)) as (raw & -> & Hs). cbn [mbind outcome_bind].
  exists raw. split; [|done]. rewrite Nat2Z.id, drop_all. done.
Qed.
Lemma raw_putc_spec c t :
  ∃ raw, raw_putc c t = Done (u8 c, IoTerm raw (rawref t) (cr_out t) (cr_in t)) ∧ sink raw = sink (rawio t) ++ [c].
Proof. unfold raw_putc. destruct (ioputc_spec c (rawio t)) as (raw & -> & Hs). cbn. eauto. Qed.

(** The skipped newline is not counted. *)
Definition skipped (cr : bool) (pending rest : list Z) : Z :=
  match pending, rest with
  | [], ch :: _ => if cr && (ch =? NL) then 1 else 0
  | _, _ => 0
  end.

Lemma write_loop_end pending acc t :
  ∃ t', ioterm_write_loop pending [] acc t = Done (acc + Z.of_nat (length pending), t') ∧
    sink (rawio t') = sink (rawio t) ++ pending ∧ cr_out t' = cr_out t ∧ cr_in t' = cr_in t.
Proof.
  cbn [ioterm_write_loop]. destruct pending as [|c p].
  { exists t. rewrite app_nil_r. cbn. by rewrite Z.add_0_r. }
  destruct (flush_spec (c :: p) t) as (raw & Hf & Hs). rewrite Hf. cbn [mbind outcome_bind].
  destruct (Z.ltb_spec (Z.of_nat (length (c :: p))) 0); [lia|].
  destruct (Z.eqb_spec (Z.of_nat (length (c :: p))) 0); [cbn in *; lia|]. by eexists.
Qed.

(** A lone carriage return: the pending bytes, the return and a newline go out. *)
Lemma write_lone_cr pending acc t (k : list Z → Z → io_term σ → outcome (Z * io_term σ)) :
  ∃ raw, ('(cnt, pending, t) ← flush (pending ++ [CR]) t;
      if cnt <? 0 then Done (cnt, t) else
      if cnt =? 0 then Done (acc, t) else
      '(r, t) ← raw_putc NL t;
      if r <? 0 then Done (r, t) else
      k pending (acc + cnt) (set_cr_out true t)) =
    k [] (acc + Z.of_nat (length pending) + 1) (IoTerm raw (rawref t) true (cr_in t)) ∧
    sink raw = sink (rawio t) ++ pending ++ [CR; NL].
Proof.
  destruct (flush_spec (pending ++ [CR]) t) as (raw & Hf & Hs). rewrite Hf. cbn [mbind outcome_bind].
  rewrite length_app. cbn [length].
  destruct (Z.ltb_spec (Z.of_nat (length pending + 1)) 0); [lia|].
  destruct (Z.eqb_spec (Z.of_nat (length pending + 1)) 0); [lia|].
  destruct (raw_putc_spec NL (IoTerm raw (rawref t) (cr_out t) (cr_in t))) as (raw2 & Hp & Hs2).
  rewrite Hp. cbn [mbind outcome_bind]. change (u8 NL <? 0) with false. cbv iota.
  exists raw2. split; [|by rewrite Hs2; cbn; rewrite Hs, <- !app_assoc].
  unfold set_cr_out. cbn [rawio rawref cr_in]. f_equal. lia.
Qed.

(** A newline that does not follow a return: the pending bytes and a return go
    out, the newline stays pending. *)
Lemma write_newline pending acc t (k : list Z → Z → io_term σ → outcome (Z * io_term σ)) :
  ∃ raw,
    (let newline (pending : list Z) (acc : Z) (t : io_term σ) :=
       '(r, t) ← raw_putc CR t;
       if r <? 0 then Done (r, t) else k pending acc (set_cr_out false t) in
     match pending with
     | [] => newline [] acc t
     | _ =>
         '(cnt, pending, t) ← flush pending t;
         if cnt <? 0 then Done (cnt, t) else
         if cnt =? 0 then Done (acc, t) else
         newline pending (acc + cnt) t
     end) = k [] (acc + Z.of_nat (length pending)) (IoTerm raw (rawref t) false (cr_in t)) ∧
    sink raw = sink (rawio t) ++ pending ++ [CR].
Proof.
  cbn zeta. destruct pending as [|c p].
  { destruct (raw_putc_spec CR t) as (raw & Hp & Hs). rewrite Hp. cbn [mbind outcome_bind].
    change (u8 CR <? 0) with false. cbv iota. exists raw. split; [|done].
    unfold set_cr_out. cbn [rawio rawref cr_in length]. f_equal. cbn. lia. }
  destruct (flush_spec (c :: p) t) as (raw & Hf & Hs). rewrite Hf. cbn [mbind outcome_bind].
  destruct (Z.ltb_spec (Z.of_nat (length (c :: p))) 0); [lia|].
  destruct (Z.eqb_spec (Z.of_nat (length (c :: p))) 0); [cbn in *; lia|].
  destruct (raw_putc_spec CR (IoTerm raw (rawref t) (cr_out t) (cr_in t))) as (raw2 & Hp & Hs2).
  rewrite Hp. cbn [mbind outcome_bind]. change (u8 CR <? 0) with false. cbv iota.
  exists raw2. split; [done|]. rewrite Hs2. cbn [rawio]. by rewrite Hs, <- app_assoc.
Qed.

Lemma ioterm_write_loop_spec n : ∀ rest pending acc t,
  (length rest < n)%nat → (cr_out t = true → pending = []) →
  ∃ t', ioterm_write_loop pending rest acc t =
      Done (acc + Z.of_nat (length pending + length rest) - skipped (cr_out t) pending rest, t') ∧
    sink (rawio t') = sink (rawio t) ++ pending ++ (norm_out (cr_out t) rest).2 ∧
    cr_out t' = (norm_out (cr_out t) rest).1 ∧ cr_in t' = cr_in t.
Proof.
  induction n as [|n IH]; intros rest pending acc t Hn Hcr; [lia|].
  destruct rest as [|ch rest].
  { destruct (write_loop_end pending acc t) as (t' & Hw & Hs & Hc & Hi). exists t'. rewrite Hw. cbn.
    rewrite app_nil_r. split_and!; [|done..]. f_equal. f_equal. destruct pending; cbn; lia. }
  cbn [length] in Hn. cbn [ioterm_write_loop norm_out].
  destruct (Z.eqb_spec ch CR) as [->|Hncr].
  - (* carriage return *)
    assert (Hskip : skipped (cr_out t) pending (CR :: rest) = 0) by (destruct pending, (cr_out t); done).
    rewrite Hskip. destruct rest as [|c2 rest].
    + destruct (write_lone_cr pending acc t (λ p a t, ioterm_write_loop p [] a t)) as (raw & Hl & Hs).
      rewrite Hl. destruct (write_loop_end [] (acc + Z.of_nat (length pending) + 1)
        (IoTerm raw (rawref t) true (cr_in t))) as (t' & Hw & Hs' & Hc & Hi).
      exists t'. rewrite Hw. cbn in Hs', Hc, Hi |- *. rewrite Hs', Hs, app_nil_r. split_and!; [|done..].
      f_equal. f_equal. lia.
    + destruct (Z.eqb_spec c2 NL) as [->|Hnl].
      * destruct (IH rest (pending ++ [CR; NL]) acc (set_cr_out false t)) as (t' & Hw & Hs & Hc & Hi);
          [cbn in Hn; lia|done|].
        exists t'. rewrite Hw. cbn [norm_out]. change (NL =? CR) with false. change (NL =? NL) with true. cbv iota.
        cbn [set_cr_out cr_out rawio cr_in] in *. destruct (norm_out false rest) as [c o] eqn:Ho. cbn in Hs, Hc |- *.
        rewrite Hs, <- app_assoc. split_and!; [|done..]. f_equal. f_equal. rewrite length_app. cbn.
        unfold skipped. destruct pending; cbn; lia.
      * destruct (write_lone_cr pending acc t (λ p a t, ioterm_write_loop p (c2 :: rest) a t)) as (raw & Hl & Hs).
        rewrite Hl. destruct (IH (c2 :: rest) [] (acc + Z.of_nat (length pending) + 1)
          (IoTerm raw (rawref t) true (cr_in t))) as (t' & Hw & Hs' & Hc & Hi); [cbn in *; lia|done|].
        exists t'. rewrite Hw. cbn [cr_out rawio cr_in] in *.
        destruct (norm_out true (c2 :: rest)) as [c o] eqn:Ho. cbn in Hs', Hc |- *.
        rewrite Hs', Hs, <- !app_assoc. split_and!; [|done..].
        f_equal. f_equal. destruct (Z.eqb_spec c2 NL); [done|]. cbn. lia.
  - destruct (Z.eqb_spec ch NL) as [->|Hnnl].
    + destruct (cr_out t) eqn:Hco.
      * rewrite (Hcr eq_refl). cbn [app drop].
        destruct (IH rest [] acc (set_cr_out false t)) as (t' & Hw & Hs & Hc & Hi); [lia|done|].
        exists t'. rewrite Hw. cbn [set_cr_out cr_out rawio cr_in] in *. split_and!; [|done..].
        f_equal. f_equal. cbn. change (NL =? NL) with true. destruct rest; cbn; lia.
      * destruct (write_newline pending acc t (λ p a t, ioterm_write_loop (p ++ [NL]) rest a t)) as (raw & Hl & Hs).
        cbn beta zeta in Hl |- *. rewrite Hl. destruct (IH rest ([] ++ [NL]) (acc + Z.of_nat (length pending))
          (IoTerm raw (rawref t) false (cr_in t))) as (t' & Hw & Hs' & Hc & Hi); [lia|done|].
        exists t'. rewrite Hw. cbn [cr_out rawio cr_in] in *.
        destruct (norm_out false rest) as [c o] eqn:Ho. cbn in Hs', Hc |- *.
        rewrite Hs', Hs, <- !app_assoc. split_and!; [|done..].
        f_equal. f_equal. destruct pending; cbn; lia.
    + destruct (IH rest (pending ++ [ch]) acc (set_cr_out false t)) as (t' & Hw & Hs & Hc & Hi); [lia|done|].
      exists t'. rewrite Hw. cbn [set_cr_out cr_out rawio cr_in] in *.
      destruct (norm_out false rest) as [c o] eqn:Ho. cbn in Hs, Hc |- *.
      rewrite Hs, <- app_assoc. split_and!; [|done..]. f_equal. f_equal. rewrite length_app. cbn.
      unfold skipped. destruct (Z.eqb_spec ch NL); [done|]. rewrite andb_false_r. destruct pending; cbn; lia.
Qed.

(** [ioterm_write] on any object that collects bytes writes exactly what the
    automaton of io.c's comment outputs (a lone \r or \n becomes \r\n, and
    \r\n stays, also across calls) and keeps its state bit; it returns the length
    of the buffer, but one less when it skips a leading newline. *)
Theorem ioterm_write_spec buf t :
  ∃ t', ioterm_write buf t =
      Done (Z.of_nat (length buf) - (if cr_out t && bool_decide (head buf = Some NL) then 1 else 0), t') ∧
    sink (rawio t') = sink (rawio t) ++ (norm_out (cr_out t) buf).2 ∧
    cr_out t' = (norm_out (cr_out t) buf).1 ∧ cr_in t' = cr_in t.
Proof.
  unfold ioterm_write.
  destruct (ioterm_write_loop_spec (S (length buf)) buf [] 0 t) as (t' & Hw & Hs & Hc & Hi); [lia|done|].
  exists t'. rewrite Hw. split_and!; [|done..]. f_equal. f_equal. unfold skipped. cbn.
  destruct buf as [|ch buf]; cbn.
  - rewrite bool_decide_eq_false_2 by done. by rewrite andb_false_r.
  - destruct (Z.eqb_spec ch NL) as [->|].
    + by rewrite bool_decide_eq_true_2.
    + by rewrite bool_decide_eq_false_2 by congruence.
Qed.

Lemma norm_out_last cr bs x : x ≠ CR → x ≠ NL → (norm_out cr (bs ++ [x])).1 = false.
Proof.
  intros Hr Hn. revert cr. induction bs as [|b bs IH]; intros cr; cbn [app norm_out].
  - destruct (Z.eqb_spec x CR); [done|]. by destruct (Z.eqb_spec x NL).
  - destruct (b =? CR); [|destruct (b =? NL); [destruct cr; [apply IH|]|]];
      [specialize (IH true)|specialize (IH false)|specialize (IH false)];
      by destruct (norm_out _ (bs ++ [x])).
Qed.

(** Because the skipped newline is not counted, [iowrite] to a terminal sends
    the last byte of such a buffer twice: after a carriage return, a buffer that
    starts with a newline and ends with an ordinary character is followed by a
    second copy of that character. *)
Theorem ioterm_iowrite_duplicates fuel bs x t :
  cr_out t = true → x ≠ CR → x ≠ NL →
  ∃ t', @iowrite _ (ioterm_ops fuel) (NL :: bs ++ [x]) t = Done (Z.of_nat (length bs + 2), t') ∧
    sink (rawio t') = sink (rawio t) ++ (norm_out false (bs ++ [x])).2 ++ [x].
Proof.
  intros Hco Hr Hn. unfold iowrite. cbn [op_write ioterm_ops]. set (buf := NL :: bs ++ [x]).
  assert (Hlen : length buf = S (S (length bs))) by (unfold buf; cbn; rewrite length_app; cbn; lia).
  rewrite Hlen.
  destruct (ioterm_write_loop_spec (S (length buf)) buf [] 0 t) as (t1 & Hw & Hs & Hc & Hi); [lia|done|].
  rewrite Hco in *. assert (Hsk : skipped true [] buf = 1) by done. rewrite Hsk in Hw.
  change (iowrite_loop (S (S (length bs))) ioterm_write buf 0 t) with
    ('(cnt, s) ← ioterm_write_loop [] buf 0 t;
     if cnt <? 0 then Done (cnt, s) else if cnt =? 0 then Done (0, s) else
     iowrite_loop (S (length bs)) ioterm_write (drop (Z.to_nat cnt) buf) (0 + cnt) s).
  rewrite Hw. cbn [mbind outcome_bind]. rewrite Hlen. cbn [length Nat.add].
  destruct (Z.ltb_spec (0 + Z.of_nat (S (S (length bs))) - 1) 0); [lia|].
  destruct (Z.eqb_spec (0 + Z.of_nat (S (S (length bs))) - 1) 0); [lia|].
  replace (Z.to_nat (0 + Z.of_nat (S (S (length bs))) - 1)) with (S (length bs)) by lia.
  assert (Hd : drop (S (length bs)) buf = [x]) by (unfold buf; cbn; by rewrite drop_app_length).
  rewrite Hd.
  assert (Hc1 : cr_out t1 = false) by (rewrite Hc; unfold buf; cbn; by apply norm_out_last).
  destruct (ioterm_write_loop_spec 2 [x] [] 0 t1) as (t2 & Hw2 & Hs2 & Hc2 & Hi2); [cbn; lia|done|].
  change (iowrite_loop (S (length bs)) ioterm_write [x] ?a t1) with
    ('(cnt, s) ← ioterm_write_loop [] [x] 0 t1;
     if cnt <? 0 then Done (cnt, s) else if cnt =? 0 then Done (a, s) else
     iowrite_loop (length bs) ioterm_write (drop (Z.to_nat cnt) [x]) (a + cnt) s).
  rewrite Hw2, Hc1. cbn [skipped andb mbind outcome_bind length Nat.add].
  change (0 + Z.of_nat 1 - 0) with 1. change (1 <? 0) with false. change (1 =? 0) with false. cbv iota.
  change (drop (Z.to_nat 1) [x]) with (@nil Z).
  exists t2. split.
  - destruct bs; cbn [iowrite_loop length]; f_equal; f_equal; lia.
  - rewrite Hs2, Hc1, Hs. cbn [app norm_out]. destruct (Z.eqb_spec x CR); [done|].
    destruct (Z.eqb_spec x NL); [done|]. cbn [snd]. rewrite <- app_assoc. f_equal.
Qed.
End Sink.

(** ** I/O literals *)

Definition lit_ok (l : io_lit) : Prop :=
  0 ≤ lit_pos l ≤ lit_size l ∧ lit_size l = Z.of_nat (length (lit_buf l)) ∧ lit_size l < 2 ^ 63.

Definition lit_rest (l : io_lit) : list Z := drop (Z.to_nat (lit_pos l)) (lit_buf l).

Lemma iolit_len_spec l len :
  lit_ok l → 0 ≤ len < 2 ^ 63 → iolit_len l len = Z.min len (lit_size l - lit_pos l).
Proof.
  intros (Hp & Hs & Hb) Hl. unfold iolit_len. rewrite u64_small by lia.
  destruct (Z.leb_spec (lit_size l) (lit_pos l + len)); [rewrite u64_small by lia|]; lia.
Qed.

Lemma iolit_read_spec n l :
  lit_ok l → 0 ≤ n < 2 ^ 63 →
  let k := Z.min n (lit_size l - lit_pos l) in
  iolit_read n l = Done (k, take (Z.to_nat k) (lit_rest l),
    IoLit (lit_buf l) (lit_size l) (lit_pos l + k) (lit_open l)).
Proof.
  intros Hok Hn k. pose proof Hok as (Hp & Hs & Hb). unfold iolit_read.
  destruct (Z.ltb_spec (lit_size l) (lit_pos l)); [lia|]. rewrite iolit_len_spec by done. fold k.
  assert (Hr : length (lit_rest l) = Z.to_nat (lit_size l - lit_pos l)).
  { unfold lit_rest. rewrite length_drop. lia. }
  fold (lit_rest l). rewrite memcpy_spec; [|rewrite length_replicate; lia|lia].
  cbn [mbind outcome_bind]. rewrite s64_small, u64_small by lia.
  rewrite drop_replicate, Nat.sub_diag. cbn [replicate]. by rewrite app_nil_r.
Qed.

#[export] Program Instance iolit_source : IoSource io_lit := {
  source := lit_rest;
  source_ok := lit_ok;
  source_read := iolit_read
}.
Next Obligation. done. Qed.
Next Obligation.
  intros n l Hok Hn. pose proof Hok as (Hp & Hs & Hb).
  set (k := Z.min n (lit_size l - lit_pos l)).
  assert (Hlen : length (lit_rest l) = Z.to_nat (lit_size l - lit_pos l)).
  { unfold lit_rest. rewrite length_drop. lia. }
  exists (Z.to_nat k), (IoLit (lit_buf l) (lit_size l) (lit_pos l + k) (lit_open l)).
  rewrite (iolit_read_spec n l Hok ltac:(lia)). fold k. rewrite Z2Nat.id by lia. split_and!; try done; try lia.
  - unfold lit_ok. cbn. lia.
  - unfold lit_rest. cbn. rewrite drop_drop. f_equal. lia.
  - intros Hne. destruct (lit_rest l) eqn:He; [done|]. cbn in Hlen. lia.
Qed.

Lemma iolit_write_spec l data :
  lit_ok l → Z.of_nat (length data) < 2 ^ 62 →
  let k := Z.min (Z.of_nat (length data)) (lit_size l - lit_pos l) in
  iolit_write data l = Done (k, IoLit (take (Z.to_nat (lit_pos l)) (lit_buf l) ++ take (Z.to_nat k) data ++
    drop (Z.to_nat (lit_pos l + k)) (lit_buf l)) (lit_size l) (lit_pos l + k) (lit_open l)).
Proof.
  intros Hok Hd k. pose proof Hok as (Hp & Hs & Hb). unfold iolit_write.
  destruct (Z.ltb_spec (lit_size l) (lit_pos l)); [lia|]. rewrite iolit_len_spec by (done || lia). fold k.
  rewrite memcpy_spec; [|rewrite length_drop; lia|lia]. cbn [mbind outcome_bind].
  rewrite s64_small, u64_small by lia. rewrite drop_drop. repeat f_equal. lia.
Qed.

Lemma iolit_seek_spec p l : p ≤ lit_size l → ioseek p l = Done (0, IoLit (lit_buf l) (lit_size l) p (lit_open l)).
Proof.
  intros Hp. unfold ioseek, ioctl. cbn [op_ctl iolit_ops]. unfold iolit_ctl.
  change (IOCTL_SETPOS =? IOCTL_GETLEN) with false. change (IOCTL_SETPOS =? IOCTL_GETPOS) with false.
  change (IOCTL_SETPOS =? IOCTL_SETPOS) with true. by destruct (Z.ltb_spec (lit_size l) p); [lia|].
Qed.

(** An I/O literal is a file: writing data that fits at a position and reading
    as many bytes back from that position returns the data; a write is cut at the
    end of the block, and nothing outside the bytes written changes. *)
Theorem iolit_write_read l data :
  lit_ok l → Z.of_nat (length data) < 2 ^ 62 →
  let k := Z.min (Z.of_nat (length data)) (lit_size l - lit_pos l) in
  ∃ l1 l2, iolit_write data l = Done (k, l1) ∧ lit_ok l1 ∧
    lit_buf l1 = take (Z.to_nat (lit_pos l)) (lit_buf l) ++ take (Z.to_nat k) data ++
                 drop (Z.to_nat (lit_pos l + k)) (lit_buf l) ∧
    ioseek (lit_pos l) l1 = Done (0, l2) ∧
    ∃ l3, iolit_read k l2 = Done (k, take (Z.to_nat k) data, l3).
Proof.
  intros Hok Hd k. pose proof Hok as (Hp & Hs & Hb). set (p := lit_pos l) in *.
  set (buf1 := take (Z.to_nat p) (lit_buf l) ++ take (Z.to_nat k) data ++ drop (Z.to_nat (p + k)) (lit_buf l)).
  assert (Hlen1 : length buf1 = length (lit_buf l)).
  { unfold buf1. rewrite !length_app, !length_take, length_drop. lia. }
  set (l1 := IoLit buf1 (lit_size l) (p + k) (lit_open l)).
  set (l2 := IoLit buf1 (lit_size l) p (lit_open l)).
  exists l1, l2. split_and!.
  - by rewrite (iolit_write_spec l data Hok Hd).
  - unfold lit_ok, l1. cbn. lia.
  - done.
  - by rewrite iolit_seek_spec by (cbn; lia).
  - assert (Hok2 : lit_ok l2) by (unfold lit_ok, l2; cbn; lia). eexists.
    rewrite (iolit_read_spec k l2 Hok2 ltac:(lia)). cbn [lit_size lit_pos l2].
    replace (Z.min k (lit_size l - p)) with k by lia. change (lit_rest l2) with (drop (Z.to_nat p) buf1).
    assert (Hdrop : take (Z.to_nat k) (drop (Z.to_nat p) buf1) = take (Z.to_nat k) data).
    { unfold buf1. rewrite drop_app_length' by (rewrite length_take; lia).
      rewrite take_app_length' by (rewrite length_take; lia). done. }
    rewrite Hdrop. done.
Qed.

(** ** Line input *)

(** [ioterm_getsn] with room for [n] >= 1 bytes never stores more than [n]
    bytes, the terminating NUL included, whatever is typed, backspaces included. *)
Theorem ioterm_getsn_bounded {σ} `{IoOps σ} fuel rfuel n (t t' : io_term σ) line :
  1 ≤ n → ioterm_getsn fuel rfuel [] n t = Done (Some line, t') → Z.of_nat (length line) ≤ n.
Proof.
  intros Hn. assert (Hgen : ∀ fuel l room t, Z.of_nat (length l) + room = n → 1 ≤ room →
    ioterm_getsn fuel rfuel l room t = Done (Some line, t') → Z.of_nat (length line) ≤ n).
  { clear fuel t. induction fuel as [|fuel IH]; intros l room t Hinv Hroom Hg; [done|]. cbn [ioterm_getsn] in Hg.
    apply bind_Done in Hg as ([r t1] & _ & Hg).
    destruct (u8 r =? 91); [by eapply IH|].
    destruct ((u8 r =? CR) || (u8 r =? NL)).
    { apply bind_Done in Hg as ([r1 t2] & _ & Hg). destruct (r1 <? 0); [done|].
      apply bind_Done in Hg as ([r2 t3] & _ & Hg). destruct (r2 <? 0); [done|].
      injection Hg as <- _. rewrite length_app. cbn. lia. }
    destruct ((u8 r =? 8) || (u8 r =? 127)).
    { destruct l as [|c l].
      - apply bind_Done in Hg as ([r1 t2] & _ & Hg). destruct (r1 <? 0); [done|]. by eapply IH.
      - apply bind_Done in Hg as ([r1 t2] & _ & Hg). destruct (r1 <? 0); [done|].
        apply bind_Done in Hg as ([r2 t3] & _ & Hg). destruct (r2 <? 0); [done|].
        apply bind_Done in Hg as ([r3 t4] & _ & Hg). destruct (r3 <? 0); [done|].
        eapply IH; [| |exact Hg]; [|lia]. rewrite length_take. cbn in *. lia. }
    destruct (Z.ltb_spec 1 room).
    - apply bind_Done in Hg as ([r1 t2] & _ & Hg). destruct (r1 <? 0); [done|].
      eapply IH; [| |exact Hg]; [|lia]. rewrite length_app. cbn. lia.
    - apply bind_Done in Hg as ([r1 t2] & _ & Hg). destruct (r1 <? 0); [done|]. by eapply IH. }
  apply (Hgen fuel [] n t); [cbn; lia|done].
Qed.

(** ** Witnesses *)

(** An object that collects what is written to it and has nothing to read. *)
#[export] Instance collect_ops : IoOps (list Z) := {
  op_close := None;
  op_read := None;
  op_write := Some (λ data s, Done (Z.of_nat (length data), s ++ data));
  op_ctl := None
}.
#[export] Program Instance collect_sink : IoSink (list Z) := {
  sink s := s;
  sink_write := λ data s, Done (Z.of_nat (length data), s ++ data)
}.
Next Obligation. done. Qed.
Next Obligation.
  intros data s Hne. exists (length data), (s ++ data). rewrite take_ge by lia. split_and!; try done.
  destruct data; [done|cbn; lia].
Qed.

Definition lit_example : io_lit := iolit_init [104; 101; 108; 108; 111] 5.
Lemma lit_example_ok : lit_ok lit_example.
Proof. unfold lit_ok. cbn. lia. Qed.

Lemma ioread_full_spec_witness :
  ∃ s', ioread_full 3 lit_example = Done (3, [104; 101; 108], s') ∧ source s' = [108; 111].
Proof.
  destruct (ioread_full_spec 3 lit_example) as (s' & Hr & Hs); [lia|apply lit_example_ok|].
  exists s'. split; [exact Hr|exact Hs].
Defined.

Lemma ioterm_read_spins_at_eof_witness :
  ioterm_read 1000 16 (ioterm_init (iolit_init [] 0) 1) = OutOfFuel.
Proof.
  apply (ioterm_read_spins_at_eof 1000 16 (ioterm_init (iolit_init [] 0) 1));
    [lia|unfold source_ok, iolit_source, lit_ok; cbn; lia|reflexivity].
Defined.

Lemma ioterm_iowrite_duplicates_witness :
  ∃ t', @iowrite _ (ioterm_ops 5) [10; 97; 98; 99] (IoTerm [] 1 true false) = Done (4, t') ∧
    rawio t' = [97; 98; 99; 99].
Proof.
  destruct (ioterm_iowrite_duplicates 5 [97; 98] 99 (IoTerm [] 1 true false) eq_refl ltac:(done) ltac:(done))
    as (t' & Hw & Hs).
  exists t'. split; [exact Hw|exact Hs].
Defined.

Lemma iolit_write_read_witness :
  ∃ l1 l2, iolit_write [72; 69] lit_example = Done (2, l1) ∧ lit_buf l1 = [72; 69; 108; 108; 111] ∧
    ioseek 0 l1 = Done (0, l2).
Proof.
  destruct (iolit_write_read lit_example [72; 69] lit_example_ok ltac:(cbn; lia))
    as (l1 & l2 & Hw & _ & Hb & Hk & _).
  exists l1, l2. split_and!; [exact Hw|exact Hb|exact Hk].
Defined.

Lemma ioterm_getsn_bounded_witness :
  ∃ t', @ioterm_getsn io_lit iolit_ops 9 9 [] 3 (ioterm_init (iolit_init [97; 0; 98; 0; 99; 0; 13; 0; 0; 0] 10) 1)
    = Done (Some [97; 98; 0], t') ∧ Z.of_nat (length [97; 98; 0]) ≤ 3.
Proof.
  eexists. split; [vm_compute; reflexivity|].
  eapply (ioterm_getsn_bounded 9 9 3 (ioterm_init (iolit_init [97; 0; 98; 0; 99; 0; 13; 0; 0; 0] 10) 1));
    [lia|vm_compute; reflexivity].
Defined.
