(* ===== verification/Timer.v ===== *)
(** Alarms and the timer interrupt (src/src/kern/timer.c, timer.h).

    Alarms are named by their addresses; the condition of an alarm is the object
    at the same address.  The sleep list is linked through [al_next].  The device
    registers mtime and mtcmp are part of the state; a function reads mtime once. *)
From Stdlib Require Import ZArith Lia Sorted Permutation.
From stdpp Require Import base gmap list sets strings sorting.
From S2P Require Import Prelude Pages Heap Pte Memory Thread ThreadLists Scheduler Lock.

Open Scope Z_scope.

Definition TIMER_FREQ : Z := 10000000.
Definition TICK_FREQ : Z := 50.
Definition TICK_PERIOD : Z := TIMER_FREQ / TICK_FREQ.

Record alarm : Type := Alarm { al_next : option Z; twake : Z }.

Record timer : Type := Timer {
  alarms : gmap Z alarm;
  sleep_list : option Z;
  next_tick : Z;
  mtime : Z;
  mtcmp : Z;
  timer_initialized : bool
}.

Definition al_cond (a : Z) : cond_id := CondObj a.

Definition set_alarm (a : Z) (x : alarm) (t : timer) : timer :=
  Timer (<[a := x]> (alarms t)) (sleep_list t) (next_tick t) (mtime t) (mtcmp t) (timer_initialized t).
Definition set_sleep_list (p : option Z) (t : timer) : timer :=
  Timer (alarms t) p (next_tick t) (mtime t) (mtcmp t) (timer_initialized t).
Definition set_next_tick (n : Z) (t : timer) : timer :=
  Timer (alarms t) (sleep_list t) n (mtime t) (mtcmp t) (timer_initialized t).
Definition get_mtime (t : timer) : Z := mtime t.
Definition set_mtime (v : Z) (t : timer) : timer :=
  Timer (alarms t) (sleep_list t) (next_tick t) v (mtcmp t) (timer_initialized t).
Definition get_mtcmp (t : timer) : Z := mtcmp t.
Definition set_mtcmp (v : Z) (t : timer) : timer :=
  Timer (alarms t) (sleep_list t) (next_tick t) (mtime t) v (timer_initialized t).
Definition get_alarm (a : Z) (t : timer) : outcome alarm := deref (alarms t !! a).

(** [timer_init] leaves [next_tick] at 0. *)
Definition timer_init (t : timer) : timer :=
  let t := set_mtcmp TICK_PERIOD (set_mtime 0 t) in
  Timer (alarms t) (sleep_list t) (next_tick t) (mtime t) (mtcmp t) true.

Definition alarm_init (a : Z) (t : timer) (s : sched) : timer * sched :=
  (set_alarm a (Alarm None (get_mtime t)) t, condition_init (al_cond a) s).

Definition alarm_reset (a : Z) (t : timer) : outcome timer :=
  al ← get_alarm a t;
  Done (set_alarm a (Alarm (al_next al) (get_mtime t)) t).

(** [al->twake + tcnt], at most UINT64_MAX. *)
Definition wake_time (tw tcnt : Z) : Z :=
  if UINT64_MAX - tw <? tcnt then UINT64_MAX else tw + tcnt.

(** The loop that looks for the place of alarm [a] from [prev] on, and the
    insertion at the tail after it. *)
Fixpoint insert_after (fuel : nat) (a tw prev : Z) (t : timer) : outcome timer :=
  match fuel with
  | O => OutOfFuel
  | S k =>
      p ← get_alarm prev t;
      match al_next p with
      | Some n =>
          nx ← get_alarm n t;
          if tw <=? twake nx then
            let t := set_alarm a (Alarm (Some n) tw) t in
            p ← get_alarm prev t;
            Done (set_alarm prev (Alarm (Some a) (twake p)) t)
          else insert_after k a tw n t
      | None =>
          let t := set_alarm a (Alarm None tw) t in
          p ← get_alarm prev t;
          Done (set_alarm prev (Alarm (Some a) (twake p)) t)
      end
  end.

(** [alarm_sleep] up to the wait: [None] when the time has already passed. *)
Definition alarm_enqueue (a tcnt : Z) (t : timer) : outcome (bool * timer) :=
  let now := get_mtime t in
  al ← get_alarm a t;
  let tw := wake_time (twake al) tcnt in
  let t := set_alarm a (Alarm (al_next al) tw) t in
  if tw <? now then Done (false, t) else
  match sleep_list t with
  | None =>
      let t := set_sleep_list (Some a) (set_alarm a (Alarm None tw) t) in
      Done (true, if tw <? next_tick t then set_mtcmp tw t else t)
  | Some h =>
      hd ← get_alarm h t;
      if tw <=? twake hd then
        let t := set_sleep_list (Some a) (set_alarm a (Alarm (Some h) tw) t) in
        Done (true, if tw <? next_tick t then set_mtcmp tw t else t)
      else
        t ← insert_after (size (alarms t)) a tw h t;
        Done (true, t)
  end.

(** The thread waits with interrupts off; they are restored when it is resumed. *)
Inductive sleep_result : Type :=
| SleepReturned (t : timer) (s : sched)
| SleepBlocked (saved : bool) (t : timer) (s : sched).

Definition alarm_sleep (a tcnt : Z) (t : timer) (s : sched) : outcome sleep_result :=
  '(queued, t) ← alarm_enqueue a tcnt t;
  if queued : bool then
    let '(saved, s) := intr_disable s in
    '(_, s) ← condition_wait (al_cond a) s;
    Done (SleepBlocked saved t s)
  else Done (SleepReturned t s).

Definition alarm_sleep_sec (a sec : Z) := alarm_sleep a (u64 (sec * TIMER_FREQ)).
Definition alarm_sleep_ms (a ms : Z) := alarm_sleep a (u64 (ms * (TIMER_FREQ / 1000))).
Definition alarm_sleep_us (a us : Z) := alarm_sleep a (u64 (us * (TIMER_FREQ / 1000 / 1000))).

(** The loop of the interrupt handler over the alarms that are due. *)
Fixpoint wake_due (fuel : nat) (head : option Z) (now : Z) (t : timer) (s : sched)
    : outcome (option Z * timer * sched) :=
  match head with
  | None => Done (None, t, s)
  | Some h =>
      al ← get_alarm h t;
      if twake al <=? now then
        match fuel with
        | O => OutOfFuel
        | S k =>
            s ← condition_broadcast (al_cond h) s;
            wake_due k (al_next al) now (set_alarm h (Alarm None (twake al)) t) s
        end
      else Done (head, t, s)
  end.

Definition timer_intr_handler (t : timer) (s : sched) : outcome (timer * sched) :=
  let now := get_mtime t in
  '(head, t, s) ← wake_due (size (alarms t)) (sleep_list t) now t s;
  let t := if next_tick t <? now then set_next_tick (u64 (next_tick t + TICK_PERIOD)) t else t in
  let t := set_sleep_list head t in
  match head with
  | Some h =>
      al ← get_alarm h t;
      if twake al <? next_tick t then Done (set_mtcmp (twake al) t, s)
      else Done (set_mtcmp (next_tick t) t, s)
  | None => Done (set_mtcmp (next_tick t) t, s)
  end.

(** ** The sleep list as a sequence *)

Fixpoint chain (m : gmap Z alarm) (p : option Z) (l : list (Z * Z)) : Prop :=
  match l with
  | [] => p = None
  | (a, tw) :: l => p = Some a ∧ ∃ n, m !! a = Some (Alarm n tw) ∧ chain m n l
  end.

(** The sleep list holds the alarms [l], with their wake-up times, in order of
    time. *)
Definition sleeping (t : timer) (l : list (Z * Z)) : Prop :=
  chain (alarms t) (sleep_list t) l ∧ NoDup l.*1 ∧ StronglySorted Z.le l.*2.

Lemma chain_ext m m' l : ∀ p,
  (∀ a, a ∈ l.*1 → m' !! a = m !! a) → chain m p l → chain m' p l.
Proof.
  induction l as [|[a tw] l IH]; intros p He; [done|]. intros (-> & n & Ha & Hc). split; [done|].
  exists n. rewrite He by (cbn; set_solver). split; [done|]. apply IH; [|done].
  intros x Hx. apply He. cbn. set_solver.
Qed.

Lemma chain_lookup m l : ∀ p a tw, chain m p l → (a, tw) ∈ l → ∃ n, m !! a = Some (Alarm n tw).
Proof.
  induction l as [|[b tb] l IH]; intros p a tw Hc Hin; [by apply elem_of_nil in Hin|].
  destruct Hc as (_ & n & Hb & Hc). apply elem_of_cons in Hin as [[= -> ->]|Hin]; [eauto|by eapply IH].
Qed.

(** Insertion in order of time, before the first alarm that is not earlier. *)
Fixpoint insert_alarm (a tw : Z) (l : list (Z * Z)) : list (Z * Z) :=
  match l with
  | [] => [(a, tw)]
  | (b, tb) :: l' => if tw <=? tb then (a, tw) :: l else (b, tb) :: insert_alarm a tw l'
  end.

Lemma insert_alarm_fst a tw l : ∀ x, x ∈ (insert_alarm a tw l).*1 ↔ x = a ∨ x ∈ l.*1.
Proof.
  induction l as [|[b tb] l IH]; intros x; cbn; [set_solver|].
  destruct (tw <=? tb); cbn; [set_solver|]. rewrite !elem_of_cons, IH. tauto.
Qed.
Lemma insert_alarm_snd a tw l : ∀ x, x ∈ (insert_alarm a tw l).*2 ↔ x = tw ∨ x ∈ l.*2.
Proof.
  induction l as [|[b tb] l IH]; intros x; cbn; [set_solver|].
  destruct (tw <=? tb); cbn; [set_solver|]. rewrite !elem_of_cons, IH. tauto.
Qed.
Lemma insert_alarm_NoDup a tw l : a ∉ l.*1 → NoDup l.*1 → NoDup (insert_alarm a tw l).*1.
Proof.
  induction l as [|[b tb] l IH]; intros Hni Hnd; cbn; [apply NoDup_singleton|].
  cbn in Hni, Hnd. apply NoDup_cons in Hnd as [Hb Hnd].
  destruct (tw <=? tb); cbn; apply NoDup_cons; split.
  - done.
  - by apply NoDup_cons.
  - rewrite insert_alarm_fst. set_solver.
  - apply IH; set_solver.
Qed.
Lemma insert_alarm_sorted a tw l : StronglySorted Z.le l.*2 → StronglySorted Z.le (insert_alarm a tw l).*2.
Proof.
  induction l as [|[b tb] l IH]; intros Hs; cbn; [repeat constructor|].
  cbn in Hs. apply StronglySorted_inv in Hs as [Hs Hf].
  destruct (Z.leb_spec tw tb); cbn.
  - constructor; [by constructor|]. constructor; [done|]. eapply Forall_impl; [exact Hf|]. cbn. lia.
  - constructor; [by apply IH|]. rewrite Forall_forall in *. intros x Hx%insert_alarm_snd.
    destruct Hx as [->|Hx]; [lia|by apply Hf].
Qed.
Lemma insert_alarm_perm a tw l : insert_alarm a tw l ≡ₚ (a, tw) :: l.
Proof.
  induction l as [|[b tb] l IH]; cbn; [done|]. destruct (tw <=? tb); [done|].
  rewrite IH. apply Permutation_swap.
Qed.

(** ** The list operations *)

Definition set_alarms (m : gmap Z alarm) (t : timer) : timer :=
  Timer m (sleep_list t) (next_tick t) (mtime t) (mtcmp t) (timer_initialized t).

Lemma get_alarm_eq a t x : alarms t !! a = Some x → get_alarm a t = Done x.
Proof. unfold get_alarm. by intros ->. Qed.

Lemma chain_size m p l : chain m p l → NoDup l.*1 → (length l ≤ size m)%nat.
Proof.
  intros Hc Hnd. rewrite <- (length_fmap fst l), <- size_dom, <- (size_list_to_set (C := gset Z) l.*1) by done.
  apply subseteq_size. intros x Hx%elem_of_list_to_set. apply elem_of_dom.
  apply list_elem_of_fmap in Hx as ([y tw] & -> & Hy).
  destruct (chain_lookup _ _ _ _ _ Hc Hy) as (n & He). cbn. rewrite He. eauto.
Qed.

Lemma insert_after_chain a tw : ∀ l fuel prev tp t,
  chain (alarms t) (Some prev) ((prev, tp) :: l) → NoDup (prev :: l.*1) → a ∉ prev :: l.*1 →
  (length l < fuel)%nat →
  ∃ m', insert_after fuel a tw prev t = Done (set_alarms m' t) ∧
    chain m' (Some prev) ((prev, tp) :: insert_alarm a tw l) ∧
    ∀ x, x ≠ a → x ∉ prev :: l.*1 → m' !! x = alarms t !! x.
Proof.
  induction l as [|[n tn] l IH]; intros [|k] prev tp t (_ & p & Hp & Hc) Hnd Hni Hf; try (cbn in Hf; lia);
    cbn [insert_after insert_alarm]; rewrite (get_alarm_eq _ _ _ Hp); cbn [mbind outcome_bind al_next].
  - cbn in Hc. subst p. assert (Hap : prev ≠ a) by set_solver.
    assert (Hp' : alarms (set_alarm a (Alarm None tw) t) !! prev = Some (Alarm None tp)).
    { cbn. by rewrite lookup_insert_ne. }
    rewrite (get_alarm_eq _ _ _ Hp'). cbn [mbind outcome_bind twake].
    eexists. split; [reflexivity|]. split.
    + cbn. split; [done|]. eexists. rewrite lookup_insert_eq. split; [done|]. split; [done|].
      exists None. by rewrite lookup_insert_ne, lookup_insert_eq by done.
    + intros x Hxa Hx. cbn. rewrite !lookup_insert_ne by set_solver. done.
  - destruct Hc as (-> & n' & Hn & Hc). rewrite (get_alarm_eq _ _ _ Hn). cbn [mbind outcome_bind twake].
    assert (Hap : prev ≠ a) by set_solver. assert (Hnp : prev ≠ n) by (apply NoDup_cons in Hnd as [? _]; set_solver).
    destruct (tw <=? tn) eqn:Hle.
    + assert (Hp' : alarms (set_alarm a (Alarm (Some n) tw) t) !! prev = Some (Alarm (Some n) tp)).
      { cbn. by rewrite lookup_insert_ne. }
      rewrite (get_alarm_eq _ _ _ Hp'). cbn [mbind outcome_bind twake].
      eexists. split; [reflexivity|]. split.
      * cbn. split; [done|]. eexists. rewrite lookup_insert_eq. split; [done|]. split; [done|].
        exists (Some n). rewrite lookup_insert_ne, lookup_insert_eq by done. split; [done|].
        apply (chain_ext (alarms t) _ ((n, tn) :: l)); [|cbn; eauto].
        intros x Hx. apply NoDup_cons in Hnd as [Hnd _]. rewrite !lookup_insert_ne by set_solver. done.
      * intros x Hxa Hx. cbn. rewrite !lookup_insert_ne by set_solver. done.
    + apply NoDup_cons in Hnd as [Hpn Hnd]. destruct (IH k n tn t) as (m' & Hi & Hc' & Hout).
      * cbn. eauto.
      * done.
      * set_solver.
      * cbn in Hf. lia.
      * exists m'. split; [done|]. split.
        -- cbn. split; [done|]. exists (Some n). rewrite Hout by done. split; [done|]. exact Hc'.
        -- intros x Hxa Hx. apply Hout; set_solver.
Qed.

(** The alarm the next interrupt has to serve: the first of the list. *)
Definition first_wake (l : list (Z * Z)) (d : Z) : Z :=
  match l with [] => d | (_, tw) :: _ => Z.min tw d end.

Lemma alarm_enqueue_spec a tcnt t l al :
  sleeping t l → alarms t !! a = Some al → a ∉ l.*1 →
  let tw := wake_time (twake al) tcnt in
  (tw < mtime t → ∃ t', alarm_enqueue a tcnt t = Done (false, t') ∧ sleeping t' l) ∧
  (mtime t ≤ tw → ∃ t', alarm_enqueue a tcnt t = Done (true, t') ∧ sleeping t' (insert_alarm a tw l) ∧
     mtime t' = mtime t ∧ next_tick t' = next_tick t ∧
     mtcmp t' = if bool_decide (head (insert_alarm a tw l) = Some (a, tw)) && (tw <? next_tick t)
                then tw else mtcmp t).
Proof.
  intros (Hc & Hnd & Hs) Ha Hni tw. unfold alarm_enqueue. rewrite (get_alarm_eq _ _ _ Ha).
  cbn [mbind outcome_bind]. fold tw. unfold get_mtime.
  set (t1 := set_alarm a (Alarm (al_next al) tw) t).
  assert (Hc1 : chain (alarms t1) (sleep_list t) l).
  { apply (chain_ext (alarms t)); [|done]. intros x Hx. cbn. rewrite lookup_insert_ne by set_solver. done. }
  split; intros Htw.
  { destruct (Z.ltb_spec tw (mtime t)); [|lia]. exists t1. by split. }
  destruct (Z.ltb_spec tw (mtime t)); [lia|].
  pose proof (insert_alarm_NoDup a tw l Hni Hnd) as Hnd'. pose proof (insert_alarm_sorted a tw l Hs) as Hs'.
  change (sleep_list t1) with (sleep_list t).
  destruct l as [|[h th] l].
  - cbn in Hc. rewrite Hc. cbn [insert_alarm] in *. eexists. split; [reflexivity|].
    cbn [head next_tick set_sleep_list set_alarm t1]. rewrite bool_decide_true by done. cbn [andb].
    split.
    + split; [|done]. cbn. destruct (tw <? next_tick t); cbn; (split; [done|]; exists None;
        rewrite lookup_insert_eq; done).
    + by destruct (tw <? next_tick t).
  - cbn in Hc. destruct Hc as (Hh & n & Hhm & Hc). rewrite Hh. assert (Hha : h ≠ a) by set_solver.
    destruct Hc1 as (_ & n1 & Hhm1 & Hc1). rewrite (get_alarm_eq _ _ _ Hhm1). cbn [mbind outcome_bind twake].
    cbn [insert_alarm] in *. destruct (tw <=? th) eqn:Hle.
    + eexists. split; [reflexivity|]. cbn [head next_tick set_sleep_list set_alarm t1].
      rewrite bool_decide_true by done. cbn [andb]. split.
      * split; [|done].
        set (t2 := set_sleep_list _ _). cut (chain (alarms t2) (sleep_list t2) ((a, tw) :: (h, th) :: l)).
        { by destruct (tw <? next_tick t). }
        cbn. split; [done|]. exists (Some h). rewrite lookup_insert_eq. split; [done|]. split; [done|]. exists n1.
        rewrite lookup_insert_ne by done. split; [done|].
        apply (chain_ext (alarms t1)); [|done]. intros x Hx. cbn.
        rewrite (lookup_insert_ne (<[_ := _]> _)) by set_solver. done.
      * by destruct (tw <? next_tick t).
    + destruct (insert_after_chain a tw l (size (alarms t1)) h th t1) as (m' & Hi & Hc' & _).
      * cbn. eauto.
      * done.
      * done.
      * assert (Hsz : (length ((h, th) :: l) ≤ size (alarms t1))%nat).
        { eapply chain_size; [|done]. cbn. eauto. }
        cbn [length] in Hsz. lia.
      * rewrite Hi. cbn [mbind outcome_bind]. eexists. split; [reflexivity|].
        rewrite bool_decide_false by (cbn; intros [= E]; done). cbn [andb].
        split; [|done]. split; [|done]. cbn [sleep_list set_alarms t1 set_alarm alarms]. rewrite Hh. exact Hc'.
Qed.

(** [alarm_sleep] for an alarm that is not on the sleep list: when its new
    wake-up time has passed it returns at once and the list stays as it is;
    otherwise the alarm is inserted in order of time, the running thread waits for
    the alarm's condition, and the compare register is lowered to the wake-up time
    only if the alarm is now the first and wakes before [next_tick]. *)
Theorem alarm_sleep_spec a tcnt t l al s x :
  sleeping t l → alarms t !! a = Some al → a ∉ l.*1 →
  sched_rep s x → running s → CURTHR s ≠ idle_thread s →
  let tw := wake_time (twake al) tcnt in
  (tw < mtime t → ∃ t', alarm_sleep a tcnt t s = Done (SleepReturned t' s) ∧ sleeping t' l) ∧
  (mtime t ≤ tw → ∃ t' s' x',
     alarm_sleep a tcnt t s = Done (SleepBlocked (sie s) t' s') ∧
     sleeping t' (insert_alarm a tw l) ∧ insert_alarm a tw l ≡ₚ (a, tw) :: l ∧
     a_wait (al_cond a) x = Some x' ∧ sched_rep s' x' ∧ running s' ∧
     mtcmp t' = if bool_decide (head (insert_alarm a tw l) = Some (a, tw)) && (tw <? next_tick t)
                then tw else mtcmp t).
Proof.
  intros Hl Ha Hni Hrep Hrun Hne tw. unfold alarm_sleep.
  destruct (alarm_enqueue_spec a tcnt t l al Hl Ha Hni) as [Hpast Hfut]. fold tw in Hpast, Hfut. split.
  - intros Htw. destruct (Hpast Htw) as (t' & -> & Hl'). exists t'. by split.
  - intros Htw. destruct (Hfut Htw) as (t' & -> & Hl' & _ & _ & Hcmp). cbn [mbind outcome_bind intr_disable].
    destruct (condition_wait_rep (al_cond a) (with_sie false s) x) as (s' & x' & Hw & Ha' & Hrep' & Hrun' & _);
      [by apply sched_rep_sie|done|done|].
    exists t', s', x'. rewrite Hw. cbn [mbind outcome_bind]. split_and!; try done.
    apply insert_alarm_perm.
Qed.

(** ** The interrupt *)

Definition a_wake (due : list (Z * Z)) (x : asched) : asched :=
  foldl (λ x p, a_broadcast (al_cond p.1) x) x due.

Lemma sorted_not_due now (l : list (Z * Z)) : StronglySorted Z.le l.*2 →
  (∀ p : Z * Z, head l = Some p → now < p.2) → filter (λ p : Z * Z, p.2 ≤ now) l = [] ∧ filter (λ p : Z * Z, now < p.2) l = l.
Proof.
  intros Hs Hh. destruct l as [|[a tw] l]; [done|]. specialize (Hh _ eq_refl). cbn in Hh.
  assert (Hall : Forall (λ p : Z * Z, now < p.2) ((a, tw) :: l)).
  { constructor; [done|]. cbn in Hs. apply StronglySorted_inv in Hs as [_ Hs].
    rewrite Forall_fmap in Hs. eapply Forall_impl; [exact Hs|]. intros [b tb]. cbn. lia. }
  revert Hall. clear Hs Hh. generalize ((a, tw) :: l). clear l. intros l Hall. split.
  - induction Hall as [|p l' Hp Hall' IH]; [done|]. by rewrite filter_cons_False by lia.
  - induction Hall as [|p l' Hp Hall' IH]; [done|]. rewrite filter_cons_True by done. by rewrite IH.
Qed.

Lemma wake_due_spec now : ∀ l fuel p t s x,
  chain (alarms t) p l → NoDup l.*1 → StronglySorted Z.le l.*2 → sched_rep s x → (length l ≤ fuel)%nat →
  ∃ p' m' s', wake_due fuel p now t s = Done (p', set_alarms m' t, s') ∧
    chain m' p' (filter (λ q : Z * Z, now < q.2) l) ∧
    sched_rep s' (a_wake (filter (λ q : Z * Z, q.2 ≤ now) l) x).
Proof.
  induction l as [|[a tw] l IH]; intros fuel p t s x Hc Hnd Hs Hrep Hf.
  - cbn in Hc. subst p. exists None, (alarms t), s. split_and!; [|done|done].
    destruct fuel, t; done.
  - destruct Hc as (-> & n & Ha & Hc). destruct (Z.leb_spec tw now) as [Hle|Hgt].
    + destruct fuel as [|k]; [cbn in Hf; lia|]. cbn [wake_due]. rewrite (get_alarm_eq _ _ _ Ha).
      cbn [mbind outcome_bind twake al_next]. destruct (Z.leb_spec tw now); [|lia].
      destruct (condition_broadcast_rep (al_cond a) s x Hrep) as (s1 & -> & Hrep1 & _). cbn [mbind outcome_bind].
      apply NoDup_cons in Hnd as [Hni Hnd]. apply StronglySorted_inv in Hs as [Hs _].
      destruct (IH k n (set_alarm a (Alarm None tw) t) s1 (a_broadcast (al_cond a) x)) as (p' & m' & s' & -> & Hc' & Hrep').
      * apply (chain_ext (alarms t)); [|done]. intros y Hy. cbn. rewrite lookup_insert_ne by set_solver. done.
      * done.
      * done.
      * done.
      * cbn in Hf. lia.
      * exists p', m', s'. split; [done|].
        rewrite filter_cons_False by (cbn; lia). rewrite filter_cons_True by (cbn; lia). by split.
    + destruct (sorted_not_due now ((a, tw) :: l) Hs) as [-> ->]; [intros q [= <-]; done|].
      exists (Some a), (alarms t), s. split_and!; [|cbn; eauto|done].
      assert (Hd : get_alarm a t = Done (Alarm n tw)) by by apply get_alarm_eq.
      destruct fuel; cbn [wake_due]; rewrite Hd; cbn [mbind outcome_bind twake];
        destruct (Z.leb_spec tw now); try lia; by destruct t.
Qed.

Lemma filter_NoDup_fst (P : Z * Z → Prop) `{!∀ p, Decision (P p)} l : NoDup l.*1 → NoDup (filter P l).*1.
Proof. intros Hnd. eapply sublist_NoDup; [exact Hnd|]. apply fmap_sublist, sublist_filter. Qed.

Lemma filter_sorted_snd (P : Z * Z → Prop) `{!∀ p, Decision (P p)} l :
  StronglySorted Z.le l.*2 → StronglySorted Z.le (filter P l).*2.
Proof.
  induction l as [|p l IH]; [done|]. cbn [fmap list_fmap]. intros [Hs Hf]%StronglySorted_inv.
  destruct (decide (P p)); [rewrite filter_cons_True by done|rewrite filter_cons_False by done; by apply IH].
  cbn. constructor; [by apply IH|]. rewrite Forall_fmap, Forall_forall in *.
  intros q [_ Hq]%list_elem_of_filter. by apply Hf.
Qed.

(** C38: The timer interrupt takes exactly the alarms whose time has come off the
    sleep list, makes their waiters ready in order of time, advances [next_tick] by
    at most one period, and sets the compare register to the earlier of [next_tick]
    and the first remaining wake-up time, so no remaining alarm is missed. *)
Theorem timer_intr_handler_spec t l s x :
  sleeping t l → sched_rep s x →
  let now := mtime t in
  let rest := filter (λ p : Z * Z, now < p.2) l in
  ∃ t' s', timer_intr_handler t s = Done (t', s') ∧ sleeping t' rest ∧
    sched_rep s' (a_wake (filter (λ p : Z * Z, p.2 ≤ now) l) x) ∧
    next_tick t' = (if next_tick t <? now then u64 (next_tick t + TICK_PERIOD) else next_tick t) ∧
    mtcmp t' = first_wake rest (next_tick t') ∧
    (∀ p, p ∈ rest → mtcmp t' ≤ p.2).
Proof.
  intros (Hc & Hnd & Hs) Hrep now rest. unfold timer_intr_handler, get_mtime. fold now.
  destruct (wake_due_spec now l (size (alarms t)) (sleep_list t) t s x) as (p' & m' & s' & -> & Hc' & Hrep');
    [done|done|done|done|by eapply chain_size|]. cbn [mbind outcome_bind]. fold rest in Hc'.
  pose proof (filter_NoDup_fst (λ p : Z * Z, now < p.2) l Hnd) as Hnd'.
  pose proof (filter_sorted_snd (λ p : Z * Z, now < p.2) l Hs) as Hs'. fold rest in Hnd', Hs'.
  set (nt := if next_tick t <? now then u64 (next_tick t + TICK_PERIOD) else next_tick t).
  set (t1 := if next_tick (set_alarms m' t) <? now then _ else _).
  assert (Ht1 : t1 = set_next_tick nt (set_alarms m' t)).
  { subst t1 nt. cbn [next_tick set_alarms]. destruct (next_tick t <? now); [done|]. by destruct t. }
  clearbody t1. subst t1. cbn [sleep_list set_sleep_list].
  assert (Hmin : ∀ p, p ∈ rest → first_wake rest nt ≤ p.2).
  { intros [b tb] Hb. destruct rest as [|[c tc] r]; [by apply elem_of_nil in Hb|]. cbn.
    cbn in Hs'. apply StronglySorted_inv in Hs' as [_ Hs']. rewrite Forall_fmap, Forall_forall in Hs'.
    apply elem_of_cons in Hb as [[= -> ->]|Hb]; [lia|]. specialize (Hs' _ Hb). cbn in Hs'. lia. }
  destruct rest as [|[b tb] r].
  - cbn in Hc'. subst p'. eexists _, _. split; [reflexivity|]. split_and!; try done.
  - destruct Hc' as (-> & n & Hb & Hc'). rewrite (get_alarm_eq b _ (Alarm n tb)) by done.
    cbn [mbind outcome_bind twake]. cbn [first_wake] in *.
    assert (Hchain : chain m' (Some b) ((b, tb) :: r)) by (cbn; eauto).
    cbn [next_tick set_sleep_list set_next_tick].
    destruct (Z.ltb_spec tb nt); eexists _, _; (split; [reflexivity|]); split_and!; try done; cbn [mtcmp set_mtcmp next_tick set_sleep_list set_next_tick]; try lia; intros p Hp; specialize (Hmin p Hp); lia.
Qed.

(** ** Witnesses *)

(** Two alarms sleep until 100 and 300, a third is idle. *)
Definition timer_example : timer :=
  Timer (list_to_map [(1, Alarm (Some 2) 100); (2, Alarm None 300); (3, Alarm None 50)]) (Some 1) 200000 120 200000 true.

Lemma timer_example_sleeping : sleeping timer_example [(1, 100); (2, 300)].
Proof.
  split_and!.
  - cbn. split; [done|]. exists (Some 2). split; [done|]. split; [done|]. by exists None.
  - apply NoDup_cons. split; [set_solver|apply NoDup_singleton].
  - repeat constructor. cbn. lia.
Qed.

Lemma timer_intr_handler_spec_witness :
  ∃ t' s', timer_intr_handler timer_example lock_sched = Done (t', s') ∧ sleeping t' [(2, 300)] ∧
    11 ∈ ready (a_wake [(1, 100)] lock_abs) ∧ 13 ∈ ready (a_wake [(1, 100)] lock_abs) ∧
    sched_rep s' (a_wake [(1, 100)] lock_abs).
Proof.
  destruct (timer_intr_handler_spec timer_example [(1, 100); (2, 300)] lock_sched lock_abs
    timer_example_sleeping lock_sched_rep) as (t' & s' & He & Hsl & Hr & _).
  exists t', s'. split_and!; [exact He|exact Hsl|cbn; set_solver|cbn; set_solver|exact Hr].
Defined.

Lemma alarm_sleep_spec_witness :
  ∃ t' s', alarm_sleep 3 200 timer_example lock_sched = Done (SleepBlocked true t' s') ∧
    sleeping t' [(1, 100); (3, 250); (2, 300)].
Proof.
  destruct (alarm_sleep_spec 3 200 timer_example [(1, 100); (2, 300)] (Alarm None 50) lock_sched lock_abs)
    as [_ (t' & s' & x' & He & Hsl & _)];
    [apply timer_example_sleeping|reflexivity|cbn; set_solver|apply lock_sched_rep|by exists None, None, None|done
    |vm_compute; discriminate|].
  exists t', s'. split; [exact He|exact Hsl].
Defined.
