(* ===== verification/Plic.v ===== *)
(** The interrupt controller (src/src/kern/plic.c).

    The PLIC is a device: its registers are read and written through the class
    [PlicDev], and [PlicDevLaws] states what its configuration registers promise.
    An address computation is done at the widths C gives it. *)
From Stdlib Require Import ZArith Lia.
From stdpp Require Import base gmap list strings.
From S2P Require Import Prelude.

Open Scope Z_scope.

Definition PLIC_IOBASE : Z := 0x0C000000.
Definition PLIC_SRCCNT : Z := 0x400.
Definition S_MODE_CONTEXT : Z := 1.
Definition PLIC_INT_PENDING : Z := 0x001000.
Definition PLIC_ENABLE_SOURCE : Z := 0x2000.
Definition PLIC_CONTEXT_OFFSET : Z := 0x80.
Definition PLIC_PRI_THRESH_OFFSET : Z := 0x200000.
Definition PLIC_PRI_THRESH_CONTEXT_OFFSET : Z := 0x1000.
Definition PLIC_CLAIM_OFFSET : Z := 0x200004.

Class PlicDev (π : Type) : Type := {
  plic_read : Z → π → Z * π;
  plic_write : Z → Z → π → π
}.

(** The configuration registers, which only the kernel changes: the priorities of
    the sources and the enable words of the contexts. *)
Definition priority_addr (src : Z) : Z := PLIC_IOBASE + src * 4.
Definition enable_addr (ctx word : Z) : Z :=
  PLIC_IOBASE + PLIC_ENABLE_SOURCE + ctx * PLIC_CONTEXT_OFFSET + word * 4.
Definition config_reg (a : Z) : Prop :=
  PLIC_IOBASE ≤ a < PLIC_IOBASE + PLIC_INT_PENDING ∨
  PLIC_IOBASE + PLIC_ENABLE_SOURCE ≤ a < PLIC_IOBASE + PLIC_PRI_THRESH_OFFSET.

(** A configuration register holds the bits written to it that the device
    implements. *)
Class PlicDevLaws (π : Type) `{PlicDev π} : Type := {
  reg_mask : Z → Z;
  plic_read_same a p : config_reg a → (plic_read a p).2 = p;
  plic_read_write a v p : config_reg a → (plic_read a (plic_write a v p)).1 = Z.land v (reg_mask a);
  plic_read_write_ne a b v p : config_reg b → a ≠ b → (plic_read b (plic_write a v p)).1 = (plic_read b p).1
}.

Section Plic.
Context {π : Type} `{PlicDev π}.

Definition plic_set_source_priority (srcno level : Z) (p : π) : π :=
  plic_write (PLIC_IOBASE + srcno * 4) level p.

Definition plic_source_pending (srcno : Z) (p : π) : Z * π :=
  let '(w, p) := plic_read (PLIC_IOBASE + PLIC_INT_PENDING + srcno / 32 * 4) p in
  (if Z.land w (u32 (Z.shiftl 1 (srcno mod 32))) =? 0 then 0 else 1, p).

Definition plic_enable_source_for_context (ctxno srcno : Z) (p : π) : π :=
  let a := u32 (PLIC_IOBASE + PLIC_ENABLE_SOURCE + u32 (ctxno * PLIC_CONTEXT_OFFSET)) + srcno / 32 * 4 in
  let '(w, p) := plic_read a p in
  plic_write a (Z.lor w (u32 (Z.shiftl 1 (srcno mod 32)))) p.

Definition plic_disable_source_for_context (ctxno srcid : Z) (p : π) : π :=
  let a := u32 (PLIC_IOBASE + PLIC_ENABLE_SOURCE + u32 (ctxno * PLIC_CONTEXT_OFFSET)) + srcid / 32 * 4 in
  let '(w, p) := plic_read a p in
  plic_write a (Z.land w (u32 (Z.lnot (Z.shiftl 1 (srcid mod 32))))) p.

Definition plic_set_context_threshold (ctxno level : Z) (p : π) : π :=
  plic_write (u32 (PLIC_IOBASE + PLIC_PRI_THRESH_OFFSET + u32 (ctxno * PLIC_PRI_THRESH_CONTEXT_OFFSET))) level p.

Definition plic_claim_context_interrupt (ctxno : Z) (p : π) : Z * π :=
  plic_read (u32 (PLIC_IOBASE + PLIC_CLAIM_OFFSET + u32 (ctxno * PLIC_PRI_THRESH_CONTEXT_OFFSET))) p.

Definition plic_complete_context_interrupt (ctxno srcno : Z) (p : π) : π :=
  plic_write (u32 (PLIC_IOBASE + PLIC_CLAIM_OFFSET + u32 (ctxno * PLIC_PRI_THRESH_CONTEXT_OFFSET))) srcno p.

(** The loop of [plic_init] from source [i] on, for [n] sources. *)
Fixpoint plic_init_loop (n : nat) (i : Z) (p : π) : π :=
  match n with
  | O => p
  | S k => plic_init_loop k (i + 1) (plic_enable_source_for_context S_MODE_CONTEXT i (plic_set_source_priority i 0 p))
  end.
Definition plic_init (p : π) : π := plic_init_loop (Z.to_nat PLIC_SRCCNT) 0 p.

Definition plic_enable_irq (irqno prio : Z) (p : π) : π := plic_set_source_priority (u32 irqno) (u32 prio) p.
Definition plic_disable_irq (irqno : Z) (p : π) : π :=
  if 0 <? irqno then plic_set_source_priority (u32 irqno) 0 p else p.
(** The claimed source number, as an int. *)
Definition plic_claim_irq (p : π) : Z * π :=
  let '(n, p) := plic_claim_context_interrupt S_MODE_CONTEXT p in (s32 n, p).
Definition plic_close_irq (irqno : Z) (p : π) : π := plic_complete_context_interrupt S_MODE_CONTEXT (u32 irqno) p.
End Plic.

(** ** The configuration *)

Section Config.
Context {π : Type} `{PlicDevLaws π}.

Definition priority (src : Z) (p : π) : Z := (plic_read (priority_addr src) p).1.
(** Source [src] is enabled for context [ctx]. *)
Definition enabled (ctx src : Z) (p : π) : bool :=
  Z.testbit (plic_read (enable_addr ctx (src / 32)) p).1 (src mod 32).
(** The device implements the enable bit of the source. *)
Definition has_enable (ctx src : Z) : bool := Z.testbit (reg_mask (enable_addr ctx (src / 32))) (src mod 32).

Lemma source_bit src : u32 (Z.shiftl 1 (src mod 32)) = 2 ^ (src mod 32).
Proof.
  pose proof (Z.mod_pos_bound src 32). rewrite Z.shiftl_1_l. apply u32_small. split; [apply Z.pow_nonneg; lia|].
  apply Z.pow_lt_mono_r; lia.
Qed.

Lemma enable_addr_eq ctx src : 0 ≤ ctx < 0x3fc0 → 0 ≤ src < PLIC_SRCCNT →
  u32 (PLIC_IOBASE + PLIC_ENABLE_SOURCE + u32 (ctx * PLIC_CONTEXT_OFFSET)) + src / 32 * 4 =
    enable_addr ctx (src / 32) ∧ config_reg (enable_addr ctx (src / 32)).
Proof.
  unfold enable_addr, config_reg, PLIC_IOBASE, PLIC_ENABLE_SOURCE, PLIC_CONTEXT_OFFSET, PLIC_SRCCNT, PLIC_PRI_THRESH_OFFSET.
  intros. pose proof (Z.div_pos src 32). pose proof (Z.div_lt_upper_bound src 32 32).
  rewrite (u32_small (ctx * 128)), u32_small by lia. split; [lia|right; lia].
Qed.

Lemma priority_addr_config src : 0 ≤ src < PLIC_SRCCNT → config_reg (priority_addr src).
Proof. unfold config_reg, priority_addr, PLIC_IOBASE, PLIC_SRCCNT, PLIC_INT_PENDING. lia. Qed.

Lemma priority_enable_ne i ctx w : 0 ≤ i < PLIC_SRCCNT → 0 ≤ ctx → 0 ≤ w → priority_addr i ≠ enable_addr ctx w.
Proof. unfold priority_addr, enable_addr, PLIC_SRCCNT, PLIC_ENABLE_SOURCE, PLIC_CONTEXT_OFFSET. lia. Qed.

(** Enabling a source: it is enabled if the device implements its bit; an enabled
    source stays enabled, and the priorities do not change. *)
Lemma plic_enable_source_spec ctx src p : 0 ≤ ctx < 0x3fc0 → 0 ≤ src < PLIC_SRCCNT →
  let p' := plic_enable_source_for_context ctx src p in
  enabled ctx src p' = has_enable ctx src ∧
  (∀ i, 0 ≤ i < PLIC_SRCCNT → has_enable ctx i = true → enabled ctx i p = true → enabled ctx i p' = true) ∧
  (∀ c i, 0 ≤ c < 0x3fc0 → 0 ≤ i < PLIC_SRCCNT → enable_addr c (i / 32) ≠ enable_addr ctx (src / 32) → enabled c i p' = enabled c i p) ∧
  (∀ i, 0 ≤ i < PLIC_SRCCNT → priority i p' = priority i p).
Proof.
  intros Hc Hs p'. destruct (enable_addr_eq ctx src Hc Hs) as [Ha Hcfg].
  set (w := (plic_read (enable_addr ctx (src / 32)) p).1).
  assert (Hp' : p' = plic_write (enable_addr ctx (src / 32)) (Z.lor w (2 ^ (src mod 32))) p).
  { unfold p', plic_enable_source_for_context. rewrite Ha, source_bit.
    pose proof (plic_read_same _ p Hcfg) as Hr. unfold w.
    destruct (plic_read (enable_addr ctx (src / 32)) p) as [v q]. cbn in Hr |- *. by rewrite Hr. }
  pose proof (Z.mod_pos_bound src 32). split_and!.
  - unfold enabled. rewrite Hp', plic_read_write by done. rewrite Z.land_spec, Z.lor_spec, Z.pow2_bits_true by lia.
    by rewrite orb_true_r.
  - intros i Hi Hm He. pose proof (Z.mod_pos_bound i 32). unfold enabled in *. rewrite Hp'.
    destruct (decide (enable_addr ctx (i / 32) = enable_addr ctx (src / 32))) as [Heq|Hne].
    + unfold has_enable in Hm. rewrite Heq in *. rewrite plic_read_write by done.
      rewrite Z.land_spec, Z.lor_spec. fold w in He. by rewrite He, Hm.
    + rewrite plic_read_write_ne; [done| |congruence]. by apply enable_addr_eq.
  - intros c i Hc' Hi Hne. unfold enabled. rewrite Hp', plic_read_write_ne; [done| |congruence]. by apply enable_addr_eq.
  - intros i Hi. unfold priority. rewrite Hp', plic_read_write_ne; [done|by apply priority_addr_config|].
    intros E. symmetry in E. revert E. apply priority_enable_ne; [done|lia|apply Z.div_pos; lia].
Qed.

Lemma plic_set_priority_spec src level p : 0 ≤ src < PLIC_SRCCNT →
  let p' := plic_set_source_priority src level p in
  priority src p' = Z.land level (reg_mask (priority_addr src)) ∧
  (∀ i, 0 ≤ i < PLIC_SRCCNT → i ≠ src → priority i p' = priority i p) ∧
  (∀ c i, 0 ≤ c < 0x3fc0 → 0 ≤ i < PLIC_SRCCNT → enabled c i p' = enabled c i p).
Proof.
  intros Hs p'. unfold p', plic_set_source_priority, priority, enabled. fold (priority_addr src). split_and!.
  - apply plic_read_write. by apply priority_addr_config.
  - intros i Hi Hne. rewrite plic_read_write_ne; [done|by apply priority_addr_config|]. unfold priority_addr. lia.
  - intros c i Hc Hi. rewrite plic_read_write_ne; [done|by apply enable_addr_eq|].
    apply priority_enable_ne; [done|lia|apply Z.div_pos; lia].
Qed.

Lemma plic_init_loop_spec n : ∀ i p, 0 ≤ i → i + Z.of_nat n = PLIC_SRCCNT →
  (∀ j, 0 ≤ j < i → priority j p = 0 ∧ (has_enable S_MODE_CONTEXT j = true → enabled S_MODE_CONTEXT j p = true)) →
  let p' := plic_init_loop n i p in
  (∀ j, 0 ≤ j < PLIC_SRCCNT → priority j p' = 0 ∧
     (has_enable S_MODE_CONTEXT j = true → enabled S_MODE_CONTEXT j p' = true)) ∧
  (∀ c j, 0 ≤ c < 0x3fc0 → 0 ≤ j < PLIC_SRCCNT → c ≠ S_MODE_CONTEXT → enabled c j p' = enabled c j p).
Proof.
  induction n as [|k IH]; intros i p Hi Hn Hinv; cbn [plic_init_loop].
  { split; [|done]. intros j Hj. apply Hinv. lia. }
  assert (His : 0 ≤ i < PLIC_SRCCNT) by lia. assert (Hctx : 0 ≤ S_MODE_CONTEXT < 0x3fc0) by (unfold S_MODE_CONTEXT; lia).
  destruct (plic_set_priority_spec i 0 p His) as (Hp1 & Hp2 & Hp3). set (p1 := plic_set_source_priority i 0 p) in *.
  destruct (plic_enable_source_spec S_MODE_CONTEXT i p1 Hctx His) as (He1 & He2 & He3 & He4).
  set (p2 := plic_enable_source_for_context S_MODE_CONTEXT i p1) in *.
  destruct (IH (i + 1) p2) as [IH1 IH2]; [lia|lia| |].
  - intros j Hj. rewrite He4 by lia. destruct (decide (j = i)) as [->|Hne].
    + rewrite Hp1, Z.land_0_l. split; [done|]. by rewrite He1.
    + destruct (Hinv j) as [Hz He]; [lia|]. rewrite Hp2 by lia. split; [done|]. intros Hm.
      apply He2; [lia|done|]. rewrite Hp3 by lia. by apply He.
  - split; [done|]. intros c j Hc Hj Hne. rewrite IH2 by done. rewrite He3; [by apply Hp3|done|done|].
    pose proof (Z.div_pos j 32). pose proof (Z.div_lt_upper_bound j 32 32).
    pose proof (Z.div_pos i 32). pose proof (Z.div_lt_upper_bound i 32 32).
    unfold enable_addr, PLIC_CONTEXT_OFFSET, S_MODE_CONTEXT, PLIC_SRCCNT in *. lia.
Qed.

(** [plic_init] gives every one of the 1024 sources priority 0, so that none
    can interrupt until it is enabled, enables every source the device implements
    for the S-mode context, and leaves the enable bits of the other contexts. *)
Theorem plic_init_spec p :
  (∀ i, 0 ≤ i < PLIC_SRCCNT → priority i (plic_init p) = 0 ∧
     (has_enable S_MODE_CONTEXT i = true → enabled S_MODE_CONTEXT i (plic_init p) = true)) ∧
  (∀ c i, 0 ≤ c < 0x3fc0 → 0 ≤ i < PLIC_SRCCNT → c ≠ S_MODE_CONTEXT →
     enabled c i (plic_init p) = enabled c i p).
Proof. apply plic_init_loop_spec; [lia|done|intros; lia]. Qed.
End Config.

(** ** A device *)

(** Plain 32-bit registers; the claim register offers the value [claim] once. *)
Record plic_regs : Type := PlicRegs { pregs : gmap Z Z; claim : Z; completed : list Z }.

Definition CLAIM_REG : Z := 0xC201004.

#[export] Instance plic_regs_dev : PlicDev plic_regs := {
  plic_read a p :=
    if a =? CLAIM_REG then (claim p, PlicRegs (pregs p) 0 (completed p))
    else (default 0 (pregs p !! a), p);
  plic_write a v p :=
    if a =? CLAIM_REG then PlicRegs (pregs p) (claim p) (completed p ++ [v])
    else PlicRegs (<[a := Z.land v (Z.ones 32)]> (pregs p)) (claim p) (completed p)
}.

Lemma config_not_claim a : config_reg a → (a =? CLAIM_REG) = false.
Proof.
  unfold config_reg, CLAIM_REG, PLIC_IOBASE, PLIC_INT_PENDING, PLIC_ENABLE_SOURCE, PLIC_PRI_THRESH_OFFSET.
  intros. apply Z.eqb_neq. lia.
Qed.

#[export, refine] Instance plic_regs_laws : PlicDevLaws plic_regs := {| reg_mask := λ _, Z.ones 32 |}.
Proof.
  - intros a p Ha. cbn. by rewrite config_not_claim.
  - intros a v p Ha. cbn. rewrite !config_not_claim by done. cbn. by rewrite lookup_insert_eq.
  - intros a b v p Hb Hne. cbn. rewrite (config_not_claim b) by done.
    destruct (a =? CLAIM_REG); cbn; [done|]. by rewrite lookup_insert_ne.
Defined.

Lemma plic_init_spec_witness :
  let p := plic_init (PlicRegs {[priority_addr 10 := 7]} 0 []) in
  priority 10 p = 0 ∧ enabled 1 10 p = true.
Proof.
  destruct (plic_init_spec (PlicRegs {[priority_addr 10 := 7]} 0 [])) as [Hs _].
  destruct (Hs 10) as [Hp He]; [by vm_compute|]. split; [exact Hp|]. apply He. reflexivity.
Defined.
