(* ===== verification/Intr.v ===== *)
(** Interrupt dispatch (src/src/kern/intr.c).

    The kernel state an interrupt service routine can change is the interrupt
    controller, the timer, the scheduler and the drivers' own state [δ]; a routine
    gets the interrupt number and its auxiliary pointer. *)
From Stdlib Require Import ZArith Lia.
From stdpp Require Import base gmap list strings.
From S2P Require Import Prelude Thread ThreadLists Scheduler Lock Timer Plic.

Open Scope Z_scope.

Definition NIRQ : Z := 32.
Definition RISCV_SCAUSE_INTR_EXCODE_STI : Z := 5.
Definition RISCV_SCAUSE_INTR_EXCODE_SEI : Z := 9.
(** The bit of sstatus that says the trap came from S mode. *)
Definition RISCV_SSTATUS_SPP : Z := Z.shiftl 1 8.
Definition RISCV_SIE_SEIE : Z := Z.shiftl 1 9.

(** The state [E] of one driver in the state [D] of all drivers. *)
Class DriverState (D E : Type) : Type := {
  driver : D → E;
  put_driver : E → D → D;
  driver_put e d : driver (put_driver e d) = e;
  put_put e e' d : put_driver e (put_driver e' d) = put_driver e d
}.

#[export] Program Instance driver_self E : DriverState E E | 10 := { driver d := d; put_driver e _ := e }.
Solve All Obligations with done.

Section Intr.
Context {π δ : Type} `{PlicDev π}.

Record kstate : Type := KState { plic : π; ktimer : timer; ksched : sched; drivers : δ }.

Definition with_plic (f : π → π) (k : kstate) : kstate := KState (f (plic k)) (ktimer k) (ksched k) (drivers k).

Record isr_entry : Type := IsrEntry {
  isr : option (Z → Z → kstate → outcome kstate);
  isr_aux : Z;
  isr_prio : Z
}.
Definition isrtab_init : list isr_entry := replicate (Z.to_nat NIRQ) (IsrEntry None 0 0).

(** The CSR [sie] after [intr_init]; [csrw_sip] clears the pending bits. *)
Definition intr_init (k : kstate) : kstate * Z :=
  let '(_, s) := intr_disable (ksched k) in
  (with_plic plic_init (KState (plic k) (ktimer k) s (drivers k)), RISCV_SIE_SEIE).

Definition intr_register_isr (irqno prio : Z) (f : option (Z → Z → kstate → outcome kstate)) (aux : Z)
    (tab : list isr_entry) : outcome (list isr_entry) :=
  if (irqno <? 0) || (NIRQ <=? irqno) then Panicked "irqno out of bounds" else
  let prio := if prio <=? 0 then 1 else prio in
  Done (<[Z.to_nat irqno := IsrEntry f aux prio]> tab).

(** The table is read without a test of the index. *)
Definition isr_lookup (irqno : Z) (tab : list isr_entry) : outcome isr_entry :=
  if irqno <? 0 then Undefined else deref (tab !! Z.to_nat irqno).

Definition intr_enable_irq (irqno : Z) (tab : list isr_entry) (p : π) : outcome π :=
  e ← isr_lookup irqno tab;
  match isr e with
  | None => Panicked "intr_enable_irq with no isr"
  | Some _ => Done (plic_enable_irq irqno (isr_prio e) p)
  end.

Definition intr_disable_irq (irqno : Z) (p : π) : π := plic_disable_irq irqno p.

Definition extern_intr_handler (tab : list isr_entry) (k : kstate) : outcome kstate :=
  let '(irqno, p) := plic_claim_irq (plic k) in
  let k := with_plic (λ _, p) k in
  if (irqno <? 0) || (NIRQ <=? irqno) then Panicked "invalid irq" else
  if irqno =? 0 then Done k else
  e ← isr_lookup irqno tab;
  match isr e with
  | None => Panicked "unhandled irq"
  | Some f =>
      k ← f irqno (isr_aux e) k;
      Done (with_plic (plic_close_irq irqno) k)
  end.

(** The dispatch, and the yield of [intr_handler] when user mode was running: cut
    at the context switch. *)
Definition intr_handler (code sstatus : Z) (tab : list isr_entry) (k : kstate) : outcome kstate :=
  k ← (if code =? RISCV_SCAUSE_INTR_EXCODE_SEI then extern_intr_handler tab k else
       if code =? RISCV_SCAUSE_INTR_EXCODE_STI then
         '(t, s) ← timer_intr_handler (ktimer k) (ksched k);
         Done (KState (plic k) t s (drivers k))
       else Panicked "unhandled interrupt");
  if Z.land sstatus RISCV_SSTATUS_SPP =? 0 then
    '(_, s) ← thread_yield (ksched k);
    Done (KState (plic k) (ktimer k) s (drivers k))
  else Done k.

(** ** Registration and dispatch *)

Definition tab_ok (tab : list isr_entry) : Prop := length tab = Z.to_nat NIRQ.

Lemma register_lookup irqno prio f aux tab tab' :
  tab_ok tab → intr_register_isr irqno prio f aux tab = Done tab' →
  0 ≤ irqno < NIRQ ∧ tab_ok tab' ∧
  isr_lookup irqno tab' = Done (IsrEntry f aux (if prio <=? 0 then 1 else prio)) ∧
  ∀ j, j ≠ irqno → isr_lookup j tab' = isr_lookup j tab.
Proof.
  unfold tab_ok, intr_register_isr, isr_lookup, NIRQ. intros Hl.
  destruct (Z.ltb_spec irqno 0); cbn [orb]; [done|]. destruct (Z.leb_spec 32 irqno); [done|].
  intros [= <-]. split_and!; [lia|lia|by rewrite length_insert| |].
  - rewrite list_lookup_insert_eq by (rewrite Hl; lia). done.
  - intros j Hj. destruct (Z.ltb_spec j 0); [done|]. rewrite list_lookup_insert_ne by lia. done.
Qed.

(** A run of registrations. *)
Fixpoint register_all (l : list (Z * Z * (Z → Z → kstate → outcome kstate) * Z)) (tab : list isr_entry) : outcome (list isr_entry) :=
  match l with
  | [] => Done tab
  | (irqno, prio, f, aux) :: l => tab ← intr_register_isr irqno prio (Some f) aux tab; register_all l tab
  end.

Lemma register_all_other l : ∀ tab tab' irqno,
  tab_ok tab → register_all l tab = Done tab' → irqno ∉ (λ x, x.1.1.1) <$> l →
  tab_ok tab' ∧ isr_lookup irqno tab' = isr_lookup irqno tab.
Proof.
  induction l as [|[[[i pr] f] aux] l IH]; intros tab tab' irqno Hok; cbn [register_all fmap list_fmap].
  - intros [= <-]. done.
  - intros Hr Hni. apply bind_Done in Hr as (tab1 & H1 & Hr).
    destruct (register_lookup _ _ _ _ _ _ Hok H1) as (_ & Hok1 & _ & Hother).
    destruct (IH _ _ irqno Hok1 Hr) as [Hok' Hl]; [set_solver|]. split; [done|].
    rewrite Hl. apply Hother. set_solver.
Qed.

(** After a routine is registered for an interrupt, and whatever is registered
    for other interrupts later, an external interrupt with that number runs exactly
    this routine with its own auxiliary pointer and then completes the interrupt at
    the controller; enabling it programs the registered priority, at least 1. *)
Theorem intr_dispatch irqno prio f aux later tab tab1 tab2 (k : kstate) p k' :
  tab_ok tab → 0 < irqno → intr_register_isr irqno prio (Some f) aux tab = Done tab1 →
  register_all later tab1 = Done tab2 → irqno ∉ (λ x, x.1.1.1) <$> later →
  plic_claim_irq (plic k) = (irqno, p) → f irqno aux (with_plic (λ _, p) k) = Done k' →
  extern_intr_handler tab2 k = Done (with_plic (plic_close_irq irqno) k') ∧
  (∀ q : π, intr_enable_irq irqno tab2 q =
    Done (plic_set_source_priority irqno (u32 (Z.max prio 1)) q)).
Proof.
  intros Hok Hpos Hreg Hall Hni Hcl Hf. destruct (register_lookup _ _ _ _ _ _ Hok Hreg) as (Hr & Hok1 & Hl1 & _).
  destruct (register_all_other _ _ _ _ Hok1 Hall Hni) as [_ Hl2]. rewrite Hl1 in Hl2. split.
  - unfold extern_intr_handler. rewrite Hcl. destruct (Z.ltb_spec irqno 0); [lia|]. cbn [orb].
    destruct (Z.leb_spec NIRQ irqno); [lia|]. destruct (Z.eqb_spec irqno 0); [lia|].
    rewrite Hl2. cbn [mbind outcome_bind isr isr_aux]. by rewrite Hf.
  - intros q. unfold intr_enable_irq. rewrite Hl2. cbn [mbind outcome_bind isr isr_prio]. unfold plic_enable_irq.
    unfold NIRQ in Hr. rewrite (u32_small irqno) by lia. repeat f_equal. destruct (Z.leb_spec prio 0); lia.
Qed.
End Intr.
Arguments kstate : clear implicits.
Arguments KState {π δ}.
Arguments isr_entry : clear implicits.

(** ** Witness *)

Definition counting_isr (irqno aux : Z) (k : kstate plic_regs Z) : outcome (kstate plic_regs Z) :=
  Done (KState (plic k) (ktimer k) (ksched k) (drivers k + aux)).

Lemma intr_dispatch_witness :
  ∃ tab1 tab2, intr_register_isr 10 3 (Some counting_isr) 5 isrtab_init = Done tab1 ∧
    intr_register_isr 11 3 (Some counting_isr) 7 tab1 = Done tab2 ∧
    extern_intr_handler tab2 (KState (PlicRegs ∅ 10 []) timer_example lock_sched 100) =
      Done (KState (PlicRegs ∅ 0 [10]) timer_example lock_sched 105).
Proof.
  eexists _, _. split; [reflexivity|]. split; [reflexivity|].
  refine (proj1 (intr_dispatch 10 3 counting_isr 5 [(11, 3, counting_isr, 7)] isrtab_init _ _
    (KState (PlicRegs ∅ 10 []) timer_example lock_sched 100) (PlicRegs ∅ 0 [])
    (KState (PlicRegs ∅ 0 []) timer_example lock_sched 105) _ _ _ _ _ _ _));
    try reflexivity. cbn. set_solver.
Defined.
