(* ===== verification/Device.v ===== *)
(** The device manager (src/src/kern/device.c).

    A device is its name, the open function of its driver and the pointer the
    driver gets back; [δ] is the state the drivers keep.  An open function returns
    its result and the I/O object it stores through [ioptr]. *)
From Stdlib Require Import ZArith Lia.
From stdpp Require Import base list strings.
From S2P Require Import Prelude CString Io.

Open Scope Z_scope.

Definition NDEV : Z := 16.

Section Device.
Context {δ : Type}.

Definition open_fn : Type := Z → δ → outcome (Z * option Z * δ).

Record device : Type := Device { dev_name : option (list Z); openfn : option open_fn; dev_aux : Z }.

Definition devtab_init : list device := replicate (Z.to_nat NDEV) (Device None None 0).

Definition devmgr_init (devmgr_initialized : bool) : bool := true.

(** The loop over the table: the first empty slot, and how many devices before it
    have the name. *)
Fixpoint register_scan (name : list Z) (tab : list device) (devno instno : Z) : outcome (Z * Z) :=
  match tab with
  | [] => Done (devno, instno)
  | d :: tab =>
      match dev_name d with
      | None => Done (devno, instno)
      | Some nm =>
          r ← strcmp (Some nm) (Some name);
          register_scan name tab (devno + 1) (if r =? 0 then instno + 1 else instno)
      end
  end.

Definition device_register (name : option (list Z)) (f : option open_fn) (aux : Z) (tab : list device)
    : outcome (Z * list device) :=
  match name, f with
  | Some nm, Some _ =>
      '(devno, instno) ← register_scan nm tab 0 0;
      if devno =? NDEV then Panicked "Too many devices (increase NDEV)" else
      Done (instno, <[Z.to_nat devno := Device name f aux]> tab)
  | _, _ => Panicked "assertion failed"
  end.

(** The loop of [device_open]: the instance numbered [instno], if there is one. *)
Fixpoint open_scan (name : list Z) (instno : Z) (tab : list device) (k : Z) : outcome (option device) :=
  match tab with
  | [] => Done None
  | d :: tab =>
      match openfn d with
      | None => open_scan name instno tab k
      | Some _ =>
          r ← strcmp (dev_name d) (Some name);
          if r =? 0 then
            if k =? instno then Done (Some d) else open_scan name instno tab (k + 1)
          else open_scan name instno tab k
      end
  end.

Definition device_open (name : list Z) (instno : Z) (tab : list device) (s : δ) : outcome (Z * option Z * δ) :=
  d ← open_scan name instno tab 0;
  match d with
  | None => Done (- ENODEV, None, s)
  | Some d => f ← deref (openfn d); f (dev_aux d) s
  end.

(** ** The registry *)

(** A registered device: the bytes of its name and what follows their NUL in
    memory, the open function and its argument. *)
Record registered : Type := Reg { r_name : list Z; r_rest : list Z; r_open : open_fn; r_aux : Z }.

Definition entry (r : registered) : device := Device (Some (cstr (r_name r) (r_rest r))) (Some (r_open r)) (r_aux r).

(** The table holds the devices [l] in order of registration. *)
Definition registry (tab : list device) (l : list registered) : Prop :=
  ∃ n, tab = (entry <$> l) ++ replicate n (Device None None 0) ∧ (length l + n = Z.to_nat NDEV)%nat ∧
    Forall (λ r, is_str (r_name r)) l.

Definition named (name : list Z) (l : list registered) : list registered := filter (λ r, r_name r = name) l.

Lemma registry_init : registry devtab_init [].
Proof. exists (Z.to_nat NDEV). by split_and!. Qed.

Lemma strcmp_names a b r1 r2 : is_str a → is_str b →
  ∃ v, strcmp (Some (cstr a r1)) (Some (cstr b r2)) = Done v ∧ (v = 0 ↔ a = b).
Proof.
  intros Ha Hb. exists (bytes_compare a b). cbn [strcmp]. rewrite strcmp_loop_cstr by done. split; [done|].
  apply bytes_compare_eq.
Qed.

Lemma register_scan_spec name rest n : is_str name → ∀ l devno instno,
  Forall (λ r, is_str (r_name r)) l →
  register_scan (cstr name rest) ((entry <$> l) ++ replicate n (Device None None 0)) devno instno =
    Done (devno + Z.of_nat (length l), instno + Z.of_nat (length (named name l))).
Proof.
  intros Hn. induction l as [|r l IH]; intros devno instno Hl; cbn [fmap list_fmap app register_scan].
  - destruct n; cbn; do 2 f_equal; lia.
  - apply Forall_cons in Hl as [Hr Hl]. cbn [dev_name entry].
    destruct (strcmp_names (r_name r) name (r_rest r) rest Hr Hn) as (v & -> & Hv). cbn [mbind outcome_bind].
    rewrite IH by done. unfold named. destruct (Z.eqb_spec v 0) as [E|E].
    + rewrite filter_cons_True by (by apply Hv). cbn [length]. do 2 f_equal; lia.
    + rewrite filter_cons_False by (by rewrite <- Hv). cbn [length]. do 2 f_equal; lia.
Qed.

Lemma open_scan_empty name instno n k : open_scan name instno (replicate n (Device None None 0)) k = Done None.
Proof. induction n; [done|]. cbn [replicate open_scan openfn]. done. Qed.

Lemma open_scan_spec name rest n instno : is_str name → ∀ l k,
  Forall (λ r, is_str (r_name r)) l → k ≤ instno →
  open_scan (cstr name rest) instno ((entry <$> l) ++ replicate n (Device None None 0)) k =
    Done (entry <$> named name l !! Z.to_nat (instno - k)).
Proof.
  intros Hn. induction l as [|r l IH]; intros k Hl Hk; cbn [fmap list_fmap app open_scan].
  - rewrite open_scan_empty. done.
  - apply Forall_cons in Hl as [Hr Hl]. cbn [openfn dev_name entry].
    destruct (strcmp_names (r_name r) name (r_rest r) rest Hr Hn) as (v & -> & Hv). cbn [mbind outcome_bind].
    unfold named. destruct (Z.eqb_spec v 0) as [E|E].
    + rewrite filter_cons_True by (by apply Hv). destruct (Z.eqb_spec k instno) as [->|Hne].
      * rewrite Z.sub_diag. done.
      * rewrite IH by (done || lia). replace (Z.to_nat (instno - k)) with (S (Z.to_nat (instno - (k + 1)))) by lia. done.
    + rewrite filter_cons_False by (by rewrite <- Hv). by rewrite IH.
Qed.

Lemma device_register_spec name rest f aux tab l :
  registry tab l → is_str name →
  device_register (Some (cstr name rest)) (Some f) aux tab =
    if decide (length l = Z.to_nat NDEV) then Panicked "Too many devices (increase NDEV)"
    else Done (Z.of_nat (length (named name l)),
               <[length l := Device (Some (cstr name rest)) (Some f) aux]> tab).
Proof.
  intros (n & -> & Hlen & Hall) Hn. unfold device_register. rewrite (register_scan_spec name rest n Hn l 0 0 Hall).
  cbn [mbind outcome_bind]. unfold NDEV in *. case_decide as Hd; destruct (Z.eqb_spec (0 + Z.of_nat (length l)) 16); try lia; [done|].
  rewrite !Z.add_0_l, Nat2Z.id. done.
Qed.

Lemma registry_insert tab l r :
  registry tab l → length l ≠ Z.to_nat NDEV → is_str (r_name r) →
  registry (<[length l := entry r]> tab) (l ++ [r]).
Proof.
  intros (n & -> & Hlen & Hall) Hne Hn. destruct n as [|n]; [lia|]. exists n. split_and!.
  - rewrite <- (length_fmap entry l) at 1. rewrite insert_app_r_alt by lia. rewrite Nat.sub_diag. cbn.
    by rewrite fmap_app, <- app_assoc.
  - rewrite length_app. cbn. lia.
  - apply Forall_app. by split; [|constructor].
Qed.

Lemma device_open_spec name rest instno tab l s :
  registry tab l → is_str name → 0 ≤ instno →
  device_open (cstr name rest) instno tab s =
    match named name l !! Z.to_nat instno with
    | Some r => r_open r (r_aux r) s
    | None => Done (- ENODEV, None, s)
    end.
Proof.
  intros (n & -> & Hlen & Hall) Hn Hi. unfold device_open. rewrite (open_scan_spec name rest n instno Hn l 0 Hall) by lia.
  rewrite Z.sub_0_r. cbn [mbind outcome_bind]. by destruct (named name l !! Z.to_nat instno).
Qed.

(** A run of registrations. *)
Fixpoint register_devices (l : list registered) (tab : list device) : outcome (list device) :=
  match l with
  | [] => Done tab
  | r :: l =>
      '(_, tab) ← device_register (Some (cstr (r_name r) (r_rest r))) (Some (r_open r)) (r_aux r) tab;
      register_devices l tab
  end.

Lemma register_devices_spec more : ∀ tab l,
  registry tab l → Forall (λ r, is_str (r_name r)) more → (length l + length more ≤ Z.to_nat NDEV)%nat →
  ∃ tab', register_devices more tab = Done tab' ∧ registry tab' (l ++ more).
Proof.
  induction more as [|r more IH]; intros tab l Hreg Hall Hlen; cbn [register_devices].
  - exists tab. by rewrite app_nil_r.
  - apply Forall_cons in Hall as [Hr Hall]. cbn [length] in Hlen.
    rewrite (device_register_spec _ _ _ _ _ _ Hreg Hr). rewrite decide_False by lia. cbn [mbind outcome_bind].
    fold (entry r).
    destruct (IH _ (l ++ [r]) (registry_insert _ _ r Hreg ltac:(lia) Hr) Hall) as (tab' & -> & Hreg').
    { rewrite length_app. cbn. lia. }
    exists tab'. by rewrite <- app_assoc in Hreg'.
Qed.

(** [device_register] numbers the devices of a name in order, and whatever is
    registered later (up to 16 devices), [device_open] with the name and that number
    calls the driver's open function with its argument; a number that is not taken
    gives -ENODEV, and the seventeenth registration panics. *)
Theorem device_register_open tab l r more s rest :
  registry tab l → Forall (λ r, is_str (r_name r)) (r :: more) →
  (length (l ++ r :: more) ≤ Z.to_nat NDEV)%nat →
  ∃ tab1 tab2 instno,
    device_register (Some (cstr (r_name r) (r_rest r))) (Some (r_open r)) (r_aux r) tab = Done (instno, tab1) ∧
    instno = Z.of_nat (length (named (r_name r) l)) ∧
    register_devices more tab1 = Done tab2 ∧
    device_open (cstr (r_name r) rest) instno tab2 s = r_open r (r_aux r) s ∧
    (∀ k, Z.of_nat (length (named (r_name r) (l ++ r :: more))) ≤ k →
       device_open (cstr (r_name r) rest) k tab2 s = Done (- ENODEV, None, s)) ∧
    (length (l ++ r :: more) = Z.to_nat NDEV → ∀ nm nmrest f aux, is_str nm →
       device_register (Some (cstr nm nmrest)) (Some f) aux tab2 = Panicked "Too many devices (increase NDEV)").
Proof.
  intros Hreg Hall Hlen. apply Forall_cons in Hall as [Hr Hall]. rewrite length_app in Hlen. cbn [length] in Hlen.
  pose proof (registry_insert tab l r Hreg ltac:(lia) Hr) as Hreg1.
  destruct (register_devices_spec more _ _ Hreg1 Hall) as (tab2 & H2 & Hreg2); [rewrite length_app; cbn; lia|].
  rewrite <- app_assoc in Hreg2. cbn [app] in Hreg2.
  exists (<[length l := entry r]> tab), tab2, (Z.of_nat (length (named (r_name r) l))).
  rewrite (device_register_spec _ _ _ _ _ _ Hreg Hr), decide_False by lia.
  assert (Hnamed : named (r_name r) (l ++ r :: more) = named (r_name r) l ++ r :: named (r_name r) more).
  { unfold named. rewrite filter_app. f_equal. by rewrite filter_cons_True. }
  split_and!; [done|done|done| | |].
  - rewrite (device_open_spec _ _ _ _ _ _ Hreg2 Hr) by lia. rewrite Hnamed, Nat2Z.id.
    by rewrite list_lookup_middle.
  - intros k Hk. rewrite (device_open_spec _ _ _ _ _ _ Hreg2 Hr) by lia. by rewrite lookup_ge_None_2 by lia.
  - intros Hfull nm nmrest f aux Hnm. rewrite (device_register_spec _ _ _ _ _ _ Hreg2 Hnm). by rewrite decide_True.
Qed.
End Device.
Arguments device : clear implicits.
Arguments registered : clear implicits.
Arguments open_fn : clear implicits.

(** ** Witness *)

Definition open_example : open_fn Z := λ aux s, Done (0, Some aux, s + 1).
Definition ser_example (aux : Z) : registered Z := Reg [115; 101; 114] [] open_example aux.

Lemma device_register_open_witness :
  ∃ tab1 tab2, device_register (Some (cstr [115; 101; 114] [])) (Some open_example) 70 (entry (ser_example 60) :: drop 1 devtab_init) = Done (1, tab1) ∧
    register_devices [ser_example 80] tab1 = Done tab2 ∧
    device_open (cstr [115; 101; 114] [9]) 1 tab2 5 = Done (0, Some 70, 6).
Proof.
  destruct (device_register_open (entry (ser_example 60) :: drop 1 devtab_init) [ser_example 60] (ser_example 70)
    [ser_example 80] 5 [9]) as (tab1 & tab2 & instno & H1 & H2 & H3 & H4 & _).
  - exists 15%nat. split_and!; [reflexivity|reflexivity|repeat constructor; discriminate].
  - repeat constructor; discriminate.
  - vm_compute. repeat constructor.
  - exists tab1, tab2. change instno with instno in H1. subst instno. split; [exact H1|]. split; [exact H3|exact H4].
Defined.
