(* ===== verification/Uart.v ===== *)
(** The serial port driver (src/src/kern/uart.c).

    The 16550 is a device: its registers are read and written through the class
    [UartHw].  The driver's structure for a port lives at an address of the heap;
    its two conditions are at fixed offsets of that address.  A call that waits is
    cut at [condition_wait] and goes on with the same test when it is resumed. *)
From Stdlib Require Import ZArith Lia.
From stdpp Require Import base gmap list strings.
From S2P Require Import Prelude CString Pages Heap Pte Memory Thread Io Timer Plic Intr Device.

Open Scope Z_scope.

Definition UART0_IOBASE : Z := 0x10000000.
Definition SERIAL_RBUFSZ : Z := 64.
Definition UART_IRQ_PRIO : Z := 3.

(** The registers by offset; RBR is also THR and DLL, IER also DLM, IIR also FCR. *)
Inductive uart_reg : Type := RBR | IER | IIR | LCR | MCR | LSR | MSR | SCR.

Class UartHw (υ : Type) : Type := {
  uread : uart_reg → υ → Z * υ;
  uwrite : uart_reg → Z → υ → υ
}.

Definition LCR_DLAB : Z := Z.shiftl 1 7.
Definition LSR_OE : Z := Z.shiftl 1 1.
Definition LSR_DR : Z := Z.shiftl 1 0.
Definition LSR_THRE : Z := Z.shiftl 1 5.
Definition IER_DREIE : Z := Z.shiftl 1 0.
Definition IER_THREIE : Z := Z.shiftl 1 1.

(** ** The ring buffer *)

Record ringbuf : Type := RBuf { hpos : Z; tpos : Z; rdata : list Z }.

Definition rbuf_init (r : ringbuf) : ringbuf := RBuf 0 0 (rdata r).
Definition rbuf_empty (r : ringbuf) : bool := hpos r =? tpos r.
Definition rbuf_full (r : ringbuf) : bool := u16 (tpos r - hpos r) =? SERIAL_RBUFSZ.
Definition rbuf_put (r : ringbuf) (c : Z) : ringbuf :=
  RBuf (hpos r) (u16 (tpos r + 1)) (<[Z.to_nat (tpos r mod SERIAL_RBUFSZ) := c]> (rdata r)).
Definition rbuf_get (r : ringbuf) : outcome (Z * ringbuf) :=
  c ← deref (rdata r !! Z.to_nat (hpos r mod SERIAL_RBUFSZ));
  Done (c, RBuf (u16 (hpos r + 1)) (tpos r) (rdata r)).

(** ** The driver *)

Record uart_device (υ : Type) : Type := UartDev {
  uregs : υ;
  uirqno : Z;
  rxovrcnt : Z;
  urefcnt : Z;
  rxbuf : ringbuf;
  txbuf : ringbuf
}.
Arguments UartDev {υ}.
Arguments uregs {υ}.
Arguments uirqno {υ}.
Arguments rxovrcnt {υ}.
Arguments urefcnt {υ}.
Arguments rxbuf {υ}.
Arguments txbuf {υ}.

Definition sizeof_uart_device : Z := 216.
Definition rxbnotempty (dev : Z) : cond_id := CondObj (dev + 32).
Definition txbnotfull (dev : Z) : cond_id := CondObj (dev + 56).

Section Uart.
Context {υ : Type} `{UartHw υ}.

Definition set_regs (u : υ) (d : uart_device υ) : uart_device υ :=
  UartDev u (uirqno d) (rxovrcnt d) (urefcnt d) (rxbuf d) (txbuf d).
Definition set_rxbuf (r : ringbuf) (d : uart_device υ) : uart_device υ :=
  UartDev (uregs d) (uirqno d) (rxovrcnt d) (urefcnt d) r (txbuf d).
Definition set_txbuf (r : ringbuf) (d : uart_device υ) : uart_device υ :=
  UartDev (uregs d) (uirqno d) (rxovrcnt d) (urefcnt d) (rxbuf d) r.
Definition set_refcnt (n : Z) (d : uart_device υ) : uart_device υ :=
  UartDev (uregs d) (uirqno d) (rxovrcnt d) n (rxbuf d) (txbuf d).

(** [ier |= bits] and [ier &= ~bits], on a register of 8 bits. *)
Definition ier_set (bits : Z) (d : uart_device υ) : uart_device υ :=
  let '(v, u) := uread IER (uregs d) in set_regs (uwrite IER (u8 (Z.lor v bits)) u) d.
Definition ier_clear (bits : Z) (d : uart_device υ) : uart_device υ :=
  let '(v, u) := uread IER (uregs d) in set_regs (uwrite IER (u8 (Z.land v (Z.lnot bits))) u) d.

(** The copy loop of [uart_read]: at most [n] bytes, while there are any. *)
Fixpoint read_loop (fuel : nat) (n : Z) (acc : list Z) (r : ringbuf) : outcome (list Z * ringbuf) :=
  if negb (rbuf_empty r) && (Z.of_nat (length acc) <? n) then
    match fuel with
    | O => OutOfFuel
    | S k => '(c, r) ← rbuf_get r; read_loop k n (acc ++ [c]) r
    end
  else Done (acc, r).

(** From the loop test on, with interrupts off.  The copy loop makes one round per
    byte in the buffer. *)
Definition uart_read_wait (dev bufsz : Z) (d : uart_device υ) (s : sched)
    : outcome (blocking (Z * list Z * uart_device υ)) :=
  if rbuf_empty (rxbuf d) then
    '(saved, s) ← condition_wait (rxbnotempty dev) s;
    Done (Blocked saved s)
  else
    let '(_, s) := intr_enable s in
    '(data, r) ← read_loop (Z.to_nat (u16 (tpos (rxbuf d) - hpos (rxbuf d)))) bufsz [] (rxbuf d);
    Done (Returned (Z.of_nat (length data), data, ier_set IER_DREIE (set_rxbuf r d)) s).

Definition uart_read (dev bufsz : Z) (d : uart_device υ) (s : sched)
    : outcome (blocking (Z * list Z * uart_device υ)) :=
  let bufsz := if LONG_MAX <? bufsz then LONG_MAX else bufsz in
  if bufsz =? 0 then Done (Returned (0, [], d) s) else
  let '(_, s) := intr_disable s in
  uart_read_wait dev bufsz d s.

(** The copy loop of [uart_write]: what is left, and the buffer. *)
Fixpoint write_loop (buf : list Z) (r : ringbuf) : list Z * ringbuf :=
  match buf with
  | [] => ([], r)
  | c :: buf' => if rbuf_full r then (buf, r) else write_loop buf' (rbuf_put r c)
  end.

(** A write has returned the count, or its caller waits with [rest] still to be
    written. *)
Inductive write_result : Type :=
| WriteDone (n : Z) (d : uart_device υ) (s : sched)
| WriteBlocked (rest : list Z) (saved : bool) (d : uart_device υ) (s : sched).

(** The outer loop; [n] is the length of the whole buffer.  Every round but the
    last writes at least one byte. *)
Fixpoint uart_write_loop (fuel : nat) (dev n : Z) (buf : list Z) (d : uart_device υ) (s : sched) : outcome write_result :=
  match buf with
  | [] => Done (WriteDone n d s)
  | _ =>
      match fuel with
      | O => OutOfFuel
      | S k =>
          let '(_, s) := intr_disable s in
          if rbuf_full (txbuf d) then
            '(saved, s) ← condition_wait (txbnotfull dev) s;
            Done (WriteBlocked buf saved d s)
          else
            let '(_, s) := intr_enable s in
            let '(rest, r) := write_loop buf (txbuf d) in
            uart_write_loop k dev n rest (ier_set IER_THREIE (set_txbuf r d)) s
      end
  end.

Definition uart_write (dev : Z) (buf : list Z) (d : uart_device υ) (s : sched) : outcome write_result :=
  let buf := if LONG_MAX <? Z.of_nat (length buf) then take (Z.to_nat LONG_MAX) buf else buf in
  uart_write_loop (length buf) dev (Z.of_nat (length buf)) buf d s.

(** A bit of the line status. *)
Definition status_bit (bits line_status : Z) : bool := negb (Z.land line_status bits =? 0).

Definition uart_isr_rx (dev : Z) (d : uart_device υ) (s : sched) : outcome (uart_device υ * sched) :=
  if negb (rbuf_full (rxbuf d)) then
    s ← (if rbuf_empty (rxbuf d) then condition_broadcast (rxbnotempty dev) s else Done s);
    let '(c, u) := uread RBR (uregs d) in
    Done (set_rxbuf (rbuf_put (rxbuf d) c) (set_regs u d), s)
  else Done (ier_clear IER_DREIE d, s).

Definition uart_isr_tx (dev : Z) (d : uart_device υ) (s : sched) : outcome (uart_device υ * sched) :=
  if negb (rbuf_empty (txbuf d)) then
    s ← (if rbuf_full (txbuf d) then condition_broadcast (txbnotfull dev) s else Done s);
    '(c, r) ← rbuf_get (txbuf d);
    Done (set_txbuf r (set_regs (uwrite RBR c (uregs d)) d), s)
  else Done (ier_clear IER_THREIE d, s).

Definition uart_isr (dev : Z) (d : uart_device υ) (s : sched) : outcome (uart_device υ * sched) :=
  let '(line_status, u) := uread LSR (uregs d) in
  let d := set_regs u d in
  let d := if status_bit LSR_OE line_status
           then UartDev (uregs d) (uirqno d) (u32 (rxovrcnt d + 1)) (urefcnt d) (rxbuf d) (txbuf d) else d in
  '(d, s) ← (if status_bit LSR_DR line_status then uart_isr_rx dev d s else Done (d, s));
  if status_bit LSR_THRE line_status then uart_isr_tx dev d s else Done (d, s).

(** The part of [uart_open] that touches the device. *)
Definition uart_reset (d : uart_device υ) : uart_device υ :=
  let d := set_txbuf (rbuf_init (txbuf d)) (set_rxbuf (rbuf_init (rxbuf d)) d) in
  let '(_, u) := uread RBR (uregs d) in
  set_regs (uwrite IER IER_DREIE u) d.

(** The register writes that set the divisor and leave DLAB clear. *)
Definition uart_config (u : υ) : υ :=
  uwrite LCR 0 (uwrite IER 0x00 (uwrite RBR 0x01 (uwrite LCR LCR_DLAB (uwrite IER 0 u)))).

(** ** The driver in the kernel *)

Section Kernel.
Context {π D : Type} `{PlicDev π} `{DriverState D (gmap Z (uart_device υ))}.

Abbreviation kstate_uart := (kstate π D).

(** The structures of the ports by address. *)
Definition uart_devs (k : kstate_uart) : gmap Z (uart_device υ) := driver (drivers k).
Definition set_udev (dev : Z) (d : uart_device υ) (k : kstate_uart) : D := put_driver (<[dev := d]> (uart_devs k)) (drivers k).

Definition uart_isr_entry (irqno aux : Z) (k : kstate_uart) : outcome kstate_uart :=
  d ← deref (uart_devs k !! aux);
  '(d, s) ← uart_isr aux d (ksched k);
  Done (KState (plic k) (ktimer k) s (set_udev aux d k)).

(** The kernel state a driver's open function sees: the interrupt table too. *)
Definition open_state : Type := list (isr_entry π D) * kstate_uart.

Definition uart_open (aux : Z) (st : open_state) : outcome (Z * option Z * open_state) :=
  let '(tab, k) := st in
  d ← deref (uart_devs k !! aux);
  if negb (urefcnt d =? 0) then Done (- EBUSY, None, st) else
  let d := uart_reset d in
  p ← intr_enable_irq (uirqno d) tab (plic k);
  Done (0, Some aux, (tab, KState p (ktimer k) (ksched k) (set_udev aux (set_refcnt 1 d) k))).

Definition uart_open_ebusy (aux : Z) (st : open_state) : outcome (Z * option Z * open_state) :=
  Done (- EBUSY, None, st).

Definition uart_close (dev : Z) (k : kstate_uart) : outcome kstate_uart :=
  d ← deref (uart_devs k !! dev);
  Done (KState (intr_disable_irq (uirqno d) (plic k)) (ktimer k) (ksched k)
          (set_udev dev (set_regs (uwrite IER 0 (uregs d)) d) k)).

(** The name of the devices. *)
Definition ser_name : list Z := cstr [115; 101; 114] [].

(** [uart_attach] of the port at [mmio_base] with the device [u] behind it. *)
Definition uart_attach (mmio_base irqno : Z) (u : υ) (st : open_state) (devs : list (device open_state))
    : outcome (open_state * list (device open_state)) :=
  let '(tab, k) := st in
  if mmio_base =? UART0_IOBASE then
    '(_, devs) ← device_register (Some ser_name) (Some uart_open_ebusy) 0 devs;
    Done (st, devs)
  else
    '(dev, _, h) ← kcalloc 1 sizeof_uart_device (kheap (ksched k));
    let s := with_heap h (ksched k) in
    let s := condition_init (txbnotfull dev) (condition_init (rxbnotempty dev) s) in
    let zero := RBuf 0 0 (replicate (Z.to_nat SERIAL_RBUFSZ) 0) in
    let d := UartDev (uart_config u) irqno 0 0 (rbuf_init zero) (rbuf_init zero) in
    tab ← intr_register_isr irqno UART_IRQ_PRIO (Some uart_isr_entry) dev tab;
    '(_, devs) ← device_register (Some ser_name) (Some uart_open) dev devs;
    Done ((tab, KState (plic k) (ktimer k) s (set_udev dev d k)), devs).
End Kernel.

(** ** Polled input and output on UART0 *)

Definition com0_init (u : υ) : υ := uart_config u.

(** Spin until the bit of the line status is set. *)
Fixpoint spin (fuel : nat) (bits : Z) (u : υ) : outcome υ :=
  match fuel with
  | O => OutOfFuel
  | S k => let '(v, u) := uread LSR u in if status_bit bits v then Done u else spin k bits u
  end.

Definition com0_putc (fuel : nat) (c : Z) (u : υ) : outcome υ := u ← spin fuel LSR_THRE u; Done (uwrite RBR c u).
Definition com0_getc (fuel : nat) (u : υ) : outcome (Z * υ) := u ← spin fuel LSR_DR u; Done (uread RBR u).
End Uart.
Arguments write_result : clear implicits.
