(* ===== verification/UartSpec.v ===== *)
(** The serial port delivers what it receives and sends what it is given.

    The ring buffers represent bounded queues; [UartHwLaws] states what the 16550
    promises; the theorem follows a port through any sequence of arrivals,
    interrupts, reads, writes and scheduler operations. *)
From Stdlib Require Import ZArith Lia.
From stdpp Require Import base gmap list sets strings.
From S2P Require Import Prelude CString Pages Heap Pte Memory Thread ThreadLists Scheduler Lock Io Timer Plic Intr Device Uart.

Open Scope Z_scope.

(** ** Ring buffers are queues of at most 64 bytes *)

Record ring_rep (r : ringbuf) (q : list Z) : Prop := {
  rr_data : length (rdata r) = Z.to_nat SERIAL_RBUFSZ;
  rr_hpos : 0 ≤ hpos r < 2 ^ 16;
  rr_tpos : tpos r = u16 (hpos r + Z.of_nat (length q));
  rr_len : (length q ≤ Z.to_nat SERIAL_RBUFSZ)%nat;
  rr_elems : ∀ i c, q !! i = Some c → rdata r !! Z.to_nat ((hpos r + Z.of_nat i) mod SERIAL_RBUFSZ) = Some c
}.

(** The positions wrap at 2^16, a multiple of the size of the buffer. *)
Lemma u16_mod64 z : u16 z mod 64 = z mod 64.
Proof.
  unfold u16. change (2 ^ 16) with (64 * 1024). rewrite Z.rem_mul_r by lia.
  rewrite (Z.mul_comm 64). rewrite Z_mod_plus_full. apply Z.mod_mod. lia.
Qed.

Lemma u16_sub h n : 0 ≤ h < 2 ^ 16 → 0 ≤ n < 2 ^ 16 → u16 (u16 (h + n) - h) = n.
Proof.
  intros. unfold u16. rewrite Zminus_mod_idemp_l. replace (h + n - h) with n by lia. by apply Z.mod_small.
Qed.

Lemma ring_count r q : ring_rep r q → u16 (tpos r - hpos r) = Z.of_nat (length q).
Proof.
  intros [_ Hh Ht Hl _]. rewrite Ht. apply u16_sub; [done|]. unfold SERIAL_RBUFSZ in Hl. lia.
Qed.

Lemma rbuf_full_rep r q : ring_rep r q → rbuf_full r = bool_decide (length q = Z.to_nat SERIAL_RBUFSZ).
Proof.
  intros Hr. unfold rbuf_full. rewrite (ring_count _ _ Hr). unfold SERIAL_RBUFSZ. case_bool_decide; lia.
Qed.

Lemma rbuf_empty_rep r q : ring_rep r q → rbuf_empty r = bool_decide (q = []).
Proof.
  intros Hr. pose proof (ring_count _ _ Hr) as Hc. pose proof (rr_hpos _ _ Hr). pose proof (rr_len _ _ Hr) as Hl.
  unfold rbuf_empty, SERIAL_RBUFSZ in *. destruct q as [|c q].
  - rewrite bool_decide_true by done. apply Z.eqb_eq. rewrite (rr_tpos _ _ Hr). cbn [length].
    rewrite Z.add_0_r. symmetry. by apply u16_small.
  - rewrite bool_decide_false by done. apply Z.eqb_neq. intros E. rewrite E, Z.sub_diag in Hc. cbn [length] in Hc.
    change (u16 0) with 0 in Hc. lia.
Qed.

Lemma rbuf_init_rep r : length (rdata r) = Z.to_nat SERIAL_RBUFSZ → ring_rep (rbuf_init r) [].
Proof. intros Hl. split; [done|cbn [rbuf_init hpos]; lia|done|cbn [length]; lia|]. intros i c Hi. by rewrite lookup_nil in Hi. Qed.

Lemma rbuf_put_rep r q c : ring_rep r q → (length q < Z.to_nat SERIAL_RBUFSZ)%nat → ring_rep (rbuf_put r c) (q ++ [c]).
Proof.
  intros [Hd Hh Ht Hl He] Hlt. unfold SERIAL_RBUFSZ in *. split; cbn [rbuf_put rdata hpos tpos].
  - by rewrite length_insert.
  - done.
  - rewrite Ht, length_app. cbn [length]. unfold u16. rewrite Zplus_mod_idemp_l. f_equal. lia.
  - rewrite length_app. cbn [length]. unfold SERIAL_RBUFSZ. lia.
  - intros i x Hi. unfold SERIAL_RBUFSZ. rewrite Ht, u16_mod64.
    pose proof (Z.mod_pos_bound (hpos r + Z.of_nat (length q)) 64).
    destruct (decide (i = length q)) as [->|Hne].
    + rewrite list_lookup_middle in Hi by done. injection Hi as <-.
      apply list_lookup_insert_eq. rewrite Hd. lia.
    + assert (Hil : (i < length q)%nat).
      { apply lookup_lt_Some in Hi. rewrite length_app in Hi. cbn [length] in Hi. lia. }
      rewrite lookup_app_l in Hi by done. rewrite list_lookup_insert_ne; [by apply He|].
      intros E. pose proof (Z.mod_pos_bound (hpos r + Z.of_nat i) 64).
      assert (E' : (hpos r + Z.of_nat (length q)) mod 64 = (hpos r + Z.of_nat i) mod 64) by lia.
      pose proof (Z.div_mod (hpos r + Z.of_nat (length q)) 64). pose proof (Z.div_mod (hpos r + Z.of_nat i) 64). lia.
Qed.

Lemma rbuf_get_rep r q c : ring_rep r (c :: q) → ∃ r', rbuf_get r = Done (c, r') ∧ ring_rep r' q.
Proof.
  intros [Hd Hh Ht Hl He]. unfold rbuf_get. pose proof (He 0%nat c eq_refl) as H0.
  change (Z.of_nat 0) with 0 in H0. rewrite Z.add_0_r in H0. rewrite H0.
  cbn [deref mbind outcome_bind]. eexists. split; [reflexivity|]. cbn [length] in *. unfold SERIAL_RBUFSZ in *.
  split; cbn [hpos tpos rdata].
  - done.
  - apply u16_range.
  - rewrite Ht. unfold u16. rewrite Zplus_mod_idemp_l. f_equal. lia.
  - unfold SERIAL_RBUFSZ. lia.
  - intros i x Hi. unfold SERIAL_RBUFSZ. rewrite <- (He (S i) x Hi).
    rewrite <- (Zplus_mod_idemp_l (u16 _)), u16_mod64, Zplus_mod_idemp_l. do 2 f_equal. f_equal. lia.
Qed.

Lemma read_loop_rep n : ∀ q fuel acc r,
  ring_rep r q → (length q ≤ fuel)%nat →
  ∃ r', read_loop fuel n acc r = Done (acc ++ take (Z.to_nat (n - Z.of_nat (length acc))) q, r') ∧
    ring_rep r' (drop (Z.to_nat (n - Z.of_nat (length acc))) q).
Proof.
  induction q as [|c q IH]; intros fuel acc r Hr Hf.
  - exists r. rewrite take_nil, drop_nil, app_nil_r. destruct fuel; cbn [read_loop];
      rewrite (rbuf_empty_rep _ _ Hr), bool_decide_true by done; done.
  - destruct (Z.ltb_spec (Z.of_nat (length acc)) n) as [Hlt|Hge].
    + destruct fuel as [|k]; [cbn in Hf; lia|]. cbn [read_loop].
      rewrite (rbuf_empty_rep _ _ Hr), bool_decide_false by done. destruct (Z.ltb_spec (Z.of_nat (length acc)) n); [|lia].
      cbn [negb andb]. destruct (rbuf_get_rep _ _ _ Hr) as (r1 & -> & Hr1). cbn [mbind outcome_bind].
      destruct (IH k (acc ++ [c]) r1 Hr1) as (r' & -> & Hr'); [cbn in Hf; lia|]. exists r'.
      rewrite length_app in *. cbn [length] in *.
      replace (Z.to_nat (n - Z.of_nat (length acc))) with (S (Z.to_nat (n - Z.of_nat (length acc + 1)))) by lia.
      cbn [take drop]. by rewrite <- app_assoc.
    + exists r. replace (Z.to_nat (n - Z.of_nat (length acc))) with O by lia. cbn [take drop]. rewrite app_nil_r.
      split; [|done]. destruct fuel; cbn [read_loop]; (destruct (Z.ltb_spec (Z.of_nat (length acc)) n); [lia|]);
        by rewrite andb_false_r.
Qed.

Lemma write_loop_rep : ∀ buf r q, ring_rep r q →
  ∃ k r', write_loop buf r = (drop k buf, r') ∧ ring_rep r' (q ++ take k buf) ∧ (k ≤ length buf)%nat ∧
    (drop k buf ≠ [] → length (q ++ take k buf) = Z.to_nat SERIAL_RBUFSZ).
Proof.
  induction buf as [|c buf IH]; intros r q Hr; cbn [write_loop].
  - exists O, r. cbn. rewrite app_nil_r. split_and!; [done|done|lia|done].
  - rewrite (rbuf_full_rep _ _ Hr). case_bool_decide as Hfull.
    + exists O, r. cbn [take drop]. rewrite app_nil_r. split_and!; [done|done|lia|done].
    + pose proof (rr_len _ _ Hr). destruct (IH _ _ (rbuf_put_rep r q c Hr ltac:(lia))) as (k & r' & Hw & Hr' & Hk & Hd).
      exists (S k), r'. cbn [take drop]. rewrite <- app_assoc in Hr', Hd. cbn [app] in Hr', Hd.
      split_and!; [done|done|cbn; lia|done].
Qed.

(** ** What the 16550 promises *)

(** [rx] are the bytes received and not read, [tx] the bytes sent, [thre] that the
    transmit register is free, [dlab] that the divisor latch is selected.  Outside
    the driver a byte may arrive when there is room, and the transmit register
    drains. *)
Class UartHwLaws (υ : Type) `{UartHw υ} : Type := {
  rx : υ → list Z;
  tx : υ → list Z;
  thre : υ → bool;
  dlab : υ → bool;
  room : υ → Prop;
  arrive : Z → υ → υ;
  drain : υ → υ;
  line (u : υ) : list Z * list Z * bool * bool := (rx u, tx u, thre u, dlab u);
  hw_lsr u : line (uread LSR u).2 = line u ∧
    Z.testbit (uread LSR u).1 0 = bool_decide (rx u ≠ []) ∧ Z.testbit (uread LSR u).1 5 = thre u;
  hw_rbr u : dlab u = false → line (uread RBR u).2 = (tail (rx u), tx u, thre u, false) ∧
    (∀ c r, rx u = c :: r → (uread RBR u).1 = c);
  hw_thr c u : dlab u = false → thre u = true →
    rx (uwrite RBR c u) = rx u ∧ tx (uwrite RBR c u) = tx u ++ [c] ∧ dlab (uwrite RBR c u) = false;
  hw_ier u : dlab u = false → line (uread IER u).2 = line u ∧ ∀ v, line (uwrite IER v u) = line u;
  hw_arrive c u : room u → line (arrive c u) = (rx u ++ [c], tx u, thre u, dlab u);
  hw_drain u : line (drain u) = (rx u, tx u, true, dlab u)
}.

Lemma status_bit_spec n v : 0 ≤ n → status_bit (Z.shiftl 1 n) v = Z.testbit v n.
Proof.
  intros Hn. unfold status_bit. rewrite Z.shiftl_1_l. destruct (Z.testbit v n) eqn:E.
  - apply negb_true_iff, Z.eqb_neq. intros E0. assert (Hb : Z.testbit (Z.land v (2 ^ n)) n = true).
    { rewrite Z.land_spec, Z.pow2_bits_true by done. by rewrite E. }
    by rewrite E0, Z.bits_0 in Hb.
  - apply negb_false_iff, Z.eqb_eq. apply Z.bits_inj'. intros m Hm. rewrite Z.land_spec, Z.bits_0.
    destruct (decide (m = n)) as [->|]; [by rewrite E|]. rewrite Z.pow2_bits_false by done. apply andb_false_r.
Qed.

(** ** A port and its users *)

Inductive uart_event : Type :=
| EvArrive (c : Z)
| EvDrain
| EvIsr
| EvRead (n : Z)
| EvWrite (buf : list Z)
| EvSched (op : sched_op).

Section Port.
Context {υ : Type} `{UartHwLaws υ} (dev : Z).

(** One event: the bytes a read returned, the bytes a write has taken over, and
    the port and scheduler after it.  A reader or writer that had to wait calls
    again when it is resumed. *)
Definition uart_do (ev : uart_event) (d : uart_device υ) (s : sched)
    : outcome (list Z * list Z * uart_device υ * sched) :=
  match ev with
  | EvArrive c => Done ([], [], set_regs (arrive c (uregs d)) d, s)
  | EvDrain => Done ([], [], set_regs (drain (uregs d)) d, s)
  | EvIsr => '(d, s) ← uart_isr dev d s; Done ([], [], d, s)
  | EvRead n =>
      r ← uart_read dev n d s;
      match r with
      | Returned (_, data, d) s => Done (data, [], d, s)
      | Blocked _ s => Done ([], [], d, s)
      end
  | EvWrite buf =>
      r ← uart_write dev buf d s;
      match r with
      | WriteDone _ d s => Done ([], buf, d, s)
      | WriteBlocked rest _ d s => Done ([], take (length buf - length rest) buf, d, s)
      end
  | EvSched op => s ← run_op op s; Done ([], [], d, s)
  end.

(** A byte arrives only when the receiver has room; the idle thread does no I/O;
    other code does not use the port's two conditions. *)
Definition ev_allowed (ev : uart_event) (d : uart_device υ) (s : sched) : Prop :=
  match ev with
  | EvArrive _ => room (uregs d)
  | EvDrain | EvIsr => True
  | EvRead n => 0 ≤ n ∧ CURTHR s ≠ idle_thread s
  | EvWrite buf => Z.of_nat (length buf) ≤ LONG_MAX ∧ CURTHR s ≠ idle_thread s
  | EvSched op => op_allowed op s ∧ op ≠ OpWait (rxbnotempty dev) ∧ op ≠ OpWait (txbnotfull dev)
  end.

Definition arrivals (ev : uart_event) : list Z := match ev with EvArrive c => [c] | _ => [] end.

(** What has been read, written and received since the port was opened, with no
    byte pending and no thread waiting for the port. *)
Inductive port_reach : uart_device υ → sched → list Z → list Z → list Z → Prop :=
| port_open d s x :
    length (rdata (rxbuf d)) = Z.to_nat SERIAL_RBUFSZ → length (rdata (txbuf d)) = Z.to_nat SERIAL_RBUFSZ →
    dlab (uregs d) = false → tail (rx (uregs d)) = [] → tx (uregs d) = [] →
    sched_rep s x → running s → waitq x (rxbnotempty dev) = [] → waitq x (txbnotfull dev) = [] →
    port_reach (uart_reset d) s [] [] []
| port_step ev d s d' s' got sent arr r w :
    port_reach d s got sent arr → ev_allowed ev d s → uart_do ev d s = Done (r, w, d', s') →
    port_reach d' s' (got ++ r) (sent ++ w) (arr ++ arrivals ev).

(** ** The invariant *)

Record port_inv (d : uart_device υ) (s : sched) (got sent arr rq tq : list Z) (x : asched) : Prop := {
  pi_rx : ring_rep (rxbuf d) rq;
  pi_tx : ring_rep (txbuf d) tq;
  pi_dlab : dlab (uregs d) = false;
  pi_arr : arr = got ++ rq ++ rx (uregs d);
  pi_sent : sent = tx (uregs d) ++ tq;
  pi_sched : sched_rep s x;
  pi_run : running s;
  pi_rxwait : rq ≠ [] → waitq x (rxbnotempty dev) = [];
  pi_txwait : (length tq < Z.to_nat SERIAL_RBUFSZ)%nat → waitq x (txbnotfull dev) = []
}.

Lemma conds_differ : txbnotfull dev ≠ rxbnotempty dev.
Proof. unfold txbnotfull, rxbnotempty, CondObj. intros [= E]. lia. Qed.

(** The device behind the port is replaced by one with the same lines. *)
Lemma port_inv_regs d s got sent arr rq tq x u :
  line u = line (uregs d) → port_inv d s got sent arr rq tq x → port_inv (set_regs u d) s got sent arr rq tq x.
Proof.
  intros [= Hr Ht _ Hd] [? ? ? ? ? ? ? ? ?]. split; cbn [set_regs rxbuf txbuf uregs]; rewrite ?Hr, ?Ht, ?Hd; done.
Qed.

Lemma ier_set_inv bits d s got sent arr rq tq x :
  port_inv d s got sent arr rq tq x → port_inv (ier_set bits d) s got sent arr rq tq x.
Proof.
  intros Hi. unfold ier_set. destruct (hw_ier (uregs d) (pi_dlab _ _ _ _ _ _ _ _ Hi)) as [H1 _].
  destruct (uread IER (uregs d)) as [v u]. cbn in H1. apply port_inv_regs; [|done].
  assert (Hd : dlab u = false) by (injection H1 as _ _ _ ->; apply (pi_dlab _ _ _ _ _ _ _ _ Hi)).
  destruct (hw_ier u Hd) as [_ ->]. done.
Qed.
Lemma ier_clear_inv bits d s got sent arr rq tq x :
  port_inv d s got sent arr rq tq x → port_inv (ier_clear bits d) s got sent arr rq tq x.
Proof.
  intros Hi. unfold ier_clear. destruct (hw_ier (uregs d) (pi_dlab _ _ _ _ _ _ _ _ Hi)) as [H1 _].
  destruct (uread IER (uregs d)) as [v u]. cbn in H1. apply port_inv_regs; [|done].
  assert (Hd : dlab u = false) by (injection H1 as _ _ _ ->; apply (pi_dlab _ _ _ _ _ _ _ _ Hi)).
  destruct (hw_ier u Hd) as [_ ->]. done.
Qed.

(** Waking the waiters of a condition of the port, if [b]. *)
Lemma wake_inv (b : bool) c s x :
  sched_rep s x → running s →
  ∃ s' x', (if b then condition_broadcast c s else Done s) = Done s' ∧ sched_rep s' x' ∧ running s' ∧
    (b = true → waitq x' c = []) ∧ (∀ c', waitq x c' = [] → waitq x' c' = []).
Proof.
  intros Hrep Hrun. destruct b; [|by exists s, x].
  destruct (run_op_refines (OpBroadcast c) s x Hrep Hrun I) as (s' & x' & Hs & Hstep & Hrep' & Hrun' & _).
  exists s', x'. cbn [run_op] in Hs. split_and!; [done|done|done| |]; inversion Hstep; subst; cbn.
  - intros _. apply set_waitq_eq.
  - intros c' Hc'. unfold set_waitq. by case_decide.
Qed.

Lemma uart_isr_rx_inv d s got sent arr rq tq x :
  port_inv d s got sent arr rq tq x → rx (uregs d) ≠ [] →
  ∃ d' s' rq' x', uart_isr_rx dev d s = Done (d', s') ∧ port_inv d' s' got sent arr rq' tq x' ∧
    thre (uregs d') = thre (uregs d).
Proof.
  intros Hi Hne. pose proof Hi as [Hr Ht Hd Harr Hsent Hrep Hrun Hrw Htw]. unfold uart_isr_rx.
  rewrite (rbuf_full_rep _ _ Hr). case_bool_decide as Hfull; cbn [negb].
  - exists (ier_clear IER_DREIE d), s, rq, x. split_and!; [done|by apply ier_clear_inv|].
    unfold ier_clear. destruct (hw_ier (uregs d) Hd) as [H1 _]. destruct (uread IER (uregs d)) as [v u]. cbn in H1 |- *.
    injection H1 as _ _ H1 H2. rewrite <- H1. rewrite Hd in H2. destruct (hw_ier u H2) as [_ Hw].
    specialize (Hw (u8 (Z.land v (Z.lnot IER_DREIE)))). by injection Hw.
  - rewrite (rbuf_empty_rep _ _ Hr). destruct (wake_inv (bool_decide (rq = [])) (rxbnotempty dev) s x Hrep Hrun)
      as (s' & x' & -> & Hrep' & Hrun' & Hw1 & Hw2). cbn [mbind outcome_bind].
    destruct (rx (uregs d)) as [|c rest] eqn:Hrx; [done|].
    destruct (hw_rbr (uregs d) Hd) as [Hl Hc]. specialize (Hc c rest Hrx). rewrite Hrx in Hl. cbn [tail] in Hl.
    destruct (uread RBR (uregs d)) as [c' u]. cbn in Hc, Hl. subst c'. injection Hl as Hl1 Hl2 Hl3 Hl4.
    pose proof (rr_len _ _ Hr). eexists _, s', (rq ++ [c]), x'. split; [reflexivity|]. split; [|done].
    split; cbn [set_rxbuf set_regs rxbuf txbuf uregs]; try done.
    + apply rbuf_put_rep; [done|lia].
    + rewrite Harr, Hl1, <- app_assoc. done.
    + by rewrite Hl2.
    + intros _. destruct (decide (rq = [])) as [E|E]; [apply Hw1; by apply bool_decide_true|by apply Hw2, Hrw].
    + intros Hlt. by apply Hw2, Htw.
Qed.

Lemma uart_isr_tx_inv d s got sent arr rq tq x :
  port_inv d s got sent arr rq tq x → thre (uregs d) = true →
  ∃ d' s' tq' x', uart_isr_tx dev d s = Done (d', s') ∧ port_inv d' s' got sent arr rq tq' x'.
Proof.
  intros Hi Hthre. pose proof Hi as [Hr Ht Hd Harr Hsent Hrep Hrun Hrw Htw]. unfold uart_isr_tx.
  rewrite (rbuf_empty_rep _ _ Ht). case_bool_decide as Hempty; cbn [negb].
  - exists (ier_clear IER_THREIE d), s, tq, x. split; [done|by apply ier_clear_inv].
  - rewrite (rbuf_full_rep _ _ Ht). pose proof (rr_len _ _ Ht) as Hlen.
    destruct (wake_inv (bool_decide (length tq = Z.to_nat SERIAL_RBUFSZ)) (txbnotfull dev) s x Hrep Hrun)
      as (s' & x' & -> & Hrep' & Hrun' & Hw1 & Hw2). cbn [mbind outcome_bind].
    destruct tq as [|c tq]; [done|]. destruct (rbuf_get_rep _ _ _ Ht) as (r' & -> & Hr'). cbn [mbind outcome_bind].
    destruct (hw_thr c (uregs d) Hd Hthre) as (Hx1 & Hx2 & Hx3).
    eexists _, s', tq, x'. split; [reflexivity|]. split; cbn [set_txbuf set_regs rxbuf txbuf uregs]; try done.
    + by rewrite Hx1.
    + by rewrite Hx2, <- app_assoc.
    + intros Hne. by apply Hw2, Hrw.
    + intros _. destruct (decide (length (c :: tq) = Z.to_nat SERIAL_RBUFSZ)) as [E|E];
        [apply Hw1; by apply bool_decide_true|apply Hw2, Htw; lia].
Qed.

Lemma uart_isr_inv d s got sent arr rq tq x :
  port_inv d s got sent arr rq tq x →
  ∃ d' s' rq' tq' x', uart_isr dev d s = Done (d', s') ∧ port_inv d' s' got sent arr rq' tq' x'.
Proof.
  intros Hi. unfold uart_isr. destruct (hw_lsr (uregs d)) as (Hl & Hb0 & Hb5).
  destruct (uread LSR (uregs d)) as [ls u]. cbn [fst snd] in *.
  set (d1 := if status_bit LSR_OE ls then _ else _).
  assert (Hi1 : port_inv d1 s got sent arr rq tq x).
  { pose proof (port_inv_regs d s got sent arr rq tq x u Hl Hi) as Hi'. subst d1. case_match; [|done].
    destruct Hi'. by split. }
  assert (Hu : uregs d1 = u) by (subst d1; by case_match). clearbody d1.
  injection Hl as Hl1 Hl2 Hl3 Hl4. unfold LSR_DR, LSR_THRE. rewrite !status_bit_spec, Hb0, Hb5 by lia. case_bool_decide as Hne.
  - destruct (uart_isr_rx_inv d1 s got sent arr rq tq x Hi1) as (d2 & s2 & rq' & x2 & -> & Hi2 & Ht2).
    { rewrite Hu. by rewrite Hl1. }
    cbn [mbind outcome_bind]. destruct (thre (uregs d)) eqn:Hth.
    + destruct (uart_isr_tx_inv d2 s2 got sent arr rq' tq x2 Hi2) as (d3 & s3 & tq' & x3 & -> & Hi3).
      { rewrite Ht2, Hu. done. }
      by exists d3, s3, rq', tq', x3.
    + by exists d2, s2, rq', tq, x2.
  - cbn [mbind outcome_bind]. destruct (thre (uregs d)) eqn:Hth.
    + destruct (uart_isr_tx_inv d1 s got sent arr rq tq x Hi1) as (d3 & s3 & tq' & x3 & -> & Hi3).
      { rewrite Hu. done. }
      by exists d3, s3, rq, tq', x3.
    + by exists d1, s, rq, tq, x.
Qed.

(** Waiting for a condition of the port enqueues at that condition only. *)
Lemma wait_inv c s x :
  sched_rep s x → running s → CURTHR s ≠ idle_thread s →
  ∃ s' x', condition_wait c s = Done (sie s, s') ∧ sched_rep s' x' ∧ running s' ∧
    (∀ c', c' ≠ c → waitq x' c' = waitq x c').
Proof.
  intros Hrep Hrun Hne. destruct (condition_wait_rep c s x Hrep Hrun Hne) as (s' & x' & Hw & Ha & Hrep' & Hrun' & _).
  exists s', x'. split_and!; try done. intros c' Hc'. unfold a_wait, a_suspend in Ha. cbn in Ha.
  destruct (ready x); [done|]. injection Ha as <-. cbn. by apply set_waitq_ne.
Qed.

Lemma uart_read_inv n d s got sent arr rq tq x :
  port_inv d s got sent arr rq tq x → 0 ≤ n → CURTHR s ≠ idle_thread s →
  ∃ r d' s' rq' x', uart_do (EvRead n) d s = Done (r, [], d', s') ∧
    port_inv d' s' (got ++ r) sent arr rq' tq x'.
Proof.
  intros Hi Hn Hidle. pose proof Hi as [Hr Ht Hd Harr Hsent Hrep Hrun Hrw Htw]. unfold uart_do, uart_read.
  set (m := if LONG_MAX <? n then LONG_MAX else n). destruct (m =? 0).
  { exists [], d, s, rq, x. rewrite app_nil_r. by split. }
  cbn [intr_disable]. unfold uart_read_wait. rewrite (rbuf_empty_rep _ _ Hr). case_bool_decide as Hempty.
  - destruct (wait_inv (rxbnotempty dev) (with_sie false s) x) as (s' & x' & -> & Hrep' & Hrun' & Hq);
      [by apply sched_rep_sie|done|done|]. cbn [mbind outcome_bind].
    exists [], d, s', rq, x'. rewrite app_nil_r. split; [done|]. split; try done.
    intros Hlt. rewrite Hq by apply conds_differ. by apply Htw.
  - cbn [intr_enable]. rewrite (ring_count _ _ Hr).
    destruct (read_loop_rep m rq (Z.to_nat (Z.of_nat (length rq))) [] (rxbuf d) Hr) as (r' & -> & Hr'); [lia|].
    cbn [mbind outcome_bind app length]. change (Z.of_nat 0) with 0 in *. rewrite Z.sub_0_r in *.
    eexists _, _, _, (drop (Z.to_nat m) rq), x. split; [reflexivity|]. apply ier_set_inv.
    split; cbn [set_rxbuf rxbuf txbuf uregs]; try done.
    + rewrite Harr, <- app_assoc. f_equal. rewrite (app_assoc (take _ _)), take_drop. done.
    + by apply sched_rep_sie, sched_rep_sie.
    + intros Hne. apply Hrw. intros ->. by rewrite drop_nil in Hne.
Qed.

Lemma uart_write_loop_inv n : ∀ fuel buf d s got sent arr rq tq x,
  port_inv d s got sent arr rq tq x → (length buf ≤ fuel)%nat → CURTHR s ≠ idle_thread s →
  ∃ k d' s' tq' x' res, uart_write_loop fuel dev n buf d s = Done res ∧ (k ≤ length buf)%nat ∧
    (res = WriteDone n d' s' ∧ k = length buf ∨ ∃ saved, res = WriteBlocked (drop k buf) saved d' s') ∧
    port_inv d' s' got (sent ++ take k buf) arr rq tq' x'.
Proof.
  induction fuel as [|fuel IH]; intros buf d s got sent arr rq tq x Hi Hf Hidle.
  { destruct buf; [|cbn in Hf; lia]. exists O, d, s, tq, x, (WriteDone n d s). rewrite app_nil_r. split_and!; auto. }
  destruct buf as [|c buf].
  { exists O, d, s, tq, x, (WriteDone n d s). rewrite app_nil_r. cbn. split_and!; auto. }
  pose proof Hi as [Hr Ht Hd Harr Hsent Hrep Hrun Hrw Htw]. cbn [uart_write_loop intr_disable].
  rewrite (rbuf_full_rep _ _ Ht). case_bool_decide as Hfull.
  - destruct (wait_inv (txbnotfull dev) (with_sie false s) x) as (s' & x' & -> & Hrep' & Hrun' & Hq);
      [by apply sched_rep_sie|done|done|]. cbn [mbind outcome_bind].
    exists O, d, s', tq, x', (WriteBlocked (c :: buf) (sie (with_sie false s)) d s'). cbn [take drop]. rewrite app_nil_r.
    split_and!; [done|lia|right; by eexists|]. split; try done.
    + intros Hne. pose proof conds_differ. rewrite Hq by congruence. by apply Hrw.
    + intros. lia.
  - cbn [intr_enable]. destruct (write_loop_rep (c :: buf) _ _ Ht) as (k & r' & -> & Hr' & Hk & Hall).
    set (s1 := with_sie true (with_sie false s)).
    assert (Hi1 : port_inv (ier_set IER_THREIE (set_txbuf r' d)) s1 got (sent ++ take k (c :: buf)) arr rq (tq ++ take k (c :: buf)) x).
    { apply ier_set_inv. pose proof (rr_len _ _ Ht). split; cbn [set_txbuf rxbuf txbuf uregs]; try done.
      - by rewrite Hsent, app_assoc.
      - by apply sched_rep_sie, sched_rep_sie.
      - intros _. apply Htw. lia. }
    assert (Hk1 : (1 ≤ k)%nat).
    { destruct k; [|lia]. exfalso. apply Hfull. rewrite <- (Hall ltac:(done)). by rewrite app_nil_r. }
    destruct (IH (drop k (c :: buf)) _ s1 got _ arr rq _ x Hi1) as (k2 & d' & s' & tq' & x' & res & -> & Hk2 & Hres & Hi2).
    + rewrite length_drop. lia.
    + done.
    + rewrite length_drop in *. exists (k + k2)%nat, d', s', tq', x', res. split_and!; [done|lia| |].
      * rewrite drop_drop in Hres. destruct Hres as [[? ?]|?]; [left; split; [done|lia]|by right].
      * by rewrite <- app_assoc, take_take_drop in Hi2.
Qed.

Lemma uart_write_inv buf d s got sent arr rq tq x :
  port_inv d s got sent arr rq tq x → Z.of_nat (length buf) ≤ LONG_MAX → CURTHR s ≠ idle_thread s →
  ∃ w d' s' tq' x', uart_do (EvWrite buf) d s = Done ([], w, d', s') ∧
    port_inv d' s' got (sent ++ w) arr rq tq' x'.
Proof.
  intros Hi Hlen Hidle. unfold uart_do, uart_write. destruct (Z.ltb_spec LONG_MAX (Z.of_nat (length buf))); [lia|].
  destruct (uart_write_loop_inv (Z.of_nat (length buf)) (length buf) buf d s got sent arr rq tq x Hi)
    as (k & d' & s' & tq' & x' & res & -> & Hk & Hres & Hi'); [done|done|]. cbn [mbind outcome_bind].
  exists (take k buf), d', s', tq', x'. split; [|done]. destruct Hres as [[-> ->]|[saved ->]].
  - by rewrite take_ge.
  - rewrite length_drop. by replace (length buf - (length buf - k))%nat with k by lia.
Qed.

Lemma sched_inv op d s got sent arr rq tq x :
  port_inv d s got sent arr rq tq x → op_allowed op s →
  op ≠ OpWait (rxbnotempty dev) → op ≠ OpWait (txbnotfull dev) →
  ∃ s' x', run_op op s = Done s' ∧ port_inv d s' got sent arr rq tq x'.
Proof.
  intros [Hr Ht Hd Harr Hsent Hrep Hrun Hrw Htw] Hop H1 H2.
  destruct (run_op_refines op s x Hrep Hrun Hop) as (s' & x' & Hs & Hstep & Hrep' & Hrun' & _).
  assert (Hq : ∀ c, op ≠ OpWait c → waitq x c = [] → waitq x' c = []).
  { intros c Hc He. inversion Hstep as [a a' Ha E1 E2 E3|c' a a' Ha E1 E2 E3|c' a E1 E2 E3|p a a' Ha E1 E2 E3]; subst.
    - unfold a_suspend in Ha. destruct (ready x); [done|]. by injection Ha as <-.
    - unfold a_wait, a_suspend in Ha. cbn in Ha. destruct (ready x); [done|]. injection Ha as <-. cbn.
      rewrite set_waitq_ne by congruence. done.
    - cbn. unfold set_waitq. by case_decide.
    - unfold a_suspend in Ha. destruct (ready _); [done|]. injection Ha as <-. cbn. unfold set_waitq. by case_decide. }
  exists s', x'. split; [done|]. split; auto.
Qed.

Lemma port_event_inv ev d s got sent arr rq tq x :
  port_inv d s got sent arr rq tq x → ev_allowed ev d s →
  ∃ r w d' s' rq' tq' x', uart_do ev d s = Done (r, w, d', s') ∧
    port_inv d' s' (got ++ r) (sent ++ w) (arr ++ arrivals ev) rq' tq' x'.
Proof.
  intros Hi Hok. destruct ev as [c| | |n|buf|op]; cbn [ev_allowed arrivals] in *.
  - pose proof (hw_arrive c _ Hok) as [= Hx Ht Hth Hd]. destruct Hi.
    eexists [], [], _, s, rq, tq, x. split; [reflexivity|]. rewrite !app_nil_r.
    split; cbn [set_regs rxbuf txbuf uregs]; rewrite ?Hx, ?Ht, ?Hd; try done. subst arr. by rewrite !app_assoc.
  - pose proof (hw_drain (uregs d)) as [= Hx Ht Hth Hd]. destruct Hi.
    eexists [], [], _, s, rq, tq, x. split; [reflexivity|]. rewrite !app_nil_r.
    split; cbn [set_regs rxbuf txbuf uregs]; rewrite ?Hx, ?Ht, ?Hd; done.
  - destruct (uart_isr_inv _ _ _ _ _ _ _ _ Hi) as (d' & s' & rq' & tq' & x' & Hd & Hi').
    exists [], [], d', s', rq', tq', x'. cbn [uart_do]. rewrite Hd, !app_nil_r. done.
  - destruct Hok as [Hn Hidle]. destruct (uart_read_inv n _ _ _ _ _ _ _ _ Hi Hn Hidle) as (r & d' & s' & rq' & x' & Hd & Hi').
    exists r, [], d', s', rq', tq, x'. by rewrite !app_nil_r.
  - destruct Hok as [Hn Hidle]. destruct (uart_write_inv buf _ _ _ _ _ _ _ _ Hi Hn Hidle) as (w & d' & s' & tq' & x' & Hd & Hi').
    exists [], w, d', s', rq, tq', x'. by rewrite !app_nil_r.
  - destruct Hok as (Hop & H1 & H2). destruct (sched_inv op _ _ _ _ _ _ _ _ Hi Hop H1 H2) as (s' & x' & Hs & Hi').
    exists [], [], d, s', rq, tq, x'. cbn [uart_do]. rewrite Hs, !app_nil_r. done.
Qed.

Lemma uart_reset_inv d s x :
  length (rdata (rxbuf d)) = Z.to_nat SERIAL_RBUFSZ → length (rdata (txbuf d)) = Z.to_nat SERIAL_RBUFSZ →
  dlab (uregs d) = false → tail (rx (uregs d)) = [] → tx (uregs d) = [] →
  sched_rep s x → running s → waitq x (rxbnotempty dev) = [] → waitq x (txbnotfull dev) = [] →
  port_inv (uart_reset d) s [] [] [] [] [] x.
Proof.
  intros Hr Ht Hd Hx Htx Hrep Hrun Hw1 Hw2. unfold uart_reset. cbn [set_txbuf set_rxbuf uregs].
  destruct (hw_rbr (uregs d) Hd) as [Hl _]. destruct (uread RBR (uregs d)) as [v u]. cbn in Hl.
  injection Hl as Hl1 Hl2 Hl3 Hl4. destruct (hw_ier u Hl4) as [_ Hi]. specialize (Hi IER_DREIE).
  injection Hi as Hi1 Hi2 _ Hi4. split; cbn [set_regs rxbuf txbuf uregs]; try done.
  - by apply rbuf_init_rep.
  - by apply rbuf_init_rep.
  - congruence.
  - by rewrite Hi1, Hl1, Hx.
  - by rewrite Hi2, Hl2, Htx.
Qed.

(** C18: Through any sequence of arriving bytes, interrupts, reads, writes and
    scheduling, every allowed event returns; the bytes received are exactly those
    read, then those in the receive buffer, then those still in the device, in
    order and without loss; the bytes written are those sent followed by those in
    the transmit buffer; no reader waits while there is data, and no writer waits
    while there is room. *)
Theorem uart_stream d s got sent arr :
  port_reach d s got sent arr →
  (∃ rq tq x, ring_rep (rxbuf d) rq ∧ ring_rep (txbuf d) tq ∧
     arr = got ++ rq ++ rx (uregs d) ∧ sent = tx (uregs d) ++ tq ∧ sched_rep s x ∧
     (rq ≠ [] → waitq x (rxbnotempty dev) = []) ∧
     ((length tq < Z.to_nat SERIAL_RBUFSZ)%nat → waitq x (txbnotfull dev) = [])) ∧
  (∀ ev, ev_allowed ev d s → returns (uart_do ev d s)).
Proof.
  intros Hreach. assert (∃ rq tq x, port_inv d s got sent arr rq tq x) as (rq & tq & x & Hi).
  { induction Hreach as [d s x|ev d s d' s' got sent arr r w _ (rq & tq & x & Hi) Hok Hdo].
    - exists [], [], x. by apply uart_reset_inv.
    - destruct (port_event_inv ev _ _ _ _ _ _ _ _ Hi Hok) as (r1 & w1 & d1 & s1 & rq' & tq' & x' & Hd1 & Hi1).
      rewrite Hd1 in Hdo. injection Hdo as <- <- <- <-. eauto. }
  split.
  - destruct Hi. exists rq, tq, x. by split_and!.
  - intros ev Hok. destruct (port_event_inv ev _ _ _ _ _ _ _ _ Hi Hok) as (r & w & d1 & s1 & _ & _ & _ & Hd & _).
    rewrite Hd. by eexists.
Qed.
End Port.

(** ** A 16550 *)

(** A receiver with 16 bytes of FIFO; a transmitter that is free again at once. *)
Record uart16550 : Type := U16550 { h_rx : list Z; h_tx : list Z; h_thre : bool; h_ier : Z; h_dlab : bool }.

Definition h_lsr (u : uart16550) : Z := Z.lor (match h_rx u with [] => 0 | _ => 1 end) (if h_thre u then 32 else 0).

#[export] Instance uart16550_hw : UartHw uart16550 := {
  uread r u :=
    match r with
    | LSR => (h_lsr u, u)
    | RBR => if h_dlab u then (1, u) else
        (default 0 (head (h_rx u)), U16550 (tail (h_rx u)) (h_tx u) (h_thre u) (h_ier u) (h_dlab u))
    | IER => (h_ier u, u)
    | _ => (0, u)
    end;
  uwrite r v u :=
    match r with
    | RBR => if h_dlab u || negb (h_thre u) then u else U16550 (h_rx u) (h_tx u ++ [v]) false (h_ier u) (h_dlab u)
    | IER => if h_dlab u then u else U16550 (h_rx u) (h_tx u) (h_thre u) v (h_dlab u)
    | LCR => U16550 (h_rx u) (h_tx u) (h_thre u) (h_ier u) (Z.testbit v 7)
    | _ => u
    end
}.

#[export, refine] Instance uart16550_laws : UartHwLaws uart16550 := {|
  rx := h_rx; tx := h_tx; thre := h_thre; dlab := h_dlab;
  room := λ u, (length (h_rx u) < 16)%nat;
  arrive := λ c u, U16550 (h_rx u ++ [c]) (h_tx u) (h_thre u) (h_ier u) (h_dlab u);
  drain := λ u, U16550 (h_rx u) (h_tx u) true (h_ier u) (h_dlab u)
|}.
Proof.
  - intros [r t th i dl]. cbn. unfold h_lsr. cbn. destruct r, th; done.
  - intros [r t th i dl]. cbn. intros ->. split; [done|]. by intros c r' ->.
  - intros c [r t th i dl]. cbn. by intros -> ->.
  - intros [r t th i dl]. cbn. by intros ->.
  - done.
  - done.
Defined.

(** ** Witness *)

(** A byte arrives, the interrupt stores it and wakes nobody, a thread reads it. *)
Definition port_example : uart_device uart16550 :=
  UartDev (U16550 [7] [] true 0 false) 11 0 0 (RBuf 5 9 (replicate 64 0)) (RBuf 0 0 (replicate 64 0)).

Lemma uart_stream_witness :
  ∃ d s, port_reach 200 d s [65] [] [65; 66] ∧
    ∃ rq, ring_rep (rxbuf d) rq ∧ [65; 66] = [65] ++ rq ++ h_rx (uregs d).
Proof.
  assert (H0 : port_reach 200 (uart_reset port_example) lock_sched [] [] []).
  { apply (port_open 200 port_example lock_sched lock_abs); try reflexivity;
      [apply lock_sched_rep|by exists None, None, None]. }
  pose proof (λ d' s' r w, port_step 200 (EvArrive 65) _ _ d' s' _ _ _ r w H0) as Hs1.
  specialize (Hs1 _ _ _ _ ltac:(vm_compute; lia) ltac:(reflexivity)).
  pose proof (λ d' s' r w, port_step 200 EvIsr _ _ d' s' _ _ _ r w Hs1 I) as Hs2.
  specialize (Hs2 _ _ _ _ ltac:(vm_compute; reflexivity)).
  pose proof (λ d' s' r w, port_step 200 (EvArrive 66) _ _ d' s' _ _ _ r w Hs2) as Hs3.
  specialize (Hs3 _ _ _ _ ltac:(vm_compute; lia) ltac:(vm_compute; reflexivity)).
  pose proof (λ d' s' r w, port_step 200 (EvRead 4) _ _ d' s' _ _ _ r w Hs3) as Hs4.
  specialize (Hs4 _ _ _ _ ltac:(split; [lia|vm_compute; discriminate]) ltac:(vm_compute; reflexivity)).
  eexists _, _. split; [exact Hs4|].
  destruct (uart_stream 200 _ _ _ _ _ Hs4) as [(rq & tq & x & Hr & _ & Ha & _) _]. by exists rq.
Defined.
