(* ===== verification/Disk.v ===== *)
(** Block objects: an array of bytes with a position.

    [IoDisk] is the contract that the file system and the ELF loader have with the
    object they read: it reads and writes in full.  I/O literals implement it. *)
From Stdlib Require Import ZArith Lia.
From stdpp Require Import base list strings.
From S2P Require Import Prelude CString Io IoSpec.

Open Scope Z_scope.

Definition slice (off n : Z) (bs : list Z) : list Z := take (Z.to_nat n) (drop (Z.to_nat off) bs).

Definition overwrite (off : Z) (data bs : list Z) : list Z :=
  take (Z.to_nat off) bs ++ data ++ drop (Z.to_nat off + length data) bs.

Class IoDisk (δ : Type) `{IoOps δ} : Type := {
  contents : δ → list Z;
  dpos : δ → Z;
  disk_ok : δ → Prop;
  disk_range d : disk_ok d → 0 ≤ dpos d ≤ Z.of_nat (length (contents d)) ∧ Z.of_nat (length (contents d)) < 2 ^ 63;
  disk_seek p d : disk_ok d → 0 ≤ p ≤ Z.of_nat (length (contents d)) →
    ∃ d', ioseek p d = Done (0, d') ∧ disk_ok d' ∧ contents d' = contents d ∧ dpos d' = p;
  disk_getpos arg d : disk_ok d →
    ∃ r d', ioctl IOCTL_GETPOS arg d = Done (r, dpos d, d') ∧ disk_ok d' ∧ contents d' = contents d ∧ dpos d' = dpos d;
  disk_read n d : disk_ok d → 0 < n → dpos d + n ≤ Z.of_nat (length (contents d)) →
    ∃ d', ioread n d = Done (n, slice (dpos d) n (contents d), d') ∧ disk_ok d' ∧
      contents d' = contents d ∧ dpos d' = dpos d + n;
  disk_write data d : disk_ok d → data ≠ [] → dpos d + Z.of_nat (length data) ≤ Z.of_nat (length (contents d)) →
    ∃ d', iowrite data d = Done (Z.of_nat (length data), d') ∧ disk_ok d' ∧
      contents d' = overwrite (dpos d) data (contents d) ∧ dpos d' = dpos d + Z.of_nat (length data)
}.

(** Objects that can be asked for no byte at all. *)
Class IoDisk0 (δ : Type) `{IoDisk δ} : Prop := {
  disk_read_zero d : disk_ok d →
    ∃ d', ioread 0 d = Done (0, [], d') ∧ disk_ok d' ∧ contents d' = contents d ∧ dpos d' = dpos d
}.

Lemma slice_length off n bs : 0 ≤ off → 0 ≤ n → off + n ≤ Z.of_nat (length bs) → length (slice off n bs) = Z.to_nat n.
Proof. intros. unfold slice. rewrite length_take, length_drop. lia. Qed.

Lemma slice_lookup off n bs j : 0 ≤ off → (j < Z.to_nat n)%nat → slice off n bs !! j = bs !! Z.to_nat (off + Z.of_nat j).
Proof. intros. unfold slice. rewrite lookup_take_lt by done. rewrite lookup_drop. f_equal. lia. Qed.

Lemma slice_sub a off n k (bs : list Z) : 0 ≤ a → 0 ≤ off → 0 ≤ n → off + n ≤ k → slice off n (slice a k bs) = slice (off + a) n bs.
Proof.
  intros Ha Ho Hn Hk. unfold slice. rewrite skipn_firstn_comm, take_take, drop_drop. f_equal; [|f_equal]; lia.
Qed.

Lemma slice_slice off n k (bs : list Z) : 0 ≤ off → 0 ≤ n → off + n ≤ k → slice off n (slice 0 k bs) = slice off n bs.
Proof. intros Ho Hn Hk. rewrite slice_sub by lia. by rewrite Z.add_0_r. Qed.

Lemma overwrite_length off data bs : 0 ≤ off → off + Z.of_nat (length data) ≤ Z.of_nat (length bs) →
  length (overwrite off data bs) = length bs.
Proof. intros. unfold overwrite. rewrite !length_app, length_take, length_drop. lia. Qed.

Lemma overwrite_lookup off data bs o : 0 ≤ off → 0 ≤ o → off + Z.of_nat (length data) ≤ Z.of_nat (length bs) →
  overwrite off data bs !! Z.to_nat o =
    if decide (off ≤ o < off + Z.of_nat (length data)) then data !! Z.to_nat (o - off) else bs !! Z.to_nat o.
Proof.
  intros Hoff Ho Hlen. unfold overwrite.
  assert (Htake : length (take (Z.to_nat off) bs) = Z.to_nat off) by (rewrite length_take; lia).
  destruct (decide (o < off)).
  - rewrite lookup_app_l by lia. rewrite decide_False by lia. rewrite lookup_take_lt by lia. done.
  - rewrite lookup_app_r by lia. rewrite Htake. case_decide.
    + rewrite lookup_app_l by lia. f_equal. lia.
    + rewrite lookup_app_r by lia. rewrite lookup_drop. f_equal. lia.
Qed.

Lemma overwrite_nil off bs : overwrite off [] bs = bs.
Proof. unfold overwrite. cbn [length app]. rewrite Nat.add_0_r. apply take_drop. Qed.

Lemma overwrite_mid count a rest buf : 0 ≤ count → count + Z.of_nat (length (a ++ rest)) ≤ Z.of_nat (length buf) →
  overwrite (count + Z.of_nat (length a)) rest (overwrite count a buf) = overwrite count (a ++ rest) buf.
Proof.
  intros Hc Hl. rewrite length_app in Hl. apply list_eq. intros o. rewrite <- (Nat2Z.id o).
  rewrite !overwrite_lookup; rewrite ?length_app, ?overwrite_length; try lia.
  repeat case_decide; try lia; rewrite ?lookup_app_l by lia; rewrite ?lookup_app_r by lia; try done; f_equal; lia.
Qed.

Lemma slice_app off a b (bs : list Z) : 0 ≤ off → 0 ≤ a → 0 ≤ b → slice off a bs ++ slice (off + a) b bs = slice off (a + b) bs.
Proof.
  intros. unfold slice. rewrite !Z2Nat.inj_add by lia. rewrite <- drop_drop. set (l := drop (Z.to_nat off) bs).
  rewrite <- (take_drop (Z.to_nat a) l) at 3. rewrite take_app. f_equal.
  - rewrite take_take. f_equal. lia.
  - rewrite length_take. destruct (decide (Z.to_nat a ≤ length l)%nat).
    + f_equal. lia.
    + rewrite drop_ge by lia. by rewrite !take_nil.
Qed.

Lemma slice_nil off (bs : list Z) : slice off 0 bs = [].
Proof. done. Qed.

Lemma overwrite_all data bs : length data = length bs → overwrite 0 data bs = data.
Proof. intros Hl. unfold overwrite. change (Z.to_nat 0) with 0%nat. cbn [take app]. rewrite drop_ge by lia. apply app_nil_r. Qed.

(** Changing part of a block of an array and writing the block back. *)
Lemma overwrite_block a n off data bs : 0 ≤ a → 0 ≤ off → off + Z.of_nat (length data) ≤ n → a + n ≤ Z.of_nat (length bs) →
  overwrite a (overwrite off data (slice a n bs)) bs = overwrite (a + off) data bs.
Proof.
  intros Ha Ho Hn Hl. apply list_eq. intros o. rewrite <- (Nat2Z.id o).
  assert (Hsl : Z.of_nat (length (slice a n bs)) = n) by (rewrite slice_length by lia; lia).
  rewrite (overwrite_lookup a), (overwrite_lookup (a + off)); rewrite ?overwrite_length; try lia.
  case_decide; [|by rewrite decide_False by lia]. rewrite overwrite_lookup by lia. repeat case_decide; try lia.
  - f_equal. lia.
  - rewrite slice_lookup by lia. f_equal. lia.
Qed.

Lemma disk_read_any {δ} `{IoDisk0 δ} n d : disk_ok d → 0 ≤ n → dpos d + n ≤ Z.of_nat (length (contents d)) →
  ∃ d', ioread n d = Done (n, slice (dpos d) n (contents d), d') ∧ disk_ok d' ∧
    contents d' = contents d ∧ dpos d' = dpos d + n.
Proof.
  intros Hd Hn Hl. destruct (decide (n = 0)) as [->|Hne]; [|apply disk_read; [done|lia|done]].
  destruct (disk_read_zero d Hd) as (d' & Hr & Hd' & Hc & Hp). exists d'. rewrite Z.add_0_r. auto.
Qed.

(** ** I/O literals as disks *)

#[export] Program Instance iolit_disk : IoDisk io_lit := {
  contents := lit_buf;
  dpos := lit_pos;
  disk_ok l := lit_ok l ∧ lit_size l < 2 ^ 62
}.
Next Obligation. intros l [(Hp & Hs & Hb) _]. lia. Qed.
Next Obligation.
  intros p l [(Hp & Hs & Hb) Hm] Hr. eexists. rewrite iolit_seek_spec by lia. split; [done|]. split; [|done].
  unfold lit_ok. cbn. lia.
Qed.
Next Obligation. intros arg l Hok. by exists (s32 (lit_pos l)), l. Qed.
Next Obligation.
  intros n l [Hok Hm] Hn Hr. pose proof Hok as (Hp & Hs & Hb). eexists. unfold ioread. cbn [op_read iolit_ops].
  rewrite (iolit_read_spec n l Hok ltac:(lia)). replace (Z.min n (lit_size l - lit_pos l)) with n by lia.
  split; [done|]. split; [|done]. unfold lit_ok. cbn. lia.
Qed.
Next Obligation.
  intros data l [Hok Hm] Hne Hr. pose proof Hok as (Hp & Hs & Hb). unfold iowrite. cbn [op_write iolit_ops].
  destruct data as [|c data]; [done|]. cbn [iowrite_loop length]. rewrite (iolit_write_spec l (c :: data) Hok) by (cbn [length] in *; lia).
  cbn [mbind outcome_bind]. set (m := Z.of_nat (length (c :: data))) in *.
  replace (Z.min m (lit_size l - lit_pos l)) with m by lia. pose proof (length_cons c data).
  destruct (Z.ltb_spec m 0); [lia|]. destruct (Z.eqb_spec m 0); [lia|]. rewrite drop_ge by lia.
  eexists. split; [destruct data; reflexivity|].
  assert (Hov : take (Z.to_nat (lit_pos l)) (lit_buf l) ++ take (Z.to_nat m) (c :: data) ++ drop (Z.to_nat (lit_pos l + m)) (lit_buf l) =
    overwrite (lit_pos l) (c :: data) (lit_buf l)).
  { unfold overwrite. rewrite (take_ge (c :: data)) by lia. do 3 f_equal. lia. }
  cbn [lit_buf lit_pos lit_size]. rewrite Hov. split; [|done]. split; [|done].
  unfold lit_ok. cbn [lit_buf lit_pos lit_size]. rewrite overwrite_length by lia. lia.
Qed.

#[export] Instance iolit_disk0 : IoDisk0 io_lit.
Proof.
  split. intros l [Hok Hm]. pose proof Hok as (Hp & Hs & Hb). eexists. unfold ioread. cbn [op_read iolit_ops].
  rewrite (iolit_read_spec 0 l Hok ltac:(lia)). replace (Z.min 0 (lit_size l - lit_pos l)) with 0 by lia.
  split; [done|]. cbn [disk_ok contents dpos iolit_disk lit_buf lit_pos lit_size]. split; [|split; [done|lia]]. split; [|done].
  unfold lit_ok. cbn. lia.
Qed.
