(* ===== verification/Kfs.v ===== *)
(** The file system (src/src/kern/kfs.c) over any block object.

    The boot block is kept as the 4096 bytes that were read; directory names are
    compared in place.  A descriptor is an element of [fileArray]; an I/O object
    of the file system is the index of its descriptor.  [stack_hi] is the upper
    half of the 64-bit variable blockSpot, of which the code sets only the lower
    half before using it. *)
From Stdlib Require Import ZArith Lia.
From stdpp Require Import base gmap list strings.
From S2P Require Import Prelude CString Pages Heap Pte Memory Thread Lock Io.

Open Scope Z_scope.

Definition FS_BLKSZ : Z := 4096.
Definition FS_NAMELEN : Z := 32.
Definition numFiles : Z := 64.
Definition blockNumSize : Z := 4.
Definition sizeof_lock : Z := 32.

(** [f_ops] is false while the operations pointer is NULL. *)
Record file_desc : Type := FileDesc {
  f_ops : bool;
  f_refcnt : Z;
  file_pos : Z;
  file_size : Z;
  f_inode : Z;
  f_flags : Z
}.

Record kfs (δ : Type) : Type := Kfs {
  boot : list Z;
  fileArray : list file_desc;
  intSpot : Z;
  globalIO : δ;
  kfs_lock : lock
}.
Arguments Kfs {δ}.
Arguments boot {δ}.
Arguments fileArray {δ}.
Arguments intSpot {δ}.
Arguments globalIO {δ}.
Arguments kfs_lock {δ}.

(** Offsets in the boot block: the entries are 64 bytes each, after a header of 64
    bytes. *)
Definition dentry_off (x : Z) : Z := 64 + 64 * x.
Definition dentry_inode_off (x : Z) : Z := dentry_off x + 32.

(** Four bytes of an array, if they are there. *)
Definition le32_at (off : Z) (bs : list Z) : outcome Z :=
  let w := take 4 (drop (Z.to_nat off) bs) in
  if bool_decide (length w = 4%nat) then Done (le_val w) else Undefined.

(** Storing [data] at an offset of a buffer; outside the buffer it is undefined. *)
Definition store (off : Z) (data buf : list Z) : outcome (list Z) :=
  if (0 <=? off) && (off + Z.of_nat (length data) <=? Z.of_nat (length buf)) then
    Done (take (Z.to_nat off) buf ++ data ++ drop (Z.to_nat off + length data) buf)
  else Undefined.

(** An expression of type int. *)
Definition int_val (z : Z) : outcome Z :=
  if (- 2 ^ 31 <=? z) && (z <? 2 ^ 31) then Done z else Undefined.

(** ** Control operations on a descriptor *)

Definition fs_getlen (fd : file_desc) : Z * Z := (s32 (file_size fd), file_size fd).
Definition fs_getpos (fd : file_desc) : Z * Z := (s32 (file_pos fd), file_pos fd).
Definition fs_setpos (new_pos : Z) (fd : file_desc) : Z * file_desc :=
  if file_size fd <? new_pos then (- EIO, fd)
  else (0, FileDesc (f_ops fd) (f_refcnt fd) new_pos (file_size fd) (f_inode fd) (f_flags fd)).
Definition fs_getblksz (fd : file_desc) : Z * Z := (FS_BLKSZ, FS_BLKSZ).

Definition fs_ioctl (cmd arg : Z) (fd : file_desc) : Z * Z * file_desc :=
  if cmd =? IOCTL_GETLEN then (fs_getlen fd, fd) else
  if cmd =? IOCTL_GETPOS then (fs_getpos fd, fd) else
  if cmd =? IOCTL_SETPOS then let '(r, fd) := fs_setpos arg fd in (r, arg, fd) else
  if cmd =? IOCTL_GETBLKSZ then (fs_getblksz fd, fd) else
  (0, arg, fd).

(** [ioctl] on a descriptor: through its operations pointer. *)
Definition fd_ioctl (cmd arg : Z) (fd : file_desc) : outcome (Z * Z * file_desc) :=
  if f_ops fd then Done (fs_ioctl cmd arg fd) else Undefined.

Section Kfs.
Context {δ : Type} `{IoOps δ} (stack_hi : Z).

Definition set_disk (d : δ) (k : kfs δ) : kfs δ := Kfs (boot k) (fileArray k) (intSpot k) d (kfs_lock k).
Definition set_fd (spot : Z) (fd : file_desc) (k : kfs δ) : kfs δ :=
  Kfs (boot k) (<[Z.to_nat spot := fd]> (fileArray k)) (intSpot k) (globalIO k) (kfs_lock k).
Definition set_lock (lk : lock) (k : kfs δ) : kfs δ := Kfs (boot k) (fileArray k) (intSpot k) (globalIO k) lk.
Definition get_fd (spot : Z) (k : kfs δ) : outcome file_desc :=
  if spot <? 0 then Undefined else deref (fileArray k !! Z.to_nat spot).

Definition zero_desc : file_desc := FileDesc false 0 0 0 0 0.

(** ** Mounting and opening *)

Definition fs_mount (blkio : δ) (k : kfs δ) (s : sched) : outcome (Z * kfs δ * sched) :=
  '(p, h) ← kmalloc sizeof_lock (kheap s);
  let '(lk, s) := lock_init (CondObj p) (with_heap h s) in
  let files := replicate 32 zero_desc in
  '(err, data, d) ← ioread FS_BLKSZ blkio;
  b ← store 0 data (boot k);
  Done (if err =? FS_BLKSZ then 0 else - EIO, Kfs b files (intSpot k) d lk, s).

(** The loop over the directory: [n] entries from [x] on. *)
Fixpoint find_file (n : nat) (name bt : list Z) (x : Z) : outcome (option Z) :=
  match n with
  | O => Done None
  | S n =>
      r ← strcmp (Some name) (Some (drop (Z.to_nat (dentry_off x)) bt));
      if r =? 0 then Done (Some x) else find_file n name bt (x + 1)
  end.

(** The first descriptor that is not in use; without one, the variable spot stays
    uninitialised. *)
Fixpoint find_spot (files : list file_desc) (y : Z) : option Z :=
  match files with
  | [] => None
  | fd :: files => if f_flags fd =? 0 then Some y else find_spot files (y + 1)
  end.

(** The pointer variable readSize: the read overwrites its low four bytes. *)
Definition over_low32 (p : Z) (data : list Z) : Z := p - p mod 2 ^ 32 + le_val data.

Definition fs_open (name : list Z) (k : kfs δ) (s : sched) : outcome (Z * option Z * kfs δ * sched) :=
  tempPos ← find_file (Z.to_nat numFiles) name (boot k) 0;
  match tempPos with
  | None => Done (- EINVAL, None, k, s)
  | Some x =>
      w ← le32_at (dentry_inode_off x) (boot k);
      let tempIndex := s32 w in
      let spot := find_spot (take (Z.to_nat FS_NAMELEN) (fileArray k)) 0 in
      p ← int_val (tempIndex * FS_BLKSZ);
      p ← int_val (FS_BLKSZ + p);
      '(testVal, d) ← ioseek (u64 p) (globalIO k);
      let k := set_disk d k in
      if negb (testVal =? 0) then Done (- EBUSY, None, k, s) else
      '(readSize, h) ← kmalloc blockNumSize (kheap s);
      let s := with_heap h s in
      rd ← deref op_read;
      '(otherVal, data, d) ← rd blockNumSize d;
      let k := set_disk d k in
      if negb (otherVal =? blockNumSize) then Done (- EBADFMT, None, k, s) else
      let size := over_low32 readSize data in
      h ← kfree size (kheap s);
      let s := with_heap h s in
      spot ← deref spot;
      fd ← get_fd spot k;
      let fd := FileDesc true (ioref (f_refcnt fd)) 0 size (u64 tempIndex) 1 in
      let k := set_fd spot fd k in
      Done (0, Some spot, Kfs (boot k) (fileArray k) spot (globalIO k) (kfs_lock k), s)
  end.

(** [fs_close] clears the flags of the descriptor that was opened last. *)
Definition fs_close (io : Z) (k : kfs δ) (s : sched) : outcome (kfs δ * sched) :=
  fd ← get_fd io k;
  let k := set_fd io (FileDesc false (f_refcnt fd) (file_pos fd) (file_size fd) (f_inode fd) (f_flags fd)) k in
  fd ← get_fd (intSpot k) k;
  let k := set_fd (intSpot k) (FileDesc (f_ops fd) (f_refcnt fd) (file_pos fd) (file_size fd) (f_inode fd) 0) k in
  h ← kfree io (kheap s);
  h ← kfree 0 h;
  Done (k, with_heap h s).

(** ** Reading and writing *)

(** [ioread(globalIO, &x, 4)] into a fresh variable: without four bytes it is left
    uninitialised. *)
Definition read_u32 (d : δ) : outcome (option Z * δ) :=
  '(_, data, d) ← ioread blockNumSize d;
  Done (if bool_decide (length data = 4%nat) then Some (le_val data) else None, d).

(** The seek to the data of a position: the block number is looked up in the
    inode. *)
Definition block_seek (numInodes : option Z) (inode_num filePos : Z) (d : δ) : outcome δ :=
  let blockNum := s32 (filePos / FS_BLKSZ) in
  p ← int_val (blockNum * blockNumSize);
  p ← int_val (blockNumSize + p);
  '(_, d) ← ioseek (u64 (FS_BLKSZ + inode_num * FS_BLKSZ + p)) d;
  '(lo, d) ← read_u32 d;
  lo ← deref lo;
  let blockSpot := stack_hi * 2 ^ 32 + lo in
  ni ← deref numInodes;
  '(_, d) ← ioseek (u64 (u32 (FS_BLKSZ + u32 (FS_BLKSZ * ni)) + FS_BLKSZ * blockSpot + filePos mod FS_BLKSZ)) d;
  Done d.

(** How much of the block, or of the request, is moved next. *)
Definition chunk (filePos n : Z) : Z :=
  let leftInBlock := FS_BLKSZ - filePos mod FS_BLKSZ in
  if leftInBlock <=? n then leftInBlock else n.

(** The loop of [fs_read]; [count] is also the offset in the buffer. *)
Fixpoint fs_read_loop (fuel : nat) (numInodes : option Z) (inode_num filePos n count : Z) (buf : list Z)
    (fd : file_desc) (d : δ) : outcome (Z * list Z * file_desc * δ) :=
  if 0 <? n then
    match fuel with
    | O => OutOfFuel
    | S fuel =>
        d ← block_seek numInodes inode_num filePos d;
        '(leftAfter, data, d) ← ioread (chunk filePos n) d;
        buf ← store count data buf;
        let leftAfter := u64 leftAfter in
        let filePos := u64 (filePos + leftAfter) in
        '(_, _, fd) ← fd_ioctl IOCTL_SETPOS filePos fd;
        fs_read_loop fuel numInodes inode_num filePos (u64 (n - leftAfter)) (s64 (count + leftAfter)) buf fd d
    end
  else Done (count, buf, fd, d).

Fixpoint fs_write_loop (fuel : nat) (numInodes : option Z) (inode_num filePos n count : Z) (buf : list Z)
    (fd : file_desc) (d : δ) : outcome (Z * file_desc * δ) :=
  if 0 <? n then
    match fuel with
    | O => OutOfFuel
    | S fuel =>
        d ← block_seek numInodes inode_num filePos d;
        let want := chunk filePos n in
        let data := take (Z.to_nat want) (drop (Z.to_nat count) buf) in
        _ ← (if (0 <=? count) && bool_decide (length data = Z.to_nat want) then Done tt else Undefined);
        '(leftAfter, d) ← iowrite data d;
        let leftAfter := u64 leftAfter in
        let filePos := u64 (filePos + leftAfter) in
        '(_, _, fd) ← fd_ioctl IOCTL_SETPOS filePos fd;
        fs_write_loop fuel numInodes inode_num filePos (u64 (n - leftAfter)) (s64 (count + leftAfter)) buf fd d
    end
  else Done (count, fd, d).

(** The result of a read or write: the caller may have to wait for the lock. *)
Inductive fs_result : Type :=
| FsDone (rc : Z) (buf : list Z) (k : kfs δ) (s : sched)
| FsBlocked (saved : bool) (s : sched).

(** What both functions do first: the number of inodes, the length of the file and
    its position.  [None] when the inode cannot be reached. *)
Definition fs_locate (fd : file_desc) (d : δ) : outcome (option (option Z * Z * Z * file_desc) * δ) :=
  '(_, d) ← ioseek blockNumSize d;
  '(numInodes, d) ← read_u32 d;
  '(seek_two, d) ← ioseek (u64 (FS_BLKSZ + f_inode fd * FS_BLKSZ)) d;
  if negb (seek_two =? 0) then Done (None, d) else
  '(length_b, d) ← read_u32 d;
  length_b ← deref length_b;
  '(_, filePos, fd) ← fd_ioctl IOCTL_GETPOS 0 fd;
  Done (Some (numInodes, length_b, filePos, fd), d).

(** The request cut at the end of the file. *)
Definition clip (length_b filePos n : Z) : Z :=
  if length_b <? u64 (filePos + n) then u64 (length_b - filePos) else n.

(** [fs_read] with the lock held; the early return does not release it. *)
Definition fs_read_locked (io n : Z) (buf : list Z) (k : kfs δ) (s : sched) : outcome fs_result :=
  fd ← get_fd io k;
  '(loc, d) ← fs_locate fd (globalIO k);
  match loc with
  | None => Done (FsDone (- EBADFMT) buf (set_disk d k) s)
  | Some (numInodes, length_b, filePos, fd) =>
      let n := clip length_b filePos n in
      '(count, buf, fd, d) ← fs_read_loop (S (Z.to_nat n)) numInodes (f_inode fd) filePos n 0 buf fd d;
      let k := set_fd io fd (set_disk d k) in
      '(lk, s) ← lock_release (kfs_lock k) s;
      Done (FsDone count buf (set_lock lk k) s)
  end.

Definition fs_write_locked (io n : Z) (buf : list Z) (k : kfs δ) (s : sched) : outcome fs_result :=
  fd ← get_fd io k;
  '(loc, d) ← fs_locate fd (globalIO k);
  match loc with
  | None => Done (FsDone (- EBADFMT) buf (set_disk d k) s)
  | Some (numInodes, length_b, filePos, fd) =>
      let n := clip length_b filePos n in
      '(count, fd, d) ← fs_write_loop (S (Z.to_nat n)) numInodes (f_inode fd) filePos n 0 buf fd d;
      let k := set_fd io fd (set_disk d k) in
      '(lk, s) ← lock_release (kfs_lock k) s;
      Done (FsDone count buf (set_lock lk k) s)
  end.

Definition with_kfs_lock (body : kfs δ → sched → outcome fs_result) (k : kfs δ) (s : sched) : outcome fs_result :=
  r ← lock_acquire (kfs_lock k) s;
  match r with
  | Returned lk s => body (set_lock lk k) s
  | Blocked saved s => Done (FsBlocked saved s)
  end.

Definition fs_read (io n : Z) (buf : list Z) : kfs δ → sched → outcome fs_result :=
  with_kfs_lock (fs_read_locked io n buf).
Definition fs_write (io n : Z) (buf : list Z) : kfs δ → sched → outcome fs_result :=
  with_kfs_lock (fs_write_locked io n buf).
End Kfs.
Arguments fs_result : clear implicits.
