(* ===== verification/KfsSpec.v ===== *)
(** What the file system does with a well-formed image.  The block
    object is any [IoDisk]. *)
From Stdlib Require Import ZArith Lia.
From stdpp Require Import base gmap list numbers strings.
From S2P Require Import Prelude CString Pages Heap Pte Memory Thread ThreadLists Scheduler Lock Io IoSpec Disk Kfs.

Open Scope Z_scope.

Lemma store_overwrite off data buf : 0 ≤ off → off + Z.of_nat (length data) ≤ Z.of_nat (length buf) →
  store off data buf = Done (overwrite off data buf).
Proof.
  intros. unfold store. destruct (Z.leb_spec 0 off); [|lia].
  destruct (Z.leb_spec (off + Z.of_nat (length data)) (Z.of_nat (length buf))); [|lia]. done.
Qed.

(** ** Files in an image *)

Definition le32 (img : list Z) (off : Z) : Z := le_val (slice off 4 img).

(** Where byte [p] of the file of inode [i] is, in an image with [N] inodes. *)
Definition data_off (img : list Z) (N i p : Z) : Z :=
  4096 * (1 + N) + 4096 * le32 img (4096 * (1 + i) + 4 + 4 * (p / 4096)) + p mod 4096.

(** The image has [N] inodes, and inode [i] is a file of [len] bytes whose blocks
    are in the data area and are all different. *)
Record image_ok (img : list Z) (N i len : Z) : Prop := {
  im_inodes : le32 img 4 = N;
  im_len : le32 img (4096 * (1 + i)) = len;
  im_inode : 0 ≤ i < N;
  im_area : 4096 * (1 + N) < 2 ^ 32 ∧ 4096 * (1 + N) ≤ Z.of_nat (length img);
  im_size : 0 ≤ len ≤ 1023 * 4096;
  im_data : ∀ p, 0 ≤ p < len → 4096 * (1 + N) ≤ data_off img N i p < Z.of_nat (length img);
  im_inj : ∀ p q, 0 ≤ p < len → 0 ≤ q < len → data_off img N i p = data_off img N i q → p = q
}.

(** The [n] bytes of the file from position [pos] on. *)
Definition file_bytes (img : list Z) (N i pos n : Z) : list Z :=
  (λ p, img !!! Z.to_nat (data_off img N i p)) <$> seqZ pos n.

Lemma file_bytes_length img N i pos n : length (file_bytes img N i pos n) = Z.to_nat n.
Proof. unfold file_bytes. by rewrite length_fmap, length_seqZ. Qed.

Lemma file_bytes_lookup img N i pos n j : 0 ≤ j < n →
  file_bytes img N i pos n !! Z.to_nat j = Some (img !!! Z.to_nat (data_off img N i (pos + j))).
Proof.
  intros Hj. unfold file_bytes. rewrite list_lookup_fmap, lookup_seqZ_lt by lia. cbn [fmap option_fmap option_map]. do 4 f_equal. lia.
Qed.

Lemma file_bytes_slice img N i len pos n : 0 ≤ pos → 0 ≤ n → pos + n ≤ len →
  file_bytes img N i pos n = slice pos n (file_bytes img N i 0 len).
Proof.
  intros Hp Hn Hl. apply list_eq. intros o. destruct (decide (o < Z.to_nat n)%nat) as [Ho|Ho].
  - rewrite slice_lookup by lia. rewrite <- (Nat2Z.id o) at 1. rewrite !file_bytes_lookup by lia. do 4 f_equal.
  - rewrite !lookup_ge_None_2; [done| |].
    + rewrite slice_length; rewrite ?file_bytes_length; lia.
    + rewrite file_bytes_length. lia.
Qed.

Lemma file_bytes_app img N i pos a b : 0 ≤ a → 0 ≤ b →
  file_bytes img N i pos (a + b) = file_bytes img N i pos a ++ file_bytes img N i (pos + a) b.
Proof. intros. unfold file_bytes. by rewrite seqZ_app, fmap_app by done. Qed.

(** Within a block, consecutive positions are consecutive in the image. *)
Lemma data_off_block img N i p j : 0 ≤ p → 0 ≤ j < 4096 - p mod 4096 → data_off img N i (p + j) = data_off img N i p + j.
Proof.
  intros Hp Hj. pose proof (Z.div_mod p 4096). pose proof (Z.mod_pos_bound p 4096).
  assert (Hq : (p + j) / 4096 = p / 4096).
  { symmetry. apply Z.div_unique with (p mod 4096 + j); lia. }
  assert (Hr : (p + j) mod 4096 = p mod 4096 + j).
  { symmetry. apply Z.mod_unique with (p / 4096); lia. }
  unfold data_off. rewrite Hq, Hr. lia.
Qed.

Lemma chunk_range pos n : 0 ≤ pos → 0 < n → 0 < chunk pos n ≤ n ∧ chunk pos n ≤ 4096 - pos mod 4096.
Proof.
  intros. unfold chunk, FS_BLKSZ. pose proof (Z.mod_pos_bound pos 4096).
  destruct (Z.leb_spec (4096 - pos mod 4096) n); lia.
Qed.

Lemma chunk_bytes img N i len pos c : image_ok img N i len → 0 ≤ pos → 0 < c → pos + c ≤ len →
  c ≤ 4096 - pos mod 4096 →
  slice (data_off img N i pos) c img = file_bytes img N i pos c ∧ data_off img N i pos + c ≤ Z.of_nat (length img).
Proof.
  intros Him Hp Hc Hle Hb. pose proof (im_data _ _ _ _ Him pos ltac:(lia)) as H1.
  pose proof (im_data _ _ _ _ Him (pos + (c - 1)) ltac:(lia)) as H2. rewrite data_off_block in H2 by lia.
  pose proof (im_area _ _ _ _ Him) as H3. pose proof (im_inode _ _ _ _ Him) as H4.
  split; [|lia]. apply list_eq_same_length with (Z.to_nat c).
  - rewrite file_bytes_length. done.
  - apply slice_length; lia.
  - intros j x y Hj. rewrite slice_lookup by lia. unfold file_bytes. rewrite list_lookup_fmap.
    rewrite lookup_seqZ_lt by lia. cbn [fmap option_fmap option_map]. rewrite data_off_block by lia.
    rewrite list_lookup_total_alt. intros -> [= <-]. done.
Qed.

(** ** Changing the data area keeps the metadata *)

Lemma le32_same img img' B off : length img' = length img → (∀ o, 0 ≤ o < B → img' !! Z.to_nat o = img !! Z.to_nat o) →
  0 ≤ off → off + 4 ≤ B → le32 img' off = le32 img off.
Proof.
  intros Hl Hs Ho Hb. unfold le32. f_equal. apply list_eq. intros j.
  destruct (decide (j < Z.to_nat 4)%nat).
  - rewrite !slice_lookup by lia. apply Hs. lia.
  - unfold slice. rewrite !lookup_take_ge by lia. done.
Qed.

Lemma inode_word_range img N i len p : image_ok img N i len → 0 ≤ p < len →
  0 ≤ 4096 * (1 + i) + 4 + 4 * (p / 4096) ∧ 4096 * (1 + i) + 4 + 4 * (p / 4096) + 4 ≤ 4096 * (1 + N).
Proof.
  intros [_ _ ? _ ? _ _] Hp. pose proof (Z.div_pos p 4096).
  assert (p / 4096 < 1023) by (apply Z.div_lt_upper_bound; lia). lia.
Qed.

Lemma image_same img img' N i len : image_ok img N i len → length img' = length img →
  (∀ o, 0 ≤ o < 4096 * (1 + N) → img' !! Z.to_nat o = img !! Z.to_nat o) →
  image_ok img' N i len ∧ ∀ p, 0 ≤ p < len → data_off img' N i p = data_off img N i p.
Proof.
  intros Him Hl Hs.
  assert (Hd : ∀ p, 0 ≤ p < len → data_off img' N i p = data_off img N i p).
  { intros p Hp. destruct (inode_word_range _ _ _ _ p Him Hp). unfold data_off.
    rewrite (le32_same img img' (4096 * (1 + N))) by (done || lia). done. }
  split; [|done]. destruct Him as [H1 H2 H3 H4 H5 H6 H7]. split; try done.
  - rewrite (le32_same img img' (4096 * (1 + N))) by (done || lia). done.
  - rewrite (le32_same img img' (4096 * (1 + N))) by (done || lia). done.
  - by rewrite Hl.
  - intros p Hp. rewrite Hd, Hl by done. by apply H6.
  - intros p q Hp Hq. rewrite !Hd by done. by apply H7.
Qed.

(** [img'] is [img] with [n] bytes of the file, from position [pos] on, replaced by
    [data]. *)
Definition written (img img' : list Z) (N i pos n : Z) (data : list Z) : Prop :=
  length img' = length img ∧
  (∀ q, 0 ≤ q < n → img' !! Z.to_nat (data_off img N i (pos + q)) = data !! Z.to_nat q) ∧
  (∀ o, 0 ≤ o → (∀ q, 0 ≤ q < n → o ≠ data_off img N i (pos + q)) → img' !! Z.to_nat o = img !! Z.to_nat o).

Lemma written_image img img' N i len pos n data : image_ok img N i len → 0 ≤ pos → pos + n ≤ len →
  written img img' N i pos n data →
  image_ok img' N i len ∧ ∀ p, 0 ≤ p < len → data_off img' N i p = data_off img N i p.
Proof.
  intros Him Hp Hn (Hl & _ & Ho). apply image_same; [done|done|]. intros o Hr. apply Ho; [lia|].
  intros q Hq. pose proof (im_data _ _ _ _ Him (pos + q) ltac:(lia)). lia.
Qed.

(** A chunk within a block, then the rest. *)
Lemma written_chunk img img1 img2 N i len pos n c data : image_ok img N i len → 0 ≤ pos → 0 < c ≤ n → pos + n ≤ len →
  c ≤ 4096 - pos mod 4096 → (Z.to_nat c ≤ length data)%nat →
  img1 = overwrite (data_off img N i pos) (take (Z.to_nat c) data) img →
  written img1 img2 N i (pos + c) (n - c) (drop (Z.to_nat c) data) →
  written img img2 N i pos n data.
Proof.
  intros Him Hp Hc Hn Hb Hdata -> (Hl2 & Hw2 & Ho2). destruct (chunk_bytes _ _ _ _ pos c Him) as [_ Hfit]; [lia..|].
  pose proof (im_data _ _ _ _ Him pos ltac:(lia)) as Hd0. pose proof (im_inode _ _ _ _ Him) as Hin.
  assert (Hlen : length (take (Z.to_nat c) data) = Z.to_nat c) by (rewrite length_take; lia).
  set (img1 := overwrite _ _ img) in *.
  assert (Hl1 : length img1 = length img) by (apply overwrite_length; lia).
  assert (H1 : ∀ o, 0 ≤ o → img1 !! Z.to_nat o =
    if decide (data_off img N i pos ≤ o < data_off img N i pos + c) then data !! Z.to_nat (o - data_off img N i pos) else img !! Z.to_nat o).
  { intros o Ho. unfold img1. rewrite overwrite_lookup by lia. rewrite Hlen.
    replace (Z.of_nat (Z.to_nat c)) with c by lia. case_decide; [|done]. apply lookup_take_lt. lia. }
  destruct (image_same img img1 N i len Him Hl1) as [_ Hoff].
  { intros o Ho. rewrite H1 by lia. rewrite decide_False by lia. done. }
  split_and!; [lia| |].
  - intros q Hq. destruct (decide (q < c)) as [Hlt|Hge].
    + pose proof (im_data _ _ _ _ Him (pos + q) ltac:(lia)) as Hdq. pose proof Hdq as Hdq'.
      rewrite data_off_block in Hdq' by lia. rewrite Ho2; [|lia|].
      * rewrite H1 by lia. rewrite data_off_block by lia. rewrite decide_True by lia. f_equal. lia.
      * intros r Hr E. rewrite Hoff in E by lia.
        pose proof (im_inj _ _ _ _ Him (pos + q) (pos + c + r) ltac:(lia) ltac:(lia) E). lia.
    + specialize (Hw2 (q - c) ltac:(lia)). rewrite Hoff in Hw2 by lia. replace (pos + c + (q - c)) with (pos + q) in Hw2 by lia.
      rewrite Hw2, lookup_drop. f_equal. lia.
  - intros o Ho Hne. rewrite Ho2; [|done|].
    + rewrite H1 by done. rewrite decide_False; [done|]. intros Hr.
      apply (Hne (o - data_off img N i pos)); [lia|]. rewrite data_off_block by lia. lia.
    + intros q Hq E. rewrite Hoff in E by lia. apply (Hne (c + q)); [lia|]. rewrite E. f_equal. lia.
Qed.

(** [blockSpot] is eight bytes wide and the read stores four of them.  4096 times its
    value is taken modulo 2^64, so that of the other half, [stack_hi], only the low 20
    bits count: the block is found when they are zero. *)
Definition block_residue (stack_hi : Z) : Z := stack_hi mod 2 ^ 20.
Definition clean_half (stack_hi : Z) : Prop := block_residue stack_hi = 0.

(** The position that is looked for, modulo 2^64. *)
Lemma block_offset hi a b : 0 ≤ a + 4096 * b < 2 ^ 64 - block_residue hi * 2 ^ 44 →
  u64 (a + 4096 * (hi * 2 ^ 32 + b)) = block_residue hi * 2 ^ 44 + (a + 4096 * b).
Proof.
  unfold block_residue, u64. intros Hr. pose proof (Z.div_mod hi (2 ^ 20) ltac:(lia)). pose proof (Z.mod_pos_bound hi (2 ^ 20) ltac:(lia)).
  symmetry. apply (Z.mod_unique _ _ (hi / 2 ^ 20)); lia.
Qed.

Section Disk.
Context {δ : Type} `{IoDisk δ}.

Lemma read_u32_spec d : disk_ok d → dpos d + 4 ≤ Z.of_nat (length (contents d)) →
  ∃ d', read_u32 d = Done (Some (le32 (contents d) (dpos d)), d') ∧ disk_ok d' ∧
    contents d' = contents d ∧ dpos d' = dpos d + 4.
Proof.
  intros Hok Hr. destruct (disk_range d Hok) as [Hp _]. unfold read_u32, blockNumSize.
  destruct (disk_read 4 d Hok) as (d' & -> & Hok' & Hc & Hd); [lia|done|]. cbn [mbind outcome_bind].
  exists d'. rewrite bool_decide_true by (rewrite slice_length by lia; done). done.
Qed.

Lemma int_val_small z : - 2 ^ 31 ≤ z < 2 ^ 31 → int_val z = Done z.
Proof. intros. unfold int_val. destruct (Z.leb_spec (- 2 ^ 31) z); [|lia]. by destruct (Z.ltb_spec z (2 ^ 31)); [|lia]. Qed.

(** Up to the number of the block. *)
Lemma block_number hi N i len p d : disk_ok d → image_ok (contents d) N i len → 0 ≤ p < len →
  let e := 4096 * (1 + i) + 4 + 4 * (p / 4096) in
  ∃ d', disk_ok d' ∧ contents d' = contents d ∧ dpos d' = e + 4 ∧
    block_seek hi (Some N) i p d =
      '(_, d'') ← ioseek (u64 (4096 + 4096 * N + p mod 4096 + 4096 * (hi * 2 ^ 32 + le32 (contents d) e))) d'; Done d''.
Proof.
  intros Hok Him Hp e. destruct (disk_range d Hok) as [_ Hlt]. pose proof (im_data _ _ _ _ Him p Hp) as Hd.
  destruct Him as [H1 H2 H3 [H4 H5] H6 _ _]. unfold data_off in *. fold e in Hd.
  pose proof (Z.div_mod p 4096). pose proof (Z.mod_pos_bound p 4096).
  assert (0 ≤ p / 4096 ≤ 1022) by (split; [apply Z.div_pos; lia|apply Z.lt_succ_r, Z.div_lt_upper_bound; lia]).
  unfold block_seek, FS_BLKSZ, blockNumSize. rewrite s32_small by lia.
  rewrite int_val_small by lia. cbn [mbind outcome_bind]. rewrite int_val_small by lia. cbn [mbind outcome_bind].
  rewrite (u64_small (4096 + i * 4096 + _)) by lia.
  replace (4096 + i * 4096 + (4 + p / 4096 * 4)) with e by (unfold e; lia).
  destruct (disk_seek e d Hok) as (d1 & -> & Hok1 & Hc1 & Hp1); [unfold e; lia|].
  cbn [mbind outcome_bind]. destruct (read_u32_spec d1 Hok1) as (d2 & -> & Hok2 & Hc2 & Hp2); [rewrite Hc1, Hp1; unfold e; lia|].
  exists d2. rewrite Hp1, Hc1. split_and!; [done|congruence|lia|]. cbn [mbind outcome_bind deref].
  rewrite (u32_small (4096 * N)), u32_small by lia. do 3 f_equal. lia.
Qed.

Context (hi : Z).

Section Clean.
Hypothesis Hhi : clean_half hi.

Lemma block_seek_spec N i len p d : disk_ok d → image_ok (contents d) N i len → 0 ≤ p < len →
  ∃ d', block_seek hi (Some N) i p d = Done d' ∧ disk_ok d' ∧ contents d' = contents d ∧
    dpos d' = data_off (contents d) N i p.
Proof.
  intros Hok Him Hp. destruct (disk_range d Hok) as [_ Hlt]. destruct (block_number hi N i len p d Hok Him Hp) as (d2 & Hok2 & Hc2 & _ & ->).
  pose proof (im_data _ _ _ _ Him p Hp) as Hd. pose proof (im_inode _ _ _ _ Him). unfold data_off in Hd |- *.
  set (B := le32 _ _) in *. rewrite block_offset by (rewrite Hhi; lia). rewrite Hhi.
  destruct (disk_seek (0 * 2 ^ 44 + (4096 + 4096 * N + p mod 4096 + 4096 * B)) d2 Hok2) as (d3 & -> & Hok3 & Hc3 & Hp3);
    [rewrite Hc2; lia|]. cbn [mbind outcome_bind].
  exists d3. split_and!; [done|done|congruence|]. rewrite Hp3. lia.
Qed.

Definition fd_at (pos : Z) (fd : file_desc) : file_desc :=
  FileDesc (f_ops fd) (f_refcnt fd) pos (file_size fd) (f_inode fd) (f_flags fd).

Lemma fd_setpos pos fd : f_ops fd = true → pos ≤ file_size fd → fd_ioctl IOCTL_SETPOS pos fd = Done (0, pos, fd_at pos fd).
Proof.
  intros Ho Hp. unfold fd_ioctl, fs_ioctl, fs_setpos. rewrite Ho. change (IOCTL_SETPOS =? IOCTL_GETLEN) with false.
  change (IOCTL_SETPOS =? IOCTL_GETPOS) with false. change (IOCTL_SETPOS =? IOCTL_SETPOS) with true.
  destruct (Z.ltb_spec (file_size fd) pos); [lia|]. unfold fd_at. by rewrite Ho.
Qed.

Lemma fs_read_loop_spec N i len : ∀ fuel pos n count buf fd d,
  disk_ok d → image_ok (contents d) N i len → f_ops fd = true → file_size fd = len → file_pos fd = pos →
  0 ≤ pos → 0 ≤ n → pos + n ≤ len → 0 ≤ count → count + n ≤ Z.of_nat (length buf) → count + n < 2 ^ 63 →
  (Z.to_nat n < fuel)%nat →
  ∃ d', fs_read_loop hi fuel (Some N) i pos n count buf fd d =
      Done (count + n, overwrite count (file_bytes (contents d) N i pos n) buf, fd_at (pos + n) fd, d') ∧
    disk_ok d' ∧ contents d' = contents d.
Proof.
  induction fuel as [|fuel IH]; intros pos n count buf fd d Hok Him Hops Hsz Hpos Hp Hn Hle Hc Hbuf Hmax Hf; [lia|].
  cbn [fs_read_loop]. destruct (Z.ltb_spec 0 n) as [Hlt|Hz].
  - destruct (chunk_range pos n Hp Hlt) as [Hc1 Hc2]. set (c := chunk pos n) in *.
    destruct (block_seek_spec N i len pos d Hok Him) as (d1 & -> & Hok1 & Hct1 & Hp1); [lia|]. cbn [mbind outcome_bind].
    destruct (chunk_bytes _ N i len pos c Him) as [Hch1 Hch2]; [lia..|].
    destruct (disk_read c d1 Hok1) as (d2 & -> & Hok2 & Hct2 & Hp2); [lia|rewrite Hct1, Hp1; lia|]. cbn [mbind outcome_bind].
    rewrite Hct1, Hp1, Hch1. rewrite store_overwrite; rewrite ?file_bytes_length; [|lia|lia]. cbn [mbind outcome_bind].
    pose proof (im_size _ _ _ _ Him). rewrite (u64_small c) by lia. rewrite (u64_small (pos + c)), (u64_small (n - c)) by lia.
    rewrite s64_small by lia. rewrite (fd_setpos (pos + c)) by (done || lia). cbn [mbind outcome_bind].
    destruct (IH (pos + c) (n - c) (count + c) (overwrite count (file_bytes (contents d) N i pos c) buf) (fd_at (pos + c) fd) d2)
      as (d' & -> & Hok' & Hct'); rewrite ?overwrite_length; rewrite ?file_bytes_length; try done; try lia.
    { by rewrite Hct2, Hct1. }
    exists d'. split_and!; [|done|congruence]. rewrite Hct2, Hct1.
    replace (count + c + (n - c)) with (count + n) by lia. replace (pos + c + (n - c)) with (pos + n) by lia.
    pose proof (overwrite_mid count (file_bytes (contents d) N i pos c) (file_bytes (contents d) N i (pos + c) (n - c)) buf) as Hm.
    rewrite length_app, !file_bytes_length in Hm. replace (Z.of_nat (Z.to_nat c)) with c in Hm by lia.
    rewrite Hm by lia. rewrite <- file_bytes_app by lia. replace (c + (n - c)) with n by lia. done.
  - assert (n = 0) as -> by lia. exists d. split_and!; [|done|done]. rewrite !Z.add_0_r.
    subst pos. change (file_bytes (contents d) N i (file_pos fd) 0) with (@nil Z). rewrite overwrite_nil. by destruct fd.
Qed.

Lemma fs_write_loop_spec N i len : ∀ fuel pos n count buf fd d,
  disk_ok d → image_ok (contents d) N i len → f_ops fd = true → file_size fd = len → file_pos fd = pos →
  0 ≤ pos → 0 ≤ n → pos + n ≤ len → 0 ≤ count → count + n ≤ Z.of_nat (length buf) → count + n < 2 ^ 63 →
  (Z.to_nat n < fuel)%nat →
  ∃ d', fs_write_loop hi fuel (Some N) i pos n count buf fd d = Done (count + n, fd_at (pos + n) fd, d') ∧
    disk_ok d' ∧ written (contents d) (contents d') N i pos n (drop (Z.to_nat count) buf).
Proof.
  induction fuel as [|fuel IH]; intros pos n count buf fd d Hok Him Hops Hsz Hpos Hp Hn Hle Hc Hbuf Hmax Hf; [lia|].
  cbn [fs_write_loop]. destruct (Z.ltb_spec 0 n) as [Hlt|Hz].
  - destruct (chunk_range pos n Hp Hlt) as [Hc1 Hc2]. set (c := chunk pos n) in *.
    destruct (block_seek_spec N i len pos d Hok Him) as (d1 & -> & Hok1 & Hct1 & Hp1); [lia|]. cbn [mbind outcome_bind].
    destruct (chunk_bytes _ N i len pos c Him) as [_ Hch2]; [lia..|].
    set (data := take (Z.to_nat c) (drop (Z.to_nat count) buf)).
    assert (Hlen : length data = Z.to_nat c) by (unfold data; rewrite length_take, length_drop; lia).
    destruct (Z.leb_spec 0 count); [|lia]. rewrite bool_decide_true by done. cbn [andb mbind outcome_bind].
    destruct (disk_write data d1 Hok1) as (d2 & -> & Hok2 & Hct2 & Hp2);
      [by intros E; rewrite E in Hlen; cbn in Hlen; lia|rewrite Hct1, Hp1; lia|]. cbn [mbind outcome_bind].
    rewrite Hlen. replace (Z.of_nat (Z.to_nat c)) with c in * by lia.
    pose proof (im_size _ _ _ _ Him). rewrite (u64_small c) by lia. rewrite (u64_small (pos + c)), (u64_small (n - c)) by lia.
    rewrite s64_small by lia. rewrite (fd_setpos (pos + c)) by (done || lia). cbn [mbind outcome_bind].
    rewrite Hct1, Hp1 in Hct2. pose proof (im_data _ _ _ _ Him pos ltac:(lia)) as Hd0.
    pose proof (im_area _ _ _ _ Him). pose proof (im_inode _ _ _ _ Him).
    destruct (image_same (contents d) (contents d2) N i len Him) as [Him2 _].
    { rewrite Hct2. apply overwrite_length; lia. }
    { intros o Ho. rewrite Hct2, overwrite_lookup by lia. by rewrite decide_False by lia. }
    destruct (IH (pos + c) (n - c) (count + c) buf (fd_at (pos + c) fd) d2) as (d' & -> & Hok' & Hw'); try done; try lia.
    exists d'. replace (count + c + (n - c)) with (count + n) by lia. replace (pos + c + (n - c)) with (pos + n) by lia.
    split_and!; [done|done|]. eapply written_chunk; [exact Him|lia|exact (conj (proj1 Hc1) (proj2 Hc1))|lia|lia| |exact Hct2|].
    + rewrite length_drop. lia.
    + rewrite drop_drop. replace (Z.to_nat count + Z.to_nat c)%nat with (Z.to_nat (count + c)) by lia. done.
  - assert (n = 0) as -> by lia. exists d. rewrite !Z.add_0_r. split_and!; [by subst pos; destruct fd|done|].
    split_and!; [done|lia|done].
Qed.

(** ** Reading and writing a file *)

(** A usable descriptor on a well-formed file, with the lock free. *)
Record fs_ready (k : kfs δ) (s : sched) (io N len : Z) (fd : file_desc) : Prop := {
  fr_disk : disk_ok (globalIO k);
  fr_fd : 0 ≤ io ∧ fileArray k !! Z.to_nat io = Some fd;
  fr_ops : f_ops fd = true;
  fr_size : file_size fd = len;
  fr_pos : 0 ≤ file_pos fd ≤ len;
  fr_image : image_ok (contents (globalIO k)) N (f_inode fd) len;
  fr_lock : lock_tid (kfs_lock k) = -1;
  fr_sched : ∃ x, sched_rep s x;
  fr_run : running s
}.

Lemma with_free_lock body k s : lock_tid (kfs_lock k) = -1 → running s →
  ∃ lk, lock_cond lk = lock_cond (kfs_lock k) ∧ with_kfs_lock (δ := δ) body k s = body (set_lock lk k) s.
Proof.
  intros Hl (w & p & q & Hv). destruct (views_Some _ _ _ _ _ _ Hv) as (th & Hth & _).
  exists (Lock (lock_cond (kfs_lock k)) (tid th)). split; [done|]. unfold with_kfs_lock, lock_acquire, running_thread.
  rewrite Hl. change (-1 =? - UNLOCK) with true. by rewrite (get_thr_eq _ _ _ Hth).
Qed.

Lemma release_done lk s x : sched_rep s x → running s →
  ∃ s', lock_release lk s = Done (Lock (lock_cond lk) (-1), s') ∧ (∃ x', sched_rep s' x') ∧ running s'.
Proof.
  intros Hrep Hrun. destruct (run_op_refines (OpBroadcast (lock_cond lk)) s x Hrep Hrun I) as (s' & x' & Hs & _ & Hrep' & Hrun' & _).
  exists s'. unfold lock_release. cbn [run_op lock_cond] in Hs |- *. rewrite Hs. eauto.
Qed.

Lemma fs_locate_spec fd d N len : disk_ok d → f_ops fd = true → image_ok (contents d) N (f_inode fd) len →
  ∃ d', fs_locate fd d = Done (Some (Some N, len, file_pos fd, fd), d') ∧ disk_ok d' ∧ contents d' = contents d.
Proof.
  intros Hok Hops Him. destruct (disk_range d Hok) as [_ Hmax]. pose proof Him as [H1 H2 H3 [H4 H5] H6 _ _].
  unfold fs_locate, blockNumSize, FS_BLKSZ.
  destruct (disk_seek 4 d Hok) as (d1 & -> & Hok1 & Hc1 & Hp1); [lia|]. cbn [mbind outcome_bind].
  destruct (read_u32_spec d1 Hok1) as (d2 & -> & Hok2 & Hc2 & Hp2); [rewrite Hc1, Hp1; lia|]. cbn [mbind outcome_bind].
  rewrite Hc1, Hp1, H1. rewrite u64_small by lia.
  destruct (disk_seek (4096 + f_inode fd * 4096) d2 Hok2) as (d3 & -> & Hok3 & Hc3 & Hp3); [rewrite Hc2, Hc1; lia|].
  cbn [mbind outcome_bind negb]. change (0 =? 0) with true. cbn [negb].
  destruct (read_u32_spec d3 Hok3) as (d4 & -> & Hok4 & Hc4 & Hp4); [rewrite Hc3, Hc2, Hc1, Hp3; lia|]. cbn [mbind outcome_bind deref].
  rewrite Hc3, Hc2, Hc1, Hp3. replace (4096 + f_inode fd * 4096) with (4096 * (1 + f_inode fd)) by lia. rewrite H2.
  unfold fd_ioctl. rewrite Hops. cbn [mbind outcome_bind]. exists d4. split_and!; [done|done|congruence].
Qed.

Lemma clip_spec len pos n : 0 ≤ pos ≤ len → len < 2 ^ 32 → 0 ≤ n → pos + n < 2 ^ 64 → clip len pos n = Z.min n (len - pos).
Proof.
  intros. unfold clip. rewrite u64_small by lia. destruct (Z.ltb_spec len (pos + n)); [rewrite u64_small by lia|]; lia.
Qed.

Lemma fs_read_spec io n buf k s N len fd :
  fs_ready k s io N len fd → 0 ≤ n → file_pos fd + n < 2 ^ 64 →
  let cnt := Z.min n (len - file_pos fd) in
  cnt ≤ Z.of_nat (length buf) →
  ∃ k' s', fs_read hi io n buf k s =
      Done (FsDone cnt (overwrite 0 (file_bytes (contents (globalIO k)) N (f_inode fd) (file_pos fd) cnt) buf) k' s') ∧
    fs_ready k' s' io N len (fd_at (file_pos fd + cnt) fd) ∧ contents (globalIO k') = contents (globalIO k) ∧
    fileArray k' = <[Z.to_nat io := fd_at (file_pos fd + cnt) fd]> (fileArray k).
Proof.
  intros [Hok [Hio Hfd] Hops Hsz Hpos Him Hlk [x Hrep] Hrun] Hn Hov cnt Hbuf.
  pose proof (im_size _ _ _ _ Him). unfold fs_read.
  destruct (with_free_lock (fs_read_locked hi io n buf) k s Hlk Hrun) as (lk & Hlc & ->).
  unfold fs_read_locked, get_fd. destruct (Z.ltb_spec io 0); [lia|]. cbn [fileArray set_lock]. rewrite Hfd.
  cbn [deref mbind outcome_bind globalIO set_lock].
  destruct (fs_locate_spec fd (globalIO k) N len Hok Hops Him) as (d1 & -> & Hok1 & Hc1). cbn [mbind outcome_bind].
  rewrite clip_spec by lia. fold cnt. rewrite <- Hc1 in Him.
  destruct (fs_read_loop_spec N (f_inode fd) len (S (Z.to_nat cnt)) (file_pos fd) cnt 0 buf fd d1) as (d2 & -> & Hok2 & Hc2);
    try done; try lia. cbn [mbind outcome_bind].
  destruct (release_done lk s x Hrep Hrun) as (s' & Hrel & Hrep' & Hrun').
  cbn [set_fd set_disk set_lock kfs_lock]. rewrite Hrel. cbn [mbind outcome_bind]. rewrite Z.add_0_l, Hc1.
  eexists _, s'. split; [reflexivity|]. cbn [set_fd set_disk set_lock globalIO fileArray kfs_lock]. split_and!; [|congruence|done].
  split; cbn [set_fd set_disk set_lock globalIO fileArray kfs_lock fd_at f_ops file_size file_pos f_inode lock_tid]; try done; try lia.
  - split; [done|]. rewrite list_lookup_insert_eq; [done|]. by eapply lookup_lt_Some.
  - rewrite Hc2. done.
Qed.

Lemma fs_write_spec io n buf k s N len fd :
  fs_ready k s io N len fd → 0 ≤ n → file_pos fd + n < 2 ^ 64 →
  let cnt := Z.min n (len - file_pos fd) in
  cnt ≤ Z.of_nat (length buf) →
  ∃ k' s', fs_write hi io n buf k s = Done (FsDone cnt buf k' s') ∧
    fs_ready k' s' io N len (fd_at (file_pos fd + cnt) fd) ∧
    written (contents (globalIO k)) (contents (globalIO k')) N (f_inode fd) (file_pos fd) cnt buf.
Proof.
  intros [Hok [Hio Hfd] Hops Hsz Hpos Him Hlk [x Hrep] Hrun] Hn Hov cnt Hbuf.
  pose proof (im_size _ _ _ _ Him). unfold fs_write.
  destruct (with_free_lock (fs_write_locked hi io n buf) k s Hlk Hrun) as (lk & Hlc & ->).
  unfold fs_write_locked, get_fd. destruct (Z.ltb_spec io 0); [lia|]. cbn [fileArray set_lock]. rewrite Hfd.
  cbn [deref mbind outcome_bind globalIO set_lock].
  destruct (fs_locate_spec fd (globalIO k) N len Hok Hops Him) as (d1 & -> & Hok1 & Hc1). cbn [mbind outcome_bind].
  rewrite clip_spec by lia. fold cnt. rewrite <- Hc1 in Him.
  destruct (fs_write_loop_spec N (f_inode fd) len (S (Z.to_nat cnt)) (file_pos fd) cnt 0 buf fd d1) as (d2 & -> & Hok2 & Hw);
    try done; try lia. cbn [mbind outcome_bind].
  destruct (release_done lk s x Hrep Hrun) as (s' & Hrel & Hrep' & Hrun').
  cbn [set_fd set_disk set_lock kfs_lock]. rewrite Hrel. cbn [mbind outcome_bind]. rewrite Z.add_0_l.
  destruct (written_image (contents d1) (contents d2) N (f_inode fd) len (file_pos fd) cnt _ Him ltac:(lia) ltac:(lia) Hw) as [Him2 _]. rewrite Hc1 in Hw.
  eexists _, s'. split; [reflexivity|]. cbn [set_fd set_disk set_lock globalIO fileArray kfs_lock]. split; [|done].
  split; cbn [set_fd set_disk set_lock globalIO fileArray kfs_lock fd_at f_ops file_size file_pos f_inode lock_tid]; try done; try lia.
  split; [done|]. rewrite list_lookup_insert_eq; [done|]. by eapply lookup_lt_Some.
Qed.

Lemma written_bytes img img' N i len pos n data : image_ok img N i len → 0 ≤ pos → 0 ≤ n → pos + n ≤ len →
  n ≤ Z.of_nat (length data) → written img img' N i pos n data → file_bytes img' N i pos n = take (Z.to_nat n) data.
Proof.
  intros Him Hp Hn Hle Hdata Hw. destruct (written_image _ _ _ _ _ pos n _ Him Hp Hle Hw) as [_ Hoff]. destruct Hw as (_ & Hw & _).
  apply list_eq_same_length with (Z.to_nat n).
  - rewrite length_take. lia.
  - apply file_bytes_length.
  - intros j x y Hj. unfold file_bytes. rewrite list_lookup_fmap, lookup_seqZ_lt by lia.
    cbn [fmap option_fmap option_map]. rewrite Hoff by lia. rewrite list_lookup_total_alt, Hw by lia.
    rewrite lookup_take_lt, Nat2Z.id by lia. by intros [= <-] ->.
Qed.

End Clean.

(** C27: When the low 20 bits of the uninitialised half of [blockSpot] are zero, writing to
    a file and reading back from the same position returns what was written, up to the
    end of the file, which a write never extends; any file that shares no byte with it
    reads as before. *)
Theorem fs_write_read io n buf buf2 k s N len fd : clean_half hi →
  fs_ready k s io N len fd → 0 ≤ n → file_pos fd + n < 2 ^ 64 →
  let cnt := Z.min n (len - file_pos fd) in
  cnt ≤ Z.of_nat (length buf) → cnt ≤ Z.of_nat (length buf2) →
  ∃ k1 s1 fd1 k2 s2,
    fs_write hi io n buf k s = Done (FsDone cnt buf k1 s1) ∧ get_fd io k1 = Done fd1 ∧
    let '(r, _, fd2) := fs_ioctl IOCTL_SETPOS (file_pos fd) fd1 in
    r = 0 ∧
    fs_read hi io cnt buf2 (set_fd io fd2 k1) s1 =
      Done (FsDone cnt (overwrite 0 (take (Z.to_nat cnt) buf) buf2) k2 s2) ∧
    (∀ j lenj, image_ok (contents (globalIO k)) N j lenj →
       (∀ p q, 0 ≤ p < lenj → 0 ≤ q < len →
          data_off (contents (globalIO k)) N j p ≠ data_off (contents (globalIO k)) N (f_inode fd) q) →
       file_bytes (contents (globalIO k1)) N j 0 lenj = file_bytes (contents (globalIO k)) N j 0 lenj).
Proof.
  intros Hhi Hr Hn Hov cnt Hb1 Hb2. destruct (fs_write_spec Hhi io n buf k s N len fd Hr Hn Hov Hb1) as (k1 & s1 & Hw & Hr1 & Hwr).
  fold cnt in Hw, Hr1, Hwr. pose proof Hr as [_ _ _ Hsz Hpos Him _ _ _]. pose proof (im_size _ _ _ _ Him).
  set (fd1 := fd_at (file_pos fd + cnt) fd) in *. destruct (fr_fd _ _ _ _ _ _ Hr1) as [Hio Hfd1].
  assert (Hset : fs_ioctl IOCTL_SETPOS (file_pos fd) fd1 = (0, file_pos fd, fd_at (file_pos fd) fd1)).
  { pose proof (fd_setpos (file_pos fd) fd1 (fr_ops _ _ _ _ _ _ Hr1)) as E. unfold fd_ioctl in E.
    rewrite (fr_ops _ _ _ _ _ _ Hr1) in E. cbn [fd1 fd_at file_size] in E. rewrite Hsz in E. specialize (E ltac:(lia)).
    by injection E. }
  assert (Hr2 : fs_ready (set_fd io (fd_at (file_pos fd) fd1) k1) s1 io N len (fd_at (file_pos fd) fd1)).
  { destruct Hr1. split; try done. cbn [set_fd fileArray]. split; [done|]. apply list_lookup_insert_eq. by eapply lookup_lt_Some. }
  destruct (fs_read_spec Hhi io cnt buf2 _ _ _ _ _ Hr2) as (k2 & s2 & Hrd & _); [lia|cbn [fd_at file_pos]; lia|cbn [fd_at file_pos]; lia|].
  exists k1, s1, fd1, k2, s2. split; [done|]. split; [unfold get_fd; destruct (Z.ltb_spec io 0); [lia|]; by rewrite Hfd1|].
  rewrite Hset. split; [done|]. split.
  - cbn [fd_at file_pos f_inode fd1 set_fd globalIO] in Hrd. replace (Z.min cnt (len - file_pos fd)) with cnt in Hrd by lia.
    rewrite (written_bytes (contents (globalIO k)) (contents (globalIO k1)) N (f_inode fd) len (file_pos fd) cnt buf Him ltac:(lia) ltac:(lia) ltac:(lia) Hb1 Hwr) in Hrd. exact Hrd.
  - intros j lenj Hj Hdisj. destruct Hwr as (Hl & _ & Ho).
    assert (Hother : ∀ o, 0 ≤ o → (∀ q, 0 ≤ q < len → o ≠ data_off (contents (globalIO k)) N (f_inode fd) q) →
      contents (globalIO k1) !! Z.to_nat o = contents (globalIO k) !! Z.to_nat o).
    { intros o Hoo Hne. apply Ho; [done|]. intros q Hq. apply Hne. lia. }
    destruct (image_same _ (contents (globalIO k1)) N j lenj Hj Hl) as [_ Hoff].
    { intros o Hoo. apply Hother; [lia|]. intros q Hq. pose proof (im_data _ _ _ _ Him q ltac:(lia)). lia. }
    unfold file_bytes. apply list_fmap_ext. intros p0 p Hp. apply lookup_seqZ in Hp as [-> Hp]. rewrite Hoff by lia.
    rewrite !list_lookup_total_alt. f_equal. pose proof (im_data _ _ _ _ Hj (0 + Z.of_nat p0) ltac:(lia)).
    pose proof (im_inode _ _ _ _ Hj). apply Hother; [lia|]. intros q Hq. apply Hdisj; lia.
Qed.

(** ** From mounting to reading *)

Lemma sched_rep_heap h s x : sched_rep s x → sched_rep (with_heap h s) x.
Proof. by intros [? ? ? ? ? ? ?]; split. Qed.

Lemma sched_rep_init c s x : sched_rep s x → waitq x c = [] → sched_rep (condition_init c s) x.
Proof.
  intros [[Hl Hw] ? ? ? ? ? ?] Hc.
  assert (Hother : ∀ l ts, l ≠ Some c → tl_rep s l ts → tl_rep (condition_init c s) l ts).
  { intros l ts Hne (H1' & H2' & H3' & H4'). unfold tl_rep, get_list, condition_init, tlclear, set_list in *.
    cbn [tlists with_lists]. rewrite lookup_insert_ne by congruence. done. }
  split; try done. split; [by apply Hother|]. intros c'. destruct (decide (c' = c)) as [->|Hne].
  - rewrite Hc. unfold tl_rep, get_list, condition_init, tlclear, set_list. cbn [tlists with_lists].
    rewrite lookup_insert_eq. split_and!; [done|done|constructor|done].
  - apply Hother; [congruence|done].
Qed.

(** The directory of an image: entry [x] has the name [nm] and the inode [i], and no
    earlier entry has this name. *)
Record dir_entry (img : list Z) (x : Z) (nm : list Z) (i : Z) : Prop := {
  de_slot : 0 ≤ x < 63;
  de_name : is_str nm ∧ (length nm < 32)%nat ∧ ∃ r, drop (Z.to_nat (dentry_off x)) img = cstr nm r;
  de_first : ∀ y, 0 ≤ y < x → ∃ nm' r, is_str nm' ∧ (length nm' < 32)%nat ∧ nm' ≠ nm ∧
    drop (Z.to_nat (dentry_off y)) img = cstr nm' r;
  de_inode : le32 img (dentry_inode_off x) = i
}.

Lemma boot_name img nm r y : 0 ≤ y < 63 → (length nm < 32)%nat → drop (Z.to_nat (dentry_off y)) img = cstr nm r →
  ∃ r', drop (Z.to_nat (dentry_off y)) (take 4096 img) = cstr nm r'.
Proof.
  intros Hy Hl Hd. unfold dentry_off in *. rewrite skipn_firstn_comm, Hd. unfold cstr.
  exists (take (4096 - Z.to_nat (64 + 64 * y) - length nm - 1) r). rewrite take_app, take_ge by lia. f_equal.
  replace (4096 - Z.to_nat (64 + 64 * y) - length nm)%nat with (S (4096 - Z.to_nat (64 + 64 * y) - length nm - 1))%nat by lia.
  cbn [take]. do 2 f_equal. lia.
Qed.

Lemma find_file_spec img x nm i rest : dir_entry img x nm i →
  find_file (Z.to_nat numFiles) (cstr nm rest) (take 4096 img) 0 = Done (Some x).
Proof.
  intros [Hx (Hnm & Hl & r & Hd) Hfirst _].
  cut (∀ n y, 0 ≤ y ≤ x → (Z.to_nat (x - y) < n)%nat → find_file n (cstr nm rest) (take 4096 img) y = Done (Some x)).
  { intros Hcut. apply Hcut; [lia|]. unfold numFiles. lia. }
  induction n as [|n IH]; intros y Hy Hn; [lia|]. cbn [find_file]. destruct (decide (y = x)) as [->|Hne].
  - destruct (boot_name img nm r x Hx Hl Hd) as (r' & ->). cbn [strcmp]. rewrite strcmp_loop_cstr by done.
    cbn [mbind outcome_bind]. rewrite (proj2 (bytes_compare_eq nm nm) eq_refl). done.
  - destruct (Hfirst y) as (nm' & r0 & Hs & Hl' & Hdiff & Hd'); [lia|].
    destruct (boot_name img nm' r0 y ltac:(lia) Hl' Hd') as (r' & ->). cbn [strcmp]. rewrite strcmp_loop_cstr by done.
    cbn [mbind outcome_bind]. destruct (Z.eqb_spec (bytes_compare nm nm') 0) as [E|_].
    { apply bytes_compare_eq in E. by subst. }
    apply IH; lia.
Qed.

Lemma le32_boot img x : 0 ≤ x < 63 → 4096 ≤ Z.of_nat (length img) →
  le32_at (dentry_inode_off x) (take 4096 img) = Done (le32 img (dentry_inode_off x)).
Proof.
  intros Hx Hl. unfold le32_at, le32, slice, dentry_inode_off, dentry_off. rewrite skipn_firstn_comm, take_take.
  replace (4 `min` (4096 - Z.to_nat (64 + 64 * x + 32)))%nat with (Z.to_nat 4) by lia.
  rewrite bool_decide_true; [done|]. rewrite length_take, length_drop. lia.
Qed.

Lemma disk_raw_read n d : disk_ok d → 0 < n → dpos d + n ≤ Z.of_nat (length (contents d)) →
  ∃ rd d', op_read = Some rd ∧ rd n d = Done (n, slice (dpos d) n (contents d), d') ∧ disk_ok d' ∧
    contents d' = contents d.
Proof.
  intros Hok Hn Hr. destruct (disk_read n d Hok Hn Hr) as (d' & Hrd & Hok' & Hc & _). unfold ioread in Hrd.
  destruct op_read as [rd|] eqn:E; [eauto 10|]. injection Hrd as Hrd. unfold ENOTSUP in Hrd. lia.
Qed.

Lemma fs_open_spec img x nm i rest N len k s p h :
  disk_ok (globalIO k) → contents (globalIO k) = img → boot k = take 4096 img → fileArray k = replicate 32 zero_desc →
  dir_entry img x nm i → image_ok img N i len → i < 2 ^ 19 - 1 →
  kmalloc blockNumSize (kheap s) = Done (p, h) → 0 ≤ p < 2 ^ 32 →
  ∃ k' , fs_open (cstr nm rest) k s = Done (0, Some 0, k', with_heap h s) ∧
    disk_ok (globalIO k') ∧ contents (globalIO k') = img ∧ kfs_lock k' = kfs_lock k ∧
    fileArray k' !! 0%nat = Some (FileDesc true 1 0 len i 1).
Proof.
  intros Hok Hc Hb Hf Hde Him Hi Hk Hp. pose proof Him as [H1 H2 H3 [H4 H5] H6 _ _]. pose proof (de_slot _ _ _ _ Hde) as Hx.
  destruct (disk_range _ Hok) as [_ Hmax]. rewrite Hc in Hmax.
  unfold fs_open. rewrite Hb, (find_file_spec img x nm i rest Hde). cbn [mbind outcome_bind].
  rewrite le32_boot by lia. rewrite (de_inode _ _ _ _ Hde). cbn [mbind outcome_bind]. unfold FS_BLKSZ.
  rewrite (s32_small i), int_val_small by lia. cbn [mbind outcome_bind]. rewrite int_val_small by lia. cbn [mbind outcome_bind].
  rewrite (u64_small (4096 + _)) by lia.
  destruct (disk_seek (4096 + i * 4096) (globalIO k) Hok) as (d1 & -> & Hok1 & Hc1 & Hp1); [rewrite Hc; lia|].
  cbn [mbind outcome_bind]. change (0 =? 0) with true. cbn [negb]. rewrite Hk. cbn [mbind outcome_bind].
  destruct (disk_raw_read blockNumSize d1 Hok1) as (rd & d2 & -> & Hrd & Hok2 & Hc2);
    [done|rewrite Hc1, Hc, Hp1; unfold blockNumSize; lia|]. cbn [deref mbind outcome_bind]. rewrite Hrd. cbn [mbind outcome_bind].
  change (blockNumSize =? blockNumSize) with true. cbn [negb]. unfold kfree. cbn [mbind outcome_bind].
  cbn [set_disk fileArray boot intSpot kfs_lock globalIO]. rewrite Hf. change (find_spot (take _ (replicate 32 zero_desc)) 0) with (Some 0).
  cbn [deref mbind outcome_bind]. unfold get_fd. cbn [set_disk fileArray set_fd boot globalIO kfs_lock intSpot]. rewrite Hf.
  change (0 <? 0) with false. cbn [mbind outcome_bind].
  change (replicate 32 zero_desc !! Z.to_nat 0) with (Some zero_desc). cbn [deref mbind outcome_bind f_refcnt zero_desc].
  rewrite (u64_small i) by lia.
  assert (Hsize : over_low32 p (slice (dpos d1) blockNumSize (contents d1)) = len).
  { unfold over_low32. rewrite Z.mod_small by lia. rewrite Hp1, Hc1, Hc. replace (4096 + i * 4096) with (4096 * (1 + i)) by lia.
    change (le_val _) with (le32 img (4096 * (1 + i))). lia. }
  rewrite Hsize. eexists. split; [reflexivity|].
  split_and!; [done|cbn [globalIO set_fd]; congruence|done|reflexivity].
Qed.

Lemma mount_open_ready d k s x ax nm i N len rest p h p2 h2 :
  disk_ok d → dpos d = 0 → 4096 ≤ Z.of_nat (length (contents d)) → length (boot k) = 4096%nat →
  dir_entry (contents d) x nm i → image_ok (contents d) N i len → i < 2 ^ 19 - 1 →
  sched_rep s ax → running s → waitq ax (CondObj p) = [] →
  kmalloc sizeof_lock (kheap s) = Done (p, h) → kmalloc blockNumSize h = Done (p2, h2) → 0 ≤ p2 < 2 ^ 32 →
  ∃ k1 s1 k2,
    fs_mount d k s = Done (0, k1, s1) ∧
    fs_open (cstr nm rest) k1 s1 = Done (0, Some 0, k2, with_heap h2 s1) ∧
    s1 = condition_init (CondObj p) (with_heap h s) ∧ contents (globalIO k2) = contents d ∧
    fs_ready k2 (with_heap h2 s1) 0 N len (FileDesc true 1 0 len i 1).
Proof.
  intros Hok Hd0 Hlen Hboot Hde Him Hi Hrep Hrun Hw Hk1 Hk2 Hp2. unfold fs_mount. rewrite Hk1. cbn [mbind outcome_bind].
  unfold lock_init. destruct (disk_read FS_BLKSZ d Hok) as (d1 & -> & Hok1 & Hc1 & _); [done|rewrite Hd0; exact Hlen|].
  cbn [mbind outcome_bind]. rewrite Hd0.
  assert (Hsl : slice 0 FS_BLKSZ (contents d) = take 4096 (contents d)) by reflexivity. rewrite Hsl.
  rewrite store_overwrite; rewrite ?length_take, ?Hboot; [|lia|lia]. cbn [mbind outcome_bind].
  assert (Hov : overwrite 0 (take 4096 (contents d)) (boot k) = take 4096 (contents d)).
  { unfold overwrite. change (Z.to_nat 0) with 0%nat. cbn [take app]. rewrite drop_ge; [apply app_nil_r|].
    rewrite length_take. lia. }
  rewrite Hov. change (FS_BLKSZ =? FS_BLKSZ) with true.
  set (s1 := condition_init (CondObj p) (with_heap h s)).
  set (k1 := Kfs (take 4096 (contents d)) (replicate 32 zero_desc) (intSpot k) d1 (Lock (CondObj p) (-1))).
  assert (Hrep1 : sched_rep s1 ax) by (apply sched_rep_init; [by apply sched_rep_heap|done]).
  destruct (fs_open_spec (contents d) x nm i rest N len k1 s1 p2 h2) as (k2 & Ho & Hok2 & Hc2 & Hlk2 & Hfd2); try done.
  exists k1, s1, k2. do 4 (split; [done|]). pose proof (im_size _ _ _ _ Him).
  split; cbn [f_ops file_size file_pos f_inode]; try done; try lia.
  - by rewrite Hc2.
  - by rewrite Hlk2.
  - exists ax. by apply sched_rep_heap.
Qed.

Lemma mount_open_read_spec d k s x ax nm i N len rest n buf p h p2 h2 : clean_half hi →
  disk_ok d → dpos d = 0 → 4096 ≤ Z.of_nat (length (contents d)) → length (boot k) = 4096%nat →
  dir_entry (contents d) x nm i → image_ok (contents d) N i len → i < 2 ^ 19 - 1 →
  sched_rep s ax → running s → waitq ax (CondObj p) = [] →
  kmalloc sizeof_lock (kheap s) = Done (p, h) → kmalloc blockNumSize h = Done (p2, h2) → 0 ≤ p2 < 2 ^ 32 →
  0 ≤ n < 2 ^ 63 → Z.min n len ≤ Z.of_nat (length buf) →
  ∃ k1 s1 k2 s2 k3 s3,
    fs_mount d k s = Done (0, k1, s1) ∧
    fs_open (cstr nm rest) k1 s1 = Done (0, Some 0, k2, s2) ∧
    fs_read hi 0 n buf k2 s2 =
      Done (FsDone (Z.min n len) (overwrite 0 (file_bytes (contents d) N i 0 (Z.min n len)) buf) k3 s3).
Proof.
  intros Hhi Hok Hd0 Hlen Hboot Hde Him Hi Hrep Hrun Hw Hk1 Hk2 Hp2 Hn Hbuf.
  destruct (mount_open_ready d k s x ax nm i N len rest p h p2 h2) as (k1 & s1 & k2 & Hm & Ho & Hs & Hc2 & Hr2); try done.
  pose proof (im_size _ _ _ _ Him).
  destruct (fs_read_spec Hhi 0 n buf k2 _ N len _ Hr2) as (k3 & s3 & Hrd & _); cbn [file_pos f_inode] in *; [lia|lia|rewrite Z.sub_0_r; lia|].
  rewrite Z.sub_0_r, Hc2 in Hrd. exists k1, s1, k2, (with_heap h2 s1), k3, s3. done.
Qed.

(** Mounting an image, opening the file of a name in its directory and reading
    [n] bytes, with a clean half, returns the first [n] bytes of that file, or the whole file when it is
    shorter. *)
Theorem fs_mount_open_read d k s x ax nm i N len rest n buf p h p2 h2 : clean_half hi →
  disk_ok d → dpos d = 0 → 4096 ≤ Z.of_nat (length (contents d)) → length (boot k) = 4096%nat →
  dir_entry (contents d) x nm i → image_ok (contents d) N i len → i < 2 ^ 19 - 1 →
  sched_rep s ax → running s → waitq ax (CondObj p) = [] →
  kmalloc sizeof_lock (kheap s) = Done (p, h) → kmalloc blockNumSize h = Done (p2, h2) → 0 ≤ p2 < 2 ^ 32 →
  0 ≤ n < 2 ^ 63 → Z.min n len ≤ Z.of_nat (length buf) →
  ∃ k1 s1 k2 s2 k3 s3,
    fs_mount d k s = Done (0, k1, s1) ∧
    fs_open (cstr nm rest) k1 s1 = Done (0, Some 0, k2, s2) ∧
    fs_read hi 0 n buf k2 s2 =
      Done (FsDone (Z.min n len) (overwrite 0 (file_bytes (contents d) N i 0 (Z.min n len)) buf) k3 s3).
Proof. apply mount_open_read_spec. Qed.

(** [fs_close] takes the operations of the file away. *)
Lemma fs_close_spec io (k : kfs δ) s fd : get_fd io k = Done fd → 0 ≤ intSpot k < Z.of_nat (length (fileArray k)) →
  ∃ k', fs_close io k s = Done (k', s) ∧ ∃ fd', get_fd io k' = Done fd' ∧ f_ops fd' = false.
Proof.
  intros Hfd Hr. unfold fs_close. rewrite Hfd. cbn [mbind outcome_bind]. unfold get_fd in Hfd |- *.
  destruct (Z.ltb_spec io 0); [done|]. apply deref_Done in Hfd. pose proof (lookup_lt_Some _ _ _ Hfd) as Hlt.
  cbn [set_fd fileArray intSpot]. destruct (Z.ltb_spec (intSpot k) 0); [lia|].
  set (F := FileDesc false _ _ _ _ _). set (A := <[Z.to_nat io := F]> (fileArray k)).
  destruct (lookup_lt_is_Some_2 A (Z.to_nat (intSpot k))) as [fi Hfi]; [unfold A; rewrite length_insert; lia|].
  rewrite Hfi. cbn [deref mbind outcome_bind kfree]. replace (with_heap (kheap s) s) with s by (by destruct s).
  eexists. split; [reflexivity|]. cbn [set_fd fileArray]. destruct (decide (io = intSpot k)) as [->|Hne].
  - rewrite list_lookup_insert_eq by (unfold A; rewrite length_insert; lia). eexists. split; [reflexivity|]. cbn [f_ops].
    unfold A in Hfi. rewrite list_lookup_insert_eq in Hfi by lia. by injection Hfi as <-.
  - rewrite list_lookup_insert_ne by lia. unfold A. rewrite list_lookup_insert_eq by lia. by eexists.
Qed.

(** Closing a file does not free its descriptor but that of the file opened
    last: after [fs_close] of another file, the descriptor of the last opened file
    counts as unused although the file is open, and [fs_open] takes it (or an
    earlier unused one) again; the closed file's descriptor stays in use. *)
Theorem fs_close_wrong_descriptor io (k : kfs δ) s fd fdl :
  io ≠ intSpot k → 0 ≤ io → 0 ≤ intSpot k < FS_NAMELEN →
  get_fd io k = Done fd → get_fd (intSpot k) k = Done fdl → f_flags fd = 1 → f_flags fdl = 1 →
  ∃ k' fd' fdl', fs_close io k s = Done (k', s) ∧ get_fd io k' = Done fd' ∧ get_fd (intSpot k) k' = Done fdl' ∧
    f_flags fd' = 1 ∧ f_flags fdl' = 0 ∧ f_ops fdl' = f_ops fdl ∧
    ∃ y, find_spot (take (Z.to_nat FS_NAMELEN) (fileArray k')) 0 = Some y ∧ y ≤ intSpot k.
Proof.
  intros Hne Hio Hsp Hfd Hfdl Hf1 Hf2. unfold fs_close, get_fd in *. destruct (Z.ltb_spec io 0); [lia|].
  destruct (Z.ltb_spec (intSpot k) 0); [lia|]. rewrite Hfd. cbn [mbind outcome_bind].
  apply deref_Done in Hfd, Hfdl. cbn [set_fd fileArray intSpot boot globalIO kfs_lock].
  rewrite list_lookup_insert_ne by lia. destruct (Z.ltb_spec (intSpot k) 0); [lia|]. rewrite Hfdl. cbn [deref mbind outcome_bind kfree].
  assert (Hs : with_heap (kheap s) s = s) by (by destruct s). rewrite Hs.
  set (A := <[Z.to_nat io := FileDesc false (f_refcnt fd) (file_pos fd) (file_size fd) (f_inode fd) (f_flags fd)]> (fileArray k)).
  assert (HA : A !! Z.to_nat (intSpot k) = Some fdl) by (unfold A; rewrite list_lookup_insert_ne by lia; done).
  eexists _, _, _. split; [reflexivity|]. cbn [fileArray set_fd].
  split; [rewrite list_lookup_insert_ne by lia; unfold A; rewrite list_lookup_insert_eq by (by eapply lookup_lt_Some); reflexivity|].
  split; [rewrite list_lookup_insert_eq by (by eapply lookup_lt_Some); reflexivity|]. cbn [f_flags f_ops].
  split_and!; [done|done|done|]. apply lookup_lt_Some in HA.
  assert (Hfind : ∀ l j y0, (∃ f, l !! j = Some f ∧ f_flags f = 0) → ∃ y, find_spot l y0 = Some y ∧ y ≤ y0 + Z.of_nat j).
  { clear. induction l as [|f l IH]; intros j y0 (g & Hg & Hz); [done|]. cbn [find_spot].
    destruct (Z.eqb_spec (f_flags f) 0); [exists y0; split; [done|lia]|]. destruct j as [|j]; cbn in Hg; [congruence|].
    destruct (IH j (y0 + 1)) as (y & -> & Hy); [eauto|]. exists y. split; [done|lia]. }
  destruct (Hfind (take (Z.to_nat FS_NAMELEN) (<[Z.to_nat (intSpot k) := FileDesc (f_ops fdl) (f_refcnt fdl) (file_pos fdl) (file_size fdl) (f_inode fdl) 0]> A))
    (Z.to_nat (intSpot k)) 0) as (y & Hy & Hle).
  - eexists. rewrite lookup_take_lt by lia. rewrite list_lookup_insert_eq by done. split; [reflexivity|done].
  - exists y. split; [done|lia].
Qed.
End Disk.

(** ** Witnesses *)

(** An image with one file "ab" of three bytes. *)
Definition image_example : list Z :=
  [1; 0; 0; 0; 1; 0; 0; 0; 1; 0; 0; 0] ++ replicate 52 0 ++ [97; 98; 0] ++ replicate 29 0 ++ [0; 0; 0; 0] ++
  replicate 3996 0 ++ [3; 0; 0; 0; 0; 0; 0; 0] ++ replicate 4088 0 ++ [10; 20; 30].
Definition disk_example : io_lit := iolit_init image_example 8195.

Lemma image_example_off p : 0 ≤ p < 3 → data_off image_example 1 0 p = 8192 + p.
Proof.
  intros Hp. unfold data_off. rewrite (Z.div_small p 4096), (Z.mod_small p 4096) by lia.
  change (le32 image_example (4096 * (1 + 0) + 4 + 4 * 0)) with 0. lia.
Qed.

Lemma image_example_ok : image_ok image_example 1 0 3.
Proof.
  assert (Hl : Z.of_nat (length image_example) = 8195) by (vm_compute; reflexivity).
  split; [vm_compute; reflexivity|vm_compute; reflexivity|lia|rewrite Hl; lia|lia|rewrite Hl|].
  - intros p Hp. rewrite image_example_off by done. lia.
  - intros p q Hp Hq. rewrite !image_example_off by done. lia.
Qed.

Lemma disk_example_ok : disk_ok disk_example.
Proof.
  assert (Hl : Z.of_nat (length image_example) = 8195) by (vm_compute; reflexivity).
  split; [|done]. unfold lit_ok. cbn [disk_example iolit_init lit_pos lit_size lit_buf]. rewrite Hl. lia.
Qed.

Definition kfs_example : kfs io_lit :=
  Kfs (replicate 4096 0) [FileDesc true 1 0 3 0 1; FileDesc true 1 0 7 1 1] 1 disk_example (Lock (CondObj 5) (-1)).

Lemma fs_mount_open_read_witness :
  ∃ k1 s1 k2 s2 k3 s3,
    fs_mount disk_example kfs_example lock_sched = Done (0, k1, s1) ∧
    fs_open (cstr [97; 98] []) k1 s1 = Done (0, Some 0, k2, s2) ∧
    fs_read 0 0 10 [0; 0; 0; 0] k2 s2 = Done (FsDone 3 [10; 20; 30; 0] k3 s3).
Proof.
  assert (E : overwrite 0 (file_bytes (contents disk_example) 1 0 0 (Z.min 10 3)) [0; 0; 0; 0] = [10; 20; 30; 0])
    by (vm_compute; reflexivity).
  rewrite <- E. change 3 with (Z.min 10 3).
  eapply (fs_mount_open_read 0 disk_example kfs_example lock_sched 0 lock_abs [97; 98] 0 1 3 [] 10 [0; 0; 0; 0]);
    [reflexivity|apply disk_example_ok|reflexivity|vm_compute; discriminate|reflexivity| |apply image_example_ok|reflexivity
    |apply lock_sched_rep|by exists None, None, None| |reflexivity|reflexivity|vm_compute; split; [discriminate|reflexivity]
    |vm_compute; split; [discriminate|reflexivity]|vm_compute; discriminate].
  - split; [lia| |intros y Hy; lia|vm_compute; reflexivity].
    split; [repeat constructor|]. split; [cbn; lia|]. eexists. vm_compute. reflexivity.
  - reflexivity.
Defined.

Lemma fs_write_read_witness :
  ∃ k1 s1 k2 s2, fs_write 0 0 5 [7; 8; 9; 1; 2] kfs_example lock_sched = Done (FsDone 3 [7; 8; 9; 1; 2] k1 s1) ∧
    fs_read 0 0 3 [0; 0; 0] (set_fd 0 (FileDesc true 1 0 3 0 1) k1) s1 = Done (FsDone 3 [7; 8; 9] k2 s2).
Proof.
  destruct (fs_write_read 0 0 5 [7; 8; 9; 1; 2] [0; 0; 0] kfs_example lock_sched 1 3 (FileDesc true 1 0 3 0 1))
    as (k1 & s1 & fd1 & k2 & s2 & Hw & Hfd & Hr);
    [reflexivity| |vm_compute; discriminate|reflexivity|vm_compute; discriminate|vm_compute; discriminate|].
  - split; try reflexivity; cbn [file_pos]; try lia.
    + apply disk_example_ok.
    + done.
    + apply image_example_ok.
    + exists lock_abs. apply lock_sched_rep.
    + by exists None, None, None.
  - assert (Hfd1 : fd1 = FileDesc true 1 3 3 0 1).
    { vm_compute in Hw. injection Hw as <- _. vm_compute in Hfd. by injection Hfd as <-. }
    rewrite Hfd1 in Hr. destruct Hr as (_ & Hr & _). exists k1, s1, k2, s2. split; [exact Hw|exact Hr].
Defined.

Lemma fs_close_wrong_descriptor_witness :
  ∃ k' fdl', fs_close 0 kfs_example lock_sched = Done (k', lock_sched) ∧ get_fd 1 k' = Done fdl' ∧ f_flags fdl' = 0.
Proof.
  destruct (fs_close_wrong_descriptor 0 kfs_example lock_sched (FileDesc true 1 0 3 0 1) (FileDesc true 1 0 7 1 1))
    as (k' & fd' & fdl' & ? & _ & ? & _ & ? & _);
    [vm_compute; discriminate|lia|vm_compute; split; [discriminate|reflexivity]|reflexivity..|].
  exists k', fdl'. auto.
Defined.
