(* ===== verification/Mkfs.v ===== *)
(** The builder of file-system images (src/src/util/mkfs.c), a program of the host.

    [fopen] gives the files of the host by their paths.  The array of inodes is on
    the stack and is not cleared: [stack i j] is what its word [j] of inode [i]
    held (word 0 is the length).  [read] fills the buffer unless the file ends. *)
From Stdlib Require Import ZArith Lia.
From stdpp Require Import base list strings.
From S2P Require Import Prelude.

Open Scope Z_scope.

Definition FS_BLKSZ : Z := 4096.
Definition FS_NAMELEN : Z := 32.

Record dentry_t : Type := Dentry { file_name : list Z; d_inode : Z }.
Record boot_block_t : Type := Boot { num_dentry : Z; num_inodes : Z; num_data : Z; dir_entries : list dentry_t }.
Record inode_t : Type := Inode { byte_len : Z; data_block_num : list Z }.

(** What [write] writes of the structures. *)
Definition dentry_bytes (d : dentry_t) : list Z := file_name d ++ le_bytes 4 (d_inode d) ++ replicate 28 0.
Definition boot_bytes (b : boot_block_t) : list Z :=
  le_bytes 4 (num_dentry b) ++ le_bytes 4 (num_inodes b) ++ le_bytes 4 (num_data b) ++ replicate 52 0 ++
  (dir_entries b ≫= dentry_bytes).
Definition inode_bytes (n : inode_t) : list Z := le_bytes 4 (byte_len n) ++ (data_block_num n ≫= le_bytes 4).

(** The conversions to the byte order of the target: the bytes of the result. *)
Definition xshort (x : Z) : list Z := [u8 x; u8 (Z.shiftr x 8)].
Definition xint (x : Z) : list Z := [u8 x; u8 (Z.shiftr x 8); u8 (Z.shiftr x 16); u8 (Z.shiftr x 24)].

Definition has_prefix (p : string) (s : list Z) : bool := bool_decide (take (String.length p) s = string_bytes p).

Definition shortname (path : list Z) : list Z :=
  if has_prefix "../user/bin/" path then drop 12 path else
  if has_prefix "user/bin/" path then drop 9 path else path.

(** [strncpy] of the C library, of a string without its NUL. *)
Definition strncpy (n : Z) (src : list Z) : list Z := take (Z.to_nat n) (src ++ replicate (Z.to_nat n) 0).

Section Mkfs.
Context (fopen : list Z → option (list Z)) (stack : Z → Z → Z).

(** The loop that adds the directory entries. *)
Fixpoint add_dentries (args : list (list Z)) (number_inodes : Z) (es : list dentry_t) : outcome (Z * list dentry_t) :=
  match args with
  | [] => Done (number_inodes, es)
  | p :: args =>
      if bool_decide (47 ∈ shortname p) then Panicked "assert" else
      if 63 <=? number_inodes then Undefined else
      add_dentries args (number_inodes + 1)
        (<[Z.to_nat number_inodes := Dentry (strncpy FS_NAMELEN (shortname p)) number_inodes]> es)
  end.

(** The loop that gives the next [n] data blocks to an inode. *)
Fixpoint set_blocks (n : nat) (j data_block_idx : Z) (bs : list Z) : outcome (Z * list Z) :=
  match n with
  | O => Done (data_block_idx, bs)
  | S n => if 1023 <=? j then Undefined else set_blocks n (j + 1) (data_block_idx + 1) (<[Z.to_nat j := data_block_idx]> bs)
  end.

Fixpoint add_inodes (args : list (list Z)) (inode_idx data_block_idx : Z) (inode_array : list inode_t)
    : outcome (Z * list inode_t) :=
  match args with
  | [] => Done (data_block_idx, inode_array)
  | p :: args =>
      match fopen p with
      | None => Panicked "die"
      | Some data =>
          let num_bytes := s32 (Z.of_nat (length data)) in
          let num_data_blocks_for_file := Z.quot num_bytes FS_BLKSZ + 1 in
          '(idx, bs) ← set_blocks (Z.to_nat num_data_blocks_for_file) 0 data_block_idx (stack inode_idx <$> seqZ 1 1023);
          add_inodes args (inode_idx + 1) idx (inode_array ++ [Inode num_bytes bs])
      end
  end.

(** The blocks that are written for a file: the buffer keeps its old bytes behind the
    last bytes that are read. *)
Fixpoint copy_blocks (fuel : nat) (buf data : list Z) : outcome (list Z) :=
  match fuel with
  | O => OutOfFuel
  | S fuel =>
      let got := take (Z.to_nat FS_BLKSZ) data in
      if bool_decide (got = []) then Done [] else
      let buf := got ++ drop (length got) buf in
      out ← copy_blocks fuel buf (drop (Z.to_nat FS_BLKSZ) data);
      Done (buf ++ out)
  end.

Fixpoint add_data (args : list (list Z)) : outcome (list Z) :=
  match args with
  | [] => Done []
  | p :: args =>
      match fopen p with
      | None => Panicked "die"
      | Some data =>
          out ← copy_blocks (S (length data)) (replicate (Z.to_nat FS_BLKSZ) 0) data;
          rest ← add_data args;
          Done (out ++ rest)
      end
  end.

(** The image that the program writes; [argv] are its arguments, the first of which
    names the image. *)
Definition main (argv : list (list Z)) : outcome (list Z) :=
  match argv with
  | [] => Panicked "usage"
  | _ :: args =>
      '(n, es) ← add_dentries args 0 (replicate 63 (Dentry (replicate 32 0) 0));
      '(idx, inodes) ← add_inodes args 0 0 [];
      data ← add_data args;
      Done (boot_bytes (Boot n n idx es) ++ (inodes ≫= inode_bytes) ++ data)
  end.
End Mkfs.
