(* ===== verification/MkfsSpec.v ===== *)
(** What the images of mkfs hold: the file system of the kernel finds every file of
    the host in them by its name, unless an earlier file ends at the end of a block. *)
From Stdlib Require Import ZArith Lia.
From stdpp Require Import base gmap list numbers strings.
From S2P Require Import Prelude CString Pages Heap Pte Memory Thread ThreadLists Scheduler Lock Io IoSpec Disk Mkfs Kfs KfsSpec.

Open Scope Z_scope.


(** Blocks that the inodes take, and blocks that are written. *)
Definition blocks_taken (d : list Z) : Z := Z.of_nat (length d) / 4096 + 1.
Definition blocks_written (d : list Z) : Z := (Z.of_nat (length d) + 4095) / 4096.

Fixpoint total (f : list Z → Z) (fs : list (list Z * list Z)) : Z :=
  match fs with [] => 0 | x :: fs => f x.2 + total f fs end.

Lemma total_nonneg f fs : (∀ d, 0 ≤ f d) → 0 ≤ total f fs.
Proof. intros Hf. induction fs as [|x fs IH]; cbn; [done|]. specialize (Hf x.2). lia. Qed.

Lemma total_app f a b : total f (a ++ b) = total f a + total f b.
Proof. induction a as [|x a IH]; cbn [total app]; [done|]. rewrite IH. lia. Qed.

Lemma blocks_taken_pos d : 1 ≤ blocks_taken d.
Proof. unfold blocks_taken. pose proof (Z.div_pos (Z.of_nat (length d)) 4096). lia. Qed.
Lemma blocks_written_pos d : 0 ≤ blocks_written d.
Proof. unfold blocks_written. apply Z.div_pos; lia. Qed.

(** The two agree unless the file ends at the end of a block. *)
Lemma blocks_agree d : (Z.of_nat (length d)) mod 4096 ≠ 0 → blocks_written d = blocks_taken d.
Proof.
  intros Hm. unfold blocks_written, blocks_taken. set (n := Z.of_nat (length d)) in *.
  pose proof (Z.div_mod n 4096 ltac:(lia)). pose proof (Z.mod_pos_bound n 4096 ltac:(lia)).
  symmetry. apply Z.div_unique with (n mod 4096 - 1); lia.
Qed.
Lemma blocks_exact d : (Z.of_nat (length d)) mod 4096 = 0 → blocks_written d = blocks_taken d - 1.
Proof.
  intros Hm. unfold blocks_written, blocks_taken. set (n := Z.of_nat (length d)) in *.
  pose proof (Z.div_mod n 4096 ltac:(lia)). symmetry. apply Z.div_unique with 4095; lia.
Qed.
Lemma blocks_cover d : Z.of_nat (length d) ≤ 4096 * blocks_written d.
Proof.
  unfold blocks_written. set (n := Z.of_nat (length d)). pose proof (Z.div_mod (n + 4095) 4096 ltac:(lia)).
  pose proof (Z.mod_pos_bound (n + 4095) 4096 ltac:(lia)). lia.
Qed.

(** ** The loops *)

Lemma copy_blocks_spec : ∀ fuel buf data, (length data < fuel)%nat → length buf = Z.to_nat 4096 →
  ∃ pad, copy_blocks fuel buf data = Done (data ++ pad) ∧ Z.of_nat (length (data ++ pad)) = 4096 * blocks_written data.
Proof.
  induction fuel as [|fuel IH]; intros buf data Hf Hb; [lia|]. cbn [copy_blocks]. unfold Mkfs.FS_BLKSZ.
  destruct data as [|c data]; [by exists []|].
  assert (Hne : take (Z.to_nat 4096) (c :: data) ≠ []).
  { intros He. apply (f_equal length) in He. rewrite length_take in He. cbn [length] in He. lia. }
  rewrite bool_decide_eq_false_2 by done. set (D := c :: data) in *. set (got := take (Z.to_nat 4096) D) in *.
  assert (Hg : length got = Nat.min (Z.to_nat 4096) (length D)) by apply length_take.
  assert (Hbl : length (got ++ drop (length got) buf) = Z.to_nat 4096) by (rewrite length_app, length_drop; lia).
  assert (HD : (1 ≤ length D)%nat) by (cbn; lia).
  destruct (IH (got ++ drop (length got) buf) (drop (Z.to_nat 4096) D)) as (pad & -> & Hl); [rewrite length_drop; lia|done|].
  cbn [mbind outcome_bind]. destruct (decide (Z.of_nat (length D) ≤ 4096)) as [Hs|Hs].
  - rewrite (drop_ge D) in * by lia. unfold got. rewrite take_ge by lia.
    assert (pad = []) as ->. { change (blocks_written []) with 0 in Hl. rewrite app_nil_l in Hl. destruct pad; [done|cbn [length] in Hl; lia]. }
    exists (drop (length D) buf). rewrite !app_nil_r. split; [done|].
    assert (Hw : blocks_written D = 1). { unfold blocks_written. symmetry. apply Z.div_unique with (Z.of_nat (length D) - 1); lia. }
    rewrite Hw, length_app, length_drop. lia.
  - exists pad. unfold got. rewrite length_take, Nat.min_l by lia. rewrite (drop_ge buf) by lia. rewrite app_nil_r.
    rewrite app_assoc, take_drop. split; [done|].
    assert (Hw : blocks_written D = 1 + blocks_written (drop (Z.to_nat 4096) D)).
    { unfold blocks_written. rewrite length_drop. replace (Z.of_nat (length D) + 4095) with (Z.of_nat (length D - Z.to_nat 4096) + 4095 + 1 * 4096) by lia.
      rewrite Z.div_add by lia. lia. }
    rewrite Hw. rewrite length_app in Hl |- *. rewrite length_drop in Hl. lia.
Qed.

Lemma set_blocks_spec : ∀ n j idx bs, 0 ≤ j → j + Z.of_nat n ≤ 1023 → length bs = Z.to_nat 1023 →
  ∃ bs', set_blocks n j idx bs = Done (idx + Z.of_nat n, bs') ∧ length bs' = Z.to_nat 1023 ∧
    (∀ i, 0 ≤ i < j → bs' !! Z.to_nat i = bs !! Z.to_nat i) ∧
    ∀ i, j ≤ i < j + Z.of_nat n → bs' !! Z.to_nat i = Some (idx + (i - j)).
Proof.
  induction n as [|n IH]; intros j idx bs Hj Hn Hl.
  - exists bs. cbn [set_blocks]. rewrite Z.add_0_r. split; [done|]. split; [done|]. split; [done|lia].
  - cbn [set_blocks]. destruct (Z.leb_spec 1023 j); [lia|].
    destruct (IH (j + 1) (idx + 1) (<[Z.to_nat j := idx]> bs)) as (bs' & -> & Hl' & Hk & Hs); [lia|lia|by rewrite length_insert|].
    exists bs'. replace (idx + 1 + Z.of_nat n) with (idx + Z.of_nat (S n)) by lia. split; [done|]. split; [done|]. split.
    + intros i Hi. rewrite Hk by lia. apply list_lookup_insert_ne. lia.
    + intros i Hi. destruct (decide (i = j)) as [->|].
      * rewrite Hk by lia. rewrite list_lookup_insert_eq by lia. f_equal. lia.
      * rewrite Hs by lia. f_equal. lia.
Qed.

Section Host.
Context (fopen : list Z → option (list Z)) (stack : Z → Z → Z).

(** The files of the host that are given to mkfs, by their paths. *)
Record mkfs_input (fs : list (list Z * list Z)) : Prop := {
  mi_count : (length fs ≤ 63)%nat;
  mi_file (x : list Z * list Z) : x ∈ fs → fopen x.1 = Some x.2;
  mi_name (x : list Z * list Z) : x ∈ fs → is_str (shortname x.1) ∧ (length (shortname x.1) < 32)%nat ∧ 47 ∉ shortname x.1;
  mi_size (x : list Z * list Z) : x ∈ fs → Z.of_nat (length x.2) < 1023 * 4096;
  mi_distinct : NoDup ((λ x : list Z * list Z, shortname x.1) <$> fs)
}.

Definition named (e : dentry_t) : Prop := length (file_name e) = 32%nat.

Lemma strncpy_length n s : length (strncpy n s) = Z.to_nat n.
Proof. unfold strncpy. rewrite length_take, length_app, length_replicate. lia. Qed.

Lemma add_dentries_spec (fs : list (list Z * list Z)) : ∀ n es, 0 ≤ n → n + Z.of_nat (length fs) ≤ 63 → length es = 63%nat → Forall named es →
  (∀ x, x ∈ fs → 47 ∉ shortname x.1) →
  ∃ es', add_dentries (fs.*1) n es = Done (n + Z.of_nat (length fs), es') ∧ length es' = 63%nat ∧ Forall named es' ∧
    (∀ i, 0 ≤ i < n → es' !! Z.to_nat i = es !! Z.to_nat i) ∧
    ∀ i x, 0 ≤ i → fs !! Z.to_nat i = Some x → es' !! Z.to_nat (n + i) = Some (Dentry (strncpy 32 (shortname x.1)) (n + i)).
Proof.
  induction fs as [|x fs IH]; intros n es Hn Hc Hl He Hs.
  - exists es. rewrite Z.add_0_r. do 4 (split; [done|]). intros i x _ Hi. by rewrite lookup_nil in Hi.
  - cbn [fmap list_fmap add_dentries length] in *. rewrite bool_decide_eq_false_2 by (apply Hs; by left).
    destruct (Z.leb_spec 63 n); [lia|].
    destruct (IH (n + 1) (<[Z.to_nat n := Dentry (strncpy 32 (shortname x.1)) n]> es)) as (es' & He' & Hl' & Hn' & Hk & Hi');
      [lia|lia|by rewrite length_insert|apply Forall_insert; [done|apply strncpy_length]|intros; apply Hs; by right|].
    exists es'. unfold Mkfs.FS_NAMELEN. rewrite He'. replace (n + 1 + Z.of_nat (length fs)) with (n + Z.of_nat (S (length fs))) by lia.
    do 3 (split; [done|]). split.
    + intros i Hi. rewrite Hk by lia. apply list_lookup_insert_ne. lia.
    + intros i y Hi Hy. destruct (decide (i = 0)) as [->|].
      * injection Hy as <-. rewrite Z.add_0_r, Hk by lia. apply list_lookup_insert_eq. lia.
      * replace (Z.to_nat i) with (S (Z.to_nat (i - 1))) in Hy by lia.
        specialize (Hi' (i - 1) y ltac:(lia) Hy). by replace (n + 1 + (i - 1)) with (n + i) in Hi' by lia.
Qed.

Lemma add_inodes_spec (fs : list (list Z * list Z)) : ∀ i idx acc, (∀ x, x ∈ fs → fopen x.1 = Some x.2 ∧ Z.of_nat (length x.2) < 1023 * 4096) →
  ∃ inodes, add_inodes fopen stack (fs.*1) i idx acc = Done (idx + total blocks_taken fs, acc ++ inodes) ∧
    length inodes = length fs ∧
    ∀ k x, fs !! k = Some x → ∃ bs, inodes !! k = Some (Inode (Z.of_nat (length x.2)) bs) ∧ length bs = Z.to_nat 1023 ∧
      ∀ j, 0 ≤ j < blocks_taken x.2 → bs !! Z.to_nat j = Some (idx + total blocks_taken (take k fs) + j).
Proof.
  induction fs as [|x fs IH]; intros i idx acc Hf.
  - exists []. cbn [total fmap list_fmap add_inodes]. rewrite Z.add_0_r, app_nil_r. do 2 (split; [done|]). intros k x Hk. by rewrite lookup_nil in Hk.
  - destruct (Hf x ltac:(by left)) as [Ho Hs]. cbn [fmap list_fmap add_inodes total]. rewrite Ho.
    rewrite s32_small by lia. unfold Mkfs.FS_BLKSZ. rewrite Z.quot_div_nonneg by lia. fold (blocks_taken x.2).
    pose proof (blocks_taken_pos x.2) as Hp.
    assert (Hmax : blocks_taken x.2 ≤ 1023) by (unfold blocks_taken; assert (Z.of_nat (length x.2) / 4096 < 1023) by (apply Z.div_lt_upper_bound; lia); lia).
    destruct (set_blocks_spec (Z.to_nat (blocks_taken x.2)) 0 idx (stack i <$> seqZ 1 1023)) as (bs & -> & Hbl & _ & Hb);
      [lia|lia|by rewrite length_fmap, length_seqZ|]. cbn [mbind outcome_bind].
    destruct (IH (i + 1) (idx + Z.of_nat (Z.to_nat (blocks_taken x.2))) (acc ++ [Inode (Z.of_nat (length x.2)) bs])) as (inodes & He & Hl & Hn);
      [intros; apply Hf; by right|].
    rewrite Z2Nat.id in * by lia. exists (Inode (Z.of_nat (length x.2)) bs :: inodes). rewrite He, <- app_assoc.
    split; [by rewrite Z.add_assoc|]. split; [cbn; by rewrite Hl|]. intros [|k] y Hk.
    + injection Hk as <-. exists bs. do 2 (split; [done|]). intros j Hj. rewrite Hb by lia. cbn [take total]. f_equal. lia.
    + destruct (Hn k y Hk) as (bs' & Hi & Hbl' & Hb'). exists bs'. do 2 (split; [done|]). intros j Hj. rewrite Hb' by done.
      cbn [take total]. f_equal. lia.
Qed.

Lemma add_data_spec (fs : list (list Z * list Z)) : (∀ x, x ∈ fs → fopen x.1 = Some x.2) →
  ∃ area, add_data fopen (fs.*1) = Done area ∧ Z.of_nat (length area) = 4096 * total blocks_written fs ∧
    ∀ k x j, fs !! k = Some x → 0 ≤ j < Z.of_nat (length x.2) →
      area !! Z.to_nat (4096 * total blocks_written (take k fs) + j) = x.2 !! Z.to_nat j.
Proof.
  induction fs as [|x fs IH]; intros Hf.
  - exists []. do 2 (split; [done|]). intros k x j Hk. by rewrite lookup_nil in Hk.
  - cbn [fmap list_fmap add_data]. rewrite (Hf x) by by left.
    destruct (copy_blocks_spec (S (length x.2)) (replicate (Z.to_nat Mkfs.FS_BLKSZ) 0) x.2) as (pad & -> & Hl); [lia|by rewrite length_replicate|].
    destruct IH as (area & -> & Hla & Ha); [intros; apply Hf; by right|]. cbn [mbind outcome_bind]. eexists. split; [reflexivity|].
    cbn [total]. split; [rewrite length_app; lia|]. intros [|k] y j Hk Hj.
    + injection Hk as <-. cbn [take total]. rewrite Z.mul_0_r, Z.add_0_l, <- app_assoc. apply lookup_app_l. lia.
    + cbn [take total]. pose proof (total_nonneg blocks_written (take k fs) blocks_written_pos). rewrite lookup_app_r by lia.
      rewrite <- (Ha k y j Hk Hj). f_equal. lia.
Qed.

(** ** The image *)

(** Where everything is in the image of [fs]. *)
Record layout (fs : list (list Z * list Z)) (img : list Z) : Prop := {
  ly_length : Z.of_nat (length img) = 4096 * (1 + Z.of_nat (length fs) + total blocks_written fs);
  ly_inodes : le32 img 4 = Z.of_nat (length fs);
  ly_name k x : 0 ≤ k → fs !! Z.to_nat k = Some x → ∃ r, drop (Z.to_nat (dentry_off k)) img = cstr (shortname x.1) r;
  ly_inode k x : 0 ≤ k → fs !! Z.to_nat k = Some x → le32 img (dentry_inode_off k) = k;
  ly_size k x : 0 ≤ k → fs !! Z.to_nat k = Some x → le32 img (4096 * (1 + k)) = Z.of_nat (length x.2);
  ly_block k x j : 0 ≤ k → fs !! Z.to_nat k = Some x → 0 ≤ j < blocks_taken x.2 →
    le32 img (4096 * (1 + k) + 4 + 4 * j) = total blocks_taken (take (Z.to_nat k) fs) + j;
  ly_data k x j : 0 ≤ k → fs !! Z.to_nat k = Some x → 0 ≤ j < Z.of_nat (length x.2) →
    img !! Z.to_nat (4096 * (1 + Z.of_nat (length fs) + total blocks_written (take (Z.to_nat k) fs)) + j) = x.2 !! Z.to_nat j
}.

Lemma app_behind (a b : list Z) n o : Z.of_nat (length a) = n → 0 ≤ o → (a ++ b) !! Z.to_nat (n + o) = b !! Z.to_nat o.
Proof. intros <- Ho. rewrite lookup_app_r by lia. f_equal. lia. Qed.
Lemma app_before (a b : list Z) o : 0 ≤ o < Z.of_nat (length a) → (a ++ b) !! Z.to_nat o = a !! Z.to_nat o.
Proof. intros Ho. apply lookup_app_l. lia. Qed.

Lemma le32_word img off v : 0 ≤ off → 0 ≤ v < 2 ^ 32 →
  (∀ j, 0 ≤ j < 4 → img !! Z.to_nat (off + j) = le_bytes 4 v !! Z.to_nat j) → le32 img off = v.
Proof.
  intros Ho Hv Hj. unfold le32. assert (slice off 4 img = le_bytes 4 v) as ->.
  { apply list_eq. intros i. destruct (decide (i < Z.to_nat 4)%nat).
    - rewrite slice_lookup, Hj by lia. f_equal. lia.
    - rewrite !lookup_ge_None_2; [done| |]; rewrite ?le_bytes_length; unfold slice; rewrite ?length_take; lia. }
  rewrite le_val_bytes. by apply Z.mod_small.
Qed.

Lemma drop_prefix (img a : list Z) o : 0 ≤ o → (∀ j, 0 ≤ j < Z.of_nat (length a) → img !! Z.to_nat (o + j) = a !! Z.to_nat j) →
  ∃ r, drop (Z.to_nat o) img = a ++ r.
Proof.
  intros Ho Ha. exists (drop (length a) (drop (Z.to_nat o) img)). rewrite <- (take_drop (length a) (drop (Z.to_nat o) img)) at 1. f_equal.
  apply list_eq. intros i. destruct (decide (i < length a)%nat).
  - rewrite lookup_take_lt, lookup_drop by done. specialize (Ha (Z.of_nat i) ltac:(lia)).
    rewrite Nat2Z.id in Ha. rewrite <- Ha. f_equal. lia.
  - rewrite lookup_take_ge, lookup_ge_None_2 by lia. done.
Qed.

Lemma dentry_bytes_length e : named e → Z.of_nat (length (dentry_bytes e)) = 64.
Proof. unfold named, dentry_bytes. intros He. rewrite !length_app, He, le_bytes_length, length_replicate. done. Qed.

Lemma bind_length (n : Z) {A} (f : A → list Z) (l : list A) : (∀ y, y ∈ l → Z.of_nat (length (f y)) = n) →
  Z.of_nat (length (l ≫= f)) = n * Z.of_nat (length l).
Proof.
  induction l as [|y l IH]; intros Hl; [cbn; lia|]. cbn. rewrite length_app, Nat2Z.inj_add, (Hl y) by by left.
  change (length (l ≫= f)) with (length (mbind f l)). rewrite IH by (intros; apply Hl; by right). lia.
Qed.

Lemma boot_word b o v : ∀ w, (w = 0 ∧ v = num_dentry b) ∨ (w = 4 ∧ v = num_inodes b) ∨ (w = 8 ∧ v = num_data b) → 0 ≤ o < 4 →
  boot_bytes b !! Z.to_nat (w + o) = le_bytes 4 v !! Z.to_nat o.
Proof.
  intros w Hw Ho. unfold boot_bytes. destruct Hw as [[-> ->]|[[-> ->]|[-> ->]]].
  - rewrite app_before by (rewrite ?le_bytes_length; lia). f_equal.
  - rewrite (app_behind _ _ 4) by (rewrite ?le_bytes_length; lia). apply app_before. rewrite le_bytes_length. lia.
  - replace (8 + o) with (4 + (4 + o)) by lia. rewrite !(app_behind _ _ 4) by (rewrite ?le_bytes_length; lia).
    apply app_before. rewrite le_bytes_length. lia.
Qed.

Lemma boot_dentry b e k o : length (dir_entries b) = 63%nat → Forall named (dir_entries b) → 0 ≤ k → dir_entries b !! Z.to_nat k = Some e → 0 ≤ o < 64 →
  boot_bytes b !! Z.to_nat (dentry_off k + o) = dentry_bytes e !! Z.to_nat o.
Proof.
  intros Hl Hn Hk He Ho. unfold boot_bytes, dentry_off. replace (64 + 64 * k + o) with (4 + (4 + (4 + (52 + (64 * k + o))))) by lia.
  rewrite !(app_behind _ _ 4) by (rewrite ?le_bytes_length; lia). rewrite (app_behind _ _ 52) by (rewrite ?length_replicate; lia).
  apply bind_lookup; try done. intros y Hy. apply dentry_bytes_length. rewrite Forall_forall in Hn. by apply Hn.
Qed.

Lemma boot_length b : length (dir_entries b) = 63%nat → Forall named (dir_entries b) → Z.of_nat (length (boot_bytes b)) = 4096.
Proof.
  intros Hl Hn. unfold boot_bytes. rewrite !length_app, !Nat2Z.inj_add, (bind_length 64).
  - by rewrite !le_bytes_length, length_replicate, Hl.
  - intros y Hy. apply dentry_bytes_length. rewrite Forall_forall in Hn. by apply Hn.
Qed.

Definition has_words (n : inode_t) : Prop := length (data_block_num n) = Z.to_nat 1023.

Lemma inode_bytes_length n : has_words n → Z.of_nat (length (inode_bytes n)) = 4096.
Proof.
  intros Hn. unfold inode_bytes. rewrite length_app, Nat2Z.inj_add, (bind_length 4) by (intros; by rewrite le_bytes_length).
  rewrite le_bytes_length, Hn. lia.
Qed.

Lemma inode_len_word n o : 0 ≤ o < 4 → inode_bytes n !! Z.to_nat o = le_bytes 4 (byte_len n) !! Z.to_nat o.
Proof. intros Ho. apply app_before. rewrite le_bytes_length. lia. Qed.

Lemma inode_block_word n j v o : 0 ≤ j → data_block_num n !! Z.to_nat j = Some v → 0 ≤ o < 4 →
  inode_bytes n !! Z.to_nat (4 + (4 * j + o)) = le_bytes 4 v !! Z.to_nat o.
Proof.
  intros Hj Hv Ho. unfold inode_bytes. rewrite (app_behind _ _ 4) by (rewrite ?le_bytes_length; lia).
  apply (bind_lookup 4); try done.
Qed.

Lemma total_taken_bound fs : (∀ x, x ∈ fs → Z.of_nat (length x.2) < 1023 * 4096) → 0 ≤ total blocks_taken fs ≤ 1023 * Z.of_nat (length fs).
Proof.
  induction fs as [|x fs IH]; intros Hs; [cbn; lia|]. cbn [total length]. specialize (Hs x ltac:(by left)) as Hx.
  destruct IH; [intros; apply Hs; by right|]. pose proof (blocks_taken_pos x.2).
  assert (blocks_taken x.2 ≤ 1023) by (unfold blocks_taken; assert (Z.of_nat (length x.2) / 4096 < 1023) by (apply Z.div_lt_upper_bound; lia); lia). lia.
Qed.

Lemma taken_bound x : Z.of_nat (length x) < 1023 * 4096 → blocks_taken x ≤ 1023.
Proof. intros Hx. unfold blocks_taken. assert (Z.of_nat (length x) / 4096 < 1023) by (apply Z.div_lt_upper_bound; lia). lia. Qed.

(** What the loops of mkfs leave. *)
Record pieces (fs : list (list Z * list Z)) (b : boot_block_t) (inodes : list inode_t) (area : list Z) : Prop := {
  pc_n : num_inodes b = Z.of_nat (length fs);
  pc_entries : length (dir_entries b) = 63%nat ∧ Forall named (dir_entries b);
  pc_entry k x : 0 ≤ k → fs !! Z.to_nat k = Some x → dir_entries b !! Z.to_nat k = Some (Dentry (strncpy 32 (shortname x.1)) k);
  pc_inodes : length inodes = length fs ∧ ∀ n, n ∈ inodes → has_words n;
  pc_inode k x : fs !! k = Some x → ∃ bs, inodes !! k = Some (Inode (Z.of_nat (length x.2)) bs) ∧
    ∀ j, 0 ≤ j < blocks_taken x.2 → bs !! Z.to_nat j = Some (total blocks_taken (take k fs) + j);
  pc_area : Z.of_nat (length area) = 4096 * total blocks_written fs;
  pc_data k x j : fs !! k = Some x → 0 ≤ j < Z.of_nat (length x.2) →
    area !! Z.to_nat (4096 * total blocks_written (take k fs) + j) = x.2 !! Z.to_nat j
}.

Lemma main_pieces fs name : mkfs_input fs → ∃ b inodes area,
  main fopen stack (name :: fs.*1) = Done (boot_bytes b ++ (inodes ≫= inode_bytes) ++ area) ∧ pieces fs b inodes area.
Proof.
  intros [Hc Hf Hn Hs Hd]. set (N := Z.of_nat (length fs)).
  destruct (add_dentries_spec fs 0 (replicate 63 (Dentry (replicate 32 0) 0))) as (es & He & Hel & Hen & _ & Hes);
    [done|lia|done|by apply Forall_replicate|intros x Hx; by apply Hn|].
  destruct (add_inodes_spec fs 0 0 []) as (inodes & Hi & Hil & His); [intros x Hx; split; [by apply Hf|by apply Hs]|].
  destruct (add_data_spec fs Hf) as (area & Ha & Hal & Has).
  rewrite Z.add_0_l in He, Hi. rewrite app_nil_l in Hi. fold N in He.
  unfold main. rewrite He. cbn [mbind outcome_bind]. rewrite Hi. cbn [mbind outcome_bind]. rewrite Ha. cbn [mbind outcome_bind].
  eexists (Boot N N _ es), inodes, area. split; [reflexivity|]. split; try done.
  - split; [done|]. intros n [i Hin]%list_elem_of_lookup. destruct (lookup_lt_is_Some_2 fs i) as [x Hx]; [rewrite <- Hil; by eapply lookup_lt_Some|].
    destruct (His i x Hx) as (bs & Hb & Hl & _). rewrite Hb in Hin. by injection Hin as <-.
  - intros k x Hx. destruct (His k x Hx) as (bs & Hb & _ & Hbs). exists bs. split; [done|]. intros j Hj. by rewrite Hbs.
Qed.

Section Pieces.
Context (fs : list (list Z * list Z)) (b : boot_block_t) (inodes : list inode_t) (area : list Z).
Context (Hin : mkfs_input fs) (Hp : pieces fs b inodes area).
Let N := Z.of_nat (length fs).
Let img := boot_bytes b ++ (inodes ≫= inode_bytes) ++ area.

Lemma pieces_index k x : 0 ≤ k → fs !! Z.to_nat k = Some x → k < N ∧ k < 63 ∧ x ∈ fs.
Proof.
  intros Hk Hx. pose proof (lookup_lt_Some _ _ _ Hx). pose proof (mi_count _ Hin). unfold N.
  split; [lia|]. split; [lia|by eapply list_elem_of_lookup_2].
Qed.

Lemma pieces_lengths : Z.of_nat (length (boot_bytes b)) = 4096 ∧ Z.of_nat (length (inodes ≫= inode_bytes)) = 4096 * N.
Proof.
  destruct (pc_entries _ _ _ _ Hp), (pc_inodes _ _ _ _ Hp) as [Hl Hw]. split; [by apply boot_length|].
  rewrite (bind_length 4096) by (intros; apply inode_bytes_length, Hw; done). unfold N. by rewrite Hl.
Qed.

Lemma image_boot o : 0 ≤ o < 4096 → img !! Z.to_nat o = boot_bytes b !! Z.to_nat o.
Proof. intros Ho. destruct pieces_lengths. apply app_before. lia. Qed.

Lemma image_entry k x o : 0 ≤ k → fs !! Z.to_nat k = Some x → 0 ≤ o < 64 →
  img !! Z.to_nat (dentry_off k + o) = dentry_bytes (Dentry (strncpy 32 (shortname x.1)) k) !! Z.to_nat o.
Proof.
  intros Hk Hx Ho. destruct (pieces_index k x Hk Hx) as (_ & Hk63 & _). destruct (pc_entries _ _ _ _ Hp).
  rewrite image_boot by (unfold dentry_off; lia). apply boot_dentry; try done. by apply (pc_entry _ _ _ _ Hp).
Qed.

Lemma image_inode k n o : 0 ≤ k → inodes !! Z.to_nat k = Some n → 0 ≤ o < 4096 →
  img !! Z.to_nat (4096 * (1 + k) + o) = inode_bytes n !! Z.to_nat o.
Proof.
  intros Hk Hkn Ho. pose proof (lookup_lt_Some _ _ _ Hkn). destruct pieces_lengths as [Hb Hi]. destruct (pc_inodes _ _ _ _ Hp) as [Hl Hw].
  replace (4096 * (1 + k) + o) with (4096 + (4096 * k + o)) by lia. unfold img.
  rewrite (app_behind _ _ 4096) by (lia || done). rewrite app_before by (unfold N in *; lia).
  apply bind_lookup; try done. intros y Hy. by apply inode_bytes_length, Hw.
Qed.

Lemma image_name k x : 0 ≤ k → fs !! Z.to_nat k = Some x → ∃ r, drop (Z.to_nat (dentry_off k)) img = cstr (shortname x.1) r.
Proof.
  intros Hk Hx. destruct (pieces_index k x Hk Hx) as (_ & Hk63 & Hxin). destruct (mi_name _ Hin x Hxin) as (_ & Hlt & _).
  destruct (drop_prefix img (shortname x.1 ++ [0]) (dentry_off k)) as [r Hr]; [unfold dentry_off; lia| |].
  - intros j Hj. rewrite length_app in Hj. cbn [length] in Hj. rewrite (image_entry k x j Hk Hx) by lia.
    unfold dentry_bytes. cbn [file_name]. rewrite app_before by (rewrite strncpy_length; lia).
    unfold strncpy. rewrite lookup_take_lt by lia. destruct (decide (j < Z.of_nat (length (shortname x.1)))).
    + by rewrite !app_before by lia.
    + replace j with (Z.of_nat (length (shortname x.1)) + 0) by lia. by rewrite !(app_behind _ _ (Z.of_nat (length (shortname x.1)))) by lia.
  - exists r. rewrite Hr. unfold cstr. by rewrite <- app_assoc.
Qed.

Lemma image_inode_no k x : 0 ≤ k → fs !! Z.to_nat k = Some x → le32 img (dentry_inode_off k) = k.
Proof.
  intros Hk Hx. destruct (pieces_index k x Hk Hx) as (_ & Hk63 & _). unfold dentry_inode_off.
  apply le32_word; [unfold dentry_off; lia|lia|]. intros j Hj. replace (dentry_off k + 32 + j) with (dentry_off k + (32 + j)) by lia.
  rewrite (image_entry k x _ Hk Hx) by lia. unfold dentry_bytes. cbn [file_name d_inode].
  rewrite (app_behind _ _ 32) by (rewrite ?strncpy_length; lia). apply app_before. rewrite le_bytes_length. lia.
Qed.

Lemma image_block k x j : 0 ≤ k → fs !! Z.to_nat k = Some x → 0 ≤ j < blocks_taken x.2 →
  le32 img (4096 * (1 + k) + 4 + 4 * j) = total blocks_taken (take (Z.to_nat k) fs) + j.
Proof.
  intros Hk Hx Hj. destruct (pieces_index k x Hk Hx) as (_ & Hk63 & Hxin). destruct (pc_inode _ _ _ _ Hp _ x Hx) as (bs & Hb & Hbs).
  pose proof (taken_bound _ (mi_size _ Hin x Hxin)). pose proof (mi_count _ Hin).
  destruct (total_taken_bound (take (Z.to_nat k) fs)) as [H1 H2].
  { intros y [i Hi]%list_elem_of_lookup. apply lookup_take_Some in Hi as [Hi _]. apply (mi_size _ Hin). by eapply list_elem_of_lookup_2. }
  rewrite length_take in H2. apply le32_word; [lia|lia|]. intros o Ho.
  replace (4096 * (1 + k) + 4 + 4 * j + o) with (4096 * (1 + k) + (4 + (4 * j + o))) by lia.
  rewrite (image_inode k _ _ Hk Hb) by lia. apply inode_block_word; [lia| |done]. cbn [data_block_num]. by rewrite Hbs.
Qed.

Lemma pieces_layout : layout fs img.
Proof.
  destruct pieces_lengths as [Hbl Hil]. pose proof (pc_area _ _ _ _ Hp). pose proof (mi_count _ Hin) as Hc. split.
  - unfold img. rewrite !length_app. fold N. lia.
  - apply le32_word; [lia|lia|]. intros j Hj. rewrite image_boot by lia. apply (boot_word b j _ 4); [|done].
    right. left. by rewrite (pc_n _ _ _ _ Hp).
  - apply image_name.
  - apply image_inode_no.
  - intros k x Hk Hx. destruct (pieces_index k x Hk Hx) as (_ & Hk63 & Hxin). destruct (pc_inode _ _ _ _ Hp _ x Hx) as (bs & Hb & _).
    pose proof (mi_size _ Hin x Hxin). apply le32_word; [lia|lia|]. intros j Hj. rewrite (image_inode k _ j Hk Hb) by lia. by rewrite inode_len_word.
  - apply image_block.
  - intros k x j Hk Hx Hj. pose proof (total_nonneg blocks_written (take (Z.to_nat k) fs) blocks_written_pos). fold N. unfold img.
    replace (4096 * (1 + N + total blocks_written (take (Z.to_nat k) fs)) + j) with (4096 + (4096 * N + (4096 * total blocks_written (take (Z.to_nat k) fs) + j))) by lia.
    rewrite (app_behind _ _ 4096) by (lia || done). rewrite (app_behind _ _ (4096 * N)) by (lia || done). by apply (pc_data _ _ _ _ Hp).
Qed.
End Pieces.

Lemma main_layout fs name : mkfs_input fs → ∃ img, main fopen stack (name :: fs.*1) = Done img ∧ layout fs img.
Proof.
  intros Hin. destruct (main_pieces fs name Hin) as (b & inodes & area & He & Hp). eexists. split; [exact He|]. by apply pieces_layout.
Qed.

(** ** Files in the image *)

(** Files that end at the end of a block: one block more is taken than written. *)
Definition full (x : list Z * list Z) : Prop := Z.of_nat (length x.2) mod 4096 = 0.
#[local] Instance full_dec x : Decision (full x).
Proof. unfold full. apply _. Defined.
Definition fulls (fs : list (list Z * list Z)) : Z := Z.of_nat (length (filter full fs)).

Lemma total_fulls fs : total blocks_taken fs = total blocks_written fs + fulls fs.
Proof.
  unfold fulls. induction fs as [|x fs IH]; [done|]. cbn [total]. rewrite filter_cons. case_decide as Hx.
  - rewrite (blocks_exact _ Hx). cbn [length]. lia.
  - rewrite (blocks_agree _ Hx). lia.
Qed.

Section Layout.
Context (fs : list (list Z * list Z)) (img : list Z).
Context (Hin : mkfs_input fs) (Hly : layout fs img).
Let N := Z.of_nat (length fs).

Lemma layout_off k x p : 0 ≤ k → fs !! Z.to_nat k = Some x → 0 ≤ p < Z.of_nat (length x.2) →
  data_off img N k p = 4096 * (1 + N + total blocks_written (take (Z.to_nat k) fs)) + p + 4096 * fulls (take (Z.to_nat k) fs).
Proof.
  intros Hk Hx Hp. unfold data_off. pose proof (Z.div_mod p 4096 ltac:(lia)). pose proof (Z.div_pos p 4096).
  rewrite (ly_block _ _ Hly k x) by (done || (unfold blocks_taken; pose proof (Z.div_le_mono p (Z.of_nat (length x.2)) 4096); lia)).
  rewrite total_fulls. lia.
Qed.

Lemma layout_file k x : 0 ≤ k → fs !! Z.to_nat k = Some x → fulls (take (Z.to_nat k) fs) = 0 →
  dir_entry img k (shortname x.1) k ∧ image_ok img N k (Z.of_nat (length x.2)) ∧
  file_bytes img N k 0 (Z.of_nat (length x.2)) = x.2.
Proof.
  intros Hk Hx Hf. pose proof (lookup_lt_Some _ _ _ Hx) as Hkn. pose proof (mi_count _ Hin) as Hc.
  assert (Hxin : x ∈ fs) by by eapply list_elem_of_lookup_2.
  assert (Hoff : ∀ p, 0 ≤ p < Z.of_nat (length x.2) → data_off img N k p = 4096 * (1 + N + total blocks_written (take (Z.to_nat k) fs)) + p).
  { intros p Hp. rewrite (layout_off k x p) by done. lia. }
  pose proof (mi_size _ Hin x Hxin). pose proof (total_nonneg blocks_written (take (Z.to_nat k) fs) blocks_written_pos).
  split; [|split].
  - destruct (mi_name _ Hin x Hxin) as (Hs & Hl & _). split; [lia| | |by eapply (ly_inode _ _ Hly)].
    + split; [done|]. split; [done|]. by apply (ly_name _ _ Hly).
    + intros y Hy. destruct (lookup_lt_is_Some_2 fs (Z.to_nat y)) as [z Hz]; [lia|].
      destruct (ly_name _ _ Hly y z ltac:(lia) Hz) as [r Hr]. destruct (mi_name _ Hin z) as (Hs' & Hl' & _); [by eapply list_elem_of_lookup_2|].
      exists (shortname z.1), r. do 2 (split; [done|]). split; [|done]. intros Heq.
      pose proof (NoDup_lookup _ (Z.to_nat y) (Z.to_nat k) (shortname x.1) (mi_distinct _ Hin)) as Hd.
      rewrite !list_lookup_fmap, Hz, Hx in Hd. cbn in Hd. rewrite Heq in Hd. specialize (Hd eq_refl eq_refl). lia.
  - split; [by apply (ly_inodes _ _ Hly)|by apply (ly_size _ _ Hly)|unfold N; lia| |lia| |].
    + rewrite (ly_length _ _ Hly). pose proof (total_nonneg blocks_written fs blocks_written_pos). unfold N. lia.
    + intros p Hp. rewrite Hoff by done. split; [lia|]. pose proof (ly_data _ _ Hly k x p Hk Hx Hp) as Hd.
      destruct (lookup_lt_is_Some_2 x.2 (Z.to_nat p)) as [c Hcx]; [lia|]. rewrite Hcx in Hd. fold N in Hd. apply lookup_lt_Some in Hd. lia.
    + intros p q Hp Hq. rewrite !Hoff by done. lia.
  - apply list_eq_same_length with (length x.2); [done|rewrite file_bytes_length; lia|].
    intros j a c Hj Ha Hc'. rewrite <- (Nat2Z.id j) in Ha. rewrite file_bytes_lookup in Ha by lia. injection Ha as <-.
    rewrite Z.add_0_l, Hoff by lia. rewrite list_lookup_total_alt. unfold N. rewrite (ly_data _ _ Hly k x) by (done || lia). by rewrite Nat2Z.id, Hc'.
Qed.
End Layout.
End Host.

Section Boot.
Context {δ : Type} `{IoDisk δ} (fopen : list Z → option (list Z)) (stack : Z → Z → Z).

(** C10: an image that mkfs builds, on the disk of the kernel: mounting it, opening the
    name of a file of the host and reading returns the bytes of that file, when no
    file that was given before it fills its last block and the low 20 bits of the
    uninitialised half of [blockSpot] are zero. *)
Theorem mkfs_mount_open_read fs name k x :
  mkfs_input fopen fs → 0 ≤ k → fs !! Z.to_nat k = Some x → fulls (take (Z.to_nat k) fs) = 0 →
  ∃ img, main fopen stack (name :: fs.*1) = Done img ∧
    ∀ hi (d : δ) (f : kfs δ) s a rest n buf p h p2 h2, clean_half hi →
      disk_ok d → dpos d = 0 → contents d = img → length (boot f) = 4096%nat →
      sched_rep s a → running s → waitq a (CondObj p) = [] →
      kmalloc sizeof_lock (kheap s) = Done (p, h) → kmalloc blockNumSize h = Done (p2, h2) → 0 ≤ p2 < 2 ^ 32 →
      0 ≤ n < 2 ^ 63 → Z.min n (Z.of_nat (length x.2)) ≤ Z.of_nat (length buf) →
      ∃ k1 s1 k2 s2 k3 s3,
        fs_mount d f s = Done (0, k1, s1) ∧ fs_open (cstr (shortname x.1) rest) k1 s1 = Done (0, Some 0, k2, s2) ∧
        fs_read hi 0 n buf k2 s2 =
          Done (FsDone (Z.min n (Z.of_nat (length x.2))) (overwrite 0 (take (Z.to_nat n) x.2) buf) k3 s3).
Proof.
  intros Hin Hk Hx Hf. destruct (main_layout fopen stack fs name Hin) as (img & He & Hly). exists img. split; [exact He|].
  intros hi d f s a rest n buf p h p2 h2 Hhi Hd Hp Hc Hb Hrep Hrun Hw Hk1 Hk2 Hp2 Hn Hbuf.
  destruct (layout_file fopen fs img Hin Hly k x Hk Hx Hf) as (Hde & Him & Hbytes). rewrite <- Hc in Hde, Him.
  assert (Hl : 4096 ≤ Z.of_nat (length (contents d))).
  { rewrite Hc, (ly_length _ _ Hly). pose proof (total_nonneg blocks_written fs blocks_written_pos). lia. }
  assert (Hk63 : k < 2 ^ 19 - 1) by (pose proof (de_slot _ _ _ _ Hde); lia).
  destruct (mount_open_read_spec hi d f s k a (shortname x.1) k _ _ rest n buf p h p2 h2 Hhi Hd Hp Hl Hb Hde Him Hk63 Hrep Hrun Hw Hk1 Hk2 Hp2 Hn Hbuf)
    as (k1 & s1 & k2 & s2 & k3 & s3 & Hm & Ho & Hr).
  exists k1, s1, k2, s2, k3, s3. split; [exact Hm|]. split; [exact Ho|]. rewrite Hr. do 3 f_equal. rewrite Hc.
  rewrite (file_bytes_slice _ _ _ (Z.of_nat (length x.2))) by lia. rewrite Hbytes. unfold slice. change (Z.to_nat 0) with 0%nat. rewrite drop_0.
  destruct (Z.min_spec n (Z.of_nat (length x.2))) as [[? ->]|[? ->]]; [done|]. by rewrite !take_ge by lia.
Qed.

(** A file that fills its last block has one block more in its inode than in the
    image: every later file is read that many blocks behind its bytes, and the end of
    the last one is looked for past the end of the image. *)
Theorem mkfs_full_block_misplaces fs name k x :
  mkfs_input fopen fs → 0 ≤ k → fs !! Z.to_nat k = Some x → 0 < Z.of_nat (length x.2) →
  let m := fulls (take (Z.to_nat k) fs) in let N := Z.of_nat (length fs) in
  ∃ img, main fopen stack (name :: fs.*1) = Done img ∧
    (∀ p, 0 ≤ p < Z.of_nat (length x.2) → img !! Z.to_nat (data_off img N k p - 4096 * m) = x.2 !! Z.to_nat p) ∧
    (0 < m → k = N - 1 → Z.of_nat (length img) ≤ data_off img N k (Z.of_nat (length x.2) - 1)).
Proof.
  intros Hin Hk Hx Hl m N. destruct (main_layout fopen stack fs name Hin) as (img & He & Hly). exists img. split; [exact He|]. split.
  - intros p Hp. unfold N. rewrite (layout_off fs img Hly k x p Hk Hx Hp). fold m. rewrite Z.add_simpl_r. by apply (ly_data _ _ Hly).
  - intros Hm HkN. unfold N at 1. rewrite (layout_off fs img Hly k x _ Hk Hx) by lia. fold m. rewrite (ly_length _ _ Hly).
    assert (Hfs : total blocks_written fs = total blocks_written (take (Z.to_nat k) fs) + blocks_written x.2).
    { rewrite <- (take_drop_middle fs (Z.to_nat k) x Hx) at 1. rewrite total_app. cbn [total].
      rewrite drop_ge by (unfold N in *; lia). cbn [total]. lia. }
    rewrite Hfs. pose proof (Z.div_mod (Z.of_nat (length x.2) + 4095) 4096 ltac:(lia)).
    pose proof (Z.mod_pos_bound (Z.of_nat (length x.2) + 4095) 4096 ltac:(lia)). unfold blocks_written at 2. lia.
Qed.
End Boot.

(** ** Witnesses *)

Definition host_of (fs : list (list Z * list Z)) (p : list Z) : option (list Z) := snd <$> head (filter (λ x, x.1 = p) fs).
Definition files_example : list (list Z * list Z) := [(string_bytes "../user/bin/ab", [10; 20; 30]); (string_bytes "cd", [7; 8])].
Definition full_example : list (list Z * list Z) := [(string_bytes "user/bin/ab", replicate (Z.to_nat 4096) 1); (string_bytes "cd", [7; 8])].

Lemma files_example_input : mkfs_input (host_of files_example) files_example.
Proof.
  split; [cbn; lia| | | |].
  - intros x [->|[->|[]%elem_of_nil]%elem_of_cons]%elem_of_cons; vm_compute; reflexivity.
  - intros x [->|[->|[]%elem_of_nil]%elem_of_cons]%elem_of_cons; unfold is_str; apply (bool_decide_unpack _); vm_compute; exact I.
  - intros x [->|[->|[]%elem_of_nil]%elem_of_cons]%elem_of_cons; cbn; lia.
  - apply (bool_decide_unpack _). vm_compute. exact I.
Qed.

Lemma full_example_input : mkfs_input (host_of full_example) full_example.
Proof.
  split; [cbn; lia| | | |].
  - intros x [->|[->|[]%elem_of_nil]%elem_of_cons]%elem_of_cons; vm_compute; reflexivity.
  - intros x [->|[->|[]%elem_of_nil]%elem_of_cons]%elem_of_cons; unfold is_str; apply (bool_decide_unpack _); vm_compute; exact I.
  - intros x [->|[->|[]%elem_of_nil]%elem_of_cons]%elem_of_cons; cbn [snd]; rewrite ?length_replicate; cbn [length]; lia.
  - apply (bool_decide_unpack _). vm_compute. exact I.
Qed.

Definition mkfs_image_example : list Z :=
  match main (host_of files_example) (λ _ _, 77) ([] :: files_example.*1) with Done img => img | _ => [] end.

(** The second file is opened and read on a disk with the image. *)
Lemma mkfs_mount_open_read_witness :
  ∃ k1 s1 k2 s2 k3 s3,
    fs_mount (iolit_init mkfs_image_example 20480) kfs_example lock_sched = Done (0, k1, s1) ∧
    fs_open (cstr [99; 100] []) k1 s1 = Done (0, Some 0, k2, s2) ∧
    fs_read 0 0 9 [0; 0; 0] k2 s2 = Done (FsDone 2 [7; 8; 0] k3 s3).
Proof.
  destruct (mkfs_mount_open_read (δ := io_lit) (host_of files_example) (λ _ _, 77) files_example [] 1 (string_bytes "cd", [7; 8])
    files_example_input ltac:(lia) eq_refl eq_refl) as (img & He & H).
  assert (img = mkfs_image_example) as -> by (unfold mkfs_image_example; by rewrite He).
  assert (Hlen : Z.of_nat (length mkfs_image_example) = 20480) by (vm_compute; reflexivity).
  eapply (H 0 (iolit_init mkfs_image_example 20480) kfs_example lock_sched lock_abs [] 9 [0; 0; 0]);
    [reflexivity|split; [unfold lit_ok; cbn [iolit_init lit_pos lit_size lit_buf]; rewrite Hlen; lia|done]|reflexivity|reflexivity|reflexivity
    |apply lock_sched_rep|by exists None, None, None| |reflexivity|reflexivity|vm_compute; split; [discriminate|reflexivity]
    |lia|cbn; lia].
  reflexivity.
Defined.

Lemma mkfs_full_block_misplaces_witness :
  ∃ img, main (host_of full_example) (λ _ _, 0) ([] :: full_example.*1) = Done img ∧ Z.of_nat (length img) ≤ data_off img 2 1 1.
Proof.
  destruct (mkfs_full_block_misplaces (host_of full_example) (λ _ _, 0) full_example [] 1 (string_bytes "cd", [7; 8])
    full_example_input ltac:(lia) eq_refl ltac:(cbn; lia)) as (img & He & _ & Hout).
  exists img. split; [exact He|]. exact (Hout eq_refl eq_refl).
Defined.
