(* ===== verification/Vmem.v ===== *)
(** User memory as the kernel accesses it: bytes at virtual addresses.

    A load or store of the kernel at a user address goes through the active page
    table, as the hardware does it; without a valid entry, or for a store to a page
    without the W flag, the trap from S mode ends in a panic (src/src/kern/excp.c,
    smode_excp_handler). *)
From Stdlib Require Import ZArith Lia.
From stdpp Require Import base gmap list sets strings.
From S2P Require Import Prelude Pages Heap Pte Memory MemFacts PageTables Mapping.

Open Scope Z_scope.

(** Byte [k] of a doubleword. *)
Definition get_byte (w k : Z) : Z := w / 256 ^ k mod 256.
Definition set_byte (w k b : Z) : Z := w + (b - get_byte w k) * 256 ^ k.

Definition byte_at (pa : Z) (m : mem) : Z := get_byte (rd m (8 * (pa / 8))) (pa mod 8).

(** The entry that translates a user address in the active space. *)
Definition vleaf (v : Z) (m : mem) : option Z :=
  if wellformed_vma v then translate (active_space_root m) v m else None.

Definition vstore (v b : Z) (m : mem) : outcome mem :=
  match vleaf v m with
  | Some e =>
      if has PTE_W e then
        let pa := entry_page e + v mod PAGE_SIZE in
        w ← ld (8 * (pa / 8)) m;
        sd (8 * (pa / 8)) (set_byte w (pa mod 8) b) m
      else Panicked "Store page fault"
  | None => Panicked "Store page fault"
  end.

Fixpoint vstore_bytes (v : Z) (bs : list Z) (m : mem) : outcome mem :=
  match bs with
  | [] => Done m
  | b :: bs => m ← vstore v b m; vstore_bytes (u64 (v + 1)) bs m
  end.

(** The byte at a virtual address. *)
Definition vbyte (root v : Z) (m : mem) : option Z :=
  (λ e, byte_at (entry_page e + v mod 4096) m) <$> translate root v m.

(** ** Bytes of doublewords *)

Lemma get_set_byte w k b : 0 ≤ k → 0 ≤ b < 256 → get_byte (set_byte w k b) k = b.
Proof.
  intros Hk Hb. unfold set_byte, get_byte. rewrite Z.div_add by (apply Z.pow_nonzero; lia).
  set (q := w / 256 ^ k). pose proof (Z.div_mod q 256 ltac:(lia)).
  replace (q + (b - q mod 256)) with (b + q / 256 * 256) by lia. rewrite Z.mod_add by lia. by apply Z.mod_small.
Qed.

Lemma get_set_byte_ne w k j b : 0 ≤ k → 0 ≤ j → j ≠ k → 0 ≤ b < 256 → get_byte (set_byte w k b) j = get_byte w j.
Proof.
  intros Hk Hj Hne Hb. unfold set_byte, get_byte at 1 3. set (q := get_byte w k).
  assert (Hpos : ∀ n, 0 ≤ n → 0 < 256 ^ n) by (intros; apply Z.pow_pos_nonneg; lia).
  destruct (decide (j < k)).
  - replace (256 ^ k) with (256 * 256 ^ (k - j - 1) * 256 ^ j).
    2:{ rewrite <- (Z.pow_1_r 256) at 1. rewrite <- !Z.pow_add_r by lia. f_equal. lia. }
    rewrite Z.mul_assoc, Z.div_add by (specialize (Hpos j ltac:(lia)); lia).
    rewrite (Z.mul_comm 256), Z.mul_assoc. by rewrite Z.mod_add by lia.
  - replace (256 ^ j) with (256 ^ (k + 1) * 256 ^ (j - k - 1)).
    2:{ rewrite <- Z.pow_add_r by lia. f_equal. lia. }
    assert (H1 : 0 < 256 ^ (k + 1)) by (apply Hpos; lia). assert (H2 : 0 < 256 ^ (j - k - 1)) by (apply Hpos; lia).
    rewrite <- !Z.div_div by lia. do 2 f_equal. specialize (Hpos k Hk).
    assert (Hp1 : 256 ^ (k + 1) = 256 ^ k * 256) by (rewrite Z.pow_add_r by lia; f_equal).
    rewrite Hp1, <- !Z.div_div by lia. rewrite Z.div_add by lia.
    unfold q, get_byte. set (u := w / 256 ^ k). pose proof (Z.div_mod u 256 ltac:(lia)).
    replace (u + (b - u mod 256)) with (b + u / 256 * 256) by lia. rewrite Z.div_add by lia.
    rewrite Z.div_small by lia. lia.
Qed.

(** ** Stores to mapped pages *)

Section Vmem.
Context (root : Z).
Abbreviation node_at := (node_at root).
Abbreviation entry_at := (entry_at root).
Abbreviation pt_inv := (pt_inv root).

(** A store into a mapped page leaves the space as it is. *)
Lemma data_store_inv m l p d i w :
  pt_inv m l → path_ok p → length p = 3%nat → node_at m p = Some d → 0 ≤ i < 512 →
  let m' := upd (d + 8 * i) w m in
  pt_inv m' l ∧ ∀ p', path_ok p' → node_at m' p' = node_at m p' ∧ entry_at m' p' = entry_at m p'.
Proof.
  intros Hi Hp Hl Hd Hr m'. pose proof (node_ram _ _ _ _ _ Hi Hd Hp) as Hram.
  assert (Hfr : ∀ p' t j, path_ok (j :: p') → node_at m p' = Some t → rd m' (t + 8 * j) = rd m (t + 8 * j)).
  { intros p' t j Hp' Ht. apply rd_upd_ne. intros Heq.
    destruct (entry_addr_inj root m l p p' d t i j Hi Hp ltac:(eauto) Hd Ht Hr ltac:(eauto) Heq) as [<- _].
    destruct Hp' as [Hl' _]. cbn in Hl'. lia. }
  pose proof (frame_entry root m m' Hfr) as Hsame. split; [|done]. split.
  - apply (free_ok_ext m m' l); [|done|by apply (pt_free _ _ _ Hi)]. intros q Hq. apply rd_upd_ne. intros Heq.
    assert (d = q) as ->.
    { apply (ram_page_disjoint d q q); auto; [|unfold in_page; lia].
      destruct (pt_free _ _ _ Hi) as (_ & _ & Hps). rewrite Forall_forall in Hps. auto. }
    by apply (node_not_free _ _ _ _ _ Hi Hd Hp).
  - intros p' t Hp'. rewrite (proj1 (Hsame p' Hp')). by apply (pt_page _ _ _ Hi).
  - intros p1 p2 t Hp1 Hp2. rewrite (proj1 (Hsame p1 Hp1)), (proj1 (Hsame p2 Hp2)). by apply (pt_inj _ _ _ Hi).
  - intros j Hj. unfold m'. rewrite rd_upd_ne; [by apply (pt_kernel _ _ _ Hi)|]. intros Heq.
    destruct (entry_addr_inj root m l p [] d root i j Hi Hp path_ok_nil Hd eq_refl Hr ltac:(lia) Heq) as [-> _]. done.
  - intros p' e Hp' Hl'. rewrite (proj2 (Hsame p' Hp')). by eapply (pt_table _ _ _ Hi).
Qed.

Lemma page_word d v : d mod 4096 = 0 → let pa := d + v mod 4096 in
  8 * (pa / 8) = d + 8 * (v mod 4096 / 8) ∧ pa mod 8 = v mod 8 ∧ 0 ≤ v mod 4096 / 8 < 512.
Proof.
  intros Hd pa. pose proof (Z.mod_pos_bound v 4096 ltac:(lia)). apply Z.div_exact in Hd; [|lia].
  assert (Hpa : pa = v mod 4096 + 512 * (d / 4096) * 8) by (unfold pa; lia). split_and!.
  - rewrite Hpa, Z.div_add by lia. lia.
  - rewrite Hpa, Z.mod_add by lia. change 4096 with (8 * 512). rewrite Z.rem_mul_r by lia.
    rewrite (Z.mul_comm 8), Z.mod_add by lia. apply Z.mod_mod. lia.
  - apply Z.div_pos; lia.
  - apply Z.div_lt_upper_bound; lia.
Qed.

Lemma vleaf_user v m : user_vma v → active_space_root m = root → vleaf v m = translate root v m.
Proof. intros Hv Hr. unfold vleaf. by rewrite user_vma_wf, Hr. Qed.

Lemma same_regs_root m m' : same_regs m m' → active_space_root m' = active_space_root m.
Proof. intros (Hs & _). unfold active_space_root, active_space_mtag. by rewrite Hs. Qed.

(** What a run of stores may change: the bytes at [P]. *)
Record vstep (m : mem) (l : list Z) (m' : mem) (P : Z → Prop) : Prop := {
  vs_inv : pt_inv m' l;
  vs_regs : same_regs m m';
  vs_map : ∀ u, user_vma u → translate root u m' = translate root u m;
  vs_keep : ∀ u, user_vma u → ¬ P u → vbyte root u m' = vbyte root u m
}.

Lemma vstep_root m l m' P : vstep m l m' P → active_space_root m = root → active_space_root m' = root.
Proof. intros [_ Hs _ _] <-. by apply same_regs_root. Qed.

Lemma vstore_spec m l v b e :
  pt_inv m l → active_space_root m = root → user_vma v → translate root v m = Some e → has PTE_W e = true → 0 ≤ b < 256 →
  ∃ m', vstore v b m = Done m' ∧ vstep m l m' (λ u, u = v) ∧ vbyte root v m' = Some b.
Proof.
  intros Hi Hroot Hv He Hw Hb. unfold vstore. rewrite vleaf_user, He, Hw by done.
  pose proof (translate_node _ _ _ _ Hv He) as Hd. pose proof (user_vma_path _ Hv) as Hp.
  pose proof (node_ram _ _ _ _ _ Hi Hd Hp) as Hram. destruct (page_word (entry_page e) v (proj1 Hram)) as (Ha & Hk & Hr).
  rewrite PAGE_SIZE_eq. cbn zeta in *. rewrite Ha, Hk. rewrite ld_page by done. cbn [mbind outcome_bind]. rewrite sd_page by done.
  set (i := v mod 4096 / 8) in *. set (w := set_byte _ _ _).
  destruct (data_store_inv m l _ (entry_page e) i w Hi Hp ltac:(done) Hd Hr) as [Hi' Hsame].
  set (m' := upd (entry_page e + 8 * i) w m) in *. exists m'. split; [done|].
  assert (Ht : ∀ u, user_vma u → translate root u m' = translate root u m).
  { intros u Hu. unfold translate. apply Hsame. auto. }
  assert (Hvb : ∀ u e', user_vma u → translate root u m = Some e' → vbyte root u m' =
    if decide (u = v) then Some b else vbyte root u m).
  { intros u e' Hu He'. unfold vbyte. rewrite Ht, He' by done. cbn [fmap option_fmap option_map].
    pose proof (translate_node _ _ _ _ Hu He') as Hd'. pose proof (node_ram _ _ _ _ _ Hi Hd' (user_vma_path _ Hu)) as Hram'.
    destruct (page_word (entry_page e') u (proj1 Hram')) as (Ha' & Hk' & Hr'). unfold byte_at. rewrite Ha', Hk'.
    unfold m'. rewrite rd_upd. case_decide as Hw'.
    - destruct (entry_addr_inj root m l _ _ _ _ _ _ Hi Hp (user_vma_path _ Hu) Hd Hd' Hr Hr' Hw') as [Hpu Hiu].
      pose proof (path_of_inj _ _ Hv Hu Hpu) as Hpg. case_decide as Huv.
      + subst u. f_equal. unfold w. apply get_set_byte; [|done]. apply Z.mod_pos_bound. lia.
      + f_equal. unfold w. rewrite get_set_byte_ne; [..|done]; try (apply Z.mod_pos_bound; lia).
        * by rewrite Hw'.
        * intros Heq. apply Huv. pose proof (Z.div_mod u 4096 ltac:(lia)). pose proof (Z.div_mod v 4096 ltac:(lia)).
          pose proof (Z.div_mod (u mod 4096) 8 ltac:(lia)). pose proof (Z.div_mod (v mod 4096) 8 ltac:(lia)).
          assert (Hm8 : ∀ z, (z mod 4096) mod 8 = z mod 8).
          { intros z. change 4096 with (8 * 512). rewrite Z.rem_mul_r by lia. rewrite (Z.mul_comm 8), Z.mod_add by lia. apply Z.mod_mod. lia. }
          rewrite !Hm8 in *. unfold i in Hiu. lia.
    - rewrite decide_False; [done|]. intros ->. apply Hw'. rewrite He in He'. by injection He' as <-. }
  split; [split; [done|apply same_regs_upd|done|]|].
  - intros u Hu Hne. destruct (translate root u m) as [e'|] eqn:He'.
    + rewrite (Hvb u e' Hu He'). by rewrite decide_False.
    + unfold vbyte. by rewrite Ht, He'.
  - rewrite (Hvb v e Hv He). by rewrite decide_True.
Qed.

Lemma vstore_bytes_spec bs : ∀ m l v,
  pt_inv m l → active_space_root m = root → Forall (λ b, 0 ≤ b < 256) bs →
  (∀ j, 0 ≤ j < Z.of_nat (length bs) → user_vma (v + j) ∧ ∃ e, translate root (v + j) m = Some e ∧ has PTE_W e = true) →
  ∃ m', vstore_bytes v bs m = Done m' ∧ vstep m l m' (λ u, v ≤ u < v + Z.of_nat (length bs)) ∧
    ∀ (j : nat) b, bs !! j = Some b → vbyte root (v + Z.of_nat j) m' = Some b.
Proof.
  induction bs as [|b bs IH]; intros m l v Hi Hroot Hbs Hmap.
  - exists m. split; [done|]. split; [by split|]. intros j b Hj. by rewrite lookup_nil in Hj.
  - apply Forall_cons in Hbs as [Hb Hbs]. cbn [length vstore_bytes] in *.
    destruct (Hmap 0) as (Hv & e & He & Hw); [lia|]. rewrite Z.add_0_r in *.
    destruct (vstore_spec m l v b e Hi Hroot Hv He Hw Hb) as (m1 & -> & Hs1 & Hb1). cbn [mbind outcome_bind].
    assert (Hv1 : v < 2 ^ 38) by apply Hv. assert (Hv0 : 0 ≤ v) by (unfold user_vma in Hv; rewrite GIGA_SIZE_eq in Hv; lia).
    rewrite u64_small by lia.
    destruct (IH m1 l (v + 1)) as (m' & -> & Hs2 & Hb2); [by eapply vs_inv|by eapply vstep_root|done| |].
    { intros j Hj. destruct (Hmap (1 + j)) as (Hu & e' & He' & Hw'); [lia|]. replace (v + 1 + j) with (v + (1 + j)) by lia.
      split; [done|]. exists e'. by rewrite (vs_map _ _ _ _ Hs1). }
    exists m'. split; [done|]. destruct Hs1 as [_ Hg1 Hm1 Hk1], Hs2 as [Hi2 Hg2 Hm2 Hk2]. split.
    + split; [done|by etrans| |].
      * intros u Hu. by rewrite Hm2, Hm1.
      * intros u Hu Hn. rewrite Hk2, Hk1; [done|done|lia|done|lia].
    + intros [|j] b' Hj; cbn in Hj.
      * injection Hj as <-. rewrite Z.add_0_r, Hk2; [done|done|lia].
      * rewrite <- (Hb2 j b' Hj). f_equal. lia.
Qed.

(** ** Mapping and protecting ranges *)

(** The flags of the entry. *)
Definition leaf_flags (e : Z) : Z := flags (word_pte e).

Lemma leaf_flags_pte q f : leaf_flags (pte_word (leaf_pte q f)) = new_flags f.
Proof. unfold leaf_flags. by rewrite word_pte_word by eauto with word. Qed.

Lemma new_flags_bit f k : 0 ≤ k < 6 → k ≠ 0 → Z.testbit (new_flags f) k = Z.testbit f k.
Proof.
  intros Hk Hne. unfold new_flags. rewrite u8_testbit by lia. rewrite !Z.lor_spec.
  assert (H : ∀ n, n ≠ k → 0 ≤ n → Z.testbit (Z.shiftl 1 n) k = false).
  { intros n Hn Hp. rewrite Z.shiftl_1_l. by apply Z.pow2_bits_false. }
  unfold PTE_A, PTE_D, PTE_V. rewrite !H by lia. by rewrite !orb_false_r.
Qed.

(** The pages of a range, as addresses. *)
Definition in_range (v size u : Z) : Prop := 0 ≤ u / 4096 - v / 4096 < (size + 4095) / 4096.

Lemma in_range_ge v size u : v mod 4096 = 0 → in_range v size u → v ≤ u.
Proof.
  unfold in_range. intros Hal Hr. apply Z.div_exact in Hal; [|lia].
  pose proof (Z.div_mod u 4096 ltac:(lia)). pose proof (Z.mod_pos_bound u 4096 ltac:(lia)). lia.
Qed.

Lemma range_pages v size : 0 ≤ size → v mod 4096 = 0 → v + size ≤ 2 ^ 38 → GIGA_SIZE * 3 ≤ v →
  let n := (size + 4095) / 4096 in
  0 ≤ n ∧ n * 4096 < size + 4096 ∧ (∀ y, 0 ≤ y < n → user_vma (v + y * 4096)) ∧
  (∀ u, v ≤ u < v + size → in_range v size u ∧ user_vma u).
Proof.
  intros Hs Hal Hend Hge n. rewrite GIGA_SIZE_eq in Hge. pose proof (Z.div_mod (size + 4095) 4096 ltac:(lia)).
  pose proof (Z.mod_pos_bound (size + 4095) 4096 ltac:(lia)). apply Z.div_exact in Hal; [|lia].
  assert (0 ≤ n) by (apply Z.div_pos; lia). unfold n in *. split_and!; [done|lia| |].
  - intros y Hy. unfold user_vma. rewrite GIGA_SIZE_eq. lia.
  - intros u Hu. pose proof (Z.div_mod u 4096 ltac:(lia)). pose proof (Z.mod_pos_bound u 4096 ltac:(lia)).
    unfold in_range, user_vma. rewrite GIGA_SIZE_eq. lia.
Qed.

Lemma map_range_vmem m l v size f :
  pt_inv m l → active_space_root m = root → v mod 4096 = 0 → GIGA_SIZE * 3 ≤ v → 0 ≤ size → v + size ≤ 2 ^ 38 →
  3 * ((size + 4095) / 4096) ≤ Z.of_nat (length l) →
  ∃ m' l', memory_alloc_and_map_range v size f m = Done (v, m') ∧ pt_inv m' l' ∧ same_regs m m' ∧
    Z.of_nat (length l) ≤ Z.of_nat (length l') + 3 * ((size + 4095) / 4096) ∧
    (∀ u, user_vma u → in_range v size u →
       (∃ e, translate root u m' = Some e ∧ leaf_flags e = new_flags f) ∧ vbyte root u m' = Some 0) ∧
    (∀ u, user_vma u → ¬ in_range v size u → translate root u m' = translate root u m ∧ vbyte root u m' = vbyte root u m).
Proof.
  intros Hi Hroot Hal Hge Hs Hend Hl. destruct (range_pages v size Hs Hal Hend Hge) as (Hn0 & Hn & Hy & _).
  set (n := (size + 4095) / 4096) in *.
  destruct (map_range_steps root v f (Z.to_nat n) 0 m l Hi Hroot ltac:(lia))
    as (m' & l' & used & Hf & Hst & Hu & Ht); [intros y Hy'; apply Hy; lia|lia|].
  rewrite Z2Nat.id, Z.add_0_l in Ht by lia. exists m', l'.
  pose proof (ps_used _ _ _ _ _ _ Hst) as Hl'. split_and!.
  - unfold memory_alloc_and_map_range. rewrite GIGA_SIZE_eq in Hge. rewrite num_pages_spec by lia. fold n. by rewrite Hf.
  - by eapply ps_inv.
  - by eapply ps_regs.
  - rewrite Hl', length_app. lia.
  - intros u Hu' Hr. specialize (Ht u Hu'). rewrite decide_True in Ht by done. destruct Ht as (q & Hq & Ht & H0). split.
    + exists (pte_word (leaf_pte q f)). split; [done|apply leaf_flags_pte].
    + assert (Hqp : ram_page q).
      { destruct (pt_free _ _ _ Hi) as (_ & _ & Hps). rewrite Forall_forall in Hps. apply Hps. rewrite Hl'. apply elem_of_app; by left. }
      unfold vbyte. rewrite Ht. cbn [fmap option_fmap option_map]. rewrite leaf_entry_page by auto.
      destruct (page_word q u (proj1 Hqp)) as (Ha & _ & Hr'). unfold byte_at. rewrite Ha, H0 by done.
      unfold get_byte. by rewrite Zdiv_0_l.
  - intros u Hu' Hr. specialize (Ht u Hu'). rewrite decide_False in Ht by done. split; [done|].
    unfold vbyte. rewrite Ht. destruct (translate root u m) as [e|] eqn:He; [|done]. cbn [fmap option_fmap option_map].
    pose proof (node_ram _ _ _ _ _ Hi (translate_node _ _ _ _ Hu' He) (user_vma_path _ Hu')) as Hram.
    destruct (page_word (entry_page e) u (proj1 Hram)) as (Ha & _ & Hr'). unfold byte_at. rewrite Ha.
    by rewrite (step_data root m l m' l' used u e _ Hi Hst Hu' He Hr').
Qed.

Lemma set_range_vmem v f n : ∀ x m l,
  pt_inv m l → active_space_root m = root → 0 ≤ x →
  (∀ y, x ≤ y < x + Z.of_nat n → user_vma (v + y * 4096) ∧ translate root (v + y * 4096) m ≠ None) →
  ∃ m', for_range n x (λ x m, memory_set_page_flags (u64 (v + x * PAGE_SIZE)) f m) m = Done m' ∧
    pt_inv m' l ∧ same_regs m m' ∧
    (∀ u, user_vma u → vbyte root u m' = vbyte root u m) ∧
    (∀ u, user_vma u → if decide (x ≤ u / 4096 - v / 4096 < x + Z.of_nat n)
       then ∃ e, translate root u m' = Some e ∧ leaf_flags e = new_flags f
       else translate root u m' = translate root u m).
Proof.
  induction n as [|n IH]; intros x m l Hi Hroot Hx Hu.
  { exists m. split_and!; [done|done|done|done|]. intros u Hu'. by rewrite decide_False by lia. }
  destruct (Hu x ltac:(lia)) as [Hux Hex]. destruct (translate root (v + x * 4096) m) as [e|] eqn:He; [|done].
  destruct (set_page_flags_step root m l (v + x * 4096) f e Hi Hroot Hux He)
    as (m1 & e' & Hm & Hi1 & Hg1 & Hw & Hpg & Ht1 & Hd1).
  assert (Hdiv : (v + x * 4096) / 4096 = v / 4096 + x) by by rewrite Z.div_add.
  assert (Hroot1 : active_space_root m1 = root).
  { rewrite <- Hroot. unfold active_space_root, active_space_mtag. by destruct Hg1 as (-> & _). }
  assert (Hb1 : ∀ u, user_vma u → vbyte root u m1 = vbyte root u m).
  { intros u Hu'. unfold vbyte. rewrite Ht1 by done.
    assert (Hkeep : ∀ e1, translate root u m = Some e1 → byte_at (entry_page e1 + u mod 4096) m1 = byte_at (entry_page e1 + u mod 4096) m).
    { intros e1 He1. pose proof (translate_node _ _ _ _ Hu' He1) as Hn.
      pose proof (node_ram _ _ _ _ _ Hi Hn (user_vma_path _ Hu')) as Hram.
      destruct (page_word (entry_page e1) u (proj1 Hram)) as (Ha & _ & Hr). unfold byte_at. rewrite Ha.
      by rewrite (Hd1 _ _ _ (user_vma_path _ Hu') eq_refl Hn Hr). }
    case_decide as Hc.
    - assert (Heu : translate root u m = Some e).
      { rewrite <- He. unfold translate. f_equal. by apply path_of_page. }
      rewrite Heu. cbn [fmap option_fmap option_map]. rewrite Hpg. f_equal. by apply Hkeep.
    - destruct (translate root u m) as [e1|] eqn:He1; [|done]. cbn [fmap option_fmap option_map]. f_equal. by apply Hkeep. }
  destruct (IH (x + 1) m1 l Hi1 Hroot1) as (m2 & Hf & Hi2 & Hg2 & Hb2 & Ht2); [lia| |].
  { intros y Hy. destruct (Hu y ltac:(lia)) as [Huy Hey]. split; [done|]. rewrite Ht1 by done. by case_decide. }
  exists m2. split_and!.
  - cbn [for_range]. rewrite PAGE_SIZE_eq. unfold user_vma in Hux. rewrite GIGA_SIZE_eq in Hux.
    rewrite u64_small by lia. rewrite Hm. exact Hf.
  - done.
  - by etrans.
  - intros u Hu'. by rewrite Hb2, Hb1.
  - intros u Hu'. specialize (Ht2 u Hu'). specialize (Ht1 u Hu'). rewrite Hdiv in Ht1.
    destruct (decide (u / 4096 - v / 4096 = x)) as [Hc|Hc].
    + rewrite decide_True by lia. rewrite decide_False in Ht2 by lia. rewrite decide_True in Ht1 by lia.
      exists e'. rewrite Ht2. split; [done|]. unfold leaf_flags. by rewrite Hw.
    + rewrite decide_False in Ht1 by lia. destruct (decide (x ≤ u / 4096 - v / 4096 < x + Z.of_nat (S n))).
      * by rewrite decide_True in Ht2 by lia.
      * rewrite decide_False in Ht2 by lia. by rewrite Ht2.
Qed.

Lemma set_range_flags_vmem m l v size f :
  pt_inv m l → active_space_root m = root → v mod 4096 = 0 → GIGA_SIZE * 3 ≤ v → 0 ≤ size → v + size ≤ 2 ^ 38 →
  (∀ u, user_vma u → in_range v size u → translate root u m ≠ None) →
  ∃ m', memory_set_range_flags v size f m = Done m' ∧ pt_inv m' l ∧ same_regs m m' ∧
    (∀ u, user_vma u → vbyte root u m' = vbyte root u m) ∧
    (∀ u, user_vma u → in_range v size u → ∃ e, translate root u m' = Some e ∧ leaf_flags e = new_flags f) ∧
    (∀ u, user_vma u → ¬ in_range v size u → translate root u m' = translate root u m).
Proof.
  intros Hi Hroot Hal Hge Hs Hend Hmap. destruct (range_pages v size Hs Hal Hend Hge) as (Hn0 & Hn & Hy & _).
  unfold in_range in *. set (n := (size + 4095) / 4096) in *.
  destruct (set_range_vmem v f (Z.to_nat n) 0 m l Hi Hroot ltac:(lia)) as (m' & Hf & Hi' & Hg' & Hb' & Ht').
  { intros y Hy'. split; [apply Hy; lia|]. apply Hmap; [apply Hy; lia|]. rewrite Z.div_add by lia. lia. }
  rewrite Z2Nat.id, Z.add_0_l in Ht' by lia. exists m'. split_and!; try done.
  - unfold memory_set_range_flags. rewrite GIGA_SIZE_eq in Hge. rewrite num_pages_spec by lia. exact Hf.
  - intros u Hu Hr. specialize (Ht' u Hu). by rewrite decide_True in Ht' by done.
  - intros u Hu Hr. specialize (Ht' u Hu). by rewrite decide_False in Ht' by done.
Qed.
End Vmem.
