(* ===== verification/Reuse.v ===== *)
(** What memory_unmap_and_free_user leaves behind: it frees the pages of a program but
    keeps their translations, so that the next page that is mapped is one that the
    space still maps elsewhere. *)
From Stdlib Require Import ZArith Lia.
From stdpp Require Import base gmap list strings.
From S2P Require Import Prelude Pages Heap Pte Memory MemFacts PageTables Mapping Spaces Vmem.

Open Scope Z_scope.

Section Reuse.
Context (root : Z).

(** Words of tables that are as they were, but for the one at path [q] of a page. *)
Lemma entries_but q m m' : length q = 3%nat →
  (∀ p t i, path_ok (i :: p) → node_at root m p = Some t → i :: p ≠ q → rd m' (t + 8 * i) = rd m (t + 8 * i)) →
  (∀ p, path_ok p → (length p ≤ 2)%nat → node_at root m' p = node_at root m p) ∧
  (∀ p, path_ok p → p ≠ q → entry_at root m' p = entry_at root m p).
Proof.
  intros Hq Hrd. assert (Hn : ∀ p, path_ok p → (length p ≤ 2)%nat → node_at root m' p = node_at root m p).
  { intros p. induction p as [|i p IH]; intros Hp Hl; [done|]. cbn [length] in Hl. cbn. rewrite IH by (eauto; lia).
    destruct (node_at root m p) as [t|] eqn:Ht; [|done]. rewrite (Hrd p t i Hp Ht); [done|]. intros <-. cbn in Hq. lia. }
  split; [done|]. intros [|i p] Hp Hne; [done|]. cbn. rewrite Hn by (first [by eapply path_ok_tail | destruct Hp as [Hp _]; cbn in Hp; lia]).
  destruct (node_at root m p) as [t|] eqn:Ht; [|done]. by rewrite (Hrd p t i Hp Ht).
Qed.

(** After the loops of [memory_unmap_and_free_user] the tables are as they were. *)
Lemma unmapped_entries m0 l k m : pt_inv root m0 l → unmapped_to root m0 l k m →
  ∀ p, path_ok p → node_at root m p = node_at root m0 p ∧ entry_at root m p = entry_at root m0 p.
Proof.
  intros Hi Hj. apply frame_entry. intros p t i Hp Hn.
  apply (unmapped_rd root m0 l Hi k m p t i Hj); eauto. destruct Hp as [Hl _]. cbn in Hl. lia.
Qed.

(** No user page of the space is above the page of [u]. *)
Definition highest_user (m : mem) (u : Z) : Prop := ∀ a b c d, user_page root m a b c d → position a b c ≤ u / 4096.

Lemma position_of u : user_vma u → position (VPN2 u) (VPN1 u) (VPN0 u) = u / 4096.
Proof.
  unfold user_vma. rewrite GIGA_SIZE_eq. intros Hu. unfold position. rewrite VPN0_eq, VPN1_eq, VPN2_eq.
  change (2 ^ 12) with 4096. change (2 ^ 21) with (4096 * 512). change (2 ^ 30) with (4096 * 512 * 512). rewrite <- !Z.div_div by lia.
  pose proof (Z.div_mod (u / 4096) 512 ltac:(lia)). pose proof (Z.div_mod (u / 4096 / 512) 512 ltac:(lia)).
  assert (0 ≤ u / 4096 / 512 / 512 < 512) by (split; [repeat apply Z.div_pos; lia|repeat apply Z.div_lt_upper_bound; lia]). rewrite (Z.mod_small (u / 4096 / 512 / 512)) by done. lia.
Qed.

Lemma translated_page u m e : user_vma u → translate root u m = Some e → has PTE_U e = true →
  user_page root m (VPN2 u) (VPN1 u) (VPN0 u) (entry_page e).
Proof. intros Hv He Hu. split; [by apply user_vma_path|]. by exists e. Qed.

(** The page that is freed last is the first of the free list. *)
Lemma unmap_frees_highest m l u e : pt_inv root m l → active_space_root m = root →
  user_vma u → translate root u m = Some e → has PTE_U e = true → highest_user m u →
  ∃ m1 fr, memory_unmap_and_free_user m = Done m1 ∧ free_ok m1 (entry_page e :: fr) ∧ same_regs m m1 ∧
    ∀ p, path_ok p → node_at root m1 p = node_at root m p ∧ entry_at root m1 p = entry_at root m p.
Proof.
  intros Hi Hr Hv He Hu Hmax. destruct (unmap_all root m l Hi m) as (m1 & Hm & Hj); [done|by eapply pt_free|done|done|].
  pose proof Hj as (fr & Hf & Hs & Hfr & _ & Hlast). pose proof (translated_page u m e Hv He Hu) as Hup.
  assert (Hlt : ∀ a b c d, user_page root m a b c d → position a b c < position 512 0 0).
  { intros a b c d [[_ (Hc & _ & Hb & _ & Ha & _)] _]. unfold position. lia. }
  assert (Hin : entry_page e ∈ fr) by (apply Hfr; eexists _, _, _; split; [exact Hup|by eapply Hlt]).
  destruct fr as [|d fr]; [by apply not_elem_of_nil in Hin|].
  destruct (Hlast d eq_refl) as (a & b & c & Hd & _ & Hge). pose proof (Hge _ _ _ _ Hup (Hlt _ _ _ _ Hup)) as Hle.
  rewrite position_of in Hle by done. pose proof (Hmax _ _ _ _ Hd) as Hle'. rewrite <- position_of in Hle, Hle' by done.
  assert (a = VPN2 u ∧ b = VPN1 u ∧ c = VPN0 u) as (-> & -> & ->).
  { destruct Hd as [[_ (Hc & _ & Hb & _ & Ha & _)] _]. destruct Hup as [[_ (Hc' & _ & Hb' & _ & Ha' & _)] _]. unfold position in *. lia. }
  destruct Hd as (_ & e' & He' & _ & ->). destruct Hup as (_ & e2 & He2 & _ & Heq). rewrite He' in He2. injection He2 as <-.
  exists m1, (fr ++ l). split; [done|]. split; [by rewrite Heq|]. split; [done|]. by eapply unmapped_entries.
Qed.

Lemma walk_pt_found m v t create : user_vma v → (∀ p t, path_ok p → node_at root m p = Some t → ram_page t) →
  node_at root m [VPN1 v; VPN2 v] = Some t → walk_pt root v create m = Done (Some (t + 8 * VPN0 v), m).
Proof.
  intros Hv Hram Hn. pose proof (user_vma_path v Hv) as Hp. unfold path_of in Hp.
  cbn [node_at] in Hn. destruct (has PTE_V (rd m (root + 8 * VPN2 v))) eqn:H2; [|done]. set (t1 := entry_page _) in *.
  assert (Ht1 : node_at root m [VPN2 v] = Some t1) by (cbn [node_at]; by rewrite H2).
  destruct (has PTE_V (rd m (t1 + 8 * VPN1 v))) eqn:H1; [|done]. injection Hn as <-.
  unfold walk_pt. rewrite user_vma_wf by done. cbn [negb].
  rewrite (walk_level_valid root (VPN2 v) create m _ (Hram [] root path_ok_nil eq_refl) ltac:(eauto with word) eq_refl H2). cbn [mbind outcome_bind].
  fold t1. rewrite (walk_level_valid t1 (VPN1 v) create m _ (Hram [VPN2 v] _ ltac:(eauto) Ht1) ltac:(eauto with word) eq_refl H1). done.
Qed.

(** Allocating a page that the space maps leaves the tables as they are. *)
Lemma alloc_mapped m l m1 d fr p0 : pt_inv root m l → path_ok p0 → length p0 = 3%nat → node_at root m p0 = Some d →
  (∀ p, path_ok p → node_at root m1 p = node_at root m p ∧ entry_at root m1 p = entry_at root m p) → free_ok m1 (d :: fr) →
  ∃ m2, memory_alloc_page m1 = Done (d, m2) ∧ same_regs m1 m2 ∧
    ∀ p, path_ok p → node_at root m2 p = node_at root m p ∧ entry_at root m2 p = entry_at root m p.
Proof.
  intros Hi Hp0 Hl0 Hd Hsame Hf. destruct (alloc_page_spec m1 d fr Hf) as (m2 & Ha & _ & Hs2 & _ & Hrd2).
  exists m2. split; [done|]. split; [done|]. pose proof (node_ram _ _ _ _ _ Hi Hd Hp0) as Hdr.
  intros p Hp. destruct (Hsame p Hp) as [<- <-]. revert p Hp. apply frame_entry. intros p t i Hp Hn. apply Hrd2.
  rewrite (proj1 (Hsame p ltac:(eauto))) in Hn. intros Hin.
  assert (t = d) as ->.
  { apply (ram_page_disjoint t d (t + 8 * i)); [by eapply node_ram; eauto|done|apply in_page_word; eauto|done]. }
  assert (p = p0) as -> by (eapply (pt_inj _ _ _ Hi); eauto). destruct Hp as [Hp _]. cbn in Hp. lia.
Qed.

(** Storing the entry for [v] changes no other one. *)
Lemma store_leaf m l m2 v t w : pt_inv root m l → user_vma v → node_at root m [VPN1 v; VPN2 v] = Some t → has PTE_V w = true →
  (∀ p, path_ok p → node_at root m2 p = node_at root m p ∧ entry_at root m2 p = entry_at root m p) →
  translate root v (upd (t + 8 * VPN0 v) w m2) = Some w ∧
  ∀ u, user_vma u → u / 4096 ≠ v / 4096 → translate root u (upd (t + 8 * VPN0 v) w m2) = translate root u m.
Proof.
  intros Hi Hv Hn0 Hw Hsame. pose proof (user_vma_path v Hv) as Hpv. assert (Hp0 : path_ok [VPN1 v; VPN2 v]) by (unfold path_of in Hpv; eauto).
  destruct (entries_but (path_of v) m2 (upd (t + 8 * VPN0 v) w m2) eq_refl) as [Hnodes Hents].
  { intros p t' i Hp Hn Hq. apply rd_upd_ne. intros Heq. rewrite (proj1 (Hsame p ltac:(eauto))) in Hn.
    destruct (entry_addr_inj root m l [VPN1 v; VPN2 v] p t t' (VPN0 v) i Hi Hp0 ltac:(eauto) Hn0 Hn ltac:(eauto with word) ltac:(eauto) Heq) as [<- <-]. by apply Hq. }
  split.
  - unfold translate, path_of. cbn [entry_at]. rewrite Hnodes, (proj1 (Hsame _ Hp0)), Hn0, rd_upd_eq by (done || cbn; lia). by rewrite Hw.
  - intros u Hu Hne. pose proof (user_vma_path u Hu) as Hpu. unfold translate. rewrite Hents, (proj2 (Hsame _ Hpu)); [done|done|].
    intros Heq. by apply Hne, path_of_inj.
Qed.

(** C22: when a program executes another one, [memory_unmap_and_free_user] and the first
    page that is mapped for the new program leave it with two addresses for one page:
    the highest page of the old program, its stack, stays mapped with the flags that it
    had, and the new page, the first of the new text, is the same page of memory. *)
Theorem exec_reuses_stack_page m l u e v ev f : pt_inv root m l → active_space_root m = root →
  user_vma u → translate root u m = Some e → has PTE_U e = true → highest_user m u →
  user_vma v → translate root v m = Some ev → v / 4096 ≠ u / 4096 →
  ∃ m1 m2, memory_unmap_and_free_user m = Done m1 ∧ memory_alloc_and_map_page v f m1 = Done (v, m2) ∧
    translate root u m2 = Some e ∧ translate root v m2 = Some (pte_word (leaf_pte (entry_page e) f)) ∧
    ∀ o, 0 ≤ o < 4096 → vbyte root (u / 4096 * 4096 + o) m2 = vbyte root (v / 4096 * 4096 + o) m2.
Proof.
  intros Hi Hr Hu He HU Hmax Hv Hev Hne.
  destruct (unmap_frees_highest m l u e Hi Hr Hu He HU Hmax) as (m1 & fr & Hm & Hf & Hs & Hsame). set (d := entry_page e) in *.
  pose proof (translate_node root u m e Hu He) as Hdn. pose proof (node_ram _ _ _ _ _ Hi Hdn (user_vma_path u Hu)) as Hdr.
  destruct (alloc_mapped m l m1 d fr (path_of u) Hi (user_vma_path u Hu) eq_refl Hdn Hsame Hf) as (m2 & Ha & Hs2 & Hsame2).
  unfold translate, path_of in Hev. cbn [entry_at] in Hev. destruct (node_at root m [VPN1 v; VPN2 v]) as [t|] eqn:Hn0; [|done].
  assert (Hp0 : path_ok [VPN1 v; VPN2 v]) by (pose proof (user_vma_path v Hv) as Hpv; unfold path_of in Hpv; eauto).
  set (w := pte_word (leaf_pte d f)).
  destruct (store_leaf m l m2 v t w Hi Hv Hn0 (leaf_valid _ _) Hsame2) as [Hv3 Hother].
  pose proof (Hother u Hu ltac:(done)) as Hu3. rewrite He in Hu3.
  exists m1, (upd (t + 8 * VPN0 v) w m2). split; [done|]. split.
  { unfold memory_alloc_and_map_page. rewrite user_vma_wf by done. cbn [negb]. rewrite Ha. cbn [mbind outcome_bind].
    assert (active_space_root m2 = root) as ->.
    { rewrite <- Hr. unfold active_space_root, active_space_mtag. destruct Hs as (Hs & _). destruct Hs2 as (Hs2 & _). by rewrite Hs2, Hs. }
    pose proof Hn0 as Hn2. rewrite <- (proj1 (Hsame2 _ Hp0)) in Hn2. rewrite (walk_pt_found m2 v t 1); [|done| |done].
    - cbn [mbind outcome_bind deref]. by rewrite sd_page by (eauto with word; by apply (node_ram _ _ _ _ _ Hi Hn0)).
    - intros p t' Hp Hn. rewrite (proj1 (Hsame2 p Hp)) in Hn. by apply (node_ram _ _ _ _ _ Hi Hn). }
  split; [done|]. split; [done|]. intros o Ho. unfold vbyte.
  assert (Hpage : ∀ x, path_of (x / 4096 * 4096 + o) = path_of x ∧ (x / 4096 * 4096 + o) mod 4096 = o).
  { intros x. split; [apply path_of_page; by rewrite Z.div_add_l, (Z.div_small o), Z.add_0_r by lia|]. by rewrite Z.add_comm, Z.mod_add, Z.mod_small by lia. }
  destruct (Hpage u) as [Hp1 Ho1], (Hpage v) as [Hp2 Ho2]. unfold translate in *. rewrite Hp1, Hp2, Hu3, Hv3, Ho1, Ho2. cbn [fmap option_fmap option_map].
  unfold w. by rewrite leaf_entry_page by (by apply ram_page_is_page).
Qed.
End Reuse.

(** ** Example *)

(** Two user pages, at [x] and at [y]. *)
Definition map_two (x y : Z) : mem :=
  match memory_alloc_and_map_page x 22 mem_example with
  | Done (_, m) => match memory_alloc_and_map_page y 22 m with Done (_, m) => m | _ => m end
  | _ => mem_example
  end.

Lemma map_two_mapped x y : user_vma x → user_vma y → ∃ l q q', pt_inv root_example (map_two x y) l ∧
  active_space_root (map_two x y) = root_example ∧ (4 ≤ length l)%nat ∧
  ∀ p, path_ok p → length p = 3%nat → entry_at root_example (map_two x y) p =
    if decide (p = path_of y) then Some (pte_word (leaf_pte q' 22)) else
    if decide (p = path_of x) then Some (pte_word (leaf_pte q 22)) else None.
Proof.
  intros Hx Hy.
  destruct (map_page_step root_example mem_example free_example x 22 mem_example_inv eq_refl)
    as (q & m1 & l1 & u1 & Hm & Hs & Hu & Hq & _ & He); [exact Hx|cbn; lia|].
  pose proof (f_equal length (ps_used _ _ _ _ _ _ Hs)) as Hl. rewrite length_app in Hl. change (length free_example) with 10%nat in Hl.
  destruct (map_page_step root_example m1 l1 y 22) as (q2 & m2 & l2 & u2 & Hm2 & Hs2 & Hu2 & Hq2 & _ & He2);
    [by eapply ps_inv|by rewrite (same_regs_root _ _ (ps_regs _ _ _ _ _ _ Hs))|exact Hy|lia|].
  pose proof (f_equal length (ps_used _ _ _ _ _ _ Hs2)) as Hl2. rewrite length_app in Hl2.
  assert (map_two x y = m2) as -> by (unfold map_two; by rewrite Hm, Hm2).
  exists l2, q, q2. split; [by eapply ps_inv|].
  split; [by rewrite (same_regs_root _ _ (ps_regs _ _ _ _ _ _ Hs2)), (same_regs_root _ _ (ps_regs _ _ _ _ _ _ Hs))|].
  split; [lia|]. intros p Hp Hlp. rewrite He2 by done. case_decide; [done|]. rewrite He by done. case_decide; [done|].
  apply mem_example_empty; [done|]. by intros ->.
Qed.

(** At 0xC0000000 and, above it, at 0xC0001000. *)
Definition two_pages : mem := map_two 0xC0000000 0xC0001000.

Lemma two_pages_mapped : ∃ l q q', pt_inv root_example two_pages l ∧ active_space_root two_pages = root_example ∧ (4 ≤ length l)%nat ∧
  ∀ p, path_ok p → length p = 3%nat → entry_at root_example two_pages p =
    if decide (p = path_of 0xC0001000) then Some (pte_word (leaf_pte q' 22)) else
    if decide (p = path_of 0xC0000000) then Some (pte_word (leaf_pte q 22)) else None.
Proof. unfold two_pages. apply map_two_mapped; unfold user_vma; rewrite GIGA_SIZE_eq; lia. Qed.

Lemma exec_reuses_stack_page_witness :
  ∃ m1 m2 e, memory_unmap_and_free_user two_pages = Done m1 ∧ memory_alloc_and_map_page 0xC0000000 18 m1 = Done (0xC0000000, m2) ∧
    translate root_example 0xC0001000 m2 = Some e ∧ has PTE_W e = true ∧ vbyte root_example 0xC0001234 m2 = vbyte root_example 0xC0000234 m2.
Proof.
  assert (Hv : user_vma 0xC0000000 ∧ user_vma 0xC0001000) by (unfold user_vma; rewrite GIGA_SIZE_eq; lia).
  destruct two_pages_mapped as (l & q & q' & Hi & Hr & _ & He).
  assert (Hf : ∀ q, has PTE_U (pte_word (leaf_pte q 22)) = true ∧ has PTE_W (pte_word (leaf_pte q 22)) = true).
  { intros x. pose proof (leaf_flags_pte x 22) as Hl. unfold leaf_flags in Hl. split; unfold has; rewrite Hl; vm_compute; reflexivity. }
  destruct (exec_reuses_stack_page root_example two_pages l 0xC0001000 (pte_word (leaf_pte q' 22)) 0xC0000000 (pte_word (leaf_pte q 22)) 18)
    as (m1 & m2 & H1 & H2 & H3 & _ & H5); [exact Hi|exact Hr|apply Hv| |apply Hf| |apply Hv| |by vm_compute|].
  - unfold translate. rewrite He by (try apply user_vma_path; try apply Hv; reflexivity). rewrite decide_True by reflexivity. reflexivity.
  - intros a b c d [Hp (e & Hen & _)]. rewrite He in Hen by (done || exact Hp). repeat case_decide; [| |discriminate Hen].
    + assert (position a b c = position (VPN2 0xC0001000) (VPN1 0xC0001000) (VPN0 0xC0001000)) as -> by (unfold path_of in *; congruence). by vm_compute.
    + assert (position a b c = position (VPN2 0xC0000000) (VPN1 0xC0000000) (VPN0 0xC0000000)) as -> by (unfold path_of in *; congruence). by vm_compute.
  - unfold translate. rewrite He by (try apply user_vma_path; try apply Hv; reflexivity). rewrite decide_False by (by vm_compute). rewrite decide_True by reflexivity. reflexivity.
  - exists m1, m2, (pte_word (leaf_pte q' 22)). split; [exact H1|]. split; [exact H2|]. split; [exact H3|]. split; [apply Hf|].
    exact (H5 0x234 ltac:(lia)).
Defined.
