(* ===== verification/Clone.v ===== *)
(** Cloning a memory space (src/src/kern/memory.c, memory_space_clone): the new space
    has its own tables and its own copies of the user's pages. *)
From Stdlib Require Import ZArith Lia.
From stdpp Require Import base gmap list numbers strings.
From S2P Require Import Prelude Pages Heap Pte Memory MemFacts PageTables Mapping Spaces Vmem.

Open Scope Z_scope.

(** Entries that are only copied. *)
Definition skips (e : Z) : bool := negb (has PTE_V e) || has PTE_G e.

(** How many pages the copy of an entry takes: its page and, [n] levels above the
    mapped pages, those of the entries in it. *)
Fixpoint need (m : mem) (n : nat) (e : Z) : nat :=
  if skips e then O else
  S (match n with
     | O => O
     | S n => sum_list_with (λ i, need m n (rd m (entry_page e + 8 * i))) (seqZ 0 512)
     end).
Definition clone_need (m : mem) (root : Z) : nat :=
  S (sum_list_with (λ i, need m 2 (rd m (root + 8 * i))) (seqZ 0 512)).

Lemma elem_of_concat (x : Z) (ls : list (list Z)) : x ∈ concat ls ↔ ∃ l, l ∈ ls ∧ x ∈ l.
Proof. induction ls as [|l ls IH]; cbn; set_solver. Qed.

Section Clone.
(** [m0] is the memory before, [L] its free pages. *)
Context (m0 : mem) (L : list Z) (HL : Forall ram_page L).

Definition agree (m : mem) : Prop := ∀ a, (∀ q, q ∈ L → ¬ in_page q a) → rd m a = rd m0 a.

(** What is below an entry is in pages of RAM that are not free. *)
Fixpoint old (n : nat) (e : Z) : Prop :=
  if skips e then True else
  ram_page (entry_page e) ∧ (entry_page e ∉ L) ∧
  match n with O => True | S n => (∀ i, 0 ≤ i < 512 → old n (rd m0 (entry_page e + 8 * i))) end.

(** The entry [e'] of the memory [m] is the copy of [e], on the fresh pages [u]. *)
Fixpoint copied (n : nat) (m : mem) (e e' : Z) (u : list Z) : Prop :=
  if skips e then (e' = e ∧ u = []) else
  (∃ q, match n with
  | O => (u = [q] ∧ e' = pte_word (leaf_pte q (flags (word_pte e))) ∧
      ∀ i, 0 ≤ i < 512 → rd m (q + 8 * i) = rd m0 (entry_page e + 8 * i))
  | S n => (∃ us, u = q :: concat us ∧ e' = pte_word (ptab_pte q (flags (word_pte e))) ∧ length us = 512%nat ∧
      ∀ i ui, 0 ≤ i → us !! Z.to_nat i = Some ui → copied n m (rd m0 (entry_page e + 8 * i)) (rd m (q + 8 * i)) ui)
  end).

(** From [m] with the free pages [l] to [m'] with [l'], writing only the fresh
    pages [u] and the words of [P]. *)
Record grown (P : Z → Prop) (m : mem) (l : list Z) (m' : mem) (l' u : list Z) : Prop := {
  gr_used : l = u ++ l';
  gr_free : free_ok m' l';
  gr_regs : same_regs m m';
  gr_frame a : ¬ P a → (∀ q, q ∈ u → ¬ in_page q a) → rd m' a = rd m a
}.

Lemma L_ram q : q ∈ L → ram_page q.
Proof. intros Hq. rewrite Forall_forall in HL. by apply HL. Qed.

Lemma old_word t i : ram_page t → t ∉ L → 0 ≤ i < 512 → ∀ q, q ∈ L → ¬ in_page q (t + 8 * i).
Proof.
  intros Ht Hn Hi q Hq Hin. assert (t = q) as ->; [|done].
  by apply (ram_page_disjoint t q (t + 8 * i)); [|apply L_ram|apply in_page_word|].
Qed.

(** Words of a page of [L] are not in other pages of it. *)
Lemma free_page_word t q i : t ∈ L → q ∈ L → 0 ≤ i < 512 → in_page q (t + 8 * i) → t = q.
Proof. intros Ht Hq Hi Hin. apply (ram_page_disjoint t q (t + 8 * i)); [by apply L_ram|by apply L_ram|by apply in_page_word|done]. Qed.

Lemma copied_mono n : ∀ m m' e e' u, copied n m e e' u → (∀ q i, q ∈ u → 0 ≤ i < 512 → rd m' (q + 8 * i) = rd m (q + 8 * i)) →
  copied n m' e e' u.
Proof.
  induction n as [|n IH]; intros m m' e e' u Hc Hs; cbn [copied] in *; destruct (skips e); try done.
  - destruct Hc as (q & -> & He & Hb). exists q. do 2 (split; [done|]). intros i Hi. rewrite Hs; [by apply Hb|by left|done].
  - destruct Hc as (q & us & -> & He & Hl & Hk). exists q, us. do 3 (split; [done|]). intros i ui Hi Hui.
    pose proof (lookup_lt_Some _ _ _ Hui). rewrite Hs by (try (by left); lia). eapply IH; [by apply Hk|].
    intros q' j Hq' Hj. apply Hs; [|done]. right. apply elem_of_concat. exists ui.
    split; [by eapply list_elem_of_lookup_2|done].
Qed.

Lemma concat_length (g : Z → nat) (us : list (list Z)) : ∀ j, (∀ (i : nat) ui, us !! i = Some ui → length ui = g (j + Z.of_nat i)) →
  length (concat us) = sum_list_with g (seqZ j (Z.of_nat (length us))).
Proof.
  induction us as [|u us IH]; intros j Hg; [done|]. cbn [concat length]. rewrite length_app, seqZ_cons by lia. cbn [sum_list_with].
  replace (Z.pred (Z.of_nat (S (length us)))) with (Z.of_nat (length us)) by lia. rewrite <- (IH (Z.succ j)).
  - rewrite (Hg 0%nat u eq_refl). by rewrite Z.add_0_r.
  - intros i ui Hi. rewrite (Hg (S i) ui Hi). f_equal. lia.
Qed.

Lemma copied_length n : ∀ m e e' u, copied n m e e' u → length u = need m0 n e.
Proof.
  induction n as [|n IH]; intros m e e' u Hc; cbn [copied need] in *; destruct (skips e); try by destruct Hc as [_ ->].
  - by destruct Hc as (q & -> & _).
  - destruct Hc as (q & us & -> & _ & Hl & Hk). cbn [length]. f_equal.
    rewrite (concat_length (λ i, need m0 n (rd m0 (entry_page e + 8 * i))) us 0); [by rewrite Hl|].
    intros i ui Hi. eapply IH. rewrite Z.add_0_l. apply Hk; [lia|by rewrite Nat2Z.id].
Qed.

Lemma agree_grown P m l m' l' u : agree m → (∀ q, q ∈ l → q ∈ L) → (∀ a, P a → ∃ q, q ∈ L ∧ in_page q a) → grown P m l m' l' u → agree m'.
Proof.
  intros Ha Hl HP Hg a Hq. rewrite (gr_frame _ _ _ _ _ _ Hg); [by apply Ha| |].
  - intros Hp. destruct (HP a Hp) as (q & Hin & Hpg). by apply (Hq q).
  - intros q Hqu. apply Hq, Hl. rewrite (gr_used _ _ _ _ _ _ Hg). set_solver.
Qed.

Lemma free_nodup P m l m' l' u : NoDup l → grown P m l m' l' u → NoDup u ∧ (∀ q, q ∈ u → q ∉ l') ∧ NoDup l'.
Proof. intros Hn Hg. rewrite (gr_used _ _ _ _ _ _ Hg) in Hn. apply NoDup_app in Hn as (H1 & H2 & H3). auto. Qed.

(** What copying one entry does, [n] levels above the mapped pages. *)
Definition entry_spec (n : nat) (f : Z → Z → Z → mem → outcome mem) : Prop :=
  ∀ told tnew i m l, ram_page told → told ∉ L → tnew ∈ L → tnew ∉ l → (∀ q, q ∈ l → q ∈ L) → free_ok m l → agree m → 0 ≤ i < 512 →
    old n (rd m0 (told + 8 * i)) → (need m0 n (rd m0 (told + 8 * i)) ≤ length l)%nat →
    ∃ m' l' u, f told tnew i m = Done m' ∧ grown (λ a, a = tnew + 8 * i) m l m' l' u ∧
      copied n m' (rd m0 (told + 8 * i)) (rd m' (tnew + 8 * i)) u.

Lemma loop_spec n f : entry_spec n f → ∀ told tnew k j m l, ram_page told → told ∉ L → tnew ∈ L → tnew ∉ l → (∀ q, q ∈ l → q ∈ L) →
  free_ok m l → agree m → 0 ≤ j → j + Z.of_nat k ≤ 512 → (∀ i, 0 ≤ i < 512 → old n (rd m0 (told + 8 * i))) →
  (sum_list_with (λ i, need m0 n (rd m0 (told + 8 * i))) (seqZ j (Z.of_nat k)) ≤ length l)%nat →
  ∃ m' l' us, for_range k j (f told tnew) m = Done m' ∧ grown (λ a, ∃ i, j ≤ i < j + Z.of_nat k ∧ a = tnew + 8 * i) m l m' l' (concat us) ∧
    length us = k ∧
    ∀ i ui, 0 ≤ i → us !! Z.to_nat i = Some ui → copied n m' (rd m0 (told + 8 * (j + i))) (rd m' (tnew + 8 * (j + i))) ui.
Proof.
  intros Hf told tnew k. induction k as [|k IH]; intros j m l Hto HtL Htn Htl Hl Hfr Ha Hj Hjk Hold Hsum.
  { exists m, l, []. split; [done|]. split; [by split|]. split; [done|]. intros i ui _ Hi. by rewrite lookup_nil in Hi. }
  rewrite seqZ_cons in Hsum by lia. cbn [sum_list_with] in Hsum. replace (Z.pred (Z.of_nat (S k))) with (Z.of_nat k) in Hsum by lia.
  destruct (Hf told tnew j m l) as (m1 & l1 & u & He & Hg1 & Hc1); [done..|lia|by apply Hold; lia|lia|].
  pose proof (proj1 (proj2 Hfr)) as Hnd. destruct (free_nodup _ _ _ _ _ _ Hnd Hg1) as (_ & Hul & Hnd1).
  pose proof (gr_used _ _ _ _ _ _ Hg1) as Hu1.
  assert (Hl1 : ∀ q, q ∈ l1 → q ∈ L) by (intros q Hq; apply Hl; rewrite Hu1; set_solver).
  assert (HuL : ∀ q, q ∈ u → q ∈ L) by (intros q Hq; apply Hl; rewrite Hu1; set_solver).
  assert (Htl1 : tnew ∉ l1) by (intros Hq; apply Htl; rewrite Hu1; set_solver).
  assert (Ha1 : agree m1).
  { eapply agree_grown; [exact Ha|exact Hl| |exact Hg1]. intros a ->. exists tnew. split; [done|apply in_page_word; lia]. }
  destruct (IH (j + 1) m1 l1) as (m2 & l2 & us & He2 & Hg2 & Hlen & Hc2); [done..|by apply (gr_free _ _ _ _ _ _ Hg1)|done|lia|lia|done| |].
  { pose proof (copied_length _ _ _ _ _ Hc1). pose proof (f_equal length Hu1) as Hlu. rewrite length_app in Hlu.
    unfold Z.succ in Hsum. lia. }
  pose proof (gr_used _ _ _ _ _ _ Hg2) as Hu2.
  assert (Hkeep : ∀ q i, q ∈ L → 0 ≤ i < 512 → q ∉ l1 → (q = tnew → i ≤ j) → rd m2 (q + 8 * i) = rd m1 (q + 8 * i)).
  { intros q i Hq Hi Hql Hqt. apply (gr_frame _ _ _ _ _ _ Hg2).
    - intros (i' & Hi' & Heq). assert (Hqn : q = tnew).
      { apply (free_page_word q tnew i); [done|done|done|]. rewrite Heq. apply in_page_word. lia. }
      specialize (Hqt Hqn). subst q. lia.
    - intros q' Hq' Hin. assert (q = q') as ->; [|by apply Hql; rewrite Hu2; set_solver].
      apply (free_page_word q q' i); [done|apply Hl1; rewrite Hu2; set_solver|done|done]. }
  exists m2, l2, (u :: us). cbn [for_range]. rewrite He. cbn [mbind outcome_bind concat]. split; [done|]. split; [|split; [cbn; by rewrite Hlen|]].
  - split; [by rewrite Hu1, Hu2, app_assoc|apply (gr_free _ _ _ _ _ _ Hg2)|etrans; [apply (gr_regs _ _ _ _ _ _ Hg1)|apply (gr_regs _ _ _ _ _ _ Hg2)]|].
    intros a HP Hq. rewrite (gr_frame _ _ _ _ _ _ Hg2), (gr_frame _ _ _ _ _ _ Hg1); [done| | | |].
    + intros ->. apply HP. exists j. lia.
    + intros q Hqu. apply Hq. set_solver.
    + intros (i & Hi & ->). apply HP. exists i. lia.
    + intros q Hqu. apply Hq. set_solver.
  - intros i ui Hi Hui. destruct (decide (i = 0)) as [->|Hi0].
    + injection Hui as <-. rewrite Z.add_0_r, (Hkeep tnew j Htn) by (done || lia).
      eapply copied_mono; [exact Hc1|]. intros q i Hq Hi'. apply Hkeep; [by apply HuL|done|by apply Hul|].
      intros ->. exfalso. apply Htl. rewrite Hu1. set_solver.
    + replace (Z.to_nat i) with (S (Z.to_nat (i - 1))) in Hui by lia. specialize (Hc2 (i - 1) ui ltac:(lia) Hui).
      by replace (j + 1 + (i - 1)) with (j + i) in Hc2 by lia.
Qed.
(** Storing the copied entry, in a table that is not free. *)
Lemma store_entry tnew i v m l : tnew ∈ L → tnew ∉ l → (∀ q, q ∈ l → q ∈ L) → free_ok m l → agree m → 0 ≤ i < 512 →
  sd (tnew + 8 * i) v m = Done (upd (tnew + 8 * i) v m) ∧ free_ok (upd (tnew + 8 * i) v m) l ∧ agree (upd (tnew + 8 * i) v m).
Proof.
  intros Hn Hnl Hl Hf Ha Hi. split; [by apply sd_page; [apply L_ram|]|]. split.
  - apply (free_ok_ext m); [|done|exact Hf]. intros q Hq. apply rd_upd_ne. intros Heq. apply Hnl.
    rewrite (free_page_word tnew q i); [done|done|by apply Hl|done|]. rewrite Heq. unfold in_page. lia.
  - intros a Hq. rewrite rd_upd_ne; [by apply Ha|]. intros <-. apply (Hq tnew Hn). by apply in_page_word.
Qed.

(** The common start of the three functions: the entry is copied, and when there is
    something to clone a fresh page is taken and the entry made to point to it. *)
Lemma entry_start told tnew i m l n (mk : Z → pte) (k : Z → mem → outcome mem) :
  ram_page told → told ∉ L → tnew ∈ L → tnew ∉ l → (∀ q, q ∈ l → q ∈ L) → free_ok m l → agree m → 0 ≤ i < 512 →
  let e := rd m0 (told + 8 * i) in (need m0 n e ≤ length l)%nat →
  let f := (e ← ld (told + 8 * i) m; m ← sd (tnew + 8 * i) e m;
            if negb (has PTE_V e) then Done m else if has PTE_G e then Done m else
            '(pp, m) ← memory_alloc_page m; m ← sd (tnew + 8 * i) (pte_word (mk pp)) m; k pp m) in
  (skips e = true → ∃ m', f = Done m' ∧ grown (λ a, a = tnew + 8 * i) m l m' l [] ∧ rd m' (tnew + 8 * i) = e) ∧
  (skips e = false → ∃ q l1 m1, l = q :: l1 ∧ f = k q m1 ∧ q ∈ L ∧ (q ∉ l1) ∧ (∀ q, q ∈ l1 → q ∈ L) ∧ (tnew ∉ l1) ∧ tnew ≠ q ∧
     free_ok m1 l1 ∧ agree m1 ∧ grown (λ a, a = tnew + 8 * i) m l m1 l1 [q] ∧ rd m1 (tnew + 8 * i) = pte_word (mk q)).
Proof.
  intros Hto HtL Htn Htl Hl Hfr Ha Hi e Hneed f. set (a := tnew + 8 * i) in *.
  assert (Hld : rd m (told + 8 * i) = e) by (apply Ha; by apply old_word).
  destruct (store_entry tnew i e m l Htn Htl Hl Hfr Ha Hi) as (Hsd & Hf1 & Ha1). fold a in Hsd, Hf1, Ha1.
  unfold f. rewrite ld_page by done. cbn [mbind outcome_bind]. rewrite Hld, Hsd. cbn [mbind outcome_bind]. split; intros Hs; unfold skips in Hs.
  - exists (upd a e m). split; [destruct (has PTE_V e); cbn in Hs |- *; [by rewrite Hs|done]|]. split; [|apply rd_upd_eq].
    split; [done|done|apply same_regs_upd|]. intros b Hb _. apply rd_upd_ne. congruence.
  - destruct (has PTE_V e) eqn:HV; cbn in Hs |- *; [|done]. rewrite Hs. destruct l as [|q l1].
    { destruct n; cbn [need] in Hneed; unfold skips in Hneed; rewrite HV, Hs in Hneed; cbn in Hneed; lia. }
    destruct (alloc_page_spec _ q l1 Hf1) as (m2 & -> & Hf2 & Hr2 & _ & Hfr2). cbn [mbind outcome_bind].
    pose proof (proj1 (proj2 Hfr)) as Hnd. apply NoDup_cons in Hnd as [Hq Hnd].
    assert (Hl1 : ∀ q', q' ∈ l1 → q' ∈ L) by (intros; apply Hl; by right). assert (HqL : q ∈ L) by (apply Hl; by left).
    assert (Htl1 : tnew ∉ l1) by (intros ?; apply Htl; by right). assert (Htq : tnew ≠ q) by (intros ->; apply Htl; by left).
    assert (Ha2 : agree m2).
    { intros b Hb. rewrite Hfr2; [by apply Ha1|]. by apply Hb. }
    destruct (store_entry tnew i (pte_word (mk q)) m2 l1 Htn Htl1 Hl1 Hf2 Ha2 Hi) as (Hsd2 & Hf3 & Ha3). fold a in Hsd2, Hf3, Ha3.
    rewrite Hsd2. cbn [mbind outcome_bind]. exists q, l1, (upd a (pte_word (mk q)) m2). do 9 (split; [done|]). split; [|apply rd_upd_eq].
    split; [done|done|exact Hr2|]. intros b Hb Hbq. rewrite rd_upd_ne by congruence. rewrite Hfr2 by (apply Hbq; by left). apply rd_upd_ne. congruence.
Qed.
Lemma grown_seq a m l m1 l1 q m' l' u : grown (λ b, b = a) m l m1 l1 [q] → grown (in_page q) m1 l1 m' l' u →
  grown (λ b, b = a) m l m' l' (q :: u).
Proof.
  intros [Hu1 Hf1 Hr1 Hg1] [Hu2 Hf2 Hr2 Hg2]. split; [by rewrite Hu1, Hu2|done|by etrans|].
  intros b Hb Hq. rewrite Hg2, Hg1; [done|done| | |].
  - intros q' ->%list_elem_of_singleton. apply Hq. by left.
  - apply Hq. by left.
  - intros q' Hq'. apply Hq. by right.
Qed.

Lemma clone_pt0_spec : entry_spec 0 clone_pt0_entry.
Proof.
  intros told tnew i m l Hto HtL Htn Htl Hl Hfr Ha Hi Hold Hneed. set (e := rd m0 (told + 8 * i)) in *.
  destruct (entry_start told tnew i m l 0 (λ pp, leaf_pte pp (flags (word_pte e))) (λ pp, copy_words PAGE_WORDS pp (entry_page e))
    Hto HtL Htn Htl Hl Hfr Ha Hi Hneed) as [Hskip Hgo].
  assert (Hf : ∀ X, (e ← ld (told + 8 * i) m; m ← sd (tnew + 8 * i) e m; X e m) = (m ← sd (tnew + 8 * i) e m; X e m) :> outcome mem).
  { intros X. rewrite ld_page by done. cbn [mbind outcome_bind]. by rewrite (Ha _ (old_word told i Hto HtL Hi)). }
  unfold clone_pt0_entry. rewrite (Hf (λ e m, if negb (has PTE_V e) then _ else _)).
  rewrite (Hf (λ e m, if negb (has PTE_V e) then _ else _)) in Hskip, Hgo.
  cbn [old] in Hold. cbn [copied]. fold e. destruct (skips e) eqn:Hs.
  - destruct (Hskip Hs) as (m' & He & Hg & Hr). exists m', l, []. split; [exact He|]. split; [done|]. split; [exact Hr|done].
  - destruct (Hgo Hs) as (q & l1 & m1 & -> & He & HqL & Hql & Hl1 & Htl1 & Htq & Hf1 & Ha1 & Hg1 & Hr1).
    destruct Hold as (Hpe & HpL & _). assert (Hqp : q ≠ entry_page e) by (intros ->; done).
    destruct (copy_page_spec q (entry_page e) m1 (L_ram q HqL) Hpe Hqp) as (m' & Hc & Hrg & Hfl & Hcp & Hfm).
    exists m', l1, [q]. split; [etrans; [exact He|exact Hc]|]. split.
    + apply (grown_seq _ _ _ m1 l1 q m' l1 []); [done|]. split; [done| |done|by intros b Hb _; apply Hfm].
      apply (free_ok_ext m1); [|done|done]. intros q' Hq'. apply Hfm. intros Hin. apply Hql.
      rewrite (free_page_word q' q 0) in Hq'; [done|by apply Hl1|done|done|by rewrite Z.add_0_r].
    + exists q. split; [done|]. split.
      * rewrite Hfm; [exact Hr1|]. intros Hin. apply Htq. by apply (free_page_word tnew q i).
      * intros j Hj. rewrite Hcp by done. apply Ha1. by apply old_word.
Qed.

(** A level above: the loop over the entries of the table that the entry points to. *)
Lemma table_spec n f g : entry_spec n f →
  (∀ told tnew i m, g told tnew i m =
     (e ← ld (told + 8 * i) m; m ← sd (tnew + 8 * i) e m;
      if negb (has PTE_V e) then Done m else if has PTE_G e then Done m else
      '(pp, m) ← memory_alloc_page m; m ← sd (tnew + 8 * i) (pte_word (ptab_pte pp (flags (word_pte e)))) m;
      for_range (Z.to_nat PTE_CNT) 0 (f (entry_page e) pp) m)) →
  entry_spec (S n) g.
Proof.
  intros Hf Hgdef told tnew i m l Hto HtL Htn Htl Hl Hfr Ha Hi Hold Hneed. set (e := rd m0 (told + 8 * i)) in *.
  destruct (entry_start told tnew i m l (S n) (λ pp, ptab_pte pp (flags (word_pte e))) (λ pp, for_range (Z.to_nat PTE_CNT) 0 (f (entry_page e) pp))
    Hto HtL Htn Htl Hl Hfr Ha Hi Hneed) as [Hskip Hgo].
  assert (Hld : ∀ X, (e ← ld (told + 8 * i) m; m ← sd (tnew + 8 * i) e m; X e m) = (m ← sd (tnew + 8 * i) e m; X e m) :> outcome mem).
  { intros X. rewrite ld_page by done. cbn [mbind outcome_bind]. by rewrite (Ha _ (old_word told i Hto HtL Hi)). }
  rewrite Hgdef, (Hld (λ e m, if negb (has PTE_V e) then _ else _)).
  rewrite (Hld (λ e m, if negb (has PTE_V e) then _ else _)) in Hskip, Hgo.
  cbn [old] in Hold. cbn [need] in Hneed. cbn [copied]. fold e. destruct (skips e) eqn:Hs.
  - destruct (Hskip Hs) as (m' & He & Hg & Hr). exists m', l, []. split; [exact He|]. split; [done|]. split; [exact Hr|done].
  - destruct (Hgo Hs) as (q & l1 & m1 & -> & He & HqL & Hql & Hl1 & Htl1 & Htq & Hf1 & Ha1 & Hg1 & Hr1).
    destruct Hold as (Hpe & HpL & Hkids). cbn [length] in Hneed.
    destruct (loop_spec n f Hf (entry_page e) q (Z.to_nat PTE_CNT) 0 m1 l1 Hpe HpL HqL Hql Hl1 Hf1 Ha1) as (m' & l' & us & Hlp & Hg2 & Hlen & Hc);
      [lia|by rewrite PTE_CNT_eq|done|rewrite PTE_CNT_eq; change (Z.of_nat (Z.to_nat 512)) with 512; lia|].
    assert (Hg2' : grown (in_page q) m1 l1 m' l' (concat us)).
    { destruct Hg2 as [? ? ? Hfm]. split; [done..|]. intros b Hb Hq. apply Hfm; [|done]. intros (k & Hk & ->). apply Hb.
      rewrite PTE_CNT_eq in Hk. apply in_page_word. lia. }
    exists m', l', (q :: concat us). split; [etrans; [exact He|exact Hlp]|]. split; [by eapply grown_seq|].
    exists q, us. split; [done|]. split; [|split; [by rewrite Hlen, PTE_CNT_eq|exact Hc]].
    rewrite (gr_frame _ _ _ _ _ _ Hg2'); [exact Hr1| |].
    + intros Hin. apply Htq. by apply (free_page_word tnew q i).
    + intros q' Hq' Hin. assert (Hq1 : q' ∈ l1) by (rewrite (gr_used _ _ _ _ _ _ Hg2); apply elem_of_app; by left).
      apply Htl1. by rewrite (free_page_word tnew q' i Htn (Hl1 q' Hq1) Hi Hin).
Qed.

Lemma clone_pt1_spec : entry_spec 1 clone_pt1_entry.
Proof. by apply (table_spec 0 clone_pt0_entry); [apply clone_pt0_spec|]. Qed.
Lemma clone_pt2_spec : entry_spec 2 clone_pt2_entry.
Proof. by apply (table_spec 1 clone_pt1_entry); [apply clone_pt1_spec|]. Qed.
End Clone.

(** ** Walks from the top *)

Fixpoint went (m : mem) (t : Z) (ks : list Z) : option Z :=
  match ks with
  | [] => None
  | k :: r =>
      if has PTE_V (rd m (t + 8 * k)) then
        match r with [] => Some (rd m (t + 8 * k)) | _ => went m (entry_page (rd m (t + 8 * k))) r end
      else None
  end.

Lemma went_snoc m i ks : ∀ t, went m t (ks ++ [i]) =
  match (match ks with [] => Some t | _ => entry_page <$> went m t ks end) with
  | Some t' => if has PTE_V (rd m (t' + 8 * i)) then Some (rd m (t' + 8 * i)) else None
  | None => None
  end.
Proof.
  induction ks as [|k r IH]; intros t; [done|]. cbn [app went]. destruct (has PTE_V (rd m (t + 8 * k))); [|done].
  destruct r as [|k' r]; [done|]. cbn [app]. cbn [app] in IH. by rewrite IH.
Qed.

Lemma entry_went root m p : entry_at root m p = went m root (rev p).
Proof.
  induction p as [|i p IH]; [done|]. cbn [rev]. rewrite went_snoc, <- IH. cbn [entry_at].
  destruct p as [|j p]; [done|]. rewrite node_entry. destruct (rev (j :: p)) as [|] eqn:Hr; [|done].
  apply (f_equal length) in Hr. by rewrite length_rev in Hr.
Qed.

Definition idx_ok (lo : Z) (ks : list Z) : Prop :=
  match ks with [] => True | k :: r => lo ≤ k < 512 ∧ Forall (λ i, 0 ≤ i < 512) r end.

Lemma idx_ok_cons lo k r : idx_ok lo (k :: r) → lo ≤ k < 512 ∧ idx_ok 0 r.
Proof. intros [Hk Hr]. split; [done|]. destruct r as [|j r]; [done|]. by apply Forall_cons in Hr. Qed.

Lemma path_idx_rev p : path_idx p → idx_ok 3 (rev p).
Proof.
  induction p as [|i p IH]; [done|]. intros (Hi & Htop & Hp). cbn [rev]. specialize (IH Hp).
  destruct (rev p) as [|k r] eqn:Hr; cbn [app idx_ok].
  - split; [|done]. destruct p; [|apply (f_equal length) in Hr; by rewrite length_rev in Hr]. specialize (Htop eq_refl). lia.
  - destruct IH as [Hk Hf]. split; [done|]. apply Forall_app. split; [done|]. by apply Forall_singleton.
Qed.

Section Twin.
Context (m0 m' : mem).

(** The table at [tnew] is the copy of that at [told], on the pages [us]; user pages
    are not global. *)
Record twin (lo : Z) (n : nat) (told tnew : Z) (us : list (list Z)) : Prop := {
  tw_len : length us = 512%nat;
  tw_copy i ui : 0 ≤ i → us !! Z.to_nat i = Some ui → copied m0 n m' (rd m0 (told + 8 * i)) (rd m' (tnew + 8 * i)) ui;
  tw_user ks e : idx_ok lo ks → (length ks ≤ S n)%nat → went m0 told ks = Some e → has PTE_G e = false;
  tw_ram q : q ∈ concat us → ram_page q
}.

Lemma twin_at lo n told tnew us k : twin lo n told tnew us → 0 ≤ lo → lo ≤ k < 512 →
  ∃ ui, us !! Z.to_nat k = Some ui ∧ copied m0 n m' (rd m0 (told + 8 * k)) (rd m' (tnew + 8 * k)) ui ∧
    (∀ q, q ∈ ui → q ∈ concat us ∧ ram_page q) ∧
    skips (rd m0 (told + 8 * k)) = negb (has PTE_V (rd m0 (told + 8 * k))).
Proof.
  intros Ht Hlo Hk. destruct (lookup_lt_is_Some_2 us (Z.to_nat k)) as [ui Hui]; [rewrite (tw_len _ _ _ _ _ Ht); lia|]. exists ui.
  split; [done|]. split; [apply (tw_copy _ _ _ _ _ Ht); [lia|done]|]. split.
  - intros q Hq. assert (q ∈ concat us) by (apply elem_of_concat; exists ui; split; [by eapply list_elem_of_lookup_2|done]).
    split; [done|by apply (tw_ram _ _ _ _ _ Ht)].
  - unfold skips. destruct (has PTE_V (rd m0 (told + 8 * k))) eqn:HV; [|done]. cbn.
    apply (tw_user _ _ _ _ _ Ht [k]); [split; [lia|done]|cbn; lia|]. cbn. by rewrite HV.
Qed.

Lemma twin_down lo n told tnew us k : twin lo (S n) told tnew us → 0 ≤ lo → lo ≤ k < 512 → has PTE_V (rd m0 (told + 8 * k)) = true →
  ∃ q us' ui, us !! Z.to_nat k = Some ui ∧ ui = q :: concat us' ∧
    rd m' (tnew + 8 * k) = pte_word (ptab_pte q (flags (word_pte (rd m0 (told + 8 * k))))) ∧
    ram_page q ∧ q ∈ concat us ∧ (∀ q', q' ∈ concat us' → q' ∈ concat us) ∧ twin 0 n (entry_page (rd m0 (told + 8 * k))) q us'.
Proof.
  intros Ht Hlo Hk HV. destruct (twin_at _ _ _ _ _ _ Ht Hlo Hk) as (ui & Hui & Hc & Hin & Hs). rewrite HV in Hs. cbn [copied] in Hc. rewrite Hs in Hc.
  destruct Hc as (q & us' & -> & He & Hl & Hkids). exists q, us', (q :: concat us'). do 3 (split; [done|]).
  split; [by apply Hin; left|]. split; [by apply Hin; left|]. split; [intros q' Hq'; by apply Hin; right|].
  split; [done|exact Hkids| |intros q' Hq'; by apply Hin; right].
  intros ks e Hks Hlen Hw. destruct ks as [|j r]; [done|].
  apply (tw_user _ _ _ _ _ Ht (k :: j :: r)).
  - split; [lia|]. destruct Hks as [Hj Hr]. by apply Forall_cons.
  - cbn in *. lia.
  - cbn [went]. cbn [went] in Hw. by rewrite HV.
Qed.

(** The entries of the two spaces agree. *)
Lemma went_twin n : ∀ lo told tnew us ks, twin lo n told tnew us → 0 ≤ lo → idx_ok lo ks → (length ks ≤ S n)%nat →
  match went m0 told ks with
  | None => went m' tnew ks = None
  | Some e => ∃ q, q ∈ concat us ∧ ram_page q ∧
      went m' tnew ks = Some (pte_word ((if decide (length ks = S n) then leaf_pte else ptab_pte) q (flags (word_pte e)))) ∧
      (length ks = S n → ∀ i, 0 ≤ i < 512 → rd m' (q + 8 * i) = rd m0 (entry_page e + 8 * i))
  end.
Proof.
  induction n as [|n IH]; intros lo told tnew us [|k r] Ht Hlo Hks Hlen; try done; destruct (idx_ok_cons _ _ _ Hks) as [Hk Hr];
    destruct (has PTE_V (rd m0 (told + 8 * k))) eqn:HV; cbn [went]; rewrite HV.
  - destruct r; [|cbn in Hlen; lia]. destruct (twin_at _ _ _ _ _ _ Ht Hlo Hk) as (ui & _ & Hc & Hin & Hs). rewrite HV in Hs.
    cbn [copied] in Hc. rewrite Hs in Hc. destruct Hc as (q & -> & He & Hd). exists q. split; [by apply Hin; left|]. split; [by apply Hin; left|].
    rewrite He, leaf_valid. by rewrite decide_True.
  - destruct (twin_at _ _ _ _ _ _ Ht Hlo Hk) as (ui & _ & Hc & _ & Hs). rewrite HV in Hs. cbn [copied] in Hc. rewrite Hs in Hc.
    destruct Hc as [-> _]. by rewrite HV.
  - destruct (twin_down _ _ _ _ _ _ Ht Hlo Hk HV) as (q & us' & ui & _ & _ & He & Hq & Hqin & Hsub & Ht'). rewrite He, ptab_valid.
    destruct r as [|j r].
    + exists q. split; [done|]. split; [done|]. split; [by rewrite decide_False by (cbn; lia)|cbn; lia].
    + rewrite ptab_entry_page by auto. cbn [length] in Hlen. specialize (IH 0 _ q us' (j :: r) Ht' ltac:(lia) Hr ltac:(cbn; lia)).
      destruct (went m0 (entry_page (rd m0 (told + 8 * k))) (j :: r)) as [e|]; [|done].
      destruct IH as (q' & Hq' & Hrq & Hw & Hd). exists q'. split; [by apply Hsub|]. split; [done|]. split.
      * rewrite Hw. cbn [length]. do 3 f_equal. repeat case_decide; try done; lia.
      * cbn [length]. intros Hl. apply Hd. cbn. lia.
  - destruct (twin_at _ _ _ _ _ _ Ht Hlo Hk) as (ui & _ & Hc & _ & Hs). rewrite HV in Hs. cbn [copied] in Hc. rewrite Hs in Hc.
    destruct Hc as [-> _]. by rewrite HV.
Qed.
(** Which piece of [us] the page of an entry is in. *)
Lemma went_piece n lo told tnew us k r e : twin lo n told tnew us → 0 ≤ lo → idx_ok lo (k :: r) → (length r ≤ n)%nat →
  went m' tnew (k :: r) = Some e →
  ∃ ui, us !! Z.to_nat k = Some ui ∧
    match n with
    | O => ui = [entry_page e] ∧ r = []
    | S n => ∃ q us', ui = q :: concat us' ∧ (∃ t, twin 0 n t q us') ∧
        (r = [] → entry_page e = q) ∧ (r ≠ [] → went m' q r = Some e ∧ entry_page e ∈ concat us')
    end.
Proof.
  intros Ht Hlo Hks Hlen Hw. destruct (idx_ok_cons _ _ _ Hks) as [Hk Hr].
  destruct (twin_at _ _ _ _ _ _ Ht Hlo Hk) as (ui & Hui & Hc & Hin & Hs).
  destruct (has PTE_V (rd m0 (told + 8 * k))) eqn:HV.
  2: { cbn [went] in Hw. destruct n; cbn [copied] in Hc; rewrite Hs in Hc; destruct Hc as [He _]; by rewrite He, HV in Hw. }
  exists ui. split; [done|]. destruct n as [|n].
  - destruct r; [|cbn in Hlen; lia]. cbn [copied] in Hc. rewrite Hs in Hc. destruct Hc as (q & -> & He & _).
    cbn [went] in Hw. rewrite He, leaf_valid in Hw. injection Hw as <-. rewrite leaf_entry_page; [done|]. apply ram_page_is_page, Hin. by left.
  - destruct (twin_down _ _ _ _ _ _ Ht Hlo Hk HV) as (q & us' & ui' & Hui' & -> & He & Hq & _ & _ & Ht').
    rewrite Hui in Hui'. injection Hui' as ->. exists q, us'. split; [done|]. split; [eauto|]. cbn [went] in Hw. rewrite He, ptab_valid in Hw.
    destruct r as [|j r].
    + injection Hw as <-. split; [by rewrite ptab_entry_page by auto|done].
    + rewrite ptab_entry_page in Hw by auto. split; [done|]. intros _. split; [done|].
      pose proof (went_twin n 0 _ q us' (j :: r) Ht' ltac:(lia) Hr ltac:(cbn in *; lia)) as Hwt. rewrite Hw in Hwt.
      destruct (went m0 _ (j :: r)) as [e0|]; [|done]. destruct Hwt as (q' & Hq' & Hrq & [= ->] & _).
      case_decide; by rewrite ?leaf_entry_page, ?ptab_entry_page by auto.
Qed.

Lemma concat_pieces (us : list (list Z)) : NoDup (concat us) → ∀ i j a b x, us !! i = Some a → us !! j = Some b → x ∈ a → x ∈ b → i = j.
Proof.
  induction us as [|u us IH]; intros Hn i j a b x Hi Hj Ha Hb; [done|]. cbn [concat] in Hn. apply NoDup_app in Hn as (_ & Hd & Hn).
  assert (Hin : ∀ k c, us !! k = Some c → x ∈ c → x ∈ concat us) by (intros k c Hk Hc; apply elem_of_concat; exists c; split; [by eapply list_elem_of_lookup_2|done]).
  destruct i as [|i], j as [|j]; cbn in Hi, Hj; simplify_eq; [done| | |f_equal; by eapply IH].
  - destruct (Hd x Ha). by eapply Hin.
  - destruct (Hd x Hb). by eapply Hin.
Qed.

Lemma concat_piece_nodup (us : list (list Z)) i u : NoDup (concat us) → us !! i = Some u → NoDup u.
Proof.
  revert i. induction us as [|v us IH]; intros [|i] Hn Hi; [done..| |]; cbn [concat] in Hn; apply NoDup_app in Hn as (Hv & _ & Hn); cbn in Hi.
  - by injection Hi as <-.
  - by eapply IH.
Qed.

Lemma went_inj n : ∀ lo told tnew us ks ks' e e', twin lo n told tnew us → 0 ≤ lo → NoDup (concat us) →
  idx_ok lo ks → idx_ok lo ks' → (length ks ≤ S n)%nat → (length ks' ≤ S n)%nat →
  went m' tnew ks = Some e → went m' tnew ks' = Some e' → entry_page e = entry_page e' → ks = ks'.
Proof.
  induction n as [|n IH]; intros lo told tnew us [|k r] [|k' r'] e e' Ht Hlo Hn Hks Hks' Hl Hl' Hw Hw' Hp; try done; cbn [length] in Hl, Hl'.
  - destruct (went_piece 0 lo told tnew us k r e) as (ui & Hui & -> & ->); [done..|lia|done|].
    destruct (went_piece 0 lo told tnew us k' r' e') as (ui' & Hui' & -> & ->); [done..|lia|done|].
    f_equal. destruct (idx_ok_cons _ _ _ Hks), (idx_ok_cons _ _ _ Hks').
    assert (Z.to_nat k = Z.to_nat k'); [|lia]. eapply (concat_pieces us Hn _ _ _ _ (entry_page e) Hui Hui'); [by left|rewrite Hp; by left].
  - destruct (idx_ok_cons _ _ _ Hks) as [Hk Hr], (idx_ok_cons _ _ _ Hks') as [Hk' Hr'].
    destruct (went_piece (S n) lo told tnew us k r e) as (ui & Hui & q & us1 & -> & [t1 Ht1] & Hq & Hsub); [done..|lia|done|].
    destruct (went_piece (S n) lo told tnew us k' r' e') as (ui' & Hui' & q' & us2 & -> & _ & Hq' & Hsub'); [done..|lia|done|].
    assert (Hin : entry_page e ∈ q :: concat us1).
    { destruct (decide (r = [])) as [->|Hne]; [rewrite (Hq eq_refl); by left|right; by apply Hsub]. }
    assert (Hin' : entry_page e ∈ q' :: concat us2).
    { rewrite Hp. destruct (decide (r' = [])) as [->|Hne]; [rewrite (Hq' eq_refl); by left|right; by apply Hsub']. }
    assert (k = k') as <-.
    { assert (Z.to_nat k = Z.to_nat k'); [|lia]. by eapply (concat_pieces us Hn _ _ _ _ (entry_page e) Hui Hui'). }
    rewrite Hui in Hui'. injection Hui' as <- Heq. f_equal.
    pose proof (concat_piece_nodup us _ _ Hn Hui) as Hnd. apply NoDup_cons in Hnd as [Hqn Hnd].
    destruct (decide (r = [])) as [->|Hne], (decide (r' = [])) as [->|Hne']; [done| | |].
    + exfalso. apply Hqn. rewrite <- (Hq eq_refl), Hp, Heq. by apply Hsub'.
    + exfalso. apply Hqn. rewrite <- (Hq' eq_refl), <- Hp. by apply Hsub.
    + eapply (IH 0 t1 q us1); try done; [lia|lia|by apply Hsub|by apply Hsub'].
Qed.
End Twin.

(** ** The space *)

(** No mapped page of the user is global. *)
Definition no_global (root : Z) (m : mem) : Prop :=
  ∀ p e, path_ok p → length p = 3%nat → entry_at root m p = Some e → has PTE_G e = false.

(** A test of that: no valid entry from index [lo] of the table [t] on, and in the [n]
    levels of tables below, is global. *)
Fixpoint local_entries (m : mem) (n : nat) (lo t : Z) : bool :=
  forallb (λ i, let e := rd m (t + 8 * i) in
    if negb (has PTE_V e) then true else
    if has PTE_G e then false else
    match n with O => true | S n => local_entries m n 0 (entry_page e) end)
    (seqZ lo (512 - lo)).

Lemma local_entries_went m n : ∀ lo t ks e, local_entries m n lo t = true → 0 ≤ lo → idx_ok lo ks → (length ks ≤ S n)%nat →
  went m t ks = Some e → has PTE_G e = false.
Proof.
  induction n as [|n IH]; intros lo t [|k r] e Hc Hlo Hks Hl Hw; try done; destruct (idx_ok_cons _ _ _ Hks) as [Hk Hr];
    cbn [local_entries] in Hc; rewrite forallb_forall in Hc; specialize (Hc k); cbn [went] in Hw;
    destruct (has PTE_V (rd m (t + 8 * k))); try done; cbn [negb] in Hc;
    (assert (Hin : In k (seqZ lo (512 - lo))) by (apply list_elem_of_In, elem_of_seqZ; lia)); specialize (Hc Hin);
    destruct (has PTE_G (rd m (t + 8 * k))) eqn:HG; try done.
  - destruct r; [|cbn in Hl; lia]. by injection Hw as <-.
  - destruct r as [|j r]; [by injection Hw as <-|]. eapply (IH 0); [exact Hc|lia|exact Hr|cbn in *; lia|exact Hw].
Qed.

Lemma no_global_check root m : local_entries m 2 3 root = true → no_global root m.
Proof.
  intros Hc p e [Hl Hp] Hlen He. rewrite entry_went in He. eapply (local_entries_went m 2 3); [exact Hc|lia|by apply path_idx_rev|rewrite length_rev; lia|exact He].
Qed.

Section Space.
Context (root : Z) (m0 : mem) (l : list Z).
Context (Hinv : pt_inv root m0 l) (Hng : no_global root m0).

Lemma free_ram : Forall ram_page l.
Proof. apply (proj2 (proj2 (pt_free _ _ _ Hinv))). Qed.
Lemma free_nodup_l : NoDup l.
Proof. apply (proj1 (proj2 (pt_free _ _ _ Hinv))). Qed.

Lemma V_not_G w : flags (word_pte w) = PTE_V → has PTE_G w = false.
Proof. intros Hf. unfold has. by rewrite Hf. Qed.

Lemma old_below n : ∀ p t i, (n + length p = 2)%nat → path_ok (i :: p) → node_at root m0 p = Some t → old m0 l n (rd m0 (t + 8 * i)).
Proof.
  induction n as [|n IH]; intros p t i Hl Hp Hn; cbn [old]; destruct (skips (rd m0 (t + 8 * i))) eqn:Hs; try done;
    unfold skips in Hs; apply orb_false_iff in Hs as [HV%negb_false_iff _];
    (assert (Hn' : node_at root m0 (i :: p) = Some (entry_page (rd m0 (t + 8 * i)))) by (cbn; by rewrite Hn, HV));
    destruct (pt_page _ _ _ Hinv _ _ Hp Hn') as [Hram Hnl]; (split; [done|]); (split; [done|]).
  - done.
  - intros j Hj. apply (IH (i :: p)); [cbn; lia| |done]. destruct Hp as [Hpl Hpi]. split; [cbn in *; lia|]. cbn. by split.
Qed.

Lemma old_root i : 0 ≤ i < 512 → old m0 l 2 (rd m0 (root + 8 * i)).
Proof.
  intros Hi. destruct (decide (i < 3)).
  - cbn [old]. unfold skips. destruct (has PTE_V (rd m0 (root + 8 * i))) eqn:HV; [|done]. by rewrite (pt_kernel _ _ _ Hinv i ltac:(lia) HV).
  - apply (old_below 2 []); [done| |done]. split; [cbn; lia|]. cbn. split; [lia|]. split; [intros; lia|done].
Qed.

(** A user's path, and the entries at its end. *)
Lemma path_of_rev ks : idx_ok 3 ks → (length ks ≤ 3)%nat → path_ok (rev ks).
Proof.
  intros Hk Hl. split; [by rewrite length_rev|]. destruct ks as [|k r]; [done|]. destruct Hk as [Hk Hr]. cbn [rev].
  clear Hl. induction r as [|j r IH] using rev_ind.
  { cbn. repeat split; intros; lia. }
  apply Forall_app in Hr as [Hr Hj]. apply Forall_cons in Hj as [Hj _]. rewrite rev_unit. cbn [app path_idx]. split; [exact Hj|]. split; [|by apply IH].
  intros Hnil. apply (f_equal length) in Hnil. rewrite length_app in Hnil. cbn in Hnil. lia.
Qed.

Lemma user_entry_G ks e : idx_ok 3 ks → (length ks ≤ 3)%nat → went m0 root ks = Some e → has PTE_G e = false.
Proof.
  intros Hk Hl Hw. pose proof (path_of_rev ks Hk Hl) as Hp. rewrite <- (rev_involutive ks), <- entry_went in Hw.
  destruct (decide (length ks = 3%nat)); [apply (Hng _ _ Hp); [by rewrite length_rev|done]|].
  apply V_not_G, (pt_table _ _ _ Hinv (rev ks)); [done|rewrite length_rev; lia|done].
Qed.

Lemma clone_runs asid : active_space_root m0 = root → (clone_need m0 root ≤ length l)%nat →
  ∃ child l1 m' l' us, l = child :: l1 ∧ memory_space_clone asid m0 = Done (make_mtag child, m') ∧
    agree m0 l m' ∧ same_regs m0 m' ∧ free_ok m' l' ∧ l1 = concat us ++ l' ∧
    twin m0 m' 3 2 root child us ∧
    (∀ i, 0 ≤ i < 3 → rd m' (child + 8 * i) = rd m0 (root + 8 * i)).
Proof.
  intros Hroot Hneed. pose proof free_ram as HL. pose proof free_nodup_l as Hnd. unfold clone_need in Hneed.
  assert (∃ child l1, l = child :: l1) as (child & l1 & Hl) by (destruct l as [|child l1]; [cbn in Hneed; lia|eauto]).
  rewrite Hl in Hnd, Hneed. apply NoDup_cons in Hnd as [Hcl Hnd].
  assert (HcL : child ∈ l) by (rewrite Hl; by left). assert (Hl1 : ∀ q, q ∈ l1 → q ∈ l) by (intros; rewrite Hl; by right).
  pose proof (pt_free _ _ _ Hinv) as Hfree. rewrite Hl in Hfree.
  destruct (alloc_page_spec m0 child l1 Hfree) as (m1 & Ha & Hf1 & Hr1 & _ & Hfr1).
  destruct (zero_page_spec child m1 (L_ram l HL child HcL)) as (m2 & Hz & Hr2 & Hfl2 & _ & Hfr2).
  assert (Hcq : ∀ q, q ∈ l1 → ¬ in_page child q).
  { intros q Hq Hin. apply Hcl. rewrite (free_page_word l HL q child 0) in Hq; [done|by apply Hl1|done|done|by rewrite Z.add_0_r]. }
  assert (Hf2 : free_ok m2 l1) by (apply (free_ok_ext m1); [intros q Hq; apply Hfr2; by apply Hcq|done|done]).
  assert (Hag2 : agree m0 l m2) by (intros a Hq; rewrite Hfr2, Hfr1; [done|by apply Hq|by apply Hq]).
  pose proof (pt_page _ _ _ Hinv [] root path_ok_nil eq_refl) as [Hrr Hrl].
  destruct (loop_spec m0 l HL 2 clone_pt2_entry (clone_pt2_spec m0 l HL) root child (Z.to_nat PTE_CNT) 0 m2 l1) as (m' & l' & us & Hlp & Hg & Hlen & Hc);
    [done..|lia|by rewrite PTE_CNT_eq|by apply old_root|rewrite PTE_CNT_eq; change (Z.of_nat (Z.to_nat 512)) with 512; cbn [length] in Hneed; lia|].
  exists child, l1, m', l', us. split; [done|]. unfold memory_space_clone. rewrite Ha. cbn [mbind outcome_bind]. rewrite Hz. cbn [mbind outcome_bind].
  rewrite Hroot, Hlp. cbn [mbind outcome_bind]. split; [done|]. split; [|split; [|split; [|split; [|split]]]].
  - eapply (agree_grown m0 l HL); [exact Hag2|exact Hl1| |exact Hg]. intros a (i & Hi & ->). rewrite PTE_CNT_eq in Hi. exists child. split; [done|apply in_page_word; lia].
  - etrans; [exact Hr1|]. etrans; [exact Hr2|]. apply (gr_regs _ _ _ _ _ _ Hg).
  - apply (gr_free _ _ _ _ _ _ Hg).
  - apply (gr_used _ _ _ _ _ _ Hg).
  - split; [by rewrite Hlen, PTE_CNT_eq|exact Hc|apply user_entry_G|]. intros q Hq. apply (L_ram l HL), Hl1. rewrite (gr_used _ _ _ _ _ _ Hg).
    apply elem_of_app. by left.
  - intros i Hi. destruct (lookup_lt_is_Some_2 us (Z.to_nat i)) as [ui Hui]; [rewrite Hlen, PTE_CNT_eq; lia|].
    specialize (Hc i ui ltac:(lia) Hui). rewrite !Z.add_0_l in Hc. cbn [copied] in Hc. unfold skips in Hc.
    destruct (has PTE_V (rd m0 (root + 8 * i))) eqn:HV; [|apply Hc]. rewrite (pt_kernel _ _ _ Hinv i Hi HV) in Hc. apply Hc.
Qed.

(** What the copy leaves to the two spaces. *)
Section After.
Context (child : Z) (l1 : list Z) (m' : mem) (l' : list Z) (us : list (list Z)).
Context (Hl : l = child :: l1) (Hag : agree m0 l m') (Hfree : free_ok m' l') (Hl1 : l1 = concat us ++ l').
Context (Htw : twin m0 m' 3 2 root child us).
Context (Hk3 : ∀ i, 0 ≤ i < 3 → rd m' (child + 8 * i) = rd m0 (root + 8 * i)).

Lemma pages_split : NoDup (concat us) ∧ (child ∉ concat us) ∧ (child ∉ l') ∧ (∀ q, q ∈ concat us → q ∉ l') ∧ ram_page child ∧
  (∀ q, q ∈ concat us → q ∈ l) ∧ (∀ q, q ∈ l' → q ∈ l) ∧ child ∈ l.
Proof.
  pose proof free_nodup_l as Hn. pose proof free_ram as Hr. rewrite Hl, Hl1 in Hn, Hr. apply NoDup_cons in Hn as [Hc Hn].
  apply NoDup_app in Hn as (H1 & H2 & H3). apply Forall_cons in Hr as [Hr _]. rewrite elem_of_app in Hc.
  split; [done|]. split; [tauto|]. split; [tauto|]. split; [done|]. split; [done|].
  split; [|split]; [intros q Hq; rewrite Hl, Hl1; right; apply elem_of_app; by left|intros q Hq; rewrite Hl, Hl1; right; apply elem_of_app; by right|rewrite Hl; by left].
Qed.

(** The old space is as before. *)
Lemma parent_same p : path_ok p → node_at root m' p = node_at root m0 p ∧ entry_at root m' p = entry_at root m0 p.
Proof.
  apply frame_entry. intros q t i Hp Hn. apply Hag. intros x Hx Hin. destruct (pt_page _ _ _ Hinv q t) as [Hr Hni]; [by eauto|done|].
  apply Hni. rewrite (ram_page_disjoint t x (t + 8 * i)); [done|done|by apply (L_ram l free_ram)|apply in_page_word; eauto|done].
Qed.

Lemma parent_word p t i : path_ok p → node_at root m0 p = Some t → 0 ≤ i < 512 → rd m' (t + 8 * i) = rd m0 (t + 8 * i).
Proof.
  intros Hp Hn Hi. apply Hag. intros x Hx Hin. destruct (pt_page _ _ _ Hinv p t Hp Hn) as [Hr Hni].
  apply Hni. rewrite (ram_page_disjoint t x (t + 8 * i)); [done|done|by apply (L_ram l free_ram)|by apply in_page_word|done].
Qed.

Lemma parent_inv : pt_inv root m' l'.
Proof.
  destruct pages_split as (_ & _ & _ & _ & _ & _ & Hsub & _). split; [done|..].
  - intros p t Hp. rewrite (proj1 (parent_same p Hp)). intros Hn. destruct (pt_page _ _ _ Hinv p t Hp Hn) as [? Hni]. split; [done|]. intros ?%Hsub. done.
  - intros p p' t Hp Hp'. rewrite (proj1 (parent_same p Hp)), (proj1 (parent_same p' Hp')). by apply (pt_inj _ _ _ Hinv).
  - intros i Hi. rewrite (parent_word [] root i) by (done || lia || apply path_ok_nil). by apply (pt_kernel _ _ _ Hinv).
  - intros p e Hp Hlen. rewrite (proj2 (parent_same p Hp)). by apply (pt_table _ _ _ Hinv).
Qed.

(** The entries of the new space. *)
Lemma child_entry p : path_ok p →
  match entry_at root m0 p with
  | None => entry_at child m' p = None
  | Some e => ∃ q, q ∈ concat us ∧ ram_page q ∧
      entry_at child m' p = Some (pte_word ((if decide (length p = 3%nat) then leaf_pte else ptab_pte) q (flags (word_pte e)))) ∧
      (length p = 3%nat → ∀ i, 0 ≤ i < 512 → rd m' (q + 8 * i) = rd m0 (entry_page e + 8 * i))
  end.
Proof.
  intros [Hlen Hp]. rewrite !entry_went. pose proof (went_twin m0 m' 2 3 root child us (rev p) Htw ltac:(lia) (path_idx_rev p Hp)) as Hw.
  rewrite length_rev in Hw. by apply Hw.
Qed.

Lemma child_node p t : path_ok p → node_at child m' p = Some t → (p = [] ∧ t = child) ∨ (p ≠ [] ∧ t ∈ concat us ∧ ram_page t).
Proof.
  intros Hp Hn. destruct p as [|i p]; [by injection Hn as <-; left|]. right. split; [done|]. rewrite node_entry in Hn.
  pose proof (child_entry (i :: p) Hp) as Hc. destruct (entry_at root m0 (i :: p)) as [e|]; [|by rewrite Hc in Hn].
  destruct Hc as (q & Hq & Hr & He & _). rewrite He in Hn. cbn [fmap option_fmap option_map] in Hn. apply (inj Some) in Hn as <-. case_decide; rewrite ?leaf_entry_page, ?ptab_entry_page by auto; done.
Qed.

Lemma child_inv : pt_inv child m' l'.
Proof.
  destruct pages_split as (Hnd & Hcu & Hcl & Hul & Hrc & _). split; [done|..].
  - intros p t Hp Hn. destruct (child_node p t Hp Hn) as [[_ ->]|(_ & Hq & Hr)]; [done|]. split; [done|by apply Hul].
  - intros p p' t Hp Hp' Hn Hn'.
    destruct (child_node p t Hp Hn) as [[-> Ht]|(Hne & Hq & _)], (child_node p' t Hp' Hn') as [[-> Ht']|(Hne' & Hq' & _)]; [reflexivity|by rewrite Ht in Hq'|by rewrite Ht' in Hq|].
    destruct p as [|i p]; [done|]. destruct p' as [|j p']; [done|]. rewrite node_entry in Hn, Hn'.
    destruct (entry_at child m' (i :: p)) as [e|] eqn:He; [|done]. destruct (entry_at child m' (j :: p')) as [e'|] eqn:He'; [|done].
    injection Hn as Hn. injection Hn' as Hn'. rewrite entry_went in He, He'. destruct Hp as [Hl2 Hp], Hp' as [Hl2' Hp'].
    assert (Hrev : rev (i :: p) = rev (j :: p')).
    { eapply (went_inj m0 m' 2 3 root child us _ _ e e' Htw); [lia|done|by apply path_idx_rev|by apply path_idx_rev|by rewrite length_rev|by rewrite length_rev|done|done|congruence]. }
    apply (f_equal (@rev Z)) in Hrev. by rewrite !rev_involutive in Hrev.
  - intros i Hi. rewrite !Hk3 by done. by apply (pt_kernel _ _ _ Hinv).
  - intros p e Hp Hlen He. pose proof (child_entry p Hp) as Hc. destruct (entry_at root m0 p) as [e0|] eqn:He0; [|congruence].
    destruct Hc as (q & _ & _ & Hc & _). rewrite He in Hc. apply (inj Some) in Hc as ->. rewrite decide_False by lia.
    rewrite word_pte_word by auto with word. cbn [flags ptab_pte]. by rewrite (pt_table _ _ _ Hinv p e0 Hp Hlen He0).
Qed.
End After.
End Space.

Lemma byte_at_same q p m m' v : q mod 4096 = 0 → p mod 4096 = 0 → (∀ i, 0 ≤ i < 512 → rd m' (q + 8 * i) = rd m (p + 8 * i)) →
  byte_at (q + v mod 4096) m' = byte_at (p + v mod 4096) m.
Proof.
  intros Hq Hp Hs. destruct (page_word q v Hq) as (Hq1 & Hq2 & Hr), (page_word p v Hp) as (Hp1 & Hp2 & _).
  unfold byte_at. by rewrite Hq1, Hq2, Hp1, Hp2, Hs.
Qed.

(** The memory of the parent and of the child after the parent, with root [root] and
    memory [m], was cloned; [m'] is the memory afterwards, [l'] are the free pages. *)
Record cloned (root child : Z) (m m' : mem) (l' : list Z) : Prop := {
  cl_parent : pt_inv root m' l';
  cl_child : pt_inv child m' l';
  cl_kernel i : 0 ≤ i < 3 → rd m' (child + 8 * i) = rd m (root + 8 * i);
  cl_keep v : user_vma v → translate root v m' = translate root v m ∧ vbyte root v m' = vbyte root v m;
  cl_copy v : user_vma v → vbyte child v m' = vbyte root v m;
  cl_flags v : user_vma v → match translate root v m with
    | None => translate child v m' = None
    | Some e => ∃ q, translate child v m' = Some (pte_word (leaf_pte q (flags (word_pte e))))
    end;
  cl_apart v v' e e' : user_vma v → user_vma v' → translate root v m' = Some e → translate child v' m' = Some e' → entry_page e ≠ entry_page e'
}.

Lemma memory_space_clone_runs root asid m l :
  pt_inv root m l → no_global root m → active_space_root m = root → (clone_need m root ≤ length l)%nat →
  ∃ child m' l', memory_space_clone asid m = Done (make_mtag child, m') ∧ cloned root child m m' l' ∧ same_regs m m' ∧
    mtag_to_root (make_mtag child) = child.
Proof.
  intros Hi Hng Hr Hn. destruct (clone_runs root m l Hi Hng asid Hr Hn) as (child & l1 & m' & l' & us & Hl & He & Hag & Hregs & Hf & Hl1 & Htw & Hk3).
  pose proof (pages_split root m l Hi child l1 l' us Hl Hl1) as (_ & _ & _ & _ & Hrc & HuL & _ & _).
  assert (Hch : ∀ v, user_vma v → match translate root v m with
    | None => translate child v m' = None
    | Some e => ∃ q, q ∈ concat us ∧ ram_page q ∧ translate child v m' = Some (pte_word (leaf_pte q (flags (word_pte e)))) ∧
        ∀ i, 0 ≤ i < 512 → rd m' (q + 8 * i) = rd m (entry_page e + 8 * i)
    end).
  { intros v Hv. pose proof (child_entry root m child m' us Htw (path_of v) (user_vma_path v Hv)) as Hc. unfold translate.
    destruct (entry_at root m (path_of v)) as [e|]; [|done]. destruct Hc as (q & ? & ? & Hc & ?). exists q. rewrite decide_True in Hc by done. auto. }
  assert (Hpar : ∀ v, user_vma v → translate root v m' = translate root v m).
  { intros v Hv. apply (parent_same root m l Hi m' Hag). auto. }
  assert (Hnode : ∀ v e, user_vma v → translate root v m = Some e → node_at root m (path_of v) = Some (entry_page e)).
  { intros v e Hv Ht. unfold path_of. rewrite node_entry. unfold translate, path_of in Ht. by rewrite Ht. }
  exists child, m', l'. split; [done|]. split; [|split; [done|apply mtag_root; auto]]. split.
  - by apply (parent_inv root m l Hi child l1 m' l' us).
  - by apply (child_inv root m l Hi child l1 m' l' us).
  - done.
  - intros v Hv. split; [by apply Hpar|]. unfold vbyte. rewrite Hpar by done. destruct (translate root v m) as [e|] eqn:Ht; [|done].
    cbn. f_equal. destruct (pt_page _ _ _ Hi _ _ (user_vma_path v Hv) (Hnode v e Hv Ht)) as [Hram _].
    apply byte_at_same; [apply Hram|apply Hram|]. intros i Hi'. by apply (parent_word root m l Hi m' Hag (path_of v)); auto.
  - intros v Hv. specialize (Hch v Hv). unfold vbyte. destruct (translate root v m) as [e|] eqn:Ht; [|by rewrite Hch].
    destruct Hch as (q & _ & Hq & -> & Hd). cbn. f_equal. rewrite leaf_entry_page by auto.
    destruct (pt_page _ _ _ Hi _ _ (user_vma_path v Hv) (Hnode v e Hv Ht)) as [Hram _]. apply byte_at_same; [apply Hq|apply Hram|done].
  - intros v Hv. specialize (Hch v Hv). destruct (translate root v m); [|done]. destruct Hch as (q & _ & _ & Hq & _). by exists q.
  - intros v v' e e' Hv Hv' Ht Ht'. rewrite Hpar in Ht by done. specialize (Hch v' Hv'). destruct (translate root v' m) as [e0|]; [|congruence].
    destruct Hch as (q & Hq & Hrq & Hc & _). rewrite Hc in Ht'. apply (inj Some) in Ht' as <-. rewrite leaf_entry_page by auto.
    destruct (pt_page _ _ _ Hi _ _ (user_vma_path v Hv) (Hnode v e Hv Ht)) as [_ Hnl]. intros Heq. apply Hnl. rewrite Heq. by apply HuL.
Qed.

(** C9: cloning the active space: the new space translates the same user addresses with
    the same flags to fresh pages that hold the same bytes, has the kernel's entries
    of the old one, and satisfies the invariant of spaces; the old space is as
    before, and no page of the user belongs to both. *)
Theorem memory_space_clone_spec root asid m l :
  pt_inv root m l → no_global root m → active_space_root m = root → (clone_need m root ≤ length l)%nat →
  ∃ child m' l', memory_space_clone asid m = Done (make_mtag child, m') ∧ cloned root child m m' l' ∧ same_regs m m' ∧
    mtag_to_root (make_mtag child) = child.
Proof. apply memory_space_clone_runs. Qed.
