(* ===== verification/Elf.v ===== *)
(** The ELF loader (src/src/kern/elf.c; elf2.c is the variant that never sets the
    X flag).

    The executable is any I/O object; the segments are stored into the active
    address space.  The loader returns its code, the entry point it stored, if any,
    the object and the memory. *)
From Stdlib Require Import ZArith Lia.
From stdpp Require Import base list strings.
From S2P Require Import Prelude Pages Pte Memory Io Disk Vmem.

Open Scope Z_scope.

Definition ELFMAG0 : Z := 0x7f.
Definition ELFMAG1 : Z := 69.
Definition ELFMAG2 : Z := 76.
Definition ELFMAG3 : Z := 70.
Definition PF_R : Z := 4.
Definition PF_W : Z := 2.
Definition PF_X : Z := 1.
Definition EI_MAG0 : nat := 0.
Definition EI_MAG1 : nat := 1.
Definition EI_MAG2 : nat := 2.
Definition EI_MAG3 : nat := 3.
Definition EI_CLASS : nat := 4.
Definition EI_DATA : nat := 5.
Definition ELFCLASS64 : Z := 2.
Definition ELFDATA2LSB : Z := 1.
Definition EOTHER : Z := 10.
Definition EWRONG : Z := 11.
Definition EFOR : Z := 4.
Definition ESEV : Z := 7.
Definition PT_LOAD : Z := 1.
Definition ET_EXEC : Z := 2.
Definition EM_RISCV : Z := 243.

(** ** Headers *)

Record Elf64_Ehdr : Type := Ehdr {
  e_ident : list Z;
  e_type : Z;
  e_machine : Z;
  e_version : Z;
  e_entry : Z;
  e_phoff : Z;
  e_shoff : Z;
  e_flags : Z;
  e_ehsize : Z;
  e_phentsize : Z;
  e_phnum : Z;
  e_shentsize : Z;
  e_shnum : Z;
  e_shstrndx : Z
}.

Record Elf64_Phdr : Type := Phdr {
  p_type : Z;
  p_flags : Z;
  p_offset : Z;
  p_vaddr : Z;
  p_paddr : Z;
  p_filesz : Z;
  p_memsz : Z;
  p_align : Z
}.

Definition sizeof_Ehdr : Z := 64.
Definition sizeof_Phdr : Z := 56.

(** The structures as the bytes that were read into them. *)
Definition ehdr_of (b : list Z) : Elf64_Ehdr :=
  let f off n := le_val (slice off n b) in
  Ehdr (slice 0 16 b) (f 16 2) (f 18 2) (f 20 4) (f 24 8) (f 32 8) (f 40 8) (f 48 4)
       (f 52 2) (f 54 2) (f 56 2) (f 58 2) (f 60 2) (f 62 2).

Definition phdr_of (b : list Z) : Elf64_Phdr :=
  let f off n := le_val (slice off n b) in
  Phdr (f 0 4) (f 4 4) (f 8 8) (f 16 8) (f 24 8) (f 32 8) (f 40 8) (f 48 8).

(** Using a structure of [size] bytes whose bytes are [b]: one that was not written
    in full, or written past its end, is undefined. *)
Definition struct_of {A} (size : Z) (parse : list Z → A) (b : list Z) : outcome A :=
  if Z.of_nat (length b) =? size then Done (parse b) else Undefined.

(** The checks on the header: the error code, or 0. *)
Definition check_ehdr (h : Elf64_Ehdr) : outcome Z :=
  let ident k := deref (e_ident h !! k) in
  m0 ← ident EI_MAG0; m1 ← ident EI_MAG1; m2 ← ident EI_MAG2; m3 ← ident EI_MAG3;
  if negb (m0 =? ELFMAG0) || negb (m1 =? ELFMAG1) || negb (m2 =? ELFMAG2) || negb (m3 =? ELFMAG3)
  then Done (- EBUSY) else
  class ← ident EI_CLASS;
  if negb (class =? ELFCLASS64) then Done (- EBADFD) else
  data ← ident EI_DATA;
  if negb (data =? ELFDATA2LSB) then Done (- EOTHER) else
  if negb (e_machine h =? EM_RISCV) then Done (- EWRONG) else
  if negb (e_type h =? ET_EXEC) then Done (- Z.of_nat EI_MAG3) else
  Done 0.

Definition flag_set (f w : Z) : bool := negb (Z.land w f =? 0).

(** The flags of the pages of a segment. *)
Definition rwx_flags (allow_x : bool) (pf : Z) : Z :=
  let f := 0 in
  let f := if allow_x && flag_set PF_X pf then Z.lor f PTE_X else f in
  let f := if flag_set PF_W pf then Z.lor f PTE_W else f in
  let f := if flag_set PF_R pf then Z.lor f PTE_R else f in
  Z.lor f PTE_U.

(** [memset] at a user address. *)
Definition vmemset (v c : Z) (n : Z) (m : mem) : outcome mem :=
  vstore_bytes v (replicate (Z.to_nat n) (u8 c)) m.

Section Elf.
Context {σ : Type} `{IoOps σ}.

(** One PT_LOAD segment: an error code, or 0 and the loop goes on. *)
Definition load_segment (allow_x : bool) (ph : Elf64_Phdr) (io : σ) (m : mem) : outcome (Z * σ * mem) :=
  let v_addr := p_vaddr ph in
  if (v_addr <? USER_START_VMA) || (USER_END_VMA <? u64 (v_addr + p_memsz ph)) then Done (- EBADFMT, io, m) else
  let rwx := rwx_flags allow_x (p_flags ph) in
  '(r, io) ← ioseek (p_offset ph) io;
  if r <? 0 then Done (- ESEV, io, m) else
  '(_, m) ← memory_alloc_and_map_range v_addr (p_memsz ph) (Z.lor (Z.lor PTE_W PTE_R) PTE_U) m;
  '(cnt, data, io) ← ioread (p_filesz ph) io;
  m ← vstore_bytes v_addr data m;
  if negb (cnt =? s64 (p_filesz ph)) then Done (- EACCESS, io, m) else
  m ← memory_set_range_flags v_addr (p_memsz ph) rwx m;
  if p_filesz ph <? p_memsz ph then
    m ← vmemset (u64 (v_addr + p_filesz ph)) 0 (p_memsz ph - p_filesz ph) m;
    Done (0, io, m)
  else Done (0, io, m).

(** The loop over the program headers: [n] are left, the next is [i]. *)
Fixpoint load_phdrs (allow_x : bool) (e_phoff : Z) (n : nat) (i : Z) (io : σ) (m : mem) : outcome (Z * σ * mem) :=
  match n with
  | O => Done (0, io, m)
  | S n =>
      let seek_pos := u64 (e_phoff + i * sizeof_Phdr) in
      '(r, io) ← ioseek seek_pos io;
      if r <? 0 then Done (- EFOR, io, m) else
      '(cnt, b, io) ← ioread sizeof_Phdr io;
      if negb (cnt =? sizeof_Phdr) then Done (- Z.of_nat EI_DATA, io, m) else
      ph ← struct_of sizeof_Phdr phdr_of b;
      if p_type ph =? PT_LOAD then
        '(r, io, m) ← load_segment allow_x ph io m;
        if negb (r =? 0) then Done (r, io, m) else load_phdrs allow_x e_phoff n (i + 1) io m
      else load_phdrs allow_x e_phoff n (i + 1) io m
  end.

(** The function after the position was printed. *)
Definition load_from (allow_x : bool) (io : σ) (m : mem) : outcome (Z * option Z * σ * mem) :=
  '(cnt, b, io) ← ioread sizeof_Ehdr io;
  if negb (cnt =? sizeof_Ehdr) then Done (-1, None, io, m) else
  h ← struct_of sizeof_Ehdr ehdr_of b;
  code ← check_ehdr h;
  if negb (code =? 0) then Done (code, None, io, m) else
  '(r, io, m) ← load_phdrs allow_x (e_phoff h) (Z.to_nat (e_phnum h)) 0 io m;
  if negb (r =? 0) then Done (r, None, io, m) else
  Done (0, Some (e_entry h), io, m).

(** [filePos] is the value that the local variable happens to have. *)
Definition elf_load (filePos : Z) (io : σ) (m : mem) : outcome (Z * option Z * σ * mem) :=
  '(_, _, io) ← ioctl IOCTL_GETPOS filePos io;
  load_from true io m.

Definition elf2_load (io : σ) (m : mem) : outcome (Z * option Z * σ * mem) := load_from false io m.
End Elf.
