(* ===== verification/ElfSpec.v ===== *)
(** What the ELF loader does to the address space.

    An executable is an image; [exec_ok] says that its header and its segments are
    well formed and that its segments share no page.  Loading one gives every page
    of every segment the bytes of the file, zero behind them, and the flags of the
    segment, and changes no other page. *)
From Stdlib Require Import ZArith Lia.
From stdpp Require Import base gmap list sets strings.
From S2P Require Import Prelude Pages Heap Pte Memory MemFacts PageTables Mapping Io IoSpec Disk Vmem Elf.

Open Scope Z_scope.

(** The program header [i] of an image. *)
Definition phdr_at (img : list Z) (phoff i : Z) : Elf64_Phdr := phdr_of (slice (phoff + 56 * i) 56 img).

(** A segment that fits the file and the user region, on whole pages. *)
Record segment_fits (img : list Z) (ph : Elf64_Phdr) : Prop := {
  so_start : USER_START_VMA ≤ p_vaddr ph;
  so_aligned : p_vaddr ph mod 4096 = 0;
  so_end : p_vaddr ph + p_memsz ph ≤ USER_END_VMA;
  so_sizes : 0 ≤ p_filesz ph ≤ p_memsz ph;
  so_file : 0 ≤ p_offset ph ∧ p_offset ph + p_filesz ph ≤ Z.of_nat (length img)
}.

(** One with zero bytes behind the file's must be writable. *)
Record segment_ok (img : list Z) (ph : Elf64_Phdr) : Prop := {
  so_fits : segment_fits img ph;
  so_bss : p_filesz ph < p_memsz ph → flag_set PF_W (p_flags ph) = true
}.

Definition seg_range (ph : Elf64_Phdr) (u : Z) : Prop := in_range (p_vaddr ph) (p_memsz ph) u.

(** The pages of a segment. *)
Definition seg_pages (ph : Elf64_Phdr) : Z := (p_memsz ph + 4095) / 4096.

(** The byte that a segment puts at an address of its pages. *)
Definition seg_byte (img : list Z) (ph : Elf64_Phdr) (u : Z) : Z :=
  if u - p_vaddr ph <? p_filesz ph then default 0 (img !! Z.to_nat (p_offset ph + (u - p_vaddr ph))) else 0.

Definition seg_loaded (allow_x : bool) (root : Z) (img : list Z) (ph : Elf64_Phdr) (m : mem) : Prop :=
  ∀ u, user_vma u → seg_range ph u →
    vbyte root u m = Some (seg_byte img ph u) ∧
    ∃ e, translate root u m = Some e ∧ leaf_flags e = new_flags (rwx_flags allow_x (p_flags ph)).

(** The memory at [P] may differ, every other user address is as before. *)
Definition same_outside (root : Z) (P : Z → Prop) (m m' : mem) : Prop :=
  ∀ u, user_vma u → ¬ P u → translate root u m' = translate root u m ∧ vbyte root u m' = vbyte root u m.

Lemma same_outside_trans root P Q m1 m2 m3 :
  same_outside root P m1 m2 → same_outside root Q m2 m3 → same_outside root (λ u, P u ∨ Q u) m1 m3.
Proof.
  intros H1 H2 u Hu Hn. destruct (H2 u Hu ltac:(tauto)) as [Ha Hb], (H1 u Hu ltac:(tauto)) as [Hc Hd]. by rewrite Ha, Hb.
Qed.

Lemma same_outside_weaken root (P Q : Z → Prop) m m' :
  (∀ u, user_vma u → P u → Q u) → same_outside root P m m' → same_outside root Q m m'.
Proof. intros HPQ H u Hu Hn. apply H; auto. Qed.

Lemma seg_loaded_same allow_x root img ph P m m' :
  seg_loaded allow_x root img ph m → same_outside root P m m' → (∀ u, user_vma u → seg_range ph u → ¬ P u) →
  seg_loaded allow_x root img ph m'.
Proof.
  intros Hl Hs Hd u Hu Hr. destruct (Hs u Hu ltac:(auto)) as [Ht Hb]. destruct (Hl u Hu Hr) as (Hv & e & He & Hf).
  rewrite Hb, Ht. eauto.
Qed.

Lemma has_leaf_flags k f e : leaf_flags e = new_flags f → 0 < k < 6 → Z.testbit f k = true → has (Z.shiftl 1 k) e = true.
Proof.
  intros He Hk Hf. rewrite has_testbit by lia. rewrite <- testbit_flags by lia. fold (leaf_flags e).
  by rewrite He, new_flags_bit by lia.
Qed.

Lemma rwx_flags_W allow_x pf : flag_set PF_W pf = true → Z.testbit (rwx_flags allow_x pf) 2 = true.
Proof. unfold rwx_flags. intros ->. by destruct (allow_x && flag_set PF_X pf), (flag_set PF_R pf). Qed.

Section ElfSpec.
Context {σ : Type} `{IoDisk0 σ}.
Context (root : Z).
Abbreviation pt_inv := (pt_inv root).

Lemma lookup_slice_default off n (img : list Z) (j : nat) b : 0 ≤ off →
  slice off n img !! j = Some b → default 0 (img !! Z.to_nat (off + Z.of_nat j)) = b.
Proof.
  intros Ho Hb. destruct (decide (j < Z.to_nat n)%nat).
  - rewrite slice_lookup in Hb by done. by rewrite Hb.
  - unfold slice in Hb. rewrite lookup_take_ge in Hb by lia. done.
Qed.

Lemma slice_bytes off n (img : list Z) : Forall (λ b, 0 ≤ b < 256) img → Forall (λ b, 0 ≤ b < 256) (slice off n img).
Proof. intros Hb. unfold slice. by apply Forall_take, Forall_drop. Qed.

(** The zeros behind the file's bytes. *)
Lemma bss_spec allow_x img ph m l :
  pt_inv m l → active_space_root m = root → segment_ok img ph → p_filesz ph < p_memsz ph →
  (∀ u, user_vma u → seg_range ph u → ∃ e, translate root u m = Some e ∧ leaf_flags e = new_flags (rwx_flags allow_x (p_flags ph))) →
  ∃ m', vmemset (u64 (p_vaddr ph + p_filesz ph)) 0 (p_memsz ph - p_filesz ph) m = Done m' ∧
    vstep root m l m' (λ u, p_vaddr ph + p_filesz ph ≤ u < p_vaddr ph + p_memsz ph) ∧
    ∀ u, p_vaddr ph + p_filesz ph ≤ u < p_vaddr ph + p_memsz ph → vbyte root u m' = Some 0.
Proof.
  intros Hi Hroot [[Hst Hal Hend Hsz _] Hbss] Hlt Hmap. unfold USER_START_VMA, USER_END_VMA in *.
  destruct (range_pages (p_vaddr ph) (p_memsz ph)) as (_ & _ & _ & Hin); [lia|done|lia|rewrite GIGA_SIZE_eq; lia|].
  unfold vmemset. rewrite u64_small by lia. change (u8 0) with 0. set (n := p_memsz ph - p_filesz ph).
  set (zs := replicate (Z.to_nat n) 0). assert (Hzs : Z.of_nat (length zs) = n) by (unfold zs, n; rewrite length_replicate; lia).
  destruct (vstore_bytes_spec root zs m l (p_vaddr ph + p_filesz ph)) as (m' & Hm' & Hs & Hb); [done|done| | |].
  { by apply Forall_replicate. }
  { intros j Hj. destruct (Hin (p_vaddr ph + p_filesz ph + j)) as [Hr Hu]; [lia|]. split; [done|].
    destruct (Hmap _ Hu Hr) as (e & He & Hfl). exists e. split; [done|].
    by apply (has_leaf_flags 2 _ _ Hfl), rwx_flags_W, Hbss. }
  rewrite Hzs in Hs. unfold n in Hs. replace (p_vaddr ph + p_filesz ph + (p_memsz ph - p_filesz ph)) with (p_vaddr ph + p_memsz ph) in Hs by lia.
  exists m'. split; [done|]. split; [done|]. intros u Hu.
  specialize (Hb (Z.to_nat (u - (p_vaddr ph + p_filesz ph))) 0). rewrite <- Hb.
  - f_equal. lia.
  - unfold zs. apply lookup_replicate. split; [done|]. lia.
Qed.

(** The stores of the file's bytes and of the flags. *)
Lemma segment_stores allow_x img ph m l :
  pt_inv m l → active_space_root m = root → segment_fits img ph → Forall (λ b, 0 ≤ b < 256) img →
  (∀ u, user_vma u → seg_range ph u →
     (∃ e, translate root u m = Some e ∧ leaf_flags e = new_flags (Z.lor (Z.lor PTE_W PTE_R) PTE_U)) ∧ vbyte root u m = Some 0) →
  ∃ m1 m2, vstore_bytes (p_vaddr ph) (slice (p_offset ph) (p_filesz ph) img) m = Done m1 ∧
    memory_set_range_flags (p_vaddr ph) (p_memsz ph) (rwx_flags allow_x (p_flags ph)) m1 = Done m2 ∧
    pt_inv m2 l ∧ same_regs m m2 ∧ seg_loaded allow_x root img ph m2 ∧ same_outside root (seg_range ph) m m2.
Proof.
  intros Hi Hroot [Hst Hal Hend Hsz [Ho Hf]] Himg Hmap. unfold USER_START_VMA, USER_END_VMA in *.
  destruct (range_pages (p_vaddr ph) (p_memsz ph)) as (_ & _ & _ & Hin); [lia|done|lia|rewrite GIGA_SIZE_eq; lia|].
  assert (Hsl : length (slice (p_offset ph) (p_filesz ph) img) = Z.to_nat (p_filesz ph)) by (apply slice_length; lia).
  destruct (vstore_bytes_spec root (slice (p_offset ph) (p_filesz ph) img) m l (p_vaddr ph)) as (m1 & Hm1 & [Hi1 Hg1 Ht1 Hk1] & Hb1);
    [done..|by apply slice_bytes| |].
  { intros j Hj. destruct (Hin (p_vaddr ph + j)) as [Hr Hu]; [lia|]. split; [done|].
    destruct (Hmap _ Hu Hr) as [(e & He & Hfl) _]. exists e. split; [done|]. by apply (has_leaf_flags 2 _ _ Hfl). }
  assert (Hr1 : active_space_root m1 = root) by (rewrite <- Hroot; by apply same_regs_root).
  destruct (set_range_flags_vmem root m1 l (p_vaddr ph) (p_memsz ph) (rwx_flags allow_x (p_flags ph)))
    as (m2 & Hm2 & Hi2 & Hg2 & Hb2 & Hin2 & Hout2); [done|done|done|rewrite GIGA_SIZE_eq; lia|lia|lia| |].
  { intros u Hu Hr. rewrite Ht1 by done. destruct (Hmap u Hu Hr) as [(e & -> & _) _]. done. }
  exists m1, m2. do 3 (split; [done|]). split; [exact (transitivity Hg1 Hg2)|]. split.
  - intros u Hu Hr. split; [|by apply Hin2]. rewrite Hb2 by done. unfold seg_byte. pose proof (in_range_ge _ _ _ Hal Hr).
    destruct (Z.ltb_spec (u - p_vaddr ph) (p_filesz ph)).
    + destruct (lookup_lt_is_Some_2 (slice (p_offset ph) (p_filesz ph) img) (Z.to_nat (u - p_vaddr ph))) as [b Hb]; [lia|].
      pose proof (Hb1 _ _ Hb) as Hvb. replace (p_vaddr ph + Z.of_nat (Z.to_nat (u - p_vaddr ph))) with u in Hvb by lia.
      rewrite Hvb. f_equal. rewrite <- (lookup_slice_default _ _ _ _ _ Ho Hb). do 3 f_equal. lia.
    + rewrite Hk1 by (done || lia). by apply Hmap.
  - intros u Hu Hn. rewrite Hout2, Hb2, Ht1 by done. split; [done|]. apply Hk1; [done|]. intros Hc. apply Hn, Hin. lia.
Qed.

(** A segment up to the zeros: the file's bytes in fresh pages, then the flags. *)
Lemma segment_file allow_x ph io m l :
  disk_ok io → Forall (λ b, 0 ≤ b < 256) (contents io) → pt_inv m l → active_space_root m = root →
  segment_fits (contents io) ph → 3 * seg_pages ph ≤ Z.of_nat (length l) →
  ∃ io' m' l', disk_ok io' ∧ contents io' = contents io ∧
    pt_inv m' l' ∧ same_regs m m' ∧ Z.of_nat (length l) ≤ Z.of_nat (length l') + 3 * seg_pages ph ∧
    seg_loaded allow_x root (contents io) ph m' ∧ same_outside root (seg_range ph) m m' ∧
    load_segment allow_x ph io m =
      if p_filesz ph <? p_memsz ph then
        m' ← vmemset (u64 (p_vaddr ph + p_filesz ph)) 0 (p_memsz ph - p_filesz ph) m'; Done (0, io', m')
      else Done (0, io', m').
Proof.
  intros Hd Himg Hi Hroot Hseg Hl. destruct Hseg as [Hst Hal Hend Hsz [Ho Hf]]. unfold USER_START_VMA, USER_END_VMA in *.
  destruct (disk_range _ Hd) as [_ Hlen]. unfold load_segment. cbv zeta. unfold USER_START_VMA, USER_END_VMA.
  rewrite (u64_small (p_vaddr ph + p_memsz ph)) by lia. destruct (Z.ltb_spec (p_vaddr ph) 0xC0000000); [lia|].
  destruct (Z.ltb_spec 0xD0000000 (p_vaddr ph + p_memsz ph)); [lia|]. cbn [orb].
  destruct (disk_seek (p_offset ph) io Hd ltac:(lia)) as (io1 & -> & Hd1 & Hc1 & Hp1). cbn [mbind outcome_bind].
  change (0 <? 0) with false. cbn iota.
  destruct (map_range_vmem root m l (p_vaddr ph) (p_memsz ph) (Z.lor (Z.lor PTE_W PTE_R) PTE_U))
    as (m1 & l1 & -> & Hi1 & Hg1 & Hl1 & Hin1 & Hout1); [done|done|done|rewrite GIGA_SIZE_eq; lia|lia|lia|exact Hl|].
  cbn [mbind outcome_bind].
  destruct (disk_read_any (p_filesz ph) io1 Hd1) as (io2 & -> & Hd2 & Hc2 & _); [lia|rewrite Hc1, Hp1; lia|].
  cbn [mbind outcome_bind]. rewrite Hp1, Hc1 in *.
  destruct (segment_stores allow_x (contents io) ph m1 l1) as (m2 & m3 & -> & Hfl3 & Hi3 & Hg3 & Hload & Hout3);
    [done|by rewrite (same_regs_root _ _ Hg1)|by split|done|done|].
  cbn [mbind outcome_bind]. rewrite s64_small by lia. rewrite Z.eqb_refl. cbn [negb]. rewrite Hfl3. cbn [mbind outcome_bind].
  exists io2, m3, l1. split; [done|]. split; [congruence|]. split; [done|]. split; [exact (transitivity Hg1 Hg3)|].
  split; [exact Hl1|]. split; [done|]. split; [|done].
  intros u Hu Hn. destruct (Hout3 u Hu Hn) as [-> ->]. by apply Hout1.
Qed.

(** A segment, from any position of the object. *)
Lemma load_segment_spec allow_x ph io m l :
  disk_ok io → Forall (λ b, 0 ≤ b < 256) (contents io) → pt_inv m l → active_space_root m = root →
  segment_ok (contents io) ph → 3 * seg_pages ph ≤ Z.of_nat (length l) →
  ∃ io' m' l', load_segment allow_x ph io m = Done (0, io', m') ∧ disk_ok io' ∧ contents io' = contents io ∧
    pt_inv m' l' ∧ same_regs m m' ∧ Z.of_nat (length l) ≤ Z.of_nat (length l') + 3 * seg_pages ph ∧
    seg_loaded allow_x root (contents io) ph m' ∧ same_outside root (seg_range ph) m m'.
Proof.
  intros Hd Himg Hi Hroot Hseg Hl. pose proof (so_fits _ _ Hseg) as Hfits. pose proof (so_aligned _ _ Hfits) as Hal.
  destruct (segment_file allow_x ph io m l Hd Himg Hi Hroot Hfits Hl) as (io' & m1 & l' & Hd' & Hc' & Hi1 & Hg1 & Hl' & Hld & Hout & ->).
  destruct (Z.ltb_spec (p_filesz ph) (p_memsz ph)) as [Hlt|Hge].
  - destruct (bss_spec allow_x (contents io) ph m1 l') as (m2 & -> & [Hi2 Hg2 Ht2 Hk2] & Hb2);
      [done|by rewrite (same_regs_root _ _ Hg1)|done|done|intros u Hu Hr; by apply Hld|].
    cbn [mbind outcome_bind]. exists io', m2, l'. do 4 (split; [done|]). split; [exact (transitivity Hg1 Hg2)|]. split; [done|].
    split.
    + intros u Hu Hr. destruct (Hld u Hu Hr) as [Hb He]. rewrite Ht2 by done. split; [|done].
      destruct (decide (p_vaddr ph + p_filesz ph ≤ u < p_vaddr ph + p_memsz ph)) as [Hc|Hc].
      * rewrite Hb2 by done. unfold seg_byte. by destruct (Z.ltb_spec (u - p_vaddr ph) (p_filesz ph)); [lia|].
      * by rewrite Hk2.
    + intros u Hu Hn. destruct (Hout u Hu Hn) as [<- <-]. rewrite Ht2 by done. split; [done|].
      apply Hk2; [done|]. intros Hc. apply Hn. pose proof Hfits as [Hst _ Hend Hsz _]. unfold USER_START_VMA, USER_END_VMA in *.
      destruct (range_pages (p_vaddr ph) (p_memsz ph)) as (_ & _ & _ & Hin); [lia|done|lia|rewrite GIGA_SIZE_eq; lia|]. apply Hin. lia.
  - exists io', m1, l'. by do 7 (split; [done|]).
Qed.

(** ** The program headers *)

Definition loads (img : list Z) (phoff i : Z) (u : Z) : Prop :=
  p_type (phdr_at img phoff i) = PT_LOAD ∧ seg_range (phdr_at img phoff i) u.

(** The pages of the segments [i], ..., [i + n - 1]. *)
Fixpoint load_pages (img : list Z) (phoff : Z) (n : nat) (i : Z) : Z :=
  match n with
  | O => 0
  | S n => (if p_type (phdr_at img phoff i) =? PT_LOAD then seg_pages (phdr_at img phoff i) else 0)
           + load_pages img phoff n (i + 1)
  end.

(** The table is in the file, the segments are well formed and share no page. *)
Record table_ok (img : list Z) (phoff : Z) (n : nat) (i : Z) : Prop := {
  to_file : 0 ≤ i ∧ 0 ≤ phoff ∧ phoff + 56 * (i + Z.of_nat n) ≤ Z.of_nat (length img);
  to_seg j : i ≤ j < i + Z.of_nat n → p_type (phdr_at img phoff j) = PT_LOAD → segment_ok img (phdr_at img phoff j);
  to_disjoint j k u : i ≤ j < i + Z.of_nat n → i ≤ k < i + Z.of_nat n → loads img phoff j u → loads img phoff k u → j = k
}.

Lemma table_ok_S img phoff n i : table_ok img phoff (S n) i → table_ok img phoff n (i + 1).
Proof.
  intros [Hf Hs Hd]. split; [lia| |].
  - intros j Hj. apply Hs. lia.
  - intros j k u Hj Hk. apply Hd; lia.
Qed.

Lemma load_pages_nonneg img phoff n : ∀ i, table_ok img phoff n i → 0 ≤ load_pages img phoff n i.
Proof.
  induction n as [|n IH]; intros i Ht; cbn [load_pages]; [lia|]. specialize (IH _ (table_ok_S _ _ _ _ Ht)).
  destruct (Z.eqb_spec (p_type (phdr_at img phoff i)) PT_LOAD) as [Hty|]; [|lia].
  pose proof (so_sizes _ _ (so_fits _ _ (to_seg _ _ _ _ Ht i ltac:(lia) Hty))). unfold seg_pages.
  pose proof (Z.div_pos (p_memsz (phdr_at img phoff i) + 4095) 4096 ltac:(lia) ltac:(lia)). lia.
Qed.

Lemma load_phdrs_spec allow_x img phoff n : ∀ i io m l,
  disk_ok io → contents io = img → Forall (λ b, 0 ≤ b < 256) img → pt_inv m l → active_space_root m = root →
  table_ok img phoff n i → 3 * load_pages img phoff n i ≤ Z.of_nat (length l) →
  ∃ io' m' l', load_phdrs allow_x phoff n i io m = Done (0, io', m') ∧ pt_inv m' l' ∧ same_regs m m' ∧
    (∀ j, i ≤ j < i + Z.of_nat n → p_type (phdr_at img phoff j) = PT_LOAD → seg_loaded allow_x root img (phdr_at img phoff j) m') ∧
    same_outside root (λ u, ∃ j, i ≤ j < i + Z.of_nat n ∧ loads img phoff j u) m m'.
Proof.
  induction n as [|n IH]; intros i io m l Hd Hc Himg Hi Hroot Ht Hl.
  { exists io, m, l. split; [done|]. split; [done|]. split; [done|]. split; [lia|done]. }
  pose proof (to_file _ _ _ _ Ht) as (Hi0 & Hp0 & Hend). destruct (disk_range _ Hd) as [_ Hlen]. rewrite Hc in Hlen.
  cbn [load_phdrs load_pages] in *. unfold sizeof_Phdr in *. rewrite u64_small by lia.
  destruct (disk_seek (phoff + i * 56) io Hd) as (io1 & -> & Hd1 & Hc1 & Hpos1); [rewrite Hc; lia|].
  cbn [mbind outcome_bind]. change (0 <? 0) with false. cbn iota.
  destruct (disk_read 56 io1 Hd1) as (io2 & -> & Hd2 & Hc2 & _); [lia|rewrite Hc1, Hpos1, Hc; lia|].
  cbn [mbind outcome_bind]. rewrite Z.eqb_refl. cbn [negb]. rewrite Hpos1, Hc1, Hc in *.
  replace (phoff + i * 56) with (phoff + 56 * i) by lia.
  unfold struct_of. rewrite slice_length by lia. change (Z.of_nat (Z.to_nat 56) =? 56) with true. cbn [mbind outcome_bind].
  fold (phdr_at img phoff i). pose proof (load_pages_nonneg _ _ _ _ (table_ok_S _ _ _ _ Ht)) as Hnn.
  destruct (Z.eqb_spec (p_type (phdr_at img phoff i)) PT_LOAD) as [Hty|Hty].
  - pose proof (to_seg _ _ _ _ Ht i ltac:(lia) Hty) as Hseg.
    destruct (load_segment_spec allow_x (phdr_at img phoff i) io2 m l) as (io3 & m3 & l3 & -> & Hd3 & Hc3 & Hi3 & Hg3 & Hl3 & Hld3 & Hout3);
      [done|by rewrite Hc2|done|done|by rewrite Hc2|lia|]. rewrite Hc2 in *.
    cbn [mbind outcome_bind]. rewrite Z.eqb_refl. cbn [negb].
    destruct (IH (i + 1) io3 m3 l3 Hd3 Hc3 Himg Hi3) as (io4 & m4 & l4 & -> & Hi4 & Hg4 & Hld4 & Hout4);
      [by rewrite (same_regs_root _ _ Hg3)|by apply table_ok_S|lia|].
    exists io4, m4, l4. split; [done|]. split; [done|]. split; [exact (transitivity Hg3 Hg4)|]. split.
    + intros j Hj Hty'. destruct (decide (j = i)) as [->|Hne]; [|apply Hld4; [lia|done]].
      apply (seg_loaded_same _ _ _ _ _ _ _ Hld3 Hout4). intros u Hu Hr (k & Hk & Hlk).
      pose proof (to_disjoint _ _ _ _ Ht i k u ltac:(lia) ltac:(lia) (conj Hty' Hr) Hlk). lia.
    + apply (same_outside_weaken root (λ u, seg_range (phdr_at img phoff i) u ∨ ∃ j, i + 1 ≤ j < i + 1 + Z.of_nat n ∧ loads img phoff j u));
        [|by apply same_outside_trans with m3].
      intros u Hu [Hr|(j & Hj & Hlj)]; [exists i|exists j]; (split; [lia|done]).
  - destruct (IH (i + 1) io2 m l Hd2 Hc2 Himg Hi Hroot (table_ok_S _ _ _ _ Ht)) as (io4 & m4 & l4 & -> & Hi4 & Hg4 & Hld4 & Hout4); [lia|].
    exists io4, m4, l4. split; [done|]. split; [done|]. split; [done|]. split.
    + intros j Hj Hty'. destruct (decide (j = i)) as [->|Hne]; [done|]. apply Hld4; [lia|done].
    + apply (same_outside_weaken root (λ u, ∃ j, i + 1 ≤ j < i + 1 + Z.of_nat n ∧ loads img phoff j u)); [|done].
      intros u Hu (j & Hj & Hlj). exists j. split; [lia|done].
Qed.
End ElfSpec.

(** ** Whole executables *)

(** A 64-bit little-endian RISC-V executable. *)
Record valid_header (img : list Z) : Prop := {
  vh_ident : take 6 img = [0x7f; 69; 76; 70; 2; 1];
  vh_machine : le_val (slice 18 2 img) = 243;
  vh_type : le_val (slice 16 2 img) = 2
}.

Definition header_of (img : list Z) : Elf64_Ehdr := ehdr_of (slice 0 64 img).

Lemma check_ehdr_spec img : 64 ≤ Z.of_nat (length img) →
  ∃ code, check_ehdr (header_of img) = Done code ∧ code ≤ 0 ∧ (code = 0 ↔ valid_header img).
Proof.
  intros Hl. destruct img as [|b0 [|b1 [|b2 [|b3 [|b4 [|b5 img]]]]]]; cbn [length] in Hl; try lia.
  assert (Hm : e_machine (header_of (b0 :: b1 :: b2 :: b3 :: b4 :: b5 :: img)) = le_val (slice 18 2 (b0 :: b1 :: b2 :: b3 :: b4 :: b5 :: img))).
  { unfold header_of, ehdr_of. cbn [e_machine]. f_equal. apply (slice_slice 18 2 64); lia. }
  assert (Ht : e_type (header_of (b0 :: b1 :: b2 :: b3 :: b4 :: b5 :: img)) = le_val (slice 16 2 (b0 :: b1 :: b2 :: b3 :: b4 :: b5 :: img))).
  { unfold header_of, ehdr_of. cbn [e_type]. f_equal. apply (slice_slice 16 2 64); lia. }
  set (h := header_of _) in *. unfold check_ehdr.
  assert (Hid : ∃ r, e_ident h = b0 :: b1 :: b2 :: b3 :: b4 :: b5 :: r) by by eexists. destruct Hid as [r Hid].
  rewrite Hid. cbn [lookup list_lookup deref mbind outcome_bind EI_MAG0 EI_MAG1 EI_MAG2 EI_MAG3 EI_CLASS EI_DATA].
  assert (Hv : valid_header (b0 :: b1 :: b2 :: b3 :: b4 :: b5 :: img) ↔
    b0 = ELFMAG0 ∧ b1 = ELFMAG1 ∧ b2 = ELFMAG2 ∧ b3 = ELFMAG3 ∧ b4 = ELFCLASS64 ∧ b5 = ELFDATA2LSB ∧ e_machine h = EM_RISCV ∧ e_type h = ET_EXEC).
  { rewrite Hm, Ht. split; [intros [[= -> -> -> -> -> ->] ? ?]; done|]. intros (-> & -> & -> & -> & -> & -> & ? & ?). by split. }
  setoid_rewrite Hv. clear. repeat match goal with |- context [?a =? ?b] => destruct (Z.eqb_spec a b); cbn [negb orb mbind outcome_bind deref] end; eexists; (split; [reflexivity|]);
    (split; [vm_compute; discriminate|]); (split; [vm_compute; discriminate || naive_solver|naive_solver]).
Qed.

Definition phnum_of (img : list Z) : nat := Z.to_nat (e_phnum (header_of img)).

Record exec_ok (img : list Z) : Prop := {
  eo_length : 64 ≤ Z.of_nat (length img);
  eo_bytes : Forall (λ b, 0 ≤ b < 256) img;
  eo_header : valid_header img;
  eo_table : table_ok img (e_phoff (header_of img)) (phnum_of img) 0
}.

(** The program headers of an image that are loaded. *)
Definition loadable (img : list Z) (ph : Elf64_Phdr) : Prop :=
  p_type ph = PT_LOAD ∧ ∃ i, 0 ≤ i < Z.of_nat (phnum_of img) ∧ ph = phdr_at img (e_phoff (header_of img)) i.

(** Pages for the segments and, at most, two tables for each of them. *)
Definition exec_pages (img : list Z) : Z := 3 * load_pages img (e_phoff (header_of img)) (phnum_of img) 0.

(** The permissions of a user page. *)
Record page_perms (e : Z) (r w x : bool) : Prop := {
  pp_r : has PTE_R e = r;
  pp_w : has PTE_W e = w;
  pp_x : has PTE_X e = x;
  pp_u : has PTE_U e = true;
  pp_g : has PTE_G e = false
}.

Lemma rwx_perms allow_x pf e : leaf_flags e = new_flags (rwx_flags allow_x pf) →
  page_perms e (flag_set PF_R pf) (flag_set PF_W pf) (allow_x && flag_set PF_X pf).
Proof.
  intros He.
  assert (H : ∀ k, 0 < k < 6 → has (Z.shiftl 1 k) e = Z.testbit (rwx_flags allow_x pf) k).
  { intros k Hk. rewrite has_testbit, <- testbit_flags by lia. fold (leaf_flags e). by rewrite He, new_flags_bit by lia. }
  unfold rwx_flags in H. split; unfold PTE_R, PTE_W, PTE_X, PTE_U, PTE_G; rewrite H by lia;
    by destruct (allow_x && flag_set PF_X pf), (flag_set PF_W pf), (flag_set PF_R pf).
Qed.

(** The address space [m'] is [m] with the segments of [img] in it. *)
Record exec_loaded (allow_x : bool) (root : Z) (img : list Z) (m m' : mem) : Prop := {
  el_byte ph u : loadable img ph → user_vma u → seg_range ph u → vbyte root u m' = Some (seg_byte img ph u);
  el_perms ph u : loadable img ph → user_vma u → seg_range ph u →
    ∃ e, translate root u m' = Some e ∧
      page_perms e (flag_set PF_R (p_flags ph)) (flag_set PF_W (p_flags ph)) (allow_x && flag_set PF_X (p_flags ph));
  el_rest : same_outside root (λ u, ∃ ph, loadable img ph ∧ seg_range ph u) m m'
}.

Section Executables.
Context {σ : Type} `{IoDisk0 σ}.
Context (root : Z).
Abbreviation pt_inv := (pt_inv root).

(** The state in which a loader starts: the object at its start and enough pages. *)
Record load_ready (io : σ) (m : mem) (l : list Z) : Prop := {
  lr_disk : disk_ok io;
  lr_pos : dpos io = 0;
  lr_inv : pt_inv m l;
  lr_root : active_space_root m = root
}.

Lemma load_from_spec allow_x io m l : load_ready io m l → exec_ok (contents io) →
  exec_pages (contents io) ≤ Z.of_nat (length l) →
  ∃ io' m' l', load_from allow_x io m = Done (0, Some (e_entry (header_of (contents io))), io', m') ∧
    pt_inv m' l' ∧ same_regs m m' ∧ exec_loaded allow_x root (contents io) m m'.
Proof.
  intros [Hd Hp Hi Hroot] [Hlen Hb Hh Ht] Hl. unfold load_from, sizeof_Ehdr.
  destruct (disk_read 64 io Hd) as (io1 & -> & Hd1 & Hc1 & _); [lia|lia|]. cbn [mbind outcome_bind].
  rewrite Z.eqb_refl. cbn [negb]. rewrite Hp. unfold struct_of. rewrite slice_length by lia.
  change (Z.of_nat (Z.to_nat 64) =? 64) with true. cbn [mbind outcome_bind]. fold (header_of (contents io)).
  destruct (check_ehdr_spec (contents io) Hlen) as (code & -> & _ & Hz). apply Hz in Hh as ->. cbn [mbind outcome_bind].
  rewrite Z.eqb_refl. cbn [negb].
  destruct (load_phdrs_spec root allow_x (contents io) _ _ 0 io1 m l Hd1 Hc1 Hb Hi Hroot Ht Hl)
    as (io2 & m2 & l2 & He & Hi2 & Hg2 & Hld & Hout).
  fold (phnum_of (contents io)). rewrite He. cbn [mbind outcome_bind]. rewrite Z.eqb_refl. cbn [negb].
  exists io2, m2, l2. do 3 (split; [done|]).
  assert (Hseg : ∀ ph, loadable (contents io) ph → seg_loaded allow_x root (contents io) ph m2).
  { intros ph (Hty & i & Hr & ->). apply Hld; [lia|done]. }
  split.
  - intros ph u Hp' Hu Hr. by apply Hseg.
  - intros ph u Hp' Hu Hr. destruct (Hseg ph Hp' u Hu Hr) as (_ & e & Hte & Hf). exists e. split; [done|]. by apply rwx_perms.
  - eapply same_outside_weaken; [|exact Hout]. cbv beta.
    intros u Hu (j & Hj & Hty & Hr). exists (phdr_at (contents io) (e_phoff (header_of (contents io))) j).
    split; [|done]. split; [done|]. exists j. split; [lia|done].
Qed.

Lemma elf_load_loads filePos io m l :
  load_ready io m l → exec_ok (contents io) → exec_pages (contents io) ≤ Z.of_nat (length l) →
  ∃ io' m' l', elf_load filePos io m = Done (0, Some (e_entry (header_of (contents io))), io', m') ∧
    pt_inv m' l' ∧ same_regs m m' ∧ exec_loaded true root (contents io) m m'.
Proof.
  intros Hr He Hl. unfold elf_load. destruct (disk_getpos filePos io (lr_disk _ _ _ Hr)) as (r & io0 & -> & Hd0 & Hc0 & Hp0).
  cbn [mbind outcome_bind]. rewrite <- Hc0. rewrite <- Hc0 in He, Hl. apply (load_from_spec true io0 m l); [|done|done].
  destruct Hr. split; congruence.
Qed.

(** C13: loading a well-formed executable returns 0 with the entry point of its
    header.  Every page of every PT_LOAD segment is then mapped with exactly the
    permissions the segment asks for, holds the bytes of the file up to the
    segment's file size and zero behind them; no other user page changed. *)
Theorem elf_load_spec filePos io m l :
  load_ready io m l → exec_ok (contents io) → exec_pages (contents io) ≤ Z.of_nat (length l) →
  ∃ io' m' l', elf_load filePos io m = Done (0, Some (e_entry (header_of (contents io))), io', m') ∧
    pt_inv m' l' ∧ same_regs m m' ∧ exec_loaded true root (contents io) m m'.
Proof. apply elf_load_loads. Qed.

(** The loader of elf2.c loads the same image, but no page of it is executable. *)
Theorem elf2_load_no_execute io m l :
  load_ready io m l → exec_ok (contents io) → exec_pages (contents io) ≤ Z.of_nat (length l) →
  ∃ io' m', elf2_load io m = Done (0, Some (e_entry (header_of (contents io))), io', m') ∧
    ∀ ph u, loadable (contents io) ph → user_vma u → seg_range ph u →
      vbyte root u m' = Some (seg_byte (contents io) ph u) ∧ ∃ e, translate root u m' = Some e ∧ has PTE_X e = false.
Proof.
  intros Hr He Hl. destruct (load_from_spec false io m l Hr He Hl) as (io' & m' & l' & Heq & _ & _ & [Hb Hp _]).
  exists io', m'. split; [done|]. intros ph u Hph Hu Hrg. split; [auto|].
  destruct (Hp ph u Hph Hu Hrg) as (e & He' & Hpp). exists e. split; [done|]. apply Hpp.
Qed.

(** An object that is not a 64-bit little-endian RISC-V executable is refused
    with a negative code: no entry point is stored and the memory is untouched. *)
Theorem elf_load_bad_header filePos io m :
  disk_ok io → dpos io = 0 → 64 ≤ Z.of_nat (length (contents io)) → ¬ valid_header (contents io) →
  ∃ code io', elf_load filePos io m = Done (code, None, io', m) ∧ code < 0.
Proof.
  intros Hd Hp Hlen Hn. unfold elf_load. destruct (disk_getpos filePos io Hd) as (r & io0 & -> & Hd0 & Hc0 & Hp0).
  cbn [mbind outcome_bind]. unfold load_from, sizeof_Ehdr. rewrite <- Hc0 in *.
  destruct (disk_read 64 io0 Hd0) as (io1 & -> & _); [lia|lia|]. cbn [mbind outcome_bind].
  rewrite Z.eqb_refl. cbn [negb]. rewrite Hp0, Hp. unfold struct_of. rewrite slice_length by lia.
  change (Z.of_nat (Z.to_nat 64) =? 64) with true. cbn [mbind outcome_bind]. fold (header_of (contents io0)).
  destruct (check_ehdr_spec (contents io0) Hlen) as (code & -> & Hle & Hz). cbn [mbind outcome_bind].
  destruct (Z.eqb_spec code 0) as [->|Hne]; [destruct Hn; by apply Hz|]. cbn [negb]. exists code, io1. split; [done|lia].
Qed.

(** A segment without the W flag whose memory size exceeds its file size
    panics the kernel: its flags are set before the rest of it is cleared. *)
Theorem load_segment_readonly_bss allow_x ph io m l :
  load_ready io m l → Forall (λ b, 0 ≤ b < 256) (contents io) → segment_fits (contents io) ph →
  3 * seg_pages ph ≤ Z.of_nat (length l) → p_filesz ph < p_memsz ph → flag_set PF_W (p_flags ph) = false →
  load_segment allow_x ph io m = Panicked "Store page fault".
Proof.
  intros [Hd _ Hi Hroot] Hb Hfits Hl Hlt Hw.
  destruct (segment_file root allow_x ph io m l Hd Hb Hi Hroot Hfits Hl) as (io' & m1 & l' & _ & _ & Hi1 & Hg1 & _ & Hld & _ & ->).
  destruct (Z.ltb_spec (p_filesz ph) (p_memsz ph)); [|lia]. destruct Hfits as [Hst Hal Hend Hsz _]. unfold USER_START_VMA, USER_END_VMA in *.
  destruct (range_pages (p_vaddr ph) (p_memsz ph)) as (_ & _ & _ & Hin); [lia|done|lia|rewrite GIGA_SIZE_eq; lia|].
  destruct (Hin (p_vaddr ph + p_filesz ph)) as [Hr Hu]; [lia|]. destruct (Hld _ Hu Hr) as (_ & e & He & Hf).
  unfold vmemset. rewrite u64_small by lia. replace (Z.to_nat (p_memsz ph - p_filesz ph)) with (S (Z.to_nat (p_memsz ph - p_filesz ph - 1))) by lia.
  cbn [replicate vstore_bytes]. unfold vstore. rewrite (vleaf_user root), He by (done || by rewrite (same_regs_root _ _ Hg1)).
  pose proof (pp_w _ _ _ _ (rwx_perms _ _ _ Hf)) as ->. by rewrite Hw.
Qed.
End Executables.

(** ** Examples *)

Definition phdr_bytes (ph : Elf64_Phdr) : list Z :=
  le_bytes 4 (p_type ph) ++ le_bytes 4 (p_flags ph) ++ le_bytes 8 (p_offset ph) ++ le_bytes 8 (p_vaddr ph) ++
  le_bytes 8 (p_paddr ph) ++ le_bytes 8 (p_filesz ph) ++ le_bytes 8 (p_memsz ph) ++ le_bytes 8 (p_align ph).

Definition image_of (entry : Z) (phs : list Elf64_Phdr) (data : list Z) : list Z :=
  [0x7f; 69; 76; 70; 2; 1; 0; 0; 0; 0; 0; 0; 0; 0; 0; 0] ++ le_bytes 2 2 ++ le_bytes 2 243 ++ le_bytes 4 1 ++
  le_bytes 8 entry ++ le_bytes 8 64 ++ le_bytes 8 0 ++ le_bytes 4 0 ++ le_bytes 2 64 ++ le_bytes 2 56 ++
  le_bytes 2 (Z.of_nat (length phs)) ++ le_bytes 6 0 ++ (phs ≫= phdr_bytes) ++ data.

(** The check of a segment's end wraps around: a segment at the last byte of
    the address space, outside the user region, is accepted and its page mapped. *)
Theorem elf_load_range_wraps :
  let ph := Phdr PT_LOAD (Z.lor PF_R PF_W) 120 (2 ^ 64 - 1) 0 0 1 4096 in
  ∃ io' m', elf_load 0 (iolit_init (image_of 0 [ph] []) 120) mem_example = Done (0, Some 0, io', m') ∧
    translate root_example (2 ^ 64 - 1) mem_example = None ∧ translate root_example (2 ^ 64 - 1) m' ≠ None.
Proof.
  cbv zeta. set (r := elf_load _ _ _).
  assert (Hr : match r with Done (0, Some 0, _, m') => bool_decide (translate root_example (2 ^ 64 - 1) m' ≠ None) | _ => false end = true)
    by by vm_compute.
  destruct r as [[[[[| |] [[| |]|]] io'] m']| | |]; try discriminate Hr. apply bool_decide_eq_true in Hr.
  exists io', m'. split; [done|]. split; [by vm_compute|done].
Qed.

(** A text segment of four bytes and a data segment of two bytes and three zeros. *)
Definition text_example : Elf64_Phdr := Phdr PT_LOAD 5 176 0xC0000000 0 4 4 4096.
Definition data_example : Elf64_Phdr := Phdr PT_LOAD 6 180 0xC0001000 0 2 5 4096.
Definition exec_example : list Z := image_of 0xC0000000 [text_example; data_example] [19; 0; 0; 0; 7; 8].

Lemma text_example_at : phdr_at exec_example 64 0 = text_example.
Proof. by vm_compute. Qed.
Lemma data_example_at : phdr_at exec_example 64 1 = data_example.
Proof. by vm_compute. Qed.

Lemma exec_example_ok : exec_ok exec_example.
Proof.
  split.
  - by vm_compute.
  - apply (bool_decide_unpack _). by vm_compute.
  - by split; vm_compute.
  - change (e_phoff (header_of exec_example)) with 64. change (phnum_of exec_example) with 2%nat. split.
    + repeat split; by vm_compute.
    + intros j Hj _. assert (j = 0 ∨ j = 1) as [-> | ->] by lia; rewrite ?text_example_at, ?data_example_at;
        (split; [split; repeat split; by vm_compute|by vm_compute]).
    + intros j k u Hj Hk. unfold loads. assert (j = 0 ∨ j = 1) as [-> | ->] by lia; assert (k = 0 ∨ k = 1) as [-> | ->] by lia;
        rewrite ?text_example_at, ?data_example_at; unfold seg_range, in_range, text_example, data_example;
        cbn [p_type p_vaddr p_memsz]; change ((4 + 4095) / 4096) with 1; change ((5 + 4095) / 4096) with 1; 
        change (0xC0000000 / 4096) with 0xC0000; change (0xC0001000 / 4096) with 0xC0001; lia.
Qed.

Definition io_example : io_lit := iolit_init exec_example 182.

Lemma io_example_ready : load_ready root_example io_example mem_example free_example.
Proof. split; [|done|apply mem_example_inv|done]. unfold io_example, iolit_init. cbn. unfold lit_ok. by vm_compute. Qed.

Lemma text_example_loadable : loadable exec_example text_example.
Proof. split; [done|]. exists 0. split; [by vm_compute|]. by vm_compute. Qed.

Lemma elf_load_spec_witness :
  ∃ io' m', elf_load 0 io_example mem_example = Done (0, Some 0xC0000000, io', m') ∧ vbyte root_example 0xC0000000 m' = Some 19.
Proof.
  destruct (elf_load_spec root_example 0 io_example mem_example free_example io_example_ready exec_example_ok ltac:(by vm_compute))
    as (io' & m' & l' & Hl & _ & _ & Hld).
  exists io', m'. split; [exact Hl|].
  rewrite (el_byte _ _ _ _ _ Hld text_example 0xC0000000 text_example_loadable);
    [by vm_compute|unfold user_vma; rewrite GIGA_SIZE_eq; lia|split; by vm_compute].
Defined.

Lemma elf2_load_no_execute_witness :
  ∃ io' m', elf2_load io_example mem_example = Done (0, Some 0xC0000000, io', m') ∧
    ∃ e, translate root_example 0xC0000000 m' = Some e ∧ has PTE_X e = false.
Proof.
  destruct (elf2_load_no_execute root_example io_example mem_example free_example io_example_ready exec_example_ok ltac:(by vm_compute))
    as (io' & m' & Hl & Hld).
  exists io', m'. split; [exact Hl|].
  apply (Hld text_example 0xC0000000 text_example_loadable); [unfold user_vma; rewrite GIGA_SIZE_eq; lia|split; by vm_compute].
Defined.

Lemma elf_load_bad_header_witness :
  ∃ code io', elf_load 0 (iolit_init (replicate 64 0) 64) mem_example = Done (code, None, io', mem_example) ∧ code < 0.
Proof.
  apply elf_load_bad_header; [unfold iolit_init; cbn; unfold lit_ok; by vm_compute|done|by vm_compute|]. intros [Hv _ _]. discriminate Hv.
Defined.

Lemma load_segment_readonly_bss_witness :
  load_segment true (Phdr PT_LOAD 4 176 0xC0000000 0 4 5 4096) io_example mem_example = Panicked "Store page fault".
Proof.
  apply (load_segment_readonly_bss root_example true _ io_example mem_example free_example io_example_ready);
    [exact (eo_bytes _ exec_example_ok)|split; repeat split; by vm_compute|by vm_compute|by vm_compute|by vm_compute].
Defined.
