(* ===== verification/Stale.v ===== *)
(** Loading into a space that still maps the pages of the last program.

    memory_unmap_and_free_user frees the pages of a program and leaves their
    translations behind, so that what is loaded next does not start from a memory that
    satisfies the invariant of PageTables.v: pages on the free list are mapped.  This
    file relates such a memory to the clean one in which the stale entries are zero
    words, which does satisfy it: whatever the loader does, it does in both, because it
    writes an entry before it reads it. *)
From Stdlib Require Import ZArith Lia.
From stdpp Require Import base gmap list sets strings.
From S2P Require Import Prelude Pages Heap Pte Memory MemFacts PageTables Mapping Spaces Io IoSpec Disk Vmem Reuse Elf ElfSpec.

Open Scope Z_scope.

(** ** The stale entries *)

(** [p] ends in an entry that maps a page for the user. *)
Definition user_entry (root : Z) (m : mem) (p : list Z) : bool :=
  match entry_at root m p with Some e => has PTE_U e | None => false end.

(** The indices of every entry of a level 0 table. *)
Definition leaf_indices : list (Z * Z * Z) :=
  seqZ 3 509 ≫= λ a, seqZ 0 512 ≫= λ b, (λ c, (a, b, c)) <$> seqZ 0 512.

Lemma elem_of_leaf_indices a b c : (a, b, c) ∈ leaf_indices ↔ path_ok [c; b; a].
Proof.
  unfold leaf_indices. rewrite list_elem_of_bind. split.
  - intros (x & Hx & Ha%elem_of_seqZ). apply list_elem_of_bind in Hx as (y & Hy & Hb%elem_of_seqZ).
    apply list_elem_of_fmap in Hy as (z & Hz & Hc%elem_of_seqZ). injection Hz as -> -> ->.
    split; [cbn [length]; lia|]. cbn [path_idx]. split_and!; first [lia | discriminate | exact I | intros _; lia].
  - intros [_ (Hc & _ & Hb & _ & Ha & Ha3 & _)]. specialize (Ha3 eq_refl).
    exists a. split; [|apply elem_of_seqZ; lia]. apply list_elem_of_bind. exists b. split; [|apply elem_of_seqZ; lia].
    apply list_elem_of_fmap. exists c. split; [reflexivity|apply elem_of_seqZ; lia].
Qed.

(** The addresses of the entries that map a page for the user. *)
Definition user_slots (root : Z) (m : mem) : list Z :=
  omap (λ '(a, b, c), if user_entry root m [c; b; a] then (λ t, t + 8 * c) <$> node_at root m [b; a] else None) leaf_indices.

Lemma elem_of_user_slots root m x : x ∈ user_slots root m ↔
  ∃ i p t, path_ok (i :: p) ∧ length p = 2%nat ∧ node_at root m p = Some t ∧ user_entry root m (i :: p) = true ∧ x = t + 8 * i.
Proof.
  unfold user_slots. rewrite list_elem_of_omap. split.
  - intros ([[a b] c] & Hin & Hx). apply elem_of_leaf_indices in Hin. destruct (user_entry root m [c; b; a]) eqn:Hu; [|done].
    apply fmap_Some in Hx as (t & Ht & ->). by exists c, [b; a], t.
  - intros (c & p & t & Hp & Hl & Ht & Hu & ->). destruct p as [|b [|a [|]]]; try done.
    exists (a, b, c). split; [by apply elem_of_leaf_indices|]. by rewrite Hu, Ht.
Qed.

Lemma user_entry_valid root m i p t : node_at root m p = Some t → user_entry root m (i :: p) = true →
  entry_at root m (i :: p) = Some (rd m (t + 8 * i)).
Proof. unfold user_entry. cbn [entry_at]. intros ->. by destruct (has PTE_V (rd m (t + 8 * i))). Qed.

Section Stale.
Context (root : Z) (m0 : mem) (l0 : list Z) (Hinv0 : pt_inv root m0 l0).
Abbreviation node_at := (node_at root).
Abbreviation entry_at := (entry_at root).
Abbreviation pt_inv := (pt_inv root).
Abbreviation pt_step := (pt_step root).
Abbreviation slots := (user_slots root m0).

(** [m] has the words of [c], and behind every entry of [slots] that is not valid in [c]
    the one of [m0]. *)
Record over (c m : mem) : Prop := {
  ov_regs : same_regs c m;
  ov_free : free_list m = free_list c;
  ov_rd x : rd m x = if bool_decide (x ∈ slots) && negb (has PTE_V (rd c x)) then rd m0 x else rd c x
}.

(** [c] is a space that satisfies the invariant and still has the tables of [m0]. *)
Record shadow (c : mem) (l : list Z) (m : mem) : Prop := {
  sh_inv : pt_inv c l;
  sh_root : active_space_root c = root;
  sh_keep p t : path_ok p → (length p ≤ 2)%nat → node_at m0 p = Some t → node_at c p = Some t;
  sh_over : over c m
}.

(** ** Words *)

Lemma over_rd c m x : over c m → x ∉ slots → rd m x = rd c x.
Proof. intros Ho Hx. by rewrite (ov_rd _ _ Ho), bool_decide_eq_false_2. Qed.
Lemma over_rd_valid c m x : over c m → has PTE_V (rd c x) = true → rd m x = rd c x.
Proof. intros Ho Hx. rewrite (ov_rd _ _ Ho), Hx. by rewrite andb_false_r. Qed.
Lemma over_ld c m x : over c m → x ∉ slots ∨ has PTE_V (rd c x) = true → ld x m = ld x c.
Proof. intros Ho Hx. unfold ld. by destruct Hx as [Hx|Hx]; [rewrite (over_rd c m x Ho Hx)|rewrite (over_rd_valid c m x Ho Hx)]. Qed.

Lemma over_upd c m x v : over c m → x ∉ slots ∨ has PTE_V v = true → over (upd x v c) (upd x v m).
Proof.
  intros [Hr Hf Hrd] Hx. split; [done|done|]. intros y. rewrite !rd_upd. case_decide as Hxy; [|by apply Hrd]. subst y.
  by destruct Hx as [Hx| ->]; [rewrite bool_decide_eq_false_2|rewrite andb_false_r].
Qed.

Lemma over_sd c m x v c' : over c m → x ∉ slots ∨ has PTE_V v = true → sd x v c = Done c' →
  ∃ m', sd x v m = Done m' ∧ over c' m'.
Proof. unfold sd. intros Ho Hx. destruct (ram_word x); [|done]. intros [= <-]. eexists. split; [done|]. by apply over_upd. Qed.

Lemma over_free_list c m p : over c m → over (set_free_list p c) (set_free_list p m).
Proof. by intros [Hr Hf Hrd]. Qed.

Lemma over_zero n : ∀ p c m c', over c m → (∀ i, 0 ≤ i < Z.of_nat n → p + 8 * i ∉ slots) → zero_words n p c = Done c' →
  ∃ m', zero_words n p m = Done m' ∧ over c' m'.
Proof.
  induction n as [|n IH]; intros p c m c' Ho Hp Hz; cbn [zero_words] in *; [injection Hz as <-; eauto|].
  apply bind_Done in Hz as (c1 & Hs & Hz). destruct (over_sd c m p 0 c1 Ho) as (m1 & -> & Ho1); [|done|].
  { left. replace p with (p + 8 * 0) by lia. apply Hp. lia. }
  apply (IH (p + 8) c1 m1 c' Ho1); [|done]. intros i Hi. replace (p + 8 + 8 * i) with (p + 8 * (i + 1)) by lia. apply Hp. lia.
Qed.

(** ** Pages and entries that are not stale *)

Lemma stale_slot c l m x : shadow c l m → x ∈ slots →
  ∃ i p t, path_ok (i :: p) ∧ length p = 2%nat ∧ node_at c p = Some t ∧ x = t + 8 * i.
Proof.
  intros Hs (i & p & t & Hp & Hl & Ht & _ & ->)%elem_of_user_slots. exists i, p, t. split; [done|]. split; [done|].
  split; [|done]. apply (sh_keep _ _ _ Hs); [by eapply path_ok_tail|lia|done].
Qed.

Lemma page_not_stale c l m p t i : shadow c l m → path_ok p → length p ≠ 2%nat → node_at c p = Some t → 0 ≤ i < 512 →
  t + 8 * i ∉ slots.
Proof.
  intros Hs Hp Hl Ht Hi Hx. destruct (stale_slot _ _ _ _ Hs Hx) as (j & p' & t' & Hp' & Hl' & Ht' & He).
  destruct (entry_addr_inj root c l p p' t t' i j (sh_inv _ _ _ Hs)) as [-> _]; eauto.
Qed.

Lemma free_not_stale c l m q x : shadow c l m → q ∈ l → in_page q x → x ∉ slots.
Proof.
  intros Hs Hq Hin Hx. destruct (stale_slot _ _ _ _ Hs Hx) as (j & p & t & Hp & Hl & Ht & ->).
  pose proof (sh_inv _ _ _ Hs) as Hi. apply (node_not_free _ _ _ _ _ Hi Ht); [by eapply path_ok_tail|].
  assert (t = q) as ->; [|done]. apply (ram_page_disjoint t q (t + 8 * j)); [|..|done].
  - eapply node_ram; eauto.
  - destruct (pt_free _ _ _ Hi) as (_ & _ & Hps). rewrite Forall_forall in Hps. auto.
  - apply in_page_word. eauto.
Qed.

Lemma shadow_root c l m : shadow c l m → active_space_root m = root.
Proof. intros Hs. rewrite <- (sh_root _ _ _ Hs). apply same_regs_root, Hs. Qed.

Lemma shadow_step c l m c' l' m' used : shadow c l m → pt_step c l c' l' used → over c' m' → shadow c' l' m'.
Proof.
  intros [Hi Hr Hk Ho] Hst Ho'. split; [by eapply ps_inv| |auto|done].
  - rewrite <- Hr. apply same_regs_root. by eapply ps_regs.
  - intros p t Hp Hl Ht. apply (ps_keep _ _ _ _ _ _ Hst); auto.
Qed.

(** The tables are the same in both, the pages are those of [c] or stale. *)
Lemma shadow_node c l m p : shadow c l m → path_ok p → (length p ≤ 2)%nat → node_at m p = node_at c p.
Proof.
  intros Hs. induction p as [|i p IH]; intros Hp Hl; [done|]. cbn [length] in Hl. cbn. rewrite IH by (eauto; lia).
  destruct (node_at c p) as [t|] eqn:Ht; [|done]. rewrite (over_rd c m); [done|by eapply sh_over|].
  apply (page_not_stale c l m p t i Hs); [by eauto|lia|done|by eauto].
Qed.

Lemma shadow_entry c l m p : shadow c l m → path_ok p → length p = 3%nat →
  entry_at m p = match entry_at c p with Some e => Some e | None => if user_entry root m0 p then entry_at m0 p else None end.
Proof.
  intros Hs Hp Hl. destruct p as [|i p]; [done|]. cbn [length] in Hl. cbn [PageTables.entry_at].
  rewrite (shadow_node c l m p Hs) by (eauto; lia). destruct (node_at c p) as [t|] eqn:Ht.
  - rewrite (ov_rd _ _ (sh_over _ _ _ Hs)). destruct (has PTE_V (rd c (t + 8 * i))) eqn:Hv; [by rewrite andb_false_r, Hv|].
    cbn [negb]. rewrite andb_true_r. case_bool_decide as Hx.
    + apply elem_of_user_slots in Hx as (j & p' & t' & Hp' & Hl' & Ht' & Hu & He).
      destruct (entry_addr_inj root c l p p' t t' i j (sh_inv _ _ _ Hs)) as [<- <-];
        [by eauto|by eauto|done|apply (sh_keep _ _ _ Hs); [by eauto|lia|done]|by eauto|by eauto|done|].
      rewrite Hu, Ht'. rewrite He. by destruct (has PTE_V (rd m0 (t' + 8 * i))).
    + rewrite Hv. destruct (user_entry root m0 (i :: p)) eqn:Hu; [|done]. destruct Hx. apply elem_of_user_slots.
      destruct (node_at m0 p) as [t'|] eqn:Ht'; [|by unfold user_entry in Hu; cbn in Hu; rewrite Ht' in Hu].
      pose proof (sh_keep _ _ _ Hs p t' ltac:(eauto) ltac:(lia) Ht') as Hk. rewrite Ht in Hk. injection Hk as <-.
      exists i, p, t. do 2 (split; [first [done|lia]|]). done.
  - destruct (user_entry root m0 (i :: p)) eqn:Hu; [|done].
    destruct (node_at m0 p) as [t'|] eqn:Ht'; [|done].
    pose proof (sh_keep _ _ _ Hs p t' ltac:(eauto) ltac:(lia) Ht') as Hk. congruence.
Qed.
(** ** Mapping pages *)

Lemma over_alloc c l m q c' : shadow c l m → q ∈ l → memory_alloc_page c = Done (q, c') →
  ∃ m', memory_alloc_page m = Done (q, m') ∧ over c' m'.
Proof.
  intros Hs Hq Ha. pose proof (sh_over _ _ _ Hs) as Ho. unfold memory_alloc_page in *. rewrite (ov_free _ _ Ho).
  destruct (free_list c =? 0); [done|]. apply bind_Done in Ha as (nx & Hn & Ha). apply bind_Done in Ha as (c1 & Hz & [= Hqf <-]).
  assert (Hns : ∀ x, in_page q x → x ∉ slots) by (intros x; by eapply free_not_stale).
  rewrite (over_ld c m) by (done || (left; apply Hns; rewrite Hqf; auto)). rewrite Hn. cbn [mbind outcome_bind].
  destruct (over_zero PAGE_WORDS (free_list c) (set_free_list nx c) (set_free_list nx m) c1) as (m1 & -> & Ho1).
  - by apply over_free_list.
  - intros i Hi. change (Z.of_nat PAGE_WORDS) with 512 in Hi. apply Hns. rewrite Hqf. by apply in_page_word.
  - done.
  - exists m1. by rewrite Hqf.
Qed.

(** One level of the walk, at an entry of a table that is not of level 0. *)
Lemma over_walk_level c l m t i create t' c' p : shadow c l m → path_ok (i :: p) → (length p ≤ 1)%nat → node_at c p = Some t →
  walk_level t i create c = Done (Some (t', c')) → ∃ m', walk_level t i create m = Done (Some (t', m')) ∧ over c' m'.
Proof.
  intros Hs Hp Hl Ht Hw. pose proof (sh_over _ _ _ Hs) as Ho.
  assert (Hx : t + 8 * i ∉ slots) by (apply (page_not_stale c l m p t i Hs); [by eauto|lia|done|by eauto]).
  unfold walk_level in *. rewrite (over_ld c m) by eauto. apply bind_Done in Hw as (e & -> & Hw). cbn [mbind outcome_bind].
  destruct (has PTE_V e); [injection Hw as <- <-; by exists m|]. destruct (create =? 0); [done|].
  apply bind_Done in Hw as ([q c1] & Ha & Hw).
  assert (Hq : q ∈ l).
  { destruct l as [|q' l]; [by rewrite (alloc_page_empty c (pt_free _ _ _ (sh_inv _ _ _ Hs))) in Ha|].
    destruct (alloc_page_spec c q' l (pt_free _ _ _ (sh_inv _ _ _ Hs))) as (c2 & Ha' & _). rewrite Ha in Ha'. injection Ha' as -> _. by left. }
  destruct (over_alloc c l m q c1 Hs Hq Ha) as (m1 & -> & Ho1). cbn [mbind outcome_bind].
  apply bind_Done in Hw as (c2 & Hsd & Hw). destruct (over_sd c1 m1 _ _ c2 Ho1 (or_introl Hx) Hsd) as (m2 & -> & Ho2).
  cbn [mbind outcome_bind]. rewrite (over_ld c2 m2) by eauto. apply bind_Done in Hw as (e2 & -> & [= <- <-]).
  exists m2. done.
Qed.

Lemma shadow_walk_pt c l m vma : shadow c l m → user_vma vma → (2 ≤ length l)%nat →
  ∃ t c' l' m' used, walk_pt root vma 1 c = Done (Some (t + 8 * VPN0 vma), c') ∧
    walk_pt root vma 1 m = Done (Some (t + 8 * VPN0 vma), m') ∧ pt_step c l c' l' used ∧ shadow c' l' m'.
Proof.
  intros Hs Hv Hl. pose proof (user_vma_path _ Hv) as Hp. unfold path_of in Hp.
  destruct (walk_level_create root c l [] (VPN2 vma) root)
    as (t1 & c1 & l1 & u1 & Hw1 & Hs1 & Hu1 & Hn1 & _); [by eapply sh_inv|eauto|cbn; lia|done|lia|].
  pose proof (ps_used _ _ _ _ _ _ Hs1) as Hl1. rewrite Hl1, length_app in Hl.
  destruct (over_walk_level c l m root (VPN2 vma) 1 t1 c1 [] Hs ltac:(eauto) ltac:(cbn; lia) eq_refl Hw1) as (m1 & Hm1 & Ho1).
  pose proof (shadow_step _ _ _ _ _ _ _ Hs Hs1 Ho1) as Hsh1.
  destruct (walk_level_create root c1 l1 [VPN2 vma] (VPN1 vma) t1)
    as (t2 & c2 & l2 & u2 & Hw2 & Hs2 & Hu2 & Hn2 & _); [by eapply ps_inv|eauto|cbn; lia|done|lia|].
  destruct (over_walk_level c1 l1 m1 t1 (VPN1 vma) 1 t2 c2 [VPN2 vma] Hsh1 ltac:(eauto) ltac:(cbn; lia) Hn1 Hw2) as (m2 & Hm2 & Ho2).
  exists t2, c2, l2, m2, (u1 ++ u2). split_and!.
  - unfold walk_pt. rewrite user_vma_wf by done. cbn [negb]. rewrite Hw1. cbn [mbind outcome_bind]. by rewrite Hw2.
  - unfold walk_pt. rewrite user_vma_wf by done. cbn [negb]. rewrite Hm1. cbn [mbind outcome_bind]. by rewrite Hm2.
  - by eapply pt_step_trans.
  - by eapply shadow_step.
Qed.

Lemma shadow_map_page c l m vma f : shadow c l m → user_vma vma → (3 ≤ length l)%nat →
  ∃ c' l' m' used, memory_alloc_and_map_page vma f c = Done (vma, c') ∧ memory_alloc_and_map_page vma f m = Done (vma, m') ∧
    shadow c' l' m' ∧ l = used ++ l' ∧ (length used ≤ 3)%nat.
Proof.
  intros Hs Hv Hl. pose proof (sh_inv _ _ _ Hs) as Hi.
  destruct (map_page_step root c l vma f Hi (sh_root _ _ _ Hs) Hv Hl) as (q & c' & l' & used & Hm & Hst & Hu & Hq & _).
  exists c', l'. destruct l as [|q' l]; [done|]. injection Hq as ->.
  destruct (alloc_step root c q l Hi) as (c1 & Ha & Hs1 & _).
  destruct (over_alloc c (q :: l) m q c1 Hs ltac:(by left) Ha) as (m1 & Hm1 & Ho1). pose proof (shadow_step _ _ _ _ _ _ _ Hs Hs1 Ho1) as Hsh1.
  destruct (shadow_walk_pt c1 l m1 vma Hsh1 Hv ltac:(cbn in Hl; lia)) as (t & c2 & l2 & m2 & u2 & Hw & Hwm & Hs2 & Hsh2).
  assert (∃ m', memory_alloc_and_map_page vma f m = Done (vma, m') ∧ over c' m') as (m' & Hm' & Ho').
  { unfold memory_alloc_and_map_page in *. rewrite user_vma_wf in * by done. cbn [negb] in *. rewrite Ha in Hm. rewrite Hm1.
    cbn [mbind outcome_bind] in *. rewrite (sh_root _ _ _ Hsh1), Hw in Hm. rewrite (shadow_root _ _ _ Hsh1), Hwm.
    cbn [mbind outcome_bind deref] in *. apply bind_Done in Hm as (c3 & Hsd & [= <-]).
    destruct (over_sd c2 m2 _ _ c3 (sh_over _ _ _ Hsh2) (or_intror (leaf_valid q f)) Hsd) as (m3 & -> & Ho3). by exists m3. }
  exists m', used. split; [done|]. split; [done|]. split; [exact (shadow_step _ _ _ _ _ _ _ Hs Hst Ho')|]. split; [exact (ps_used _ _ _ _ _ _ Hst)|done].
Qed.

Lemma shadow_map_loop vma f n : ∀ x c l m,
  shadow c l m → 0 ≤ x → (∀ y, x ≤ y < x + Z.of_nat n → user_vma (vma + y * 4096)) → (3 * n ≤ length l)%nat →
  ∃ c' l' m' used,
    let body := λ x m, '(_, m) ← memory_alloc_and_map_page (u64 (vma + x * PAGE_SIZE)) f m; Done m in
    for_range n x body c = Done c' ∧ for_range n x body m = Done m' ∧ shadow c' l' m' ∧ l = used ++ l' ∧ (length used ≤ 3 * n)%nat.
Proof.
  induction n as [|n IH]; intros x c l m Hs Hx Hu Hl; [by exists c, l, m, []|].
  assert (Hux : user_vma (vma + x * 4096)) by (apply Hu; lia).
  destruct (shadow_map_page c l m (vma + x * 4096) f Hs Hux ltac:(lia)) as (c1 & l1 & m1 & u1 & Hc1 & Hm1 & Hs1 & Hl1 & Hu1).
  destruct (IH (x + 1) c1 l1 m1 Hs1) as (c2 & l2 & m2 & u2 & Hc2 & Hm2 & Hs2 & Hl2 & Hu2); [lia|intros y Hy; apply Hu; lia| |].
  { rewrite Hl1, length_app in Hl. lia. }
  exists c2, l2, m2, (u1 ++ u2). cbn zeta in *. cbn [for_range]. rewrite PAGE_SIZE_eq in *. unfold user_vma in Hux. rewrite GIGA_SIZE_eq in Hux.
  rewrite u64_small by lia. rewrite Hc1, Hm1. split; [exact Hc2|]. split; [exact Hm2|]. split; [done|].
  split; [by rewrite Hl1, Hl2, app_assoc|]. rewrite length_app. lia.
Qed.

Lemma shadow_map_range c l m v size f c' : shadow c l m → v mod 4096 = 0 → GIGA_SIZE * 3 ≤ v → 0 ≤ size → v + size ≤ 2 ^ 38 →
  3 * ((size + 4095) / 4096) ≤ Z.of_nat (length l) → memory_alloc_and_map_range v size f c = Done (v, c') →
  ∃ l' m' used, memory_alloc_and_map_range v size f m = Done (v, m') ∧ shadow c' l' m' ∧ l = used ++ l' ∧
    Z.of_nat (length used) ≤ 3 * ((size + 4095) / 4096).
Proof.
  intros Hs Hal Hge Hsz Hend Hl Hc. destruct (range_pages v size Hsz Hal Hend Hge) as (Hn0 & _ & Hy & _).
  set (n := (size + 4095) / 4096) in *.
  destruct (shadow_map_loop v f (Z.to_nat n) 0 c l m Hs ltac:(lia)) as (c2 & l' & m' & used & Hc2 & Hm2 & Hs2 & Hl2 & Hu2);
    [intros y Hy'; apply Hy; lia|lia|].
  exists l', m', used. unfold memory_alloc_and_map_range in *. rewrite GIGA_SIZE_eq in Hge. rewrite num_pages_spec in * by lia. fold n in Hc |- *.
  cbn zeta in *. rewrite Hc2 in Hc. injection Hc as <-. rewrite Hm2. split; [done|]. split; [done|]. split; [done|]. lia.
Qed.
(** ** Bytes and flags of mapped pages *)

Lemma shadow_translate c l m v e : shadow c l m → user_vma v → translate root v c = Some e → translate root v m = Some e.
Proof. intros Hs Hv He. unfold translate in *. rewrite (shadow_entry c l m) by (done || by apply user_vma_path). by rewrite He. Qed.

(** The word of a mapped byte. *)
Lemma shadow_word c l m v e : shadow c l m → user_vma v → translate root v c = Some e →
  8 * ((entry_page e + v mod 4096) / 8) ∉ slots.
Proof.
  intros Hs Hv He. pose proof (translate_node root v c e Hv He) as Hd. pose proof (user_vma_path v Hv) as Hp.
  destruct (page_word (entry_page e) v (proj1 (node_ram _ _ _ _ _ (sh_inv _ _ _ Hs) Hd Hp))) as (-> & _ & Hr).
  by apply (page_not_stale c l m (path_of v)).
Qed.

Lemma shadow_vbyte c l m v b : shadow c l m → user_vma v → vbyte root v c = Some b → vbyte root v m = Some b.
Proof.
  intros Hs Hv Hb. unfold vbyte in *. apply fmap_Some in Hb as (e & He & ->). rewrite (shadow_translate c l m v e) by done.
  cbn [fmap option_fmap option_map]. f_equal. unfold byte_at. f_equal. apply over_rd; [by eapply sh_over|by eapply shadow_word].
Qed.

Lemma shadow_vstore c l m v b e : shadow c l m → user_vma v → translate root v c = Some e → has PTE_W e = true → 0 ≤ b < 256 →
  ∃ c' m', vstore v b c = Done c' ∧ vstore v b m = Done m' ∧ shadow c' l m'.
Proof.
  intros Hs Hv He Hw Hb. pose proof (sh_inv _ _ _ Hs) as Hi. pose proof (sh_over _ _ _ Hs) as Ho.
  pose proof (translate_node root v c e Hv He) as Hd. pose proof (user_vma_path v Hv) as Hp.
  pose proof (shadow_word c l m v e Hs Hv He) as Hx.
  destruct (page_word (entry_page e) v (proj1 (node_ram _ _ _ _ _ Hi Hd Hp))) as (Ha & _ & Hr). cbn zeta in *.
  unfold vstore. rewrite (vleaf_user root v c) by (done || by eapply sh_root). rewrite (vleaf_user root v m) by (done || by eapply shadow_root).
  rewrite He, (shadow_translate c l m v e), Hw, PAGE_SIZE_eq by done. cbn zeta. rewrite (over_ld c m) by auto.
  rewrite Ha in *. rewrite ld_page by (done || by eapply node_ram). cbn [mbind outcome_bind].
  set (w := set_byte _ _ _). rewrite !sd_page by (done || by eapply node_ram). eexists _, _. split; [reflexivity|]. split; [reflexivity|].
  destruct (data_store_inv root c l (path_of v) _ _ w Hi Hp eq_refl Hd Hr) as [Hi' Hsame]. split; [done|exact (sh_root _ _ _ Hs)| |].
  - intros p t Hp' Hl Ht. rewrite (proj1 (Hsame p Hp')). by apply (sh_keep _ _ _ Hs).
  - apply over_upd; [done|by left].
Qed.

Lemma shadow_vstore_bytes bs : ∀ c l m v c', shadow c l m → Forall (λ b, 0 ≤ b < 256) bs →
  (∀ j, 0 ≤ j < Z.of_nat (length bs) → user_vma (v + j) ∧ ∃ e, translate root (v + j) c = Some e ∧ has PTE_W e = true) →
  vstore_bytes v bs c = Done c' → ∃ m', vstore_bytes v bs m = Done m' ∧ shadow c' l m'.
Proof.
  induction bs as [|b bs IH]; intros c l m v c' Hs Hbs Hmap Hc; cbn [vstore_bytes length] in *; [injection Hc as <-; eauto|].
  apply Forall_cons in Hbs as [Hb Hbs]. destruct (Hmap 0) as (Hv & e & He & Hw); [lia|]. rewrite Z.add_0_r in *.
  destruct (vstore_spec root c l v b e (sh_inv _ _ _ Hs) (sh_root _ _ _ Hs) Hv He Hw Hb) as (c1 & Hc1 & Hst & _).
  destruct (shadow_vstore c l m v b e Hs Hv He Hw Hb) as (c1' & m1 & Hc1' & -> & Hs1). rewrite Hc1 in Hc1', Hc. injection Hc1' as <-.
  cbn [mbind outcome_bind] in *. assert (0 ≤ v < 2 ^ 38) by (unfold user_vma in Hv; rewrite GIGA_SIZE_eq in Hv; lia).
  rewrite u64_small in * by lia. apply (IH c1 l m1 (v + 1) c' Hs1 Hbs); [|done].
  intros j Hj. destruct (Hmap (1 + j)) as (Hu & e' & He' & Hw'); [lia|]. replace (v + 1 + j) with (v + (1 + j)) by lia.
  split; [done|]. exists e'. by rewrite (vs_map _ _ _ _ _ Hst).
Qed.

Lemma shadow_walk_found c l m v t : shadow c l m → user_vma v → node_at c [VPN1 v; VPN2 v] = Some t →
  ∃ m', walk_pt root v 0 m = Done (Some (t + 8 * VPN0 v), m') ∧ shadow c l m'.
Proof.
  intros Hs Hv Ht. pose proof (user_vma_path _ Hv) as Hp. unfold path_of in Hp. pose proof (sh_inv _ _ _ Hs) as Hi.
  destruct (node_at c [VPN2 v]) as [t1|] eqn:H1; [|cbn in H1, Ht; by rewrite H1 in Ht].
  pose proof (walk_level_lookup root c l [] (VPN2 v) root Hi ltac:(eauto) eq_refl) as Hw1. rewrite H1 in Hw1.
  pose proof (walk_level_lookup root c l [VPN2 v] (VPN1 v) t1 Hi ltac:(eauto) H1) as Hw2. rewrite Ht in Hw2.
  destruct (over_walk_level c l m root (VPN2 v) 0 t1 c [] Hs ltac:(eauto) ltac:(cbn; lia) eq_refl Hw1) as (m1 & Hm1 & Ho1).
  pose proof (shadow_step _ _ _ _ _ _ _ Hs (pt_step_refl _ _ _ Hi) Ho1) as Hs1.
  destruct (over_walk_level c l m1 t1 (VPN1 v) 0 t c [VPN2 v] Hs1 ltac:(eauto) ltac:(cbn; lia) H1 Hw2) as (m2 & Hm2 & Ho2).
  exists m2. unfold walk_pt. rewrite user_vma_wf by done. cbn [negb]. rewrite Hm1. cbn [mbind outcome_bind]. rewrite Hm2.
  split; [done|]. exact (shadow_step _ _ _ _ _ _ _ Hs1 (pt_step_refl _ _ _ Hi) Ho2).
Qed.

Lemma shadow_set_flags c l m v f e : shadow c l m → user_vma v → translate root v c = Some e →
  ∃ c' m', memory_set_page_flags v f c = Done c' ∧ memory_set_page_flags v f m = Done m' ∧ shadow c' l m'.
Proof.
  intros Hs Hv He. pose proof (sh_inv _ _ _ Hs) as Hi. pose proof (user_vma_path _ Hv) as Hp. unfold path_of in Hp.
  destruct (set_page_flags_step root c l v f e Hi (sh_root _ _ _ Hs) Hv He) as (c' & _ & Hc & Hi' & Hg & _).
  exists c'. pose proof He as He'. unfold translate, path_of in He'. cbn [PageTables.entry_at] in He'.
  destruct (node_at c [VPN1 v; VPN2 v]) as [t|] eqn:Ht; [|done]. destruct (has PTE_V (rd c (t + 8 * VPN0 v))) eqn:Hval; [|done].
  injection He' as <-. destruct (shadow_walk_found c l m v t Hs Hv Ht) as (m1 & Hm1 & Hs1). unfold memory_set_page_flags in *.
  rewrite (sh_root _ _ _ Hs), (walk_pt_lookup root c l v Hi Hv), Ht in Hc. rewrite (shadow_root _ _ _ Hs), Hm1.
  cbn [mbind outcome_bind] in *. rewrite (over_ld c m1) by (by eapply sh_over || by right).
  rewrite (sh_root _ _ _ Hs), (walk_pt_lookup root c l v Hi Hv), Ht. cbn [mbind outcome_bind].
  pose proof (node_ram _ _ _ _ _ Hi Ht ltac:(eauto)) as Htr. rewrite ld_page in * by eauto with word. cbn [mbind outcome_bind] in *.
  rewrite sd_page in Hc by eauto with word. injection Hc as <-. rewrite !sd_page by eauto with word.
  eexists. split; [reflexivity|]. split; [reflexivity|].
  fold (new_flags f) in *. destruct (set_flags_word f (rd c (t + 8 * VPN0 v))) as (_ & _ & Hval'). cbn zeta in Hval'.
  destruct (entries_but root (path_of v) c (upd (t + 8 * VPN0 v) (pte_word (set_flags (new_flags f) (word_pte (rd c (t + 8 * VPN0 v))))) c) eq_refl) as [Hn _].
  { intros p t' i Hpi Ht' Hne. apply rd_upd_ne. intros Heq.
    destruct (entry_addr_inj root c l [VPN1 v; VPN2 v] p t t' (VPN0 v) i Hi ltac:(eauto) ltac:(eauto) Ht Ht' ltac:(eauto with word) ltac:(eauto) Heq) as [<- <-]. done. }
  split; [done|exact (sh_root _ _ _ Hs)| |].
  - intros p t' Hp' Hl Ht'. rewrite Hn by done. by apply (sh_keep _ _ _ Hs).
  - apply over_upd; [by eapply sh_over|by right].
Qed.

Lemma shadow_set_loop v f n : ∀ x c l m,
  shadow c l m → 0 ≤ x → (∀ y, x ≤ y < x + Z.of_nat n → user_vma (v + y * 4096) ∧ translate root (v + y * 4096) c ≠ None) →
  ∃ c' m', let body := λ x m, memory_set_page_flags (u64 (v + x * PAGE_SIZE)) f m in
    for_range n x body c = Done c' ∧ for_range n x body m = Done m' ∧ shadow c' l m'.
Proof.
  induction n as [|n IH]; intros x c l m Hs Hx Hu; [by exists c, m|].
  destruct (Hu x ltac:(lia)) as [Hux Hex]. destruct (translate root (v + x * 4096) c) as [e|] eqn:He; [|done].
  destruct (set_page_flags_step root c l (v + x * 4096) f e (sh_inv _ _ _ Hs) (sh_root _ _ _ Hs) Hux He) as (c1 & e' & Hc1 & _ & _ & _ & _ & Ht1 & _).
  destruct (shadow_set_flags c l m (v + x * 4096) f e Hs Hux He) as (c1' & m1 & Hc1' & Hm1 & Hs1). rewrite Hc1 in Hc1'. injection Hc1' as <-.
  destruct (IH (x + 1) c1 l m1 Hs1) as (c2 & m2 & Hc2 & Hm2 & Hs2); [lia| |].
  { intros y Hy. destruct (Hu y ltac:(lia)) as [Huy Hey]. split; [done|]. rewrite Ht1 by done. by case_decide. }
  exists c2, m2. cbn zeta in *. cbn [for_range]. rewrite PAGE_SIZE_eq in *. unfold user_vma in Hux. rewrite GIGA_SIZE_eq in Hux.
  rewrite u64_small by lia. rewrite Hc1, Hm1. done.
Qed.

Lemma shadow_set_range c l m v size f c' : shadow c l m → v mod 4096 = 0 → GIGA_SIZE * 3 ≤ v → 0 ≤ size → v + size ≤ 2 ^ 38 →
  (∀ u, user_vma u → in_range v size u → translate root u c ≠ None) → memory_set_range_flags v size f c = Done c' →
  ∃ m', memory_set_range_flags v size f m = Done m' ∧ shadow c' l m'.
Proof.
  intros Hs Hal Hge Hsz Hend Hmap Hc. destruct (range_pages v size Hsz Hal Hend Hge) as (Hn0 & _ & Hy & _).
  unfold in_range in *. set (n := (size + 4095) / 4096) in *.
  destruct (shadow_set_loop v f (Z.to_nat n) 0 c l m Hs ltac:(lia)) as (c2 & m' & Hc2 & Hm2 & Hs2).
  { intros y Hy'. split; [apply Hy; lia|]. apply Hmap; [apply Hy; lia|]. rewrite Z.div_add by lia. lia. }
  exists m'. unfold memory_set_range_flags in *. rewrite GIGA_SIZE_eq in Hge. rewrite num_pages_spec in * by lia. fold n in Hc |- *.
  cbn zeta in *. rewrite Hc2 in Hc. by injection Hc as <-.
Qed.
End Stale.

(** ** Loading *)

Section Loading.
Context {σ : Type} `{IoDisk0 σ}.
Context (root : Z) (m0 : mem).
Abbreviation shadow := (shadow root m0).

Lemma writable_leaf f e : leaf_flags e = new_flags f → Z.testbit f 2 = true → has PTE_W e = true.
Proof. intros He Hf. by apply (has_leaf_flags 2 f e He). Qed.

(** The stores of the file's bytes and of the flags. *)
Lemma shadow_stores allow_x img ph c l m c1 c2 : shadow c l m → segment_fits img ph → Forall (λ b, 0 ≤ b < 256) img →
  (∀ u, user_vma u → seg_range ph u → ∃ e, translate root u c = Some e ∧ leaf_flags e = new_flags (Z.lor (Z.lor PTE_W PTE_R) PTE_U)) →
  vstore_bytes (p_vaddr ph) (slice (p_offset ph) (p_filesz ph) img) c = Done c1 →
  memory_set_range_flags (p_vaddr ph) (p_memsz ph) (rwx_flags allow_x (p_flags ph)) c1 = Done c2 →
  ∃ m1 m2, vstore_bytes (p_vaddr ph) (slice (p_offset ph) (p_filesz ph) img) m = Done m1 ∧
    memory_set_range_flags (p_vaddr ph) (p_memsz ph) (rwx_flags allow_x (p_flags ph)) m1 = Done m2 ∧ shadow c2 l m2.
Proof.
  intros Hs [Hst Hal Hend Hsz [Ho Hf]] Himg Hmap Hc1 Hc2. unfold USER_START_VMA, USER_END_VMA in *.
  destruct (range_pages (p_vaddr ph) (p_memsz ph)) as (_ & _ & _ & Hin); [lia|done|lia|rewrite GIGA_SIZE_eq; lia|].
  assert (Hsl : length (slice (p_offset ph) (p_filesz ph) img) = Z.to_nat (p_filesz ph)) by (apply slice_length; lia).
  assert (Hw : ∀ j, 0 ≤ j < Z.of_nat (length (slice (p_offset ph) (p_filesz ph) img)) →
    user_vma (p_vaddr ph + j) ∧ ∃ e, translate root (p_vaddr ph + j) c = Some e ∧ has PTE_W e = true).
  { intros j Hj. destruct (Hin (p_vaddr ph + j)) as [Hr Hu]; [lia|]. split; [done|].
    destruct (Hmap _ Hu Hr) as (e & He & Hfl). exists e. split; [done|]. by apply (writable_leaf _ _ Hfl). }
  pose proof (slice_bytes (p_offset ph) (p_filesz ph) img Himg) as Hby.
  destruct (vstore_bytes_spec root _ c l (p_vaddr ph) (sh_inv _ _ _ _ _ Hs) (sh_root _ _ _ _ _ Hs) Hby Hw) as (c1' & Hc1' & [_ _ Ht1 _] & _).
  rewrite Hc1 in Hc1'. injection Hc1' as <-. destruct (shadow_vstore_bytes root m0 _ c l m _ c1 Hs Hby Hw Hc1) as (m1 & Hm1 & Hs1).
  destruct (shadow_set_range root m0 c1 l m1 (p_vaddr ph) (p_memsz ph) (rwx_flags allow_x (p_flags ph)) c2) as (m2 & Hm2 & Hs2);
    [done|done|rewrite GIGA_SIZE_eq; lia|lia|lia| |done|by exists m1, m2].
  intros u Hu Hr. rewrite Ht1 by done. by destruct (Hmap u Hu Hr) as (e & -> & _).
Qed.

(** The zeros behind them. *)
Lemma shadow_bss allow_x img ph c l m c' : shadow c l m → segment_ok img ph → p_filesz ph < p_memsz ph →
  (∀ u, user_vma u → seg_range ph u → ∃ e, translate root u c = Some e ∧ leaf_flags e = new_flags (rwx_flags allow_x (p_flags ph))) →
  vmemset (u64 (p_vaddr ph + p_filesz ph)) 0 (p_memsz ph - p_filesz ph) c = Done c' →
  ∃ m', vmemset (u64 (p_vaddr ph + p_filesz ph)) 0 (p_memsz ph - p_filesz ph) m = Done m' ∧ shadow c' l m'.
Proof.
  intros Hs [[Hst Hal Hend Hsz _] Hbss] Hlt Hmap Hc. unfold USER_START_VMA, USER_END_VMA in *.
  destruct (range_pages (p_vaddr ph) (p_memsz ph)) as (_ & _ & _ & Hin); [lia|done|lia|rewrite GIGA_SIZE_eq; lia|].
  unfold vmemset in *. rewrite u64_small in * by lia. apply (shadow_vstore_bytes root m0 _ c l m _ c' Hs); [| |done].
  - by apply Forall_replicate.
  - rewrite length_replicate. intros j Hj. destruct (Hin (p_vaddr ph + p_filesz ph + j)) as [Hr Hu]; [lia|]. split; [done|].
    destruct (Hmap _ Hu Hr) as (e & He & Hfl). exists e. split; [done|]. by apply (writable_leaf _ _ Hfl), rwx_flags_W, Hbss.
Qed.

(** A segment, from any position of the object. *)
Lemma shadow_segment allow_x ph io c l m :
  disk_ok io → Forall (λ b, 0 ≤ b < 256) (contents io) → shadow c l m →
  segment_ok (contents io) ph → 3 * seg_pages ph ≤ Z.of_nat (length l) →
  ∃ io' c' l' m' used, load_segment allow_x ph io c = Done (0, io', c') ∧ load_segment allow_x ph io m = Done (0, io', m') ∧
    disk_ok io' ∧ contents io' = contents io ∧ shadow c' l' m' ∧ l = used ++ l' ∧ Z.of_nat (length used) ≤ 3 * seg_pages ph.
Proof.
  intros Hd Himg Hs Hseg Hl. pose proof (sh_inv _ _ _ _ _ Hs) as Hi. pose proof (sh_root _ _ _ _ _ Hs) as Hroot.
  destruct (load_segment_spec root allow_x ph io c l Hd Himg Hi Hroot Hseg Hl) as (io' & c' & _ & Hc & Hd' & Hc' & _ & _ & _ & Hld & _).
  exists io', c'. pose proof (so_fits _ _ Hseg) as Hfits. pose proof Hfits as [Hst Hal Hend Hsz [Ho Hf]]. unfold USER_START_VMA, USER_END_VMA in *.
  cut (∃ l' m' used, load_segment allow_x ph io m = Done (0, io', m') ∧ shadow c' l' m' ∧ l = used ++ l' ∧ Z.of_nat (length used) ≤ 3 * seg_pages ph).
  { intros (l' & m' & used & ?). exists l', m', used. naive_solver. }
  clear Hld. revert Hc. unfold load_segment. cbv zeta. unfold USER_START_VMA, USER_END_VMA. destruct (disk_range _ Hd) as [_ Hlen].
  rewrite (u64_small (p_vaddr ph + p_memsz ph)) by lia.
  destruct (Z.ltb_spec (p_vaddr ph) 0xC0000000); [lia|]. destruct (Z.ltb_spec 0xD0000000 (p_vaddr ph + p_memsz ph)); [lia|]. cbn [orb].
  destruct (disk_seek (p_offset ph) io Hd) as (io1 & -> & Hd1 & Hc1 & Hp1); [lia|].
  cbn [mbind outcome_bind]. change (0 <? 0) with false. cbn iota.
  destruct (map_range_vmem root c l (p_vaddr ph) (p_memsz ph) (Z.lor (Z.lor PTE_W PTE_R) PTE_U))
    as (c1 & l1 & Hcm & _ & _ & _ & Hin1 & _); [done|done|done|rewrite GIGA_SIZE_eq; lia|lia|lia|exact Hl|].
  destruct (shadow_map_range root m0 c l m (p_vaddr ph) (p_memsz ph) _ c1 Hs Hal ltac:(rewrite GIGA_SIZE_eq; lia) ltac:(lia) ltac:(lia) Hl Hcm)
    as (l2 & m1 & used & -> & Hs1 & Hused & Hlu). rewrite Hcm. cbn [mbind outcome_bind].
  destruct (disk_read_any (p_filesz ph) io1 Hd1) as (io2 & -> & Hd2 & Hc2 & _); [lia|rewrite Hc1, Hp1; lia|].
  cbn [mbind outcome_bind]. rewrite Hp1, Hc1 in *. rewrite s64_small, Z.eqb_refl by lia. cbn [negb]. intros Hc.
  apply bind_Done in Hc as (c2 & Hv2 & Hc). apply bind_Done in Hc as (c3 & Hv3 & Hc).
  destruct (shadow_stores allow_x (contents io) ph c1 l2 m1 c2 c3 Hs1 Hfits Himg) as (m2 & m3 & -> & Hm3 & Hs3); [|done|done|].
  { intros u Hu Hr. by destruct (Hin1 u Hu Hr). }
  cbn [mbind outcome_bind]. rewrite Hm3. cbn [mbind outcome_bind].
  destruct (segment_stores root allow_x (contents io) ph c1 l2 (sh_inv _ _ _ _ _ Hs1) (sh_root _ _ _ _ _ Hs1) Hfits Himg Hin1)
    as (c2' & c3' & Hv2' & Hv3' & _ & _ & Hld & _). rewrite Hv2 in Hv2'. injection Hv2' as <-. rewrite Hv3 in Hv3'. injection Hv3' as <-.
  exists l2. destruct (Z.ltb_spec (p_filesz ph) (p_memsz ph)) as [Hlt|]; [|injection Hc as <- <-; by exists m3, used].
  apply bind_Done in Hc as (c4 & Hc4 & [= <- <-]).
  destruct (shadow_bss allow_x (contents io) ph c3 l2 m3 c4 Hs3 Hseg Hlt) as (m4 & -> & Hs4); [|done|by exists m4, used].
  intros u Hu Hr. by destruct (Hld u Hu Hr).
Qed.

Lemma shadow_phdrs allow_x img phoff n : ∀ i io c l m,
  disk_ok io → contents io = img → Forall (λ b, 0 ≤ b < 256) img → shadow c l m →
  table_ok img phoff n i → 3 * load_pages img phoff n i ≤ Z.of_nat (length l) →
  ∃ io' c' l' m' used, load_phdrs allow_x phoff n i io c = Done (0, io', c') ∧ load_phdrs allow_x phoff n i io m = Done (0, io', m') ∧
    shadow c' l' m' ∧ l = used ++ l' ∧ Z.of_nat (length used) ≤ 3 * load_pages img phoff n i.
Proof.
  induction n as [|n IH]; intros i io c l m Hd Hc Himg Hs Ht Hl; [by exists io, c, l, m, []|].
  pose proof (to_file _ _ _ _ Ht) as (Hi0 & Hp0 & Hend). destruct (disk_range _ Hd) as [_ Hlen]. rewrite Hc in Hlen.
  cbn [load_phdrs load_pages] in *. unfold sizeof_Phdr in *. rewrite u64_small by lia.
  destruct (disk_seek (phoff + i * 56) io Hd) as (io1 & -> & Hd1 & Hc1 & Hpos1); [rewrite Hc; lia|].
  cbn [mbind outcome_bind]. change (0 <? 0) with false. cbn iota.
  destruct (disk_read 56 io1 Hd1) as (io2 & -> & Hd2 & Hc2 & _); [lia|rewrite Hc1, Hpos1, Hc; lia|].
  cbn [mbind outcome_bind]. rewrite Z.eqb_refl. cbn [negb]. rewrite Hpos1, Hc1, Hc in *.
  replace (phoff + i * 56) with (phoff + 56 * i) by lia.
  unfold struct_of. rewrite slice_length by lia. change (Z.of_nat (Z.to_nat 56) =? 56) with true. cbn [mbind outcome_bind].
  fold (phdr_at img phoff i). pose proof (load_pages_nonneg _ _ _ _ (table_ok_S _ _ _ _ Ht)) as Hnn.
  destruct (Z.eqb_spec (p_type (phdr_at img phoff i)) PT_LOAD) as [Hty|Hty].
  - pose proof (to_seg _ _ _ _ Ht i ltac:(lia) Hty) as Hseg.
    destruct (shadow_segment allow_x (phdr_at img phoff i) io2 c l m Hd2 ltac:(by rewrite Hc2) Hs ltac:(by rewrite Hc2) ltac:(lia))
      as (io3 & c3 & l3 & m3 & u3 & -> & -> & Hd3 & Hc3 & Hs3 & Hl3 & Hu3). rewrite Hc2 in *.
    cbn [mbind outcome_bind]. rewrite Z.eqb_refl. cbn [negb]. rewrite Hl3, length_app in Hl.
    destruct (IH (i + 1) io3 c3 l3 m3 Hd3 Hc3 Himg Hs3 (table_ok_S _ _ _ _ Ht) ltac:(lia)) as (io4 & c4 & l4 & m4 & u4 & -> & -> & Hs4 & Hl4 & Hu4).
    exists io4, c4, l4, m4, (u3 ++ u4). do 3 (split; [done|]). split; [by rewrite Hl3, Hl4, app_assoc|]. rewrite length_app. lia.
  - destruct (IH (i + 1) io2 c l m Hd2 Hc2 Himg Hs (table_ok_S _ _ _ _ Ht) ltac:(lia)) as (io4 & c4 & l4 & m4 & u4 & -> & -> & Hs4 & Hl4 & Hu4).
    exists io4, c4, l4, m4, u4. do 4 (split; [done|]). lia.
Qed.

Lemma shadow_elf_load filePos io c l m : disk_ok io → dpos io = 0 → shadow c l m → exec_ok (contents io) →
  exec_pages (contents io) ≤ Z.of_nat (length l) →
  ∃ io' c' l' m' used, elf_load filePos io c = Done (0, Some (e_entry (header_of (contents io))), io', c') ∧
    elf_load filePos io m = Done (0, Some (e_entry (header_of (contents io))), io', m') ∧
    shadow c' l' m' ∧ l = used ++ l' ∧ exec_loaded true root (contents io) c c'.
Proof.
  intros Hd Hp Hs He Hl.
  destruct (elf_load_loads root filePos io c l) as (io' & c' & _ & Hc & _ & _ & Hex);
    [split; [done|done|by eapply sh_inv|by eapply sh_root]|done|done|].
  exists io', c'. cut (∃ l' m' used, elf_load filePos io m = Done (0, Some (e_entry (header_of (contents io))), io', m') ∧ shadow c' l' m' ∧ l = used ++ l').
  { intros (l' & m' & used & ?). exists l', m', used. naive_solver. }
  clear Hex. revert Hc. unfold elf_load. destruct (disk_getpos filePos io Hd) as (r & io0 & -> & Hd0 & Hc0 & Hp0).
  cbn [mbind outcome_bind]. rewrite <- Hc0 in *. rewrite Hp in Hp0. destruct He as [Hlen Hb Hh Ht]. unfold load_from, sizeof_Ehdr.
  destruct (disk_read 64 io0 Hd0) as (io1 & -> & Hd1 & Hc1 & _); [lia|lia|]. cbn [mbind outcome_bind].
  rewrite Z.eqb_refl. cbn [negb]. rewrite Hp0. unfold struct_of. rewrite slice_length by lia.
  change (Z.of_nat (Z.to_nat 64) =? 64) with true. cbn [mbind outcome_bind]. fold (header_of (contents io0)).
  destruct (check_ehdr_spec (contents io0) Hlen) as (code & -> & _ & Hz). apply Hz in Hh as ->. cbn [mbind outcome_bind].
  rewrite Z.eqb_refl. cbn [negb]. fold (phnum_of (contents io0)).
  destruct (shadow_phdrs true (contents io0) _ _ 0 io1 c l m Hd1 Hc1 Hb Hs Ht Hl) as (io2 & c2 & l2 & m2 & used & -> & -> & Hs2 & Hl2 & _).
  cbn [mbind outcome_bind]. rewrite Z.eqb_refl. cbn [negb]. intros [= <- <-]. by exists l2, m2, used.
Qed.
End Loading.

(** ** After memory_unmap_and_free_user *)

(** The memory without its stale entries. *)
Definition erase (xs : list Z) (m : mem) : mem := set_ram (foldr delete (ram m) xs) m.

Lemma rd_erase xs m x : rd (erase xs m) x = if bool_decide (x ∈ xs) then 0 else rd m x.
Proof.
  unfold rd, erase, set_ram. cbn [ram]. case_bool_decide as Hx.
  - by rewrite lookup_foldr_delete.
  - by rewrite lookup_foldr_delete_not_elem_of.
Qed.

Section Erased.
Context (root : Z) (m : mem) (l : list Z) (Hi : pt_inv root m l).
Context (fr : list Z) (m1 : mem) (Hf : free_ok m1 (fr ++ l)) (Hregs : same_regs m m1).
Context (Hfr : ∀ d, d ∈ fr ↔ ∃ a b c, user_page root m a b c d).
Context (Hrd : ∀ x, x ∉ fr → rd m1 x = rd m x).
Abbreviation slots := (user_slots root m).
Abbreviation c := (erase slots m1).

(** The freed pages are pages of the program, not tables. *)
Lemma freed_page d : d ∈ fr → ∃ p, path_ok p ∧ length p = 3%nat ∧ node_at root m p = Some d ∧ user_entry root m p = true.
Proof.
  intros (x & y & z & Hu)%Hfr. exists [z; y; x]. split; [apply Hu|]. split; [done|]. split; [by eapply user_page_node|].
  destruct Hu as (_ & e & He & HU & _). unfold user_entry. by rewrite He.
Qed.

Lemma freed_ram d : d ∈ fr → ram_page d.
Proof. intros (p & Hp & _ & Hd & _)%freed_page. by eapply node_ram. Qed.

Lemma table_not_freed p t i : path_ok p → (length p ≤ 2)%nat → node_at root m p = Some t → 0 ≤ i < 512 → t + 8 * i ∉ fr.
Proof.
  intros Hp Hl Ht Hr Hin. pose proof (freed_ram _ Hin) as Hram.
  assert (t = t + 8 * i) as He by (apply (ram_page_disjoint _ _ (t + 8 * i)); eauto using node_ram).
  rewrite <- He in Hin. apply freed_page in Hin as (p' & Hp' & Hl' & Hn & _).
  assert (p = p') by by eapply pt_inj. subst. lia.
Qed.

(** The tables are those of [m]; the entries that mapped a page for the user are gone. *)
Lemma erased_table p t i : path_ok (i :: p) → (length p ≤ 1)%nat → node_at root m p = Some t → rd c (t + 8 * i) = rd m (t + 8 * i).
Proof.
  intros Hp Hl Ht. rewrite rd_erase, bool_decide_eq_false_2; [apply Hrd; apply (table_not_freed p); eauto|].
  intros (j & p' & t' & Hp' & Hl' & Ht' & _ & He)%elem_of_user_slots.
  destruct (entry_addr_inj root m l p p' t t' i j Hi) as [-> _]; eauto. lia.
Qed.

Lemma erased_node p : path_ok p → (length p ≤ 2)%nat → node_at root c p = node_at root m p.
Proof.
  induction p as [|i p IH]; intros Hp Hl; [done|]. cbn [length] in Hl. cbn [node_at]. rewrite IH by (eauto; lia).
  destruct (node_at root m p) as [t|] eqn:Ht; [|done]. by rewrite (erased_table p t i) by (done || lia).
Qed.

Lemma erased_table_entry p : path_ok p → (length p ≤ 2)%nat → entry_at root c p = entry_at root m p.
Proof.
  destruct p as [|i p]; [done|]. intros Hp Hl. cbn [length] in Hl. cbn [entry_at]. rewrite erased_node by (eauto; lia).
  destruct (node_at root m p) as [t|] eqn:Ht; [|done]. by rewrite (erased_table p t i) by (done || lia).
Qed.

Lemma user_slot_entry i p t : path_ok (i :: p) → length p = 2%nat → node_at root m p = Some t →
  bool_decide (t + 8 * i ∈ slots) = user_entry root m (i :: p).
Proof.
  intros Hp Hl Ht. destruct (user_entry root m (i :: p)) eqn:Hu.
  - apply bool_decide_eq_true_2, elem_of_user_slots. by exists i, p, t.
  - apply bool_decide_eq_false_2. intros (j & p' & t' & Hp' & Hl' & Ht' & Hu' & He)%elem_of_user_slots.
    destruct (entry_addr_inj root m l p p' t t' i j Hi) as [-> ->]; eauto. congruence.
Qed.

Lemma erased_entry p : path_ok p → length p = 3%nat → entry_at root c p = if user_entry root m p then None else entry_at root m p.
Proof.
  destruct p as [|i p]; [done|]. intros Hp Hl. injection Hl as Hl. cbn [entry_at]. rewrite erased_node by (eauto; lia).
  destruct (node_at root m p) as [t|] eqn:Ht; [|by destruct (user_entry root m (i :: p))].
  rewrite rd_erase, (user_slot_entry i p t) by done. destruct (user_entry root m (i :: p)); [done|].
  by rewrite Hrd by (apply (table_not_freed p); eauto; lia).
Qed.

Lemma erased_inv : pt_inv root c (fr ++ l).
Proof.
  assert (Hnode : ∀ p t, path_ok p → node_at root c p = Some t → node_at root m p = Some t ∧ (length p = 3%nat → user_entry root m p = false)).
  { intros p t Hp Hn. destruct (decide (length p = 3%nat)) as [Hl|Hl].
    - destruct p as [|i p]; [done|]. rewrite node_entry in Hn |- *. rewrite erased_entry in Hn by done.
      destruct (user_entry root m (i :: p)); [done|]. done.
    - rewrite erased_node in Hn by (done || (destruct Hp; lia)). done. }
  split.
  - apply (free_ok_ext m1 c); [|done|done]. intros q Hq. rewrite rd_erase, bool_decide_eq_false_2; [done|].
    intros (j & p & t & Hp & Hl & Ht & _ & He)%elem_of_user_slots.
    assert (Htr : ram_page t) by (eapply node_ram; eauto). assert (Hj : 0 ≤ j < 512) by eauto.
    apply elem_of_app in Hq as [Hq|Hq]; [by apply (table_not_freed p t j); [eauto|lia|done|done|rewrite <- He]|].
    assert (t = q) as ->; [|by apply (node_not_free _ _ _ _ _ Hi Ht); eauto].
    apply (ram_page_disjoint t q q); [done| |rewrite He; auto|auto].
    destruct (pt_free _ _ _ Hi) as (_ & _ & Hps). rewrite Forall_forall in Hps. auto.
  - intros p t Hp Hn. destruct (Hnode p t Hp Hn) as [Hn' Hu]. destruct (pt_page _ _ _ Hi p t Hp Hn') as [Htr Hni]. split; [done|].
    intros [Hin|Hin]%elem_of_app; [|done]. apply freed_page in Hin as (p' & Hp' & Hl' & Hd & HU).
    assert (p' = p) as -> by by eapply pt_inj. rewrite Hu in HU by done. done.
  - intros p p' t Hp Hp' Hn Hn'. eapply (pt_inj _ _ _ Hi); [done|done|by apply Hnode|by apply Hnode].
  - intros i Hr. rewrite rd_erase, bool_decide_eq_false_2.
    + rewrite Hrd by (apply (table_not_freed [] root i); [done|cbn; lia|done|lia]). by apply (pt_kernel _ _ _ Hi).
    + intros (j & p' & t' & Hp' & Hl' & Ht' & _ & He)%elem_of_user_slots.
      destruct (entry_addr_inj root m l [] p' root t' i j Hi) as [<- _]; [done|by eauto|done|done|lia|by eauto|done|done].
  - intros p e Hp Hl He. rewrite erased_table_entry in He by done. by apply (pt_table _ _ _ Hi p).
Qed.

Lemma erased_shadow : active_space_root m = root → shadow root m c (fr ++ l) m1.
Proof.
  intros Hroot. split; [apply erased_inv| | |].
  - rewrite <- Hroot. exact (same_regs_root m m1 Hregs).
  - intros p t Hp Hl Ht. by rewrite erased_node.
  - split; [done|done|]. intros x. rewrite rd_erase. case_bool_decide as Hx; [|done]. cbn [andb]. change (has PTE_V 0) with false. cbn [negb].
    apply elem_of_user_slots in Hx as (j & p & t & Hp & Hl & Ht & _ & ->). apply Hrd. apply (table_not_freed p); eauto; lia.
Qed.
End Erased.

(** The pages that the space maps for the user, each of them once. *)
Definition user_pages (root : Z) (m : mem) (old : list Z) : Prop :=
  NoDup old ∧ ∀ d, d ∈ old ↔ ∃ a b c, user_page root m a b c d.

Lemma unmap_shadow root m l old : pt_inv root m l → active_space_root m = root → user_pages root m old →
  ∃ m1 fr c, memory_unmap_and_free_user m = Done m1 ∧ same_regs m m1 ∧ fr ≡ₚ old ∧ shadow root m c (fr ++ l) m1 ∧
    ∀ u, user_vma u → translate root u c = if user_entry root m (path_of u) then None else translate root u m.
Proof.
  intros Hi Hroot [Hnd Hold]. destruct (unmap_all root m l Hi m) as (m1 & Hm & fr & Hf & Hs & Hfr & Hrd & _); [done|by eapply pt_free|done|done|].
  assert (Hfr' : ∀ d, d ∈ fr ↔ ∃ a b c, user_page root m a b c d).
  { intros d. rewrite Hfr. split; intros (a & b & c & Hu); [by exists a, b, c; apply Hu|]. exists a, b, c. split; [done|].
    destruct Hu as [[_ (Hc & _ & Hb & _ & Ha & _)] _]. unfold position. lia. }
  exists m1, fr, (erase (user_slots root m) m1). split; [done|]. split; [done|]. split; [|split].
  - apply NoDup_Permutation; [|done|]; [by destruct Hf as (_ & [? _]%NoDup_app & _)|]. intros d. by rewrite Hfr', Hold.
  - by apply (erased_shadow root m l).
  - intros u Hu. unfold translate. apply (erased_entry root m l Hi fr); try done. by apply user_vma_path.
Qed.
