(* ===== verification/Virtio.v ===== *)
(** Virtio over memory-mapped registers (src/src/kern/virtio.h, virtio.c).

    The registers of a device are read and written through the class [VirtioHw];
    a read has no effect on the device.  Feature sets are arrays of four words of
    32 bits; an array that was declared and not written is a list of [None]. *)
From Stdlib Require Import ZArith Lia.
From stdpp Require Import base list strings.
From S2P Require Import Prelude Io.

Open Scope Z_scope.

Definition VIRTIO_STAT_ACKNOWLEDGE : Z := Z.shiftl 1 0.
Definition VIRTIO_STAT_DRIVER : Z := Z.shiftl 1 1.
Definition VIRTIO_STAT_FEATURES_OK : Z := Z.shiftl 1 3.
Definition VIRTIO_STAT_DRIVER_OK : Z := Z.shiftl 1 2.

Definition VIRTIO_F_INDIRECT_DESC : Z := 28.
Definition VIRTIO_F_RING_RESET : Z := 40.

Definition VIRTQ_DESC_F_NEXT : Z := Z.shiftl 1 0.
Definition VIRTQ_DESC_F_WRITE : Z := Z.shiftl 1 1.
Definition VIRTQ_DESC_F_INDIRECT : Z := Z.shiftl 1 2.

Definition VIRTIO_FEATLEN : Z := 4.
Definition VIRTIO_MAGIC : Z := 0x74726976.
Definition VIRTIO_ID_NONE : Z := 0.
Definition VIRTIO_ID_BLOCK : Z := 2.
Definition VIRTIO_ID_CONSOLE : Z := 3.

(** The registers that the kernel uses. *)
Inductive vreg : Type :=
| magic_value | version | device_id
| device_features | device_features_sel | driver_features | driver_features_sel
| queue_sel | queue_num | queue_ready | queue_notify | queue_desc | queue_driver | queue_device | queue_reset
| interrupt_status | interrupt_ack | status
| blk_capacity | blk_blk_size.

#[export] Instance vreg_eq_dec : EqDecision vreg.
Proof. solve_decision. Defined.

Class VirtioHw (η : Type) : Type := {
  vget : vreg → η → Z;
  vset : vreg → Z → η → η
}.

(** ** Virtqueues *)

Record virtq_desc : Type := VDesc { d_addr : Z; d_len : Z; d_flags : Z; d_next : Z }.

(** The rings of a queue with one element. *)
Record virtq_avail : Type := VAvail { avail_flags : Z; avail_idx : Z; avail_ring0 : Z }.
Record virtq_used_elem : Type := VUsedElem { used_id : Z; used_len : Z }.
Record virtq_used : Type := VUsed { used_flags : Z; used_idx : Z; used_ring0 : virtq_used_elem }.

Definition sizeof_virtq_desc : Z := 16.

(** ** Feature sets *)

Abbreviation featset := (list Z) (only parsing).

Definition virtio_featset_init : featset := replicate (Z.to_nat VIRTIO_FEATLEN) 0.

Definition virtio_featset_add (fts : featset) (k : Z) : featset :=
  alter (λ w, Z.lor w (u32 (Z.shiftl 1 (k mod 32)))) (Z.to_nat (k / 32)) fts.

(** Testing a word that was never written uses an indeterminate value. *)
Definition virtio_featset_test (fts : list (option Z)) (k : Z) : outcome bool :=
  w ← deref (fts !! Z.to_nat (k / 32));
  w ← deref w;
  Done (negb (Z.land (Z.shiftr w (k mod 32)) 1 =? 0)).

Section Virtio.
Context {η : Type} `{VirtioHw η}.

Definition virtio_check_feature (k : Z) (h : η) : bool * η :=
  let h := vset device_features_sel (k / 32) h in
  (negb (Z.land (Z.shiftr (vget device_features h) (k mod 32)) 1 =? 0), h).

Definition virtio_notify_avail (qid : Z) (h : η) : η := vset queue_notify qid h.

Definition virtio_enable_virtq (qid : Z) (h : η) : η := vset queue_ready 1 (vset queue_sel qid h).
Definition virtio_reset_virtq (qid : Z) (h : η) : η := vset queue_reset 1 (vset queue_sel qid h).

Definition virtio_attach_virtq (qid len desc_addr used_addr avail_addr : Z) (h : η) : η :=
  let h := vset queue_sel qid h in
  let h := vset queue_desc desc_addr h in
  let h := vset queue_device used_addr h in
  let h := vset queue_driver avail_addr h in
  vset queue_num len h.

(** The first loop of [virtio_negotiate_features], from word [i] on. *)
Fixpoint check_needed (i : Z) (needed : featset) (h : η) : bool * η :=
  match needed with
  | [] => (true, h)
  | w :: needed =>
      if w =? 0 then check_needed (i + 1) needed h else
      let h := vset device_features_sel i h in
      if Z.land (vget device_features h) w =? w then check_needed (i + 1) needed h else (false, h)
  end.

(** The second loop: what is written to [enabled] and to the device. *)
Fixpoint request_wanted (i : Z) (wanted : featset) (enabled : list (option Z)) (h : η) : list (option Z) * η :=
  match wanted, enabled with
  | w :: wanted, e :: enabled =>
      let '(e, h) :=
        if w =? 0 then (e, h) else
        let h := vset driver_features_sel i (vset device_features_sel i h) in
        let f := Z.land (vget device_features h) w in
        (Some f, vset driver_features f h) in
      let '(enabled, h) := request_wanted (i + 1) wanted enabled h in
      (e :: enabled, h)
  | _, _ => (enabled, h)
  end.

Definition virtio_negotiate_features (enabled : list (option Z)) (wanted needed : featset) (h : η)
    : outcome (Z * list (option Z) * η) :=
  let '(ok, h) := check_needed 0 needed h in
  if negb ok then Done (- ENOTSUP, enabled, h) else
  let '(enabled, h) := request_wanted 0 wanted enabled h in
  let h := vset status (Z.lor (vget status h) VIRTIO_STAT_FEATURES_OK) h in
  _ ← kassert (negb (Z.land (vget status h) VIRTIO_STAT_FEATURES_OK =? 0));
  Done (0, enabled, h).

(** [virtio_attach]: what it finds at the registers of a device. *)
Inductive attach_to : Type := AttachNone | AttachConsole | AttachBlock.

Definition virtio_probe (h : η) : attach_to * η :=
  if negb (vget magic_value h =? VIRTIO_MAGIC) then (AttachNone, h) else
  if negb (vget version h =? 2) then (AttachNone, h) else
  if vget device_id h =? VIRTIO_ID_NONE then (AttachNone, h) else
  let h := vset status VIRTIO_STAT_ACKNOWLEDGE (vset status 0 h) in
  if vget device_id h =? VIRTIO_ID_CONSOLE then (AttachConsole, h) else
  if vget device_id h =? VIRTIO_ID_BLOCK then (AttachBlock, h) else (AttachNone, h).
End Virtio.

(** ** Features *)

(** What a device promises about its feature registers: the words it offers, and
    the words that were accepted; other registers do not interfere. *)
Class VirtioFeatures (η : Type) `{VirtioHw η} : Type := {
  offered : η → Z → Z;
  accepted : η → Z → Z;
  sel_features i h : vget device_features (vset device_features_sel i h) = offered h i;
  sel_offered i h j : offered (vset device_features_sel i h) j = offered h j;
  sel_accepted i h j : accepted (vset device_features_sel i h) j = accepted h j;
  drv_offered i f h j :
    offered (vset driver_features f (vset driver_features_sel i h)) j = offered h j;
  drv_sel i j h : vget device_features (vset driver_features_sel j (vset device_features_sel i h)) = offered h i;
  drv_accepted i f h j :
    accepted (vset driver_features f (vset driver_features_sel i h)) j = if decide (j = i) then f else accepted h j;
  status_offered v h j : offered (vset status v h) j = offered h j;
  status_accepted v h j : accepted (vset status v h) j = accepted h j;
  status_ok v h : Z.land v VIRTIO_STAT_FEATURES_OK ≠ 0 →
    Z.land (vget status (vset status v h)) VIRTIO_STAT_FEATURES_OK ≠ 0
}.

Section Features.
Context {η : Type} `{VirtioFeatures η}.

Lemma check_needed_spec needed : ∀ i h,
  let '(ok, h') := check_needed i needed h in
  (ok = true ↔ ∀ k w, needed !! k = Some w → Z.land (offered h (i + Z.of_nat k)) w = w) ∧
  (∀ j, offered h' j = offered h j) ∧ (∀ j, accepted h' j = accepted h j).
Proof.
  induction needed as [|w needed IH]; intros i h; cbn [check_needed].
  { split; [|done]. split; [|done]. intros _ k w Hk. by rewrite lookup_nil in Hk. }
  assert (Hsplit : ∀ g : η, (∀ j, offered g j = offered h j) →
    (∀ k w0, (w :: needed) !! k = Some w0 → Z.land (offered h (i + Z.of_nat k)) w0 = w0) ↔
    Z.land (offered h i) w = w ∧ ∀ k w0, needed !! k = Some w0 → Z.land (offered g (i + 1 + Z.of_nat k)) w0 = w0).
  { intros g Hg. split.
    - intros Ha. split; [rewrite <- (Z.add_0_r i); by apply (Ha 0%nat)|]. intros k w0 Hk. rewrite Hg.
      replace (i + 1 + Z.of_nat k) with (i + Z.of_nat (S k)) by lia. by apply Ha.
    - intros [Hh Ha] [|k] w0 Hk; cbn in Hk; [injection Hk as <-; by rewrite Z.add_0_r|].
      rewrite <- Hg. replace (i + Z.of_nat (S k)) with (i + 1 + Z.of_nat k) by lia. by apply Ha. }
  destruct (Z.eqb_spec w 0) as [->|Hw].
  - specialize (IH (i + 1) h). destruct (check_needed (i + 1) needed h) as [ok h'].
    destruct IH as (Hok & Ho & Hac). split; [|done]. rewrite Hok, (Hsplit h) by done. rewrite Z.land_0_r. naive_solver.
  - rewrite sel_features. destruct (Z.eqb_spec (Z.land (offered h i) w) w) as [He|Hne].
    + specialize (IH (i + 1) (vset device_features_sel i h)).
      destruct (check_needed (i + 1) needed _) as [ok h']. destruct IH as (Hok & Ho & Hac).
      split; [|split; intros j; [rewrite Ho; apply sel_offered|rewrite Hac; apply sel_accepted]].
      rewrite Hok, (Hsplit (vset device_features_sel i h)) by (intros; apply sel_offered). naive_solver.
    + split; [|split; intros; [apply sel_offered|apply sel_accepted]]. split; [done|]. intros Ha.
      by apply (Hsplit h ltac:(done)) in Ha as [? _].
Qed.

Lemma request_wanted_spec wanted : ∀ i enabled h, length enabled = length wanted →
  let '(enabled', h') := request_wanted i wanted enabled h in
  length enabled' = length wanted ∧
  (∀ k w, wanted !! k = Some w → w ≠ 0 → enabled' !! k = Some (Some (Z.land (offered h (i + Z.of_nat k)) w))) ∧
  (∀ k w, wanted !! k = Some w → accepted h' (i + Z.of_nat k) =
     if w =? 0 then accepted h (i + Z.of_nat k) else Z.land (offered h (i + Z.of_nat k)) w) ∧
  (∀ j, j < i ∨ i + Z.of_nat (length wanted) ≤ j → accepted h' j = accepted h j) ∧ (∀ j, offered h' j = offered h j).
Proof.
  induction wanted as [|w wanted IH]; intros i [|e enabled] h Hl; cbn [request_wanted]; try done.
  cbn [length] in Hl. injection Hl as Hl. rewrite drv_sel.
  set (g := if w =? 0 then (e, h) else _).
  assert (Hg : (w ≠ 0 → g.1 = Some (Z.land (offered h i) w)) ∧ (∀ j, offered g.2 j = offered h j) ∧
    (∀ j, accepted g.2 j = if decide (j = i) then (if w =? 0 then accepted h i else Z.land (offered h i) w) else accepted h j)).
  { unfold g. destruct (Z.eqb_spec w 0); cbn [fst snd].
    - split_and!; [done|done|]. intros j. by case_decide as Hj; [subst|].
    - split_and!; [done| |]; intros j; [rewrite drv_offered; apply sel_offered|rewrite drv_accepted]. 
      case_decide; [done|apply sel_accepted]. }
  destruct g as [e' h1]. cbn [fst snd] in Hg. destruct Hg as (He & Ho & Hac).
  specialize (IH (i + 1) enabled h1 Hl). destruct (request_wanted (i + 1) wanted enabled h1) as [en' h2].
  destruct IH as (Hlen & Hen & Hacc & Hout & Hoff). split_and!.
  - cbn [length]. by rewrite Hlen.
  - intros [|k] w0 Hk Hw0; cbn in Hk.
    + injection Hk as <-. rewrite Z.add_0_r. by rewrite He.
    + change ((e' :: en') !! S k) with (en' !! k). rewrite (Hen k w0 Hk Hw0), Ho. do 4 f_equal. lia.
  - intros [|k] w0 Hk; cbn in Hk.
    + injection Hk as <-. rewrite Z.add_0_r, Hout, Hac by lia. by rewrite decide_True.
    + replace (i + Z.of_nat (S k)) with (i + 1 + Z.of_nat k) by lia. rewrite (Hacc k w0 Hk), Hac, Ho.
      by rewrite decide_False by lia.
  - intros j Hj. cbn [length] in Hj. rewrite Hout, Hac by lia. by rewrite decide_False by lia.
  - intros j. by rewrite Hoff.
Qed.

(** [virtio_negotiate_features] on feature sets of the same length: it refuses
    exactly when a needed feature is not offered, and then changes nothing that was
    accepted; otherwise it asks for what is both wanted and offered. *)
Lemma negotiate_spec enabled wanted needed h : length enabled = length wanted →
  ∃ rc enabled' h', virtio_negotiate_features enabled wanted needed h = Done (rc, enabled', h') ∧
    (∀ j, offered h' j = offered h j) ∧
    ((rc = - ENOTSUP ∧ enabled' = enabled ∧ (∀ j, accepted h' j = accepted h j) ∧
      ∃ k w, needed !! k = Some w ∧ Z.land (offered h (Z.of_nat k)) w ≠ w) ∨
     (rc = 0 ∧ (∀ k w, needed !! k = Some w → Z.land (offered h (Z.of_nat k)) w = w) ∧
      (∀ k w, wanted !! k = Some w → w ≠ 0 →
         enabled' !! k = Some (Some (Z.land (offered h (Z.of_nat k)) w))) ∧
      (∀ k w, wanted !! k = Some w → accepted h' (Z.of_nat k) =
         if w =? 0 then accepted h (Z.of_nat k) else Z.land (offered h (Z.of_nat k)) w))).
Proof.
  intros Hl. unfold virtio_negotiate_features. pose proof (check_needed_spec needed 0 h) as Hc.
  destruct (check_needed 0 needed h) as [ok h1]. destruct Hc as (Hok & Ho1 & Ha1). destruct ok; cbn [negb].
  - pose proof (request_wanted_spec wanted 0 enabled h1 Hl) as Hw.
    destruct (request_wanted 0 wanted enabled h1) as [en h2]. destruct Hw as (_ & Hen & Hacc & _ & Ho2).
    set (v := Z.lor _ _). assert (Hv : Z.land v VIRTIO_STAT_FEATURES_OK ≠ 0).
    { intros Hz. assert (Hb : Z.testbit (Z.land v VIRTIO_STAT_FEATURES_OK) 3 = true).
      { unfold v. rewrite Z.land_spec, Z.lor_spec. by rewrite (proj2 (orb_true_iff _ _)) by (by right). }
      by rewrite Hz in Hb. }
    apply (status_ok v h2) in Hv. destruct (Z.eqb_spec (Z.land (vget status (vset status v h2)) VIRTIO_STAT_FEATURES_OK) 0); [done|].
    cbn [negb kassert mbind outcome_bind]. exists 0, en, (vset status v h2). split; [done|].
    split; [intros j; by rewrite status_offered, Ho2, Ho1|]. right. split; [done|]. destruct Hok as [Hok _]. specialize (Hok eq_refl).
    split_and!.
    + intros k w Hk. by apply Hok.
    + intros k w Hk Hne. rewrite (Hen k w Hk Hne). by rewrite Ho1.
    + intros k w Hk. rewrite status_accepted. specialize (Hacc k w Hk). rewrite Z.add_0_l in Hacc. rewrite Hacc. by rewrite Ha1, Ho1.
  - exists (- ENOTSUP), enabled, h1. split; [done|]. split; [done|]. left. split_and!; [done|done|done|].
    destruct (decide (Exists (λ kw, Z.land (offered h (Z.of_nat kw.1)) kw.2 ≠ kw.2) (imap (λ k w, (k, w)) needed))) as [He|Hn].
    + apply Exists_exists in He as ([k w] & Hin & Hne). apply elem_of_lookup_imap in Hin as (k' & w' & [= -> ->] & Hk). eauto.
    + exfalso. assert (Hf : false = true); [|done]. apply Hok. intros k w Hk. rewrite Z.add_0_l.
      destruct (decide (Z.land (offered h (Z.of_nat k)) w = w)) as [He|Hne]; [done|]. destruct Hn. apply Exists_exists.
      exists (k, w). split; [|done]. apply elem_of_lookup_imap. eauto.
Qed.
End Features.
