(* ===== verification/Vioblk.v ===== *)
(** The virtio block driver (src/src/kern/vioblk.c).

    The driver's structure is at an address [base] of the heap, with the queue and
    the block buffer at fixed offsets; [VioblkHw] adds to the registers what the
    device does with them.  The calls of one thread are modelled: while it waits
    for a request the device runs ([await]), and a wait for the lock that the
    thread itself holds does not return ([OutOfFuel]).  The other side of the wait,
    the interrupt and the condition, is [used_wait] and [vioblk_isr]. *)
From Stdlib Require Import ZArith Lia.
From stdpp Require Import base gmap list strings.
From S2P Require Import Prelude CString Pages Heap Pte Memory Thread Lock Io Disk Timer Plic Intr Device Virtio.

Open Scope Z_scope.

Definition VIOBLK_IRQ_PRIO : Z := 1.
Definition VIRTIO_BLK_F_BLK_SIZE : Z := 6.
Definition VIRTIO_BLK_F_TOPOLOGY : Z := 10.
Definition VIRTIO_BLK_T_IN : Z := 0.
Definition VIRTIO_BLK_T_OUT : Z := 1.
Definition VIRTIO_BLK_S_OK : Z := 0.
Definition VIRTIO_BLK_S_IOERR : Z := 1.

Record vioblk_request_header : Type := ReqHdr { rq_type : Z; rq_reserved : Z; rq_sector : Z }.

(** The member [vq] of the structure, without the condition. *)
Record virtq : Type := Virtq {
  vq_avail : virtq_avail;
  vq_used : virtq_used;
  vq_desc : list virtq_desc;
  vq_header : vioblk_request_header;
  vq_status : Z
}.

(** One interval in which the device may work: the queue and the buffer at
    [base], and the device. *)
Class VioblkHw (η : Type) `{VirtioHw η} : Type := {
  vrun : Z → virtq * list Z * η → virtq * list Z * η
}.

Record vioblk_device (η : Type) : Type := VioBlk {
  vregs : η;
  v_ops : bool;
  v_refcnt : Z;
  v_instno : Z;
  v_irqno : Z;
  v_opened : Z;
  v_readonly : Z;
  v_blksz : Z;
  v_pos : Z;
  v_size : Z;
  v_blkcnt : Z;
  v_vq : virtq;
  v_bufblkno : Z;
  v_blkbuf : list Z
}.
Arguments VioBlk {η}.
Arguments vregs {η}.
Arguments v_ops {η}.
Arguments v_refcnt {η}.
Arguments v_instno {η}.
Arguments v_irqno {η}.
Arguments v_opened {η}.
Arguments v_readonly {η}.
Arguments v_blksz {η}.
Arguments v_pos {η}.
Arguments v_size {η}.
Arguments v_blkcnt {η}.
Arguments v_vq {η}.
Arguments v_bufblkno {η}.
Arguments v_blkbuf {η}.

(** Offsets in the structure; the block buffer follows it. *)
Definition used_updated (base : Z) : cond_id := CondObj (base + 64).
Definition off_avail : Z := 88.
Definition off_used : Z := 96.
Definition off_desc : Z := 112.
Definition off_header : Z := 176.
Definition off_status : Z := 192.
Definition sizeof_vioblk_device : Z := 216.
Definition sizeof_header : Z := 16.

(** The device and the id of the thread that holds vio_lock, or -1. *)
Record vio (η : Type) : Type := Vio { vdev : vioblk_device η; vio_lock : Z }.
Arguments Vio {η}.
Arguments vdev {η}.
Arguments vio_lock {η}.

Section Vioblk.
Context {η : Type} `{VioblkHw η}.

Definition set_vpos (p : Z) (d : vioblk_device η) : vioblk_device η :=
  VioBlk (vregs d) (v_ops d) (v_refcnt d) (v_instno d) (v_irqno d) (v_opened d) (v_readonly d)
    (v_blksz d) p (v_size d) (v_blkcnt d) (v_vq d) (v_bufblkno d) (v_blkbuf d).
Definition set_vblkbuf (b : list Z) (d : vioblk_device η) : vioblk_device η :=
  VioBlk (vregs d) (v_ops d) (v_refcnt d) (v_instno d) (v_irqno d) (v_opened d) (v_readonly d)
    (v_blksz d) (v_pos d) (v_size d) (v_blkcnt d) (v_vq d) (v_bufblkno d) b.
Definition set_vdma (q : virtq) (b : list Z) (h : η) (d : vioblk_device η) : vioblk_device η :=
  VioBlk h (v_ops d) (v_refcnt d) (v_instno d) (v_irqno d) (v_opened d) (v_readonly d)
    (v_blksz d) (v_pos d) (v_size d) (v_blkcnt d) q (v_bufblkno d) b.
Definition set_vopened (h : η) (ops : bool) (refcnt op : Z) (d : vioblk_device η) : vioblk_device η :=
  VioBlk h ops refcnt (v_instno d) (v_irqno d) op (v_readonly d)
    (v_blksz d) (v_pos d) (v_size d) (v_blkcnt d) (v_vq d) (v_bufblkno d) (v_blkbuf d).

(** ** Requests *)

(** The descriptors of a read; entries 1 to 3 form the indirect table. *)
Definition descs_in (base blksz : Z) : list virtq_desc :=
  [VDesc (base + off_desc + sizeof_virtq_desc) (sizeof_virtq_desc * 3) VIRTQ_DESC_F_INDIRECT (-1);
   VDesc (base + off_header) sizeof_header VIRTQ_DESC_F_NEXT 1;
   VDesc (base + sizeof_vioblk_device) blksz (Z.lor VIRTQ_DESC_F_NEXT VIRTQ_DESC_F_WRITE) 2;
   VDesc (base + off_status) 1 VIRTQ_DESC_F_WRITE (-1)].

(** Those of a write, over the old descriptors: entry 3 keeps its link. *)
Definition descs_out (base blksz : Z) (old : list virtq_desc) : list virtq_desc :=
  [VDesc (base + off_desc + sizeof_virtq_desc) (sizeof_virtq_desc * 3) VIRTQ_DESC_F_INDIRECT 0;
   VDesc (base + off_header) sizeof_header VIRTQ_DESC_F_NEXT 1;
   VDesc (base + sizeof_vioblk_device) blksz VIRTQ_DESC_F_NEXT 2;
   VDesc (base + off_status) 1 VIRTQ_DESC_F_WRITE (default 0 (d_next <$> old !! 3%nat))].

(** The wait: the device runs, then the indices are compared; [fuel] bounds how
    often [condition_wait] is called. *)
Fixpoint await (fuel : nat) (base : Z) (x : virtq * list Z * η) : outcome (virtq * list Z * η) :=
  let x := vrun base x in
  if avail_idx (vq_avail x.1.1) =? used_idx (vq_used x.1.1) then Done x else
  match fuel with
  | O => OutOfFuel
  | S k => await k base x
  end.

(** A request: the element of the ring, the notification, the wait.  The result is
    the status byte. *)
Definition vio_request (patience : nat) (base type sector : Z) (descs : list virtq_desc) (d : vioblk_device η)
    : outcome (Z * vioblk_device η) :=
  let q := v_vq d in
  let a := vq_avail q in
  let q := Virtq (VAvail (avail_flags a) (u16 (avail_idx a + 1)) 0) (vq_used q) descs (ReqHdr type 0 sector) (vq_status q) in
  '(q, b, h) ← await patience base (q, v_blkbuf d, vset queue_notify 0 (vregs d));
  Done (vq_status q, set_vdma q b h d).

Definition request_in (patience : nat) (base sector : Z) (d : vioblk_device η) : outcome (Z * vioblk_device η) :=
  vio_request patience base VIRTIO_BLK_T_IN sector (descs_in base (v_blksz d)) d.
Definition request_out (patience : nat) (base sector : Z) (d : vioblk_device η) : outcome (Z * vioblk_device η) :=
  vio_request patience base VIRTIO_BLK_T_OUT sector (descs_out base (v_blksz d) (vq_desc (v_vq d))) d.

(** ** The lock *)

Context (patience : nat) (me base : Z).

Definition vio_acquire (v : vio η) : outcome (vio η) :=
  if vio_lock v =? - UNLOCK then Done (Vio (vdev v) me) else OutOfFuel.
Definition vio_release (v : vio η) : vio η := Vio (vdev v) (-1).

(** ** Reading and writing *)

(** How much is moved in the block at offset [off] when [left] bytes are left. *)
Definition step_len (blksz off left : Z) : Z := if blksz - off <? left then blksz - off else left.

(** The loop of [vioblk_read]: [acc] is what the caller's buffer holds so far, the
    flag says whether a request failed. *)
Fixpoint vioblk_read_loop (fuel : nat) (bufsz total_read : Z) (acc : list Z) (d : vioblk_device η)
    : outcome (bool * Z * list Z * vioblk_device η) :=
  if total_read <? bufsz then
    match fuel with
    | O => OutOfFuel
    | S k =>
        if v_size d <=? v_pos d then Done (true, total_read, acc, d) else
        if v_blksz d =? 0 then Undefined else
        let sector := v_pos d / v_blksz d in
        let sector_offset := v_pos d mod v_blksz d in
        let to_read := step_len (v_blksz d) sector_offset (bufsz - total_read) in
        '(st, d) ← request_in patience base sector d;
        if negb (st =? VIRTIO_BLK_S_OK) then Done (false, total_read, acc, d) else
        let data := slice sector_offset to_read (v_blkbuf d) in
        _ ← (if Z.of_nat (length data) =? to_read then Done tt else Undefined);
        vioblk_read_loop k bufsz (total_read + to_read) (acc ++ data) (set_vpos (u64 (v_pos d + to_read)) d)
    end
  else Done (true, total_read, acc, d).

Definition vioblk_read (bufsz : Z) (v : vio η) : outcome (Z * list Z * vio η) :=
  v ← vio_acquire v;
  if bufsz =? 0 then Done (0, [], v) else
  if v_opened (vdev v) =? 0 then Done (-1, [], v) else
  '(ok, total, data, d) ← vioblk_read_loop (S (Z.to_nat bufsz)) bufsz 0 [] (vdev v);
  let v := Vio d (vio_lock v) in
  if negb ok then Done (- EIO, data, v) else Done (s64 total, data, vio_release v).

(** The loop of [vioblk_write]. *)
Fixpoint vioblk_write_loop (fuel : nat) (buf : list Z) (n total_written : Z) (d : vioblk_device η)
    : outcome (bool * Z * vioblk_device η) :=
  if total_written <? n then
    match fuel with
    | O => OutOfFuel
    | S k =>
        if v_size d <=? v_pos d then Done (true, total_written, d) else
        if v_blksz d =? 0 then Undefined else
        let sector := v_pos d / v_blksz d in
        let sector_offset := v_pos d mod v_blksz d in
        let to_write := step_len (v_blksz d) sector_offset (n - total_written) in
        '(st, d) ← (if negb (sector_offset =? 0) || negb (to_write =? v_blksz d)
                    then request_in patience base sector d else Done (VIRTIO_BLK_S_OK, d));
        if negb (st =? VIRTIO_BLK_S_OK) then Done (false, total_written, d) else
        let data := slice total_written to_write buf in
        _ ← (if (Z.of_nat (length data) =? to_write) && (sector_offset + to_write <=? Z.of_nat (length (v_blkbuf d)))
             then Done tt else Undefined);
        let d := set_vblkbuf (overwrite sector_offset data (v_blkbuf d)) d in
        '(st, d) ← request_out patience base sector d;
        if negb (st =? VIRTIO_BLK_S_OK) then Done (false, total_written, d) else
        vioblk_write_loop k buf n (total_written + to_write) (set_vpos (u64 (v_pos d + to_write)) d)
    end
  else Done (true, total_written, d).

Definition vioblk_write (buf : list Z) (v : vio η) : outcome (Z * vio η) :=
  v ← vio_acquire v;
  if v_opened (vdev v) =? 0 then Done (-1, v) else
  if negb (v_readonly (vdev v) =? 0) then Done (- ENOTSUP, v) else
  let n := Z.of_nat (length buf) in
  if n =? 0 then Done (0, v) else
  '(ok, total, d) ← vioblk_write_loop (S (length buf)) buf n 0 (vdev v);
  let v := Vio d (vio_lock v) in
  if negb ok then Done (- EIO, v) else Done (s64 total, vio_release v).

(** ** Control *)

Definition vioblk_getlen (d : vioblk_device η) : Z * Z := (0, v_size d).
Definition vioblk_getpos (d : vioblk_device η) : Z * Z := (0, v_pos d).

(** A position past the end is refused with the lock held. *)
Definition vioblk_setpos (p : Z) (v : vio η) : outcome (Z * vio η) :=
  v ← vio_acquire v;
  if v_size (vdev v) <? p then Done (- EINVAL, v) else
  Done (0, vio_release (Vio (set_vpos p (vdev v)) (vio_lock v))).

(** A store of 32 bits through the pointer of the caller. *)
Definition vioblk_getblksz (arg : Z) (d : vioblk_device η) : Z * Z := (0, arg - arg mod 2 ^ 32 + u32 (v_blksz d)).

Definition vioblk_ioctl (cmd arg : Z) (v : vio η) : outcome (Z * Z * vio η) :=
  if cmd =? IOCTL_GETLEN then let '(r, a) := vioblk_getlen (vdev v) in Done (r, a, v) else
  if cmd =? IOCTL_GETPOS then let '(r, a) := vioblk_getpos (vdev v) in Done (r, a, v) else
  if cmd =? IOCTL_SETPOS then '(r, v) ← vioblk_setpos arg v; Done (r, arg, v) else
  if cmd =? IOCTL_GETBLKSZ then let '(r, a) := vioblk_getblksz arg (vdev v) in Done (r, a, v) else
  Done (- ENOTSUP, arg, v).

(** The part of [vioblk_close] that touches the device. *)
Definition vioblk_shut (d : vioblk_device η) : vioblk_device η :=
  set_vopened (virtio_reset_virtq 0 (vregs d)) false (v_refcnt d) 0 d.

#[export] Instance vioblk_ops : IoOps (vio η) := {
  op_close := Some (λ v, Done (Vio (vioblk_shut (vdev v)) (vio_lock v)));
  op_read := Some vioblk_read;
  op_write := Some vioblk_write;
  op_ctl := Some vioblk_ioctl
}.

(** ** The interrupt *)

Definition vioblk_isr (d : vioblk_device η) (s : sched) : outcome (vioblk_device η * sched) :=
  let isr_status := vget interrupt_status (vregs d) in
  let d := set_vdma (v_vq d) (v_blkbuf d) (vset interrupt_ack isr_status (vregs d)) d in
  s ← (if negb (Z.land isr_status 1 =? 0) then condition_broadcast (used_updated base) s else Done s);
  Done (d, s).

(** The wait of a request from the test of its loop on, with interrupts off and
    [saved] the state to restore: either the request is complete, or the thread
    waits and makes the test again when it is resumed. *)
Definition used_test (saved : bool) (d : vioblk_device η) (s : sched) : outcome (blocking unit) :=
  if avail_idx (vq_avail (v_vq d)) =? used_idx (vq_used (v_vq d)) then Done (Returned tt (intr_restore saved s)) else
  '(saved', s) ← condition_wait (used_updated base) s;
  Done (Blocked saved' s).

Definition used_wait (d : vioblk_device η) (s : sched) : outcome (blocking unit) :=
  let '(saved, s) := intr_disable s in used_test saved d s.
End Vioblk.

(** ** The driver in the kernel *)

Section Kernel.
Context {η : Type} `{VioblkHw η}.

(** The drivers' state: the lock, and the structures by address. *)
Record vio_drivers : Type := VioDrivers { blk_lock : option lock; blk_devs : gmap Z (vioblk_device η) }.

Context {π D : Type} `{PlicDev π} `{DriverState D vio_drivers}.

Abbreviation kstate_vio := (kstate π D).

Definition vio_state (k : kstate_vio) : vio_drivers := driver (drivers k).

Definition set_vdev (base : Z) (d : vioblk_device η) (k : kstate_vio) : kstate_vio :=
  KState (plic k) (ktimer k) (ksched k) (put_driver (VioDrivers (blk_lock (vio_state k)) (<[base := d]> (blk_devs (vio_state k)))) (drivers k)).

Definition vioblk_isr_entry (irqno aux : Z) (k : kstate_vio) : outcome kstate_vio :=
  d ← deref (blk_devs (vio_state k) !! aux);
  '(d, s) ← vioblk_isr aux d (ksched k);
  Done (set_vdev aux d (KState (plic k) (ktimer k) s (drivers k))).

Definition vio_open_state : Type := list (isr_entry π D) * kstate_vio.

Definition vioblk_open (aux : Z) (st : vio_open_state) : outcome (Z * option Z * vio_open_state) :=
  let '(tab, k) := st in
  d ← deref (blk_devs (vio_state k) !! aux);
  if negb (v_opened d =? 0) then Done (- EBUSY, None, st) else
  let h := virtio_enable_virtq 0 (vregs d) in
  p ← intr_enable_irq (v_irqno d) tab (plic k);
  let s := condition_init (used_updated aux) (ksched k) in
  let d := set_vopened h true (ioref (v_refcnt d)) 1 d in
  Done (0, Some aux, (tab, set_vdev aux d (KState p (ktimer k) s (drivers k)))).

Definition vioblk_close (base : Z) (k : kstate_vio) : outcome kstate_vio :=
  d ← deref (blk_devs (vio_state k) !! base);
  Done (set_vdev base (vioblk_shut d)
          (KState (intr_disable_irq (v_irqno d) (plic k)) (ktimer k) (ksched k) (drivers k))).

Definition blk_name : list Z := cstr [98; 108; 107] [].

(** The features that the driver needs and wants. *)
Definition needed_features : list Z :=
  virtio_featset_add (virtio_featset_add virtio_featset_init VIRTIO_F_RING_RESET) VIRTIO_F_INDIRECT_DESC.
Definition wanted_features : list Z :=
  virtio_featset_add (virtio_featset_add virtio_featset_init VIRTIO_BLK_F_BLK_SIZE) VIRTIO_BLK_F_TOPOLOGY.

Definition virtq_zero : virtq :=
  Virtq (VAvail 0 0 0) (VUsed 0 0 (VUsedElem 0 0)) (replicate 4 (VDesc 0 0 0 0)) (ReqHdr 0 0 0) 0.

(** [vioblk_attach] of the device [h]: a failed negotiation is only reported.  The
    bytes of the block buffer are those of the heap, [junk]. *)
Definition vioblk_attach (irqno : Z) (junk : list Z) (h : η) (st : vio_open_state) (devs : list (device vio_open_state))
    : outcome (vio_open_state * list (device vio_open_state)) :=
  let '(tab, k) := st in
  _ ← kassert (vget device_id h =? VIRTIO_ID_BLOCK);
  let h := vset status (Z.lor (vget status h) VIRTIO_STAT_DRIVER) h in
  '(_, enabled, h) ← virtio_negotiate_features (replicate 4 None) wanted_features needed_features h;
  has_blksz ← virtio_featset_test enabled VIRTIO_BLK_F_BLK_SIZE;
  let blksz := if has_blksz : bool then vget blk_blk_size h else 512 in
  '(lockp, hp) ← kmalloc 32 (kheap (ksched k));
  let '(lk, s) := lock_init (CondObj lockp) (with_heap hp (ksched k)) in
  '(dev, hp) ← kmalloc (u64 (sizeof_vioblk_device + blksz)) (kheap s);
  let s := with_heap hp s in
  let capacity := vget blk_capacity h in
  let h := virtio_attach_virtq 0 1 (dev + off_desc) (dev + off_used) (dev + off_avail) h in
  tab ← intr_register_isr irqno VIOBLK_IRQ_PRIO (Some vioblk_isr_entry) dev tab;
  '(instno, devs) ← device_register (Some blk_name) (Some vioblk_open) dev devs;
  let h := vset status (Z.lor (vget status h) VIRTIO_STAT_DRIVER_OK) h in
  let d := VioBlk h false 0 (u16 instno) (u16 irqno) 0 0 blksz 0 (u64 (capacity * blksz)) capacity virtq_zero 0
             (take (Z.to_nat blksz) junk) in
  Done ((tab, KState (plic k) (ktimer k) s (put_driver (VioDrivers (Some lk) (<[dev := d]> (blk_devs (vio_state k)))) (drivers k))), devs).

(** [virtio_attach]; there is no console driver. *)
Definition virtio_attach (irqno : Z) (junk : list Z) (h : η) (st : vio_open_state) (devs : list (device vio_open_state))
    : outcome (vio_open_state * list (device vio_open_state)) :=
  let '(what, h) := virtio_probe h in
  match what with
  | AttachNone => Done (st, devs)
  | AttachConsole => Panicked "viocons not included!"
  | AttachBlock => vioblk_attach irqno junk h st devs
  end.
End Kernel.
Arguments vio_drivers : clear implicits.
