(* ===== verification/VioblkSpec.v ===== *)
(** The virtio block driver is a disk.

    [VioblkLaws] is what a device promises: a request that the queue describes
    ([decode] follows the descriptors) is carried out within [vpatience] waits.  On
    a device with blocks of 512 bytes the driver then reads and writes the bytes of
    the medium, so it implements [IoDisk], the contract of the file system.  An
    indirect table is followed although the driver does not negotiate it. *)
From Stdlib Require Import ZArith Lia Bool.
From stdpp Require Import base gmap list strings.
From S2P Require Import Prelude Pages Heap Pte Memory Thread ThreadLists Scheduler Lock Io IoSpec Disk Timer Plic Intr Device Virtio Vioblk.

Open Scope Z_scope.

(** ** The device's side *)

(** The chain of descriptors from entry [i] of a table. *)
Fixpoint chain (fuel : nat) (tab : list virtq_desc) (i : Z) : option (list virtq_desc) :=
  if i <? 0 then None else
  d ← tab !! Z.to_nat i;
  if Z.land (d_flags d) VIRTQ_DESC_F_NEXT =? 0 then Some [d] else
  match fuel with
  | O => None
  | S k => cons d <$> chain k tab (d_next d)
  end.

(** The chain that the element of the avail ring starts, through the indirect table
    that lies in the array of descriptors at [base + off_desc]. *)
Definition request_chain (base : Z) (q : virtq) : option (list virtq_desc) :=
  d ← vq_desc q !! Z.to_nat (avail_ring0 (vq_avail q));
  if Z.land (d_flags d) VIRTQ_DESC_F_INDIRECT =? 0 then chain 4 (vq_desc q) (avail_ring0 (vq_avail q)) else
  let off := d_addr d - (base + off_desc) in
  if (off <? 0) || negb (off mod sizeof_virtq_desc =? 0) then None else
  let n := Z.to_nat (d_len d / sizeof_virtq_desc) in
  chain n (take n (drop (Z.to_nat (off / sizeof_virtq_desc)) (vq_desc q))) 0.

Record blk_request : Type := BlkReq { br_type : Z; br_sector : Z; br_len : Z; br_in : bool }.

Definition desc_is (a len : Z) (w : bool) (d : virtq_desc) : bool :=
  (d_addr d =? a) && (d_len d =? len) && Bool.eqb (negb (Z.land (d_flags d) VIRTQ_DESC_F_WRITE =? 0)) w.

(** A block request: the header, the buffer, the status byte. *)
Definition decode (base : Z) (q : virtq) : option blk_request :=
  c ← request_chain base q;
  match c with
  | [a; b; z] =>
      let w := negb (Z.land (d_flags b) VIRTQ_DESC_F_WRITE =? 0) in
      if desc_is (base + off_header) sizeof_header false a && desc_is (base + sizeof_vioblk_device) (d_len b) w b
         && desc_is (base + off_status) 1 true z
      then Some (BlkReq (rq_type (vq_header q)) (rq_sector (vq_header q)) (d_len b) w)
      else None
  | _ => None
  end.

(** A request that the device must carry out: the unit of the sector number is 512
    bytes, whatever the block size. *)
Definition valid_request (r : blk_request) (media buf : list Z) : Prop :=
  br_type r = (if br_in r then VIRTIO_BLK_T_IN else VIRTIO_BLK_T_OUT) ∧
  0 < br_len r ∧ br_len r mod 512 = 0 ∧ br_len r ≤ Z.of_nat (length buf) ∧
  0 ≤ br_sector r ∧ 512 * br_sector r + br_len r ≤ Z.of_nat (length media).

Definition transferred (r : blk_request) (media buf media' buf' : list Z) : Prop :=
  if br_in r then media' = media ∧ buf' = overwrite 0 (slice (512 * br_sector r) (br_len r) media) buf
  else buf' = buf ∧ media' = overwrite (512 * br_sector r) (take (Z.to_nat (br_len r)) buf) media.

Class VioblkLaws (η : Type) `{VioblkHw η} : Type := {
  media : η → list Z;
  (** The queue is set up at [base] and no request is outstanding. *)
  live : Z → η → Prop;
  vpatience : nat;
  serves base q b h r :
    live base h → decode base q = Some r → valid_request r (media h) b →
    avail_idx (vq_avail q) = u16 (used_idx (vq_used q) + 1) →
    ∃ n q' b' h', (n ≤ vpatience)%nat ∧
      Nat.iter (S n) (vrun base) (q, b, vset queue_notify 0 h) = (q', b', h') ∧
      (∀ k, (k < n)%nat → let q1 := (Nat.iter (S k) (vrun base) (q, b, vset queue_notify 0 h)).1.1 in
         vq_avail q1 = vq_avail q ∧ used_idx (vq_used q1) = used_idx (vq_used q)) ∧
      live base h' ∧ vq_avail q' = vq_avail q ∧ used_idx (vq_used q') = avail_idx (vq_avail q) ∧
      vq_desc q' = vq_desc q ∧ length b' = length b ∧ length (media h') = length (media h) ∧
      (vq_status q' = VIRTIO_BLK_S_OK → transferred r (media h) b (media h') b')
}.

(** A device on which no request fails. *)
Class VioblkReliable (η : Type) `{VioblkLaws η} : Prop := {
  serves_ok base q b h r n q' b' h' :
    live base h → decode base q = Some r → valid_request r (media h) b →
    avail_idx (vq_avail q) = u16 (used_idx (vq_used q) + 1) →
    Nat.iter (S n) (vrun base) (q, b, vset queue_notify 0 h) = (q', b', h') →
    used_idx (vq_used q') = avail_idx (vq_avail q) → vq_status q' = VIRTIO_BLK_S_OK
}.

(** The driver's descriptors describe the request it means. *)
Lemma chain_three a b z :
  Z.land (d_flags a) VIRTQ_DESC_F_NEXT ≠ 0 → d_next a = 1 → Z.land (d_flags b) VIRTQ_DESC_F_NEXT ≠ 0 → d_next b = 2 →
  Z.land (d_flags z) VIRTQ_DESC_F_NEXT = 0 → chain 3 [a; b; z] 0 = Some [a; b; z].
Proof.
  intros Ha Hna Hb Hnb Hz. cbn [chain]. change (0 <? 0) with false. change (Z.to_nat 0) with 0%nat.
  cbn [lookup list_lookup mbind option_bind]. destruct (Z.eqb_spec (Z.land (d_flags a) VIRTQ_DESC_F_NEXT) 0); [done|].
  rewrite Hna. change (1 <? 0) with false. change (Z.to_nat 1) with 1%nat.
  cbn [lookup list_lookup mbind option_bind]. destruct (Z.eqb_spec (Z.land (d_flags b) VIRTQ_DESC_F_NEXT) 0); [done|].
  rewrite Hnb. change (2 <? 0) with false. change (Z.to_nat 2) with 2%nat.
  cbn [lookup list_lookup mbind option_bind]. destruct (Z.eqb_spec (Z.land (d_flags z) VIRTQ_DESC_F_NEXT) 0); done.
Qed.

Lemma decode_indirect base av us header st a b z n0 :
  avail_ring0 av = 0 → chain 3 [a; b; z] 0 = Some [a; b; z] →
  desc_is (base + off_header) sizeof_header false a = true → desc_is (base + off_status) 1 true z = true →
  d_addr b = base + sizeof_vioblk_device →
  decode base (Virtq av us [VDesc (base + off_desc + sizeof_virtq_desc) (sizeof_virtq_desc * 3) VIRTQ_DESC_F_INDIRECT n0; a; b; z] header st) =
    Some (BlkReq (rq_type header) (rq_sector header) (d_len b) (negb (Z.land (d_flags b) VIRTQ_DESC_F_WRITE =? 0))).
Proof.
  intros Hr Hc Ha Hz Hb. unfold decode, request_chain. cbn [vq_avail vq_desc]. rewrite Hr. change (Z.to_nat 0) with 0%nat.
  cbn [lookup list_lookup mbind option_bind d_flags d_addr d_len].
  change (Z.land VIRTQ_DESC_F_INDIRECT VIRTQ_DESC_F_INDIRECT =? 0) with false. cbn iota.
  replace (base + off_desc + sizeof_virtq_desc - (base + off_desc)) with 16 by (unfold sizeof_virtq_desc; lia).
  change (16 <? 0) with false. change (16 mod sizeof_virtq_desc =? 0) with true. cbn [orb negb].
  change (Z.to_nat (16 / sizeof_virtq_desc)) with 1%nat. change (Z.to_nat (sizeof_virtq_desc * 3 / sizeof_virtq_desc)) with 3%nat.
  cbn [drop take]. rewrite Hc. cbn [mbind option_bind vq_header]. rewrite Ha, Hz. unfold desc_is at 1. rewrite Hb, !Z.eqb_refl.
  by rewrite eqb_reflx.
Qed.

Lemma desc_is_same a len f w n : negb (Z.land f VIRTQ_DESC_F_WRITE =? 0) = w → desc_is a len w (VDesc a len f n) = true.
Proof. intros <-. unfold desc_is. cbn [d_addr d_len d_flags]. by rewrite !Z.eqb_refl, eqb_reflx. Qed.

Lemma decode_in base blksz av us sector st : avail_ring0 av = 0 →
  decode base (Virtq av us (descs_in base blksz) (ReqHdr VIRTIO_BLK_T_IN 0 sector) st) = Some (BlkReq VIRTIO_BLK_T_IN sector blksz true).
Proof. intros Hr. apply decode_indirect; [done|by apply chain_three|by apply desc_is_same|by apply desc_is_same|done]. Qed.

Lemma decode_out base blksz old av us sector st : avail_ring0 av = 0 →
  decode base (Virtq av us (descs_out base blksz old) (ReqHdr VIRTIO_BLK_T_OUT 0 sector) st) = Some (BlkReq VIRTIO_BLK_T_OUT sector blksz false).
Proof. intros Hr. apply decode_indirect; [done|by apply chain_three|by apply desc_is_same|by apply desc_is_same|done]. Qed.

(** ** Requests of the driver *)

Section Driver.
Context {η : Type} `{VioblkLaws η}.

Lemma await_iter base n : ∀ fuel x, (n ≤ fuel)%nat →
  (∀ k, (k < n)%nat → avail_idx (vq_avail (Nat.iter (S k) (vrun base) x).1.1) ≠ used_idx (vq_used (Nat.iter (S k) (vrun base) x).1.1)) →
  avail_idx (vq_avail (Nat.iter (S n) (vrun base) x).1.1) = used_idx (vq_used (Nat.iter (S n) (vrun base) x).1.1) →
  await fuel base x = Done (Nat.iter (S n) (vrun base) x).
Proof.
  induction n as [|n IH]; intros fuel x Hf Hne He.
  - destruct fuel; cbn [await]; cbn [Nat.iter nat_rect] in He; rewrite He, Z.eqb_refl; done.
  - destruct fuel as [|fuel]; [lia|]. cbn [await]. pose proof (Hne 0%nat ltac:(lia)) as H0'. cbn [Nat.iter nat_rect] in H0'.
    destruct (Z.eqb_spec (avail_idx (vq_avail (vrun base x).1.1)) (used_idx (vq_used (vrun base x).1.1))); [done|].
    rewrite (IH fuel (vrun base x)); [by rewrite <- Nat.iter_succ_r|lia| |].
    + intros k Hk. rewrite <- Nat.iter_succ_r. apply Hne. lia.
    + rewrite <- Nat.iter_succ_r. done.
Qed.

Lemma u16_succ_ne z : 0 ≤ z < 2 ^ 16 → u16 (z + 1) ≠ z.
Proof.
  intros Hz. unfold u16. destruct (decide (z + 1 < 2 ^ 16)).
  - rewrite Z.mod_small by lia. lia.
  - replace (z + 1) with (1 * 2 ^ 16) by lia. rewrite Z.mod_mul by lia. lia.
Qed.

(** The device is set up with blocks of [blk] bytes, and idle. *)
Record dev_ok (base blk : Z) (d : vioblk_device η) : Prop := {
  do_live : live base (vregs d);
  do_idx : used_idx (vq_used (v_vq d)) = avail_idx (vq_avail (v_vq d));
  do_idx_range : 0 ≤ avail_idx (vq_avail (v_vq d)) < 2 ^ 16;
  do_blksz : v_blksz d = blk;
  do_unit : 0 < blk ∧ blk mod 512 = 0;
  do_buf : Z.of_nat (length (v_blkbuf d)) = blk
}.

Definition dmedia (d : vioblk_device η) : list Z := media (vregs d).

(** What a request leaves as it is. *)
Record same_dev (d d' : vioblk_device η) : Prop := {
  sd_opened : v_opened d' = v_opened d;
  sd_readonly : v_readonly d' = v_readonly d;
  sd_size : v_size d' = v_size d;
  sd_pos : v_pos d' = v_pos d;
  sd_blksz : v_blksz d' = v_blksz d;
  sd_media : length (dmedia d') = length (dmedia d)
}.

Lemma vio_request_spec patience base blk type sector descs d r :
  (vpatience ≤ patience)%nat → dev_ok base blk d →
  (∀ av us st, avail_ring0 av = 0 → decode base (Virtq av us descs (ReqHdr type 0 sector) st) = Some r) →
  valid_request r (dmedia d) (v_blkbuf d) →
  ∃ d', vio_request patience base type sector descs d = Done (vq_status (v_vq d'), d') ∧ dev_ok base blk d' ∧ same_dev d d' ∧
    (vq_status (v_vq d') = VIRTIO_BLK_S_OK → transferred r (dmedia d) (v_blkbuf d) (dmedia d') (v_blkbuf d')) ∧
    (VioblkReliable η → vq_status (v_vq d') = VIRTIO_BLK_S_OK).
Proof.
  intros Hp [Hlive Hidx Hr Hblk Hunit Hbuf] Hdec Hval. unfold vio_request. set (q := Virtq _ _ _ _ _).
  destruct (serves base q (v_blkbuf d) (vregs d) r Hlive) as (n & q' & b' & h' & Hn & Hit & Hwait & Hlive' & Hav & Hus & _ & Hb' & Hm' & Htr);
    [by apply Hdec|done|cbn; by rewrite Hidx|].
  rewrite (await_iter base n); [|lia| |].
  - rewrite Hit. cbn [mbind outcome_bind]. exists (set_vdma q' b' h' d). split; [done|]. split_and!.
    + split; cbn [set_vdma vregs v_vq v_blksz v_blkbuf]; try done.
      * by rewrite Hus, Hav.
      * rewrite Hav. apply u16_range.
      * by rewrite Hb'.
    + by split.
    + done.
    + intros Hrel. apply (serves_ok base q (v_blkbuf d) (vregs d) r n q' b' h'); [done|by apply Hdec|done|cbn; by rewrite Hidx|done|done].
  - intros k Hk. destruct (Hwait k Hk) as [-> ->]. cbn. rewrite Hidx. by apply u16_succ_ne.
  - rewrite Hit. cbn [fst]. by rewrite Hav, Hus.
Qed.

Lemma valid_in base blk d sector : dev_ok base blk d → 0 ≤ sector → 512 * sector + blk ≤ Z.of_nat (length (dmedia d)) →
  valid_request (BlkReq VIRTIO_BLK_T_IN sector blk true) (dmedia d) (v_blkbuf d).
Proof. intros [_ _ _ _ [? ?] ?] ? ?. repeat split; cbn; try done; lia. Qed.
Lemma valid_out base blk d sector : dev_ok base blk d → 0 ≤ sector → 512 * sector + blk ≤ Z.of_nat (length (dmedia d)) →
  valid_request (BlkReq VIRTIO_BLK_T_OUT sector blk false) (dmedia d) (v_blkbuf d).
Proof. intros [_ _ _ _ [? ?] ?] ? ?. repeat split; cbn; try done; lia. Qed.

Lemma request_in_spec patience base blk sector d :
  (vpatience ≤ patience)%nat → dev_ok base blk d → 0 ≤ sector → 512 * sector + blk ≤ Z.of_nat (length (dmedia d)) →
  ∃ st d', request_in patience base sector d = Done (st, d') ∧ dev_ok base blk d' ∧ same_dev d d' ∧
    (st = VIRTIO_BLK_S_OK → dmedia d' = dmedia d ∧ v_blkbuf d' = slice (512 * sector) blk (dmedia d)) ∧
    (VioblkReliable η → st = VIRTIO_BLK_S_OK).
Proof.
  intros Hp Hd Hs Hm. unfold request_in. rewrite (do_blksz _ _ _ Hd).
  destruct (vio_request_spec patience base blk VIRTIO_BLK_T_IN sector (descs_in base blk) d
              (BlkReq VIRTIO_BLK_T_IN sector blk true)) as (d' & -> & Hd' & Hs' & Htr & Hrel);
    [done|done|intros; by apply decode_in|by eapply valid_in|].
  exists (vq_status (v_vq d')), d'. split_and!; try done. intros Hst. destruct (Htr Hst) as [-> ->]. split; [done|].
  cbn [br_sector br_len]. apply overwrite_all. pose proof (do_buf _ _ _ Hd). pose proof (do_unit _ _ _ Hd).
  rewrite slice_length by lia. lia.
Qed.

Lemma request_out_spec patience base blk sector d :
  (vpatience ≤ patience)%nat → dev_ok base blk d → 0 ≤ sector → 512 * sector + blk ≤ Z.of_nat (length (dmedia d)) →
  ∃ st d', request_out patience base sector d = Done (st, d') ∧ dev_ok base blk d' ∧ same_dev d d' ∧
    (st = VIRTIO_BLK_S_OK → dmedia d' = overwrite (512 * sector) (v_blkbuf d) (dmedia d)) ∧
    (VioblkReliable η → st = VIRTIO_BLK_S_OK).
Proof.
  intros Hp Hd Hs Hm. unfold request_out. rewrite (do_blksz _ _ _ Hd).
  destruct (vio_request_spec patience base blk VIRTIO_BLK_T_OUT sector (descs_out base blk (vq_desc (v_vq d))) d
              (BlkReq VIRTIO_BLK_T_OUT sector blk false)) as (d' & -> & Hd' & Hs' & Htr & Hrel);
    [done|done|intros; by apply decode_out|by eapply valid_out|].
  exists (vq_status (v_vq d')), d'. split_and!; try done. intros Hst. destruct (Htr Hst) as [_ ->].
  cbn [br_sector br_len]. rewrite take_ge by (pose proof (do_buf _ _ _ Hd); lia). done.
Qed.
End Driver.

(** ** Reading and writing blocks of 512 bytes *)

Section Disk.
Context {η : Type} `{VioblkLaws η} (patience : nat) (me base : Z) (Hpat : (vpatience ≤ patience)%nat).

(** The size of the device is that of the medium, in whole blocks. *)
Record geometry (d : vioblk_device η) : Prop := {
  ge_dev : dev_ok base 512 d;
  ge_size : v_size d = Z.of_nat (length (dmedia d)) ∧ v_size d mod 512 = 0 ∧ v_size d < 2 ^ 63;
  ge_pos : 0 ≤ v_pos d ≤ v_size d
}.

(** What a call may change: the position and the medium. *)
Record moved (d d' : vioblk_device η) (n : Z) : Prop := {
  mv_opened : v_opened d' = v_opened d;
  mv_readonly : v_readonly d' = v_readonly d;
  mv_size : v_size d' = v_size d;
  mv_pos : v_pos d' = v_pos d + n
}.

Lemma step_block pos size left : 0 ≤ pos < size → size mod 512 = 0 → 0 < left →
  let off := pos mod 512 in let m := step_len 512 off left in
  0 ≤ off ∧ 0 < m ≤ left ∧ off + m ≤ 512 ∧ pos = 512 * (pos / 512) + off ∧ 512 * (pos / 512) + 512 ≤ size ∧ 0 ≤ pos / 512 ∧
  (off + m = 512 ∨ m = left).
Proof.
  intros Hp Hs Hl off m. pose proof (Z.mod_pos_bound pos 512 ltac:(lia)). pose proof (Z.div_mod pos 512 ltac:(lia)).
  apply Z.div_exact in Hs; [|lia]. assert (0 ≤ pos / 512) by (apply Z.div_pos; lia).
  unfold m, off, step_len. destruct (Z.ltb_spec (512 - pos mod 512) left); lia.
Qed.

Lemma read_loop_spec : ∀ fuel bufsz total acc d,
  geometry d → 0 ≤ total ≤ bufsz → bufsz - total ≤ Z.of_nat fuel → bufsz < 2 ^ 64 →
  ∃ ok n d', vioblk_read_loop patience base fuel bufsz total acc d =
      Done (ok, total + n, acc ++ slice (v_pos d) n (dmedia d), d') ∧
    geometry d' ∧ moved d d' n ∧ 0 ≤ n ≤ Z.min (bufsz - total) (v_size d - v_pos d) ∧
    (ok = true → n = Z.min (bufsz - total) (v_size d - v_pos d) ∧ dmedia d' = dmedia d) ∧
    (VioblkReliable η → ok = true).
Proof.
  assert (Hstop : ∀ bufsz total acc d, geometry d → Z.min (bufsz - total) (v_size d - v_pos d) = 0 →
    ∃ ok n d', Done (true, total, acc, d) = Done (ok, total + n, acc ++ slice (v_pos d) n (dmedia d), d') ∧
    geometry d' ∧ moved d d' n ∧ 0 ≤ n ≤ Z.min (bufsz - total) (v_size d - v_pos d) ∧
    (ok = true → n = Z.min (bufsz - total) (v_size d - v_pos d) ∧ dmedia d' = dmedia d) ∧ (VioblkReliable η → ok = true)).
  { intros bufsz total acc d Hg Hm. exists true, 0, d. rewrite Hm, Z.add_0_r, slice_nil, app_nil_r. split; [done|].
    split; [done|]. split; [split; lia|]. split; [lia|]. by split. }
  induction fuel as [|fuel IH]; intros bufsz total acc d Hg Ht Hf Hb.
  { cbn [vioblk_read_loop]. destruct (Z.ltb_spec total bufsz); [lia|]. apply Hstop; [done|]. destruct Hg as [_ _ ?]. lia. }
  cbn [vioblk_read_loop]. pose proof Hg as [Hd (Hsz & Hmod & Hmax) Hpos].
  destruct (Z.ltb_spec total bufsz); [|apply Hstop; [done|lia]].
  destruct (Z.leb_spec (v_size d) (v_pos d)); [apply Hstop; [done|lia]|].
  rewrite (do_blksz _ _ _ Hd). change (512 =? 0) with false. cbn iota.
  destruct (step_block (v_pos d) (v_size d) (bufsz - total)) as (Ho & Hm & Hom & Hpe & Hend & Hs0 & Hfull); [lia|done|lia|].
  set (off := v_pos d mod 512) in *. set (m := step_len 512 off (bufsz - total)) in *.
  destruct (request_in_spec patience base 512 (v_pos d / 512) d Hpat Hd) as (st & d1 & -> & Hd1 & Hs1 & Hok & Hrel); [done|lia|].
  cbn [mbind outcome_bind]. destruct (Z.eqb_spec st VIRTIO_BLK_S_OK) as [->|Hne]; cbn [negb].
  - destruct (Hok eq_refl) as [Hm1 Hbuf]. destruct Hs1 as [So Sr Ss Sp Sb Sm]. rewrite Hbuf.
    assert (Hdata : slice off m (slice (512 * (v_pos d / 512)) 512 (dmedia d)) = slice (v_pos d) m (dmedia d)).
    { rewrite Hpe at 2. rewrite Z.add_comm. apply slice_sub; lia. }
    rewrite Hdata, slice_length by lia. rewrite Z2Nat.id, Z.eqb_refl by lia. cbn [mbind outcome_bind].
    rewrite Sp, u64_small by lia. set (d2 := set_vpos (v_pos d + m) d1).
    assert (Hg2 : geometry d2).
    { split; [by destruct Hd1; split| |]; unfold d2; cbn [set_vpos v_size v_pos]; rewrite ?Ss; [|lia].
      change (dmedia (set_vpos (v_pos d + m) d1)) with (dmedia d1). by rewrite Sm. }
    destruct (IH bufsz (total + m) (acc ++ slice (v_pos d) m (dmedia d)) d2 Hg2) as (ok & n & d' & Heq & Hg' & Hmv & Hn & Hfin & Hrel'); [lia|lia|lia|].
    exists ok, (m + n), d'. rewrite Heq. unfold d2 in *. change (dmedia (set_vpos (v_pos d + m) d1)) with (dmedia d1) in *.
    cbn [set_vpos v_size v_pos] in *. rewrite Hm1, Ss in *. split_and!; try done; try lia.
    + rewrite Z.add_assoc, <- app_assoc, slice_app by lia. done.
    + destruct Hmv as [M1 M2 M3 M4]. cbn [set_vpos v_opened v_readonly v_size v_pos] in *. split; congruence || lia.
    + intros Hok'. destruct (Hfin Hok') as [-> ->]. split; [lia|done].
  - exists false, 0, d1. rewrite Z.add_0_r, slice_nil, app_nil_r. destruct Hs1 as [So Sr Ss Sp Sb Sm]. split; [done|]. split_and!; try lia; try done.
    + split; [done| |]; rewrite ?Ss, ?Sp, ?Sm; done.
    + split; congruence || lia.
    + intros Hr. by apply Hrel in Hr.
Qed.

Lemma geometry_same d d' : geometry d → dev_ok base 512 d' → same_dev d d' → geometry d'.
Proof. intros [_ Hs Hp] Hd' [So Sr Ss Sp Sb Sm]. by split; rewrite ?Ss, ?Sp, ?Sm. Qed.

(** The first half of a round of the write loop: the block buffer holds the block
    with the new bytes in it. *)
Lemma write_fill_spec d off m data : geometry d → 0 ≤ off → off + m ≤ 512 → 0 < m → Z.of_nat (length data) = m →
  0 ≤ v_pos d / 512 → 512 * (v_pos d / 512) + 512 ≤ v_size d →
  ∃ st d1, (if negb (off =? 0) || negb (m =? v_blksz d) then request_in patience base (v_pos d / 512) d
            else Done (VIRTIO_BLK_S_OK, d)) = Done (st, d1) ∧ dev_ok base 512 d1 ∧ same_dev d d1 ∧
    (st = VIRTIO_BLK_S_OK → dmedia d1 = dmedia d ∧
       overwrite off data (v_blkbuf d1) = overwrite off data (slice (512 * (v_pos d / 512)) 512 (dmedia d))) ∧
    (VioblkReliable η → st = VIRTIO_BLK_S_OK).
Proof.
  intros [Hd (Hsz & Hmod & Hmax) Hpos] Ho Hom Hm Hdata Hs0 Hend. rewrite (do_blksz _ _ _ Hd).
  destruct (negb (off =? 0) || negb (m =? 512)) eqn:Hpart.
  - destruct (request_in_spec patience base 512 (v_pos d / 512) d Hpat Hd) as (st & d1 & -> & Hd1 & Hs1 & Hok & Hrel); [done|lia|].
    exists st, d1. split_and!; try done. intros Hst. destruct (Hok Hst) as [-> ->]. done.
  - apply orb_false_iff in Hpart as [Hoff Hm']. apply negb_false_iff, Z.eqb_eq in Hoff, Hm'. subst off.
    exists VIRTIO_BLK_S_OK, d. split_and!; try done. intros _. split; [done|].
    pose proof (do_buf _ _ _ Hd). rewrite !overwrite_all; [done|rewrite slice_length by lia; lia|lia].
Qed.

(** The second half writes it back. *)
Lemma write_back_spec d d1 off m data : geometry d → dev_ok base 512 d1 → same_dev d d1 → dmedia d1 = dmedia d →
  overwrite off data (v_blkbuf d1) = overwrite off data (slice (512 * (v_pos d / 512)) 512 (dmedia d)) →
  0 ≤ off → off + m ≤ 512 → Z.of_nat (length data) = m → v_pos d = 512 * (v_pos d / 512) + off →
  0 ≤ v_pos d / 512 → 512 * (v_pos d / 512) + 512 ≤ v_size d →
  ∃ st d2, request_out patience base (v_pos d / 512) (set_vblkbuf (overwrite off data (v_blkbuf d1)) d1) = Done (st, d2) ∧
    dev_ok base 512 d2 ∧ same_dev d d2 ∧ (st = VIRTIO_BLK_S_OK → dmedia d2 = overwrite (v_pos d) data (dmedia d)) ∧
    (VioblkReliable η → st = VIRTIO_BLK_S_OK).
Proof.
  intros [Hd (Hsz & Hmod & Hmax) Hpos] Hd1 Hs1 Hm1 Hov Ho Hom Hdata Hpe Hs0 Hend. set (d1' := set_vblkbuf _ d1).
  assert (Hd1' : dev_ok base 512 d1').
  { destruct Hd1 as [? ? ? ? ? Hb]. split; try done. unfold d1'. cbn [set_vblkbuf v_blkbuf]. rewrite overwrite_length by lia. done. }
  destruct (request_out_spec patience base 512 (v_pos d / 512) d1' Hpat Hd1') as (st & d2 & Heq & Hd2 & Hs2 & Hok & Hrel);
    [done|change (dmedia d1') with (dmedia d1); rewrite Hm1; lia|].
  exists st, d2. split; [done|]. split; [done|]. split.
  { destruct Hs1 as [So Sr Ss Sp Sb Sm], Hs2 as [To Tr Ts Tp Tb Tm]. unfold d1' in *. cbn [set_vblkbuf v_opened v_readonly v_size v_pos v_blksz] in *.
    change (dmedia (set_vblkbuf (overwrite off data (v_blkbuf d1)) d1)) with (dmedia d1) in Tm.
    split; congruence. }
  split; [|done]. intros Hst. rewrite (Hok Hst). unfold d1'. cbn [set_vblkbuf v_blkbuf].
  change (dmedia (set_vblkbuf (overwrite off data (v_blkbuf d1)) d1)) with (dmedia d1).
  rewrite Hov, Hm1, overwrite_block by lia. f_equal. lia.
Qed.

Lemma write_loop_spec : ∀ fuel buf total d,
  geometry d → 0 ≤ total ≤ Z.of_nat (length buf) → Z.of_nat (length buf) - total ≤ Z.of_nat fuel → Z.of_nat (length buf) < 2 ^ 64 →
  ∃ ok n d', vioblk_write_loop patience base fuel buf (Z.of_nat (length buf)) total d = Done (ok, total + n, d') ∧
    geometry d' ∧ moved d d' n ∧ 0 ≤ n ≤ Z.min (Z.of_nat (length buf) - total) (v_size d - v_pos d) ∧
    length (dmedia d') = length (dmedia d) ∧
    (ok = true → n = Z.min (Z.of_nat (length buf) - total) (v_size d - v_pos d) ∧
       dmedia d' = overwrite (v_pos d) (slice total n buf) (dmedia d)) ∧
    (VioblkReliable η → ok = true).
Proof.
  assert (Hstop : ∀ (buf : list Z) total d, geometry d → Z.min (Z.of_nat (length buf) - total) (v_size d - v_pos d) = 0 →
    ∃ ok n d', Done (true, total, d) = Done (ok, total + n, d') ∧
    geometry d' ∧ moved d d' n ∧ 0 ≤ n ≤ Z.min (Z.of_nat (length buf) - total) (v_size d - v_pos d) ∧
    length (dmedia d') = length (dmedia d) ∧
    (ok = true → n = Z.min (Z.of_nat (length buf) - total) (v_size d - v_pos d) ∧
       dmedia d' = overwrite (v_pos d) (slice total n buf) (dmedia d)) ∧ (VioblkReliable η → ok = true)).
  { intros buf total d Hg Hm. exists true, 0, d. rewrite Hm, Z.add_0_r. split; [done|].
    split; [done|]. split; [split; lia|]. split; [lia|]. split; [done|]. split; [|done].
    by rewrite slice_nil, overwrite_nil. }
  assert (Hfail : ∀ (buf : list Z) total (d d1 : vioblk_device η), geometry d → dev_ok base 512 d1 → same_dev d d1 → ¬ VioblkReliable η →
    0 ≤ Z.of_nat (length buf) - total →
    ∃ ok n d', Done (false, total, d1) = Done (ok, total + n, d') ∧
    geometry d' ∧ moved d d' n ∧ 0 ≤ n ≤ Z.min (Z.of_nat (length buf) - total) (v_size d - v_pos d) ∧
    length (dmedia d') = length (dmedia d) ∧
    (ok = true → n = Z.min (Z.of_nat (length buf) - total) (v_size d - v_pos d) ∧
       dmedia d' = overwrite (v_pos d) (slice total n buf) (dmedia d)) ∧ (VioblkReliable η → ok = true)).
  { intros buf total d d1 Hg Hd1 Hs1 Hn Hl. pose proof (ge_pos _ Hg). exists false, 0, d1. rewrite Z.add_0_r. split; [done|].
    split; [by eapply geometry_same|]. destruct Hs1 as [So Sr Ss Sp Sb Sm]. split; [split; congruence || lia|].
    split; [lia|]. by split. }
  induction fuel as [|fuel IH]; intros buf total d Hg Ht Hf Hb.
  { cbn [vioblk_write_loop]. destruct (Z.ltb_spec total (Z.of_nat (length buf))); [lia|]. apply Hstop; [done|].
    destruct Hg as [_ _ ?]. lia. }
  cbn [vioblk_write_loop]. pose proof Hg as [Hd (Hsz & Hmod & Hmax) Hpos].
  destruct (Z.ltb_spec total (Z.of_nat (length buf))); [|apply Hstop; [done|lia]].
  destruct (Z.leb_spec (v_size d) (v_pos d)); [apply Hstop; [done|lia]|].
  rewrite (do_blksz _ _ _ Hd). change (512 =? 0) with false. cbn iota.
  destruct (step_block (v_pos d) (v_size d) (Z.of_nat (length buf) - total)) as (Ho & Hm & Hom & Hpe & Hend & Hs0 & Hfull); [lia|done|lia|].
  set (off := v_pos d mod 512) in *. set (m := step_len 512 off (Z.of_nat (length buf) - total)) in *.
  assert (Hdata : Z.of_nat (length (slice total m buf)) = m) by (rewrite slice_length by lia; lia).
  destruct (write_fill_spec d off m (slice total m buf) Hg) as (st & d1 & Hfill & Hd1 & Hs1 & Hok & Hrel); [lia..|].
  rewrite (do_blksz _ _ _ Hd) in Hfill. rewrite Hfill. cbn [mbind outcome_bind].
  destruct (Z.eqb_spec st VIRTIO_BLK_S_OK) as [->|Hne]; cbn [negb]; [|apply Hfail; [done..|tauto|lia]].
  destruct (Hok eq_refl) as [Hm1 Hov]. rewrite Hdata, Z.eqb_refl.
  destruct (Z.leb_spec (off + m) (Z.of_nat (length (v_blkbuf d1)))); [|pose proof (do_buf _ _ _ Hd1); lia]. cbn [andb mbind outcome_bind].
  destruct (write_back_spec d d1 off m (slice total m buf) Hg Hd1 Hs1 Hm1 Hov) as (st & d2 & -> & Hd2 & Hs2 & Hok2 & Hrel2); [lia..|].
  cbn [mbind outcome_bind].
  destruct (Z.eqb_spec st VIRTIO_BLK_S_OK) as [->|Hne]; cbn [negb]; [|apply Hfail; [done..|tauto|lia]].
  pose proof (Hok2 eq_refl) as Hm2. pose proof Hs2 as [So Sr Ss Sp Sb Sm]. rewrite Sp, u64_small by lia.
  set (d3 := set_vpos (v_pos d + m) d2).
  assert (Hg3 : geometry d3).
  { pose proof (geometry_same _ _ Hg Hd2 Hs2) as [[? ? ? ? ? ?] ? ?]. split; [by split| |]; unfold d3; cbn [set_vpos v_size v_pos]; [done|].
    rewrite Ss. lia. }
  destruct (IH buf (total + m) d3 Hg3) as (ok & n & d' & Heq & Hg' & Hmv & Hn & Hlen & Hfin & Hrel'); [lia|lia|lia|].
  exists ok, (m + n), d'. rewrite Heq. unfold d3 in *. change (dmedia (set_vpos (v_pos d + m) d2)) with (dmedia d2) in *.
  cbn [set_vpos v_size v_pos] in *. rewrite Ss in *. split_and!; try done; try lia.
  - by rewrite Z.add_assoc.
  - destruct Hmv as [M1 M2 M3 M4]. cbn [set_vpos v_opened v_readonly v_size v_pos] in *. split; congruence || lia.
  - intros Hok'. destruct (Hfin Hok') as [-> ->]. split; [lia|]. rewrite Hm2.
    rewrite <- (slice_app total m) by lia. rewrite <- overwrite_mid; [by rewrite Hdata|lia|].
    rewrite length_app, slice_length, slice_length by lia. lia.
Qed.
End Disk.
