(* ===== verification/VioblkDisk.v ===== *)
(** The calls of the virtio block driver: reading, writing, the lock, the
    interrupt, and the file system on top of it. *)
From Stdlib Require Import ZArith Lia.
From stdpp Require Import base gmap list strings.
From S2P Require Import Prelude CString Pages Heap Pte Memory Thread ThreadLists Scheduler Lock Io IoSpec Disk Kfs KfsSpec Timer Plic Intr Device Virtio Vioblk VioblkSpec.

Open Scope Z_scope.

Section Calls.
Context {η : Type} `{VioblkLaws η} (patience : nat) (me base : Z) (Hpat : (vpatience ≤ patience)%nat).

(** An open driver that no thread is using. *)
Record vio_ok (v : vio η) : Prop := {
  vo_geometry : geometry base (vdev v);
  vo_free : vio_lock v = -1;
  vo_opened : v_opened (vdev v) ≠ 0;
  vo_writable : v_readonly (vdev v) = 0
}.

(** What a call that succeeded leaves behind: [n] bytes further, the lock free. *)
Record vio_moved (v v' : vio η) (n : Z) : Prop := {
  vm_ok : vio_ok v';
  vm_pos : v_pos (vdev v') = v_pos (vdev v) + n;
  vm_size : v_size (vdev v') = v_size (vdev v)
}.

Lemma moved_ok (v : vio η) d n : vio_ok v → geometry base d → moved (vdev v) d n → vio_moved v (vio_release (Vio d me)) n.
Proof.
  intros [Hg Hf Ho Hw] Hg' [Mo Mr Ms Mp]. split; [|done|done]. by split; cbn [vio_release vdev vio_lock]; [|done|rewrite Mo|rewrite Mr].
Qed.

Lemma acquire_free (v : vio η) : vio_lock v = -1 → vio_acquire me v = Done (Vio (vdev v) me).
Proof. intros Hf. unfold vio_acquire. rewrite Hf. done. Qed.

Lemma read_spec n (v : vio η) : vio_ok v → 0 < n < 2 ^ 63 →
  ∃ r data v', vioblk_read patience me base n v = Done (r, data, v') ∧
    data = slice (v_pos (vdev v)) (Z.of_nat (length data)) (dmedia (vdev v)) ∧
    (r = Z.min n (v_size (vdev v) - v_pos (vdev v)) ∧ Z.of_nat (length data) = r ∧ vio_moved v v' r ∧ dmedia (vdev v') = dmedia (vdev v) ∨
     r = - EIO ∧ vio_lock v' = me ∧ ¬ VioblkReliable η).
Proof.
  intros Hok Hn. pose proof Hok as [Hg Hf Ho _]. unfold vioblk_read. rewrite acquire_free by done. cbn [mbind outcome_bind vdev vio_lock].
  destruct (Z.eqb_spec n 0); [lia|]. destruct (Z.eqb_spec (v_opened (vdev v)) 0); [done|].
  destruct (read_loop_spec patience base Hpat (S (Z.to_nat n)) n 0 [] (vdev v) Hg) as (ok & m & d' & -> & Hg' & Hmv & Hm & Hfin & Hrel); [lia..|].
  cbn [mbind outcome_bind app]. pose proof (ge_size _ _ Hg) as (Hsz & _ & Hmax). pose proof (ge_pos _ _ Hg).
  assert (Hlen : Z.of_nat (length (slice (v_pos (vdev v)) m (dmedia (vdev v)))) = m) by (rewrite slice_length by lia; lia).
  destruct ok; cbn [negb].
  - destruct (Hfin eq_refl) as [Hmm Hmedia]. eexists _, _, _. split; [reflexivity|]. rewrite Hlen. split; [done|]. left.
    rewrite Z.add_0_l, s64_small by lia. split; [by rewrite Z.sub_0_r in Hmm|]. split; [done|]. split; [by apply moved_ok|done].
  - eexists _, _, _. split; [reflexivity|]. rewrite Hlen. split; [done|]. right. split; [done|]. split; [done|]. intros Hr. by apply Hrel in Hr.
Qed.

Lemma write_spec buf (v : vio η) : vio_ok v → buf ≠ [] → Z.of_nat (length buf) < 2 ^ 63 →
  ∃ r v', vioblk_write patience me base buf v = Done (r, v') ∧ length (dmedia (vdev v')) = length (dmedia (vdev v)) ∧
    (r = Z.min (Z.of_nat (length buf)) (v_size (vdev v) - v_pos (vdev v)) ∧ vio_moved v v' r ∧
       dmedia (vdev v') = overwrite (v_pos (vdev v)) (take (Z.to_nat r) buf) (dmedia (vdev v)) ∨
     r = - EIO ∧ vio_lock v' = me ∧ ¬ VioblkReliable η).
Proof.
  intros Hok Hne Hn. pose proof Hok as [Hg Hf Ho Hw]. unfold vioblk_write. rewrite acquire_free by done. cbn [mbind outcome_bind vdev vio_lock].
  destruct (Z.eqb_spec (v_opened (vdev v)) 0); [done|]. rewrite Hw. change (0 =? 0) with true. cbn [negb].
  assert (Hpos : 0 < Z.of_nat (length buf)) by (destruct buf; [done|cbn [length]; lia]).
  destruct (Z.eqb_spec (Z.of_nat (length buf)) 0); [lia|].
  destruct (write_loop_spec patience base Hpat (S (length buf)) buf 0 (vdev v) Hg) as (ok & m & d' & -> & Hg' & Hmv & Hm & Hlen & Hfin & Hrel); [lia..|].
  cbn [mbind outcome_bind]. destruct ok; cbn [negb].
  - destruct (Hfin eq_refl) as [Hmm Hmedia]. eexists _, _. split; [reflexivity|]. split; [done|]. left.
    rewrite Z.add_0_l, s64_small by lia. split; [by rewrite Z.sub_0_r in Hmm|]. split; [by apply moved_ok|done].
  - eexists _, _. split; [reflexivity|]. split; [done|]. right. split; [done|]. split; [done|]. intros Hr. by apply Hrel in Hr.
Qed.

Lemma setpos_spec p (v : vio η) : vio_ok v → 0 ≤ p ≤ v_size (vdev v) →
  ∃ v', vioblk_setpos me p v = Done (0, v') ∧ vio_ok v' ∧ dmedia (vdev v') = dmedia (vdev v) ∧ v_pos (vdev v') = p ∧
    v_size (vdev v') = v_size (vdev v).
Proof.
  intros [Hg Hf Ho Hw] Hp. unfold vioblk_setpos. rewrite acquire_free by done. cbn [mbind outcome_bind vdev vio_lock].
  destruct (Z.ltb_spec (v_size (vdev v)) p); [lia|]. eexists. split; [reflexivity|]. split; [|done].
  destruct Hg as [[? ? ? ? ? ?] Hs _]. split; [split; [by split|exact Hs|exact Hp]|done|exact Ho|exact Hw].
Qed.

(** C7: on a device with blocks of 512 bytes, reading returns the bytes of the
    medium from the position on, cut at its end, and advances the position,
    whatever the alignment and the number of blocks; when a request fails it
    returns -EIO with a prefix of them and vio_lock still held. *)
Theorem vioblk_read_spec n (v : vio η) : vio_ok v → 0 < n < 2 ^ 63 →
  ∃ r data v', vioblk_read patience me base n v = Done (r, data, v') ∧
    data = slice (v_pos (vdev v)) (Z.of_nat (length data)) (dmedia (vdev v)) ∧
    (r = Z.min n (v_size (vdev v) - v_pos (vdev v)) ∧ Z.of_nat (length data) = r ∧ vio_moved v v' r ∧ dmedia (vdev v') = dmedia (vdev v) ∨
     r = - EIO ∧ vio_lock v' = me ∧ ¬ VioblkReliable η).
Proof. apply read_spec. Qed.

(** C6: writing puts the bytes at the position, cut at the end of the medium, and
    changes no other byte of it, although the device only moves whole blocks; when
    a request fails it returns -EIO with vio_lock still held. *)
Theorem vioblk_write_spec buf (v : vio η) : vio_ok v → buf ≠ [] → Z.of_nat (length buf) < 2 ^ 63 →
  ∃ r v', vioblk_write patience me base buf v = Done (r, v') ∧ length (dmedia (vdev v')) = length (dmedia (vdev v)) ∧
    (r = Z.min (Z.of_nat (length buf)) (v_size (vdev v) - v_pos (vdev v)) ∧ vio_moved v v' r ∧
       dmedia (vdev v') = overwrite (v_pos (vdev v)) (take (Z.to_nat r) buf) (dmedia (vdev v)) ∨
     r = - EIO ∧ vio_lock v' = me ∧ ¬ VioblkReliable η).
Proof. apply write_spec. Qed.

(** A lock that is held stops every later call. *)
Definition stuck (v : vio η) : Prop :=
  (∀ n, vioblk_read patience me base n v = OutOfFuel) ∧ (∀ buf, vioblk_write patience me base buf v = OutOfFuel) ∧
  (∀ p, vioblk_setpos me p v = OutOfFuel).

Lemma held_stuck (v : vio η) : vio_lock v ≠ -1 → stuck v.
Proof.
  intros Hl. unfold stuck, vioblk_read, vioblk_write, vioblk_setpos, vio_acquire, UNLOCK.
  by destruct (Z.eqb_spec (vio_lock v) (- (1))).
Qed.

Lemma setpos_beyond (v : vio η) p : vio_ok v → me ≠ -1 → v_size (vdev v) < p →
  ∃ v', vioblk_setpos me p v = Done (- EINVAL, v') ∧ stuck v'.
Proof.
  intros [_ Hf _ _] Hme Hp. unfold vioblk_setpos. rewrite acquire_free by done. cbn [mbind outcome_bind vdev vio_lock].
  destruct (Z.ltb_spec (v_size (vdev v)) p); [|lia]. eexists. split; [reflexivity|by apply held_stuck].
Qed.

(** C35: reading or writing nothing, and seeking past the end, return with vio_lock
    held: no later read, write or seek on the device returns. *)
Theorem vioblk_early_return_deadlocks (v : vio η) p : vio_ok v → me ≠ -1 → v_size (vdev v) < p →
  (∃ v', vioblk_read patience me base 0 v = Done (0, [], v') ∧ stuck v') ∧
  (∃ v', vioblk_write patience me base [] v = Done (0, v') ∧ stuck v') ∧
  (∃ v', vioblk_setpos me p v = Done (- EINVAL, v') ∧ stuck v').
Proof.
  intros [_ Hf Ho Hw] Hme Hp. unfold vioblk_read, vioblk_write, vioblk_setpos. rewrite !acquire_free by done.
  cbn [mbind outcome_bind vdev vio_lock length]. change (0 =? 0) with true. rewrite Hw.
  destruct (Z.eqb_spec (v_opened (vdev v)) 0); [done|]. destruct (Z.ltb_spec (v_size (vdev v)) p); [|lia].
  split_and!; (eexists; split; [reflexivity|by apply held_stuck]).
Qed.

(** The driver takes the sector number of the device for a block number: with
    blocks of [blk] bytes, reading block [i] returns the bytes from [512 * i] on,
    not those from [blk * i] on. *)
Theorem vioblk_block_size_ignored (v : vio η) blk i : VioblkReliable η → dev_ok base blk (vdev v) → vio_lock v = -1 → v_opened (vdev v) ≠ 0 →
  0 ≤ i → v_pos (vdev v) = blk * i → v_pos (vdev v) < v_size (vdev v) < 2 ^ 63 → blk < 2 ^ 63 →
  512 * i + blk ≤ Z.of_nat (length (dmedia (vdev v))) →
  ∃ v', vioblk_read patience me base blk v = Done (blk, slice (512 * i) blk (dmedia (vdev v)), v').
Proof.
  intros Hrel Hd Hf Ho Hi Hpos Hsz Hb Hm. pose proof (do_unit _ _ _ Hd) as [Hb0 _]. unfold vioblk_read. rewrite acquire_free by done.
  cbn [mbind outcome_bind vdev vio_lock]. destruct (Z.eqb_spec blk 0); [lia|]. destruct (Z.eqb_spec (v_opened (vdev v)) 0); [done|].
  assert (Hdiv : v_pos (vdev v) / v_blksz (vdev v) = i) by (rewrite (do_blksz _ _ _ Hd), Hpos, Z.mul_comm; apply Z.div_mul; lia).
  assert (Hmod : v_pos (vdev v) mod v_blksz (vdev v) = 0) by (rewrite (do_blksz _ _ _ Hd), Hpos, Z.mul_comm; apply Z.mod_mul; lia).
  destruct (request_in_spec patience base blk i (vdev v) Hpat Hd Hi Hm) as (st & d1 & Hreq & Hd1 & Hs1 & Hok & Hst).
  specialize (Hst Hrel) as ->. destruct (Hok eq_refl) as [Hm1 Hbuf]. destruct Hs1 as [So Sr Ss Sp Sb Sm].
  set (fuel := Z.to_nat blk). assert (Hfuel : ∃ k, fuel = S k) by (exists (Nat.pred fuel); lia). destruct Hfuel as [k Hk].
  rewrite Hk. cbn [vioblk_read_loop]. destruct (Z.ltb_spec 0 blk); [|lia]. destruct (Z.leb_spec (v_size (vdev v)) (v_pos (vdev v))); [lia|].
  rewrite Hdiv, Hmod, Hreq, (do_blksz _ _ _ Hd). destruct (Z.eqb_spec blk 0); [lia|]. cbn [mbind outcome_bind].
  change (VIRTIO_BLK_S_OK =? VIRTIO_BLK_S_OK) with true. cbn [negb]. unfold step_len. rewrite !Z.sub_0_r, Z.ltb_irrefl, Hbuf.
  rewrite slice_sub by lia. rewrite Z.add_0_l, slice_length by lia. rewrite Z2Nat.id, Z.eqb_refl by lia. cbn [mbind outcome_bind app].
  rewrite Z.add_0_l, Z.ltb_irrefl. cbn [mbind outcome_bind negb]. rewrite s64_small by lia. eexists. reflexivity.
Qed.

(** ** The contract of the file system *)

Section IoDisk.
Context `{!VioblkReliable η}.

Definition vio_iops : IoOps (vio η) := vioblk_ops patience me base.

#[local] Existing Instance vio_iops.

Lemma vio_seek p v : vio_ok v → 0 ≤ p ≤ Z.of_nat (length (dmedia (vdev v))) →
  ∃ v', ioseek p v = Done (0, v') ∧ vio_ok v' ∧ dmedia (vdev v') = dmedia (vdev v) ∧ v_pos (vdev v') = p.
Proof.
  intros Hv Hp. pose proof (ge_size _ _ (vo_geometry _ Hv)) as (Hs & _).
  destruct (setpos_spec p v Hv) as (v' & He & Hv' & Hm & Hp' & _); [lia|].
  exists v'. unfold ioseek, ioctl. cbn [op_ctl vio_iops vioblk_ops]. unfold vioblk_ioctl.
  change (IOCTL_SETPOS =? IOCTL_GETLEN) with false. change (IOCTL_SETPOS =? IOCTL_GETPOS) with false.
  change (IOCTL_SETPOS =? IOCTL_SETPOS) with true. cbn iota. by rewrite He.
Qed.

Lemma vio_read n v : vio_ok v → 0 < n → v_pos (vdev v) + n ≤ Z.of_nat (length (dmedia (vdev v))) →
  ∃ v', ioread n v = Done (n, slice (v_pos (vdev v)) n (dmedia (vdev v)), v') ∧ vio_ok v' ∧
    dmedia (vdev v') = dmedia (vdev v) ∧ v_pos (vdev v') = v_pos (vdev v) + n.
Proof.
  intros Hv Hn Hl. pose proof (ge_size _ _ (vo_geometry _ Hv)) as (Hs & _ & Hmax). pose proof (ge_pos _ _ (vo_geometry _ Hv)).
  destruct (read_spec n v Hv) as (r & data & v' & He & Hd & [(Hr & Hlen & [Hok Hp _] & Hm)|(_ & _ & Hno)]); [lia| |by destruct Hno].
  rewrite Z.min_l in Hr by lia. subst r. rewrite Hlen in Hd. exists v'. unfold ioread. cbn [op_read vio_iops vioblk_ops].
  rewrite He, <- Hd. done.
Qed.

Lemma vio_write data v : vio_ok v → data ≠ [] → v_pos (vdev v) + Z.of_nat (length data) ≤ Z.of_nat (length (dmedia (vdev v))) →
  ∃ v', iowrite data v = Done (Z.of_nat (length data), v') ∧ vio_ok v' ∧
    dmedia (vdev v') = overwrite (v_pos (vdev v)) data (dmedia (vdev v)) ∧ v_pos (vdev v') = v_pos (vdev v) + Z.of_nat (length data).
Proof.
  intros Hv Hne Hl. pose proof (ge_size _ _ (vo_geometry _ Hv)) as (Hs & _ & Hmax). pose proof (ge_pos _ _ (vo_geometry _ Hv)).
  destruct (write_spec data v Hv Hne) as (r & v' & He & Hlen & [(Hr & [Hok Hp _] & Hm)|(_ & _ & Hno)]); [lia| |by destruct Hno].
  rewrite Z.min_l in Hr by lia. subst r. rewrite Nat2Z.id, take_ge in Hm by lia. exists v'.
  unfold iowrite. cbn [op_write vio_iops vioblk_ops]. destruct data as [|c data]; [done|]. cbn [length iowrite_loop].
  rewrite He. cbn [mbind outcome_bind]. pose proof (length_cons c data).
  destruct (Z.ltb_spec (Z.of_nat (length (c :: data))) 0); [lia|]. destruct (Z.eqb_spec (Z.of_nat (length (c :: data))) 0); [lia|].
  rewrite drop_ge by lia. split; [by destruct data|done].
Qed.

Program Definition vio_disk : IoDisk (vio η) := {|
  contents v := dmedia (vdev v);
  dpos v := v_pos (vdev v);
  disk_ok := vio_ok;
  disk_seek := vio_seek;
  disk_read := vio_read;
  disk_write := vio_write
|}.
Next Obligation. intros v [[_ (? & _ & ?) ?] _ _ _]. lia. Qed.
Next Obligation. intros arg v Hv. by exists 0, v. Qed.
End IoDisk.
End Calls.

(** ** The file system over the driver *)

Section FileSystem.
Context {η : Type} `{VioblkReliable η} (patience : nat) (me base : Z) (Hpat : (vpatience ≤ patience)%nat).

#[local] Instance fs_iops : IoOps (vio η) := vio_iops patience me base.
#[local] Instance fs_disk : IoDisk (vio η) := vio_disk patience me base Hpat.

(** C8: the file system mounted on the block driver, when the low 20 bits of the
    uninitialised half of [blockSpot] are zero: opening a file by its name and reading it
    returns the bytes that the medium of the device holds for it. *)
Theorem vioblk_mount_open_read hi (v : vio η) k s ax x nm i N len rest n buf p h p2 h2 :
  clean_half hi → vio_ok base v → v_pos (vdev v) = 0 → 4096 ≤ Z.of_nat (length (dmedia (vdev v))) → length (boot k) = 4096%nat →
  dir_entry (dmedia (vdev v)) x nm i → image_ok (dmedia (vdev v)) N i len → i < 2 ^ 19 - 1 →
  sched_rep s ax → running s → waitq ax (CondObj p) = [] →
  kmalloc sizeof_lock (kheap s) = Done (p, h) → kmalloc blockNumSize h = Done (p2, h2) → 0 ≤ p2 < 2 ^ 32 →
  0 ≤ n < 2 ^ 63 → Z.min n len ≤ Z.of_nat (length buf) →
  ∃ k1 s1 k2 s2 k3 s3,
    fs_mount v k s = Done (0, k1, s1) ∧
    fs_open (cstr nm rest) k1 s1 = Done (0, Some 0, k2, s2) ∧
    fs_read hi 0 n buf k2 s2 =
      Done (FsDone (Z.min n len) (overwrite 0 (file_bytes (dmedia (vdev v)) N i 0 (Z.min n len)) buf) k3 s3).
Proof. exact (mount_open_read_spec hi v k s x ax nm i N len rest n buf p h p2 h2). Qed.

(** With another half the seek of [block_seek] fails and leaves the device locked. *)
Lemma bad_half_seek hi N i len p (v : vio η) : me ≠ -1 → vio_ok base v → image_ok (dmedia (vdev v)) N i len → 0 ≤ p < len →
  Z.of_nat (length (dmedia (vdev v))) ≤ 2 ^ 44 → ¬ clean_half hi →
  ∃ v', block_seek hi (Some N) i p v = Done v' ∧ stuck patience me base v'.
Proof.
  intros Hme Hv Him Hp Hlen Hhi. destruct (@block_number _ fs_iops fs_disk hi N i len p v Hv Him Hp) as (v1 & Hv1 & Hc & _ & ->).
  pose proof (im_data _ _ _ _ Him p Hp) as Hd. pose proof (im_inode _ _ _ _ Him). unfold data_off in Hd.
  pose proof (Z.mod_pos_bound p 4096 ltac:(lia)). unfold clean_half in Hhi.
  assert (Hres : 0 < block_residue hi < 2 ^ 20) by (unfold block_residue in *; pose proof (Z.mod_pos_bound hi (2 ^ 20) ltac:(lia)); lia).
  set (e := 4096 * (1 + i) + 4 + 4 * (p / 4096)) in *. change (contents v) with (dmedia (vdev v)) in *. change (contents v1) with (dmedia (vdev v1)) in Hc.
  pose proof (ge_size _ _ (vo_geometry _ _ Hv1)) as (Hsz & _). rewrite Hc in Hsz.
  rewrite block_offset by lia. set (q := block_residue hi * 2 ^ 44 + _).
  destruct (setpos_beyond patience me base Hpat v1 q) as (v2 & Hs & Hst); [done|done|unfold q; lia|].
  exists v2. split; [|done]. unfold ioseek, ioctl. cbn [op_ctl fs_iops vio_iops vioblk_ops]. unfold vioblk_ioctl.
  change (IOCTL_SETPOS =? IOCTL_GETLEN) with false. change (IOCTL_SETPOS =? IOCTL_GETPOS) with false.
  change (IOCTL_SETPOS =? IOCTL_SETPOS) with true. cbn iota. by rewrite Hs.
Qed.

(** C24: the other value of the uninitialised half of [blockSpot], on the block driver:
    when one of its low 20 bits is set, no read and no write of at least one byte before
    the end of an open file ever returns, on a medium of at most 2^44 bytes with a
    well-formed image.  The position of the block is then behind the end of the medium,
    the seek to it fails with the driver's lock held, and the transfer waits for that
    lock. *)
Theorem vioblk_bad_half_hangs hi io n buf (k : kfs (vio η)) s N len fd : me ≠ -1 →
  fs_ready k s io N len fd → 0 < n → file_pos fd + n < 2 ^ 64 → file_pos fd < len →
  Z.min n (len - file_pos fd) ≤ Z.of_nat (length buf) →
  Z.of_nat (length (dmedia (vdev (globalIO k)))) ≤ 2 ^ 44 → ¬ clean_half hi →
  fs_read hi io n buf k s = OutOfFuel ∧ fs_write hi io n buf k s = OutOfFuel.
Proof.
  intros Hme [Hok [Hio Hfd] Hops Hsz Hpos Him Hlk [x Hrep] Hrun] Hn Hov Hlt Hbuf Hlen Hhi.
  pose proof (im_size _ _ _ _ Him). set (cnt := Z.min n (len - file_pos fd)) in *.
  unfold fs_read, fs_write. destruct (with_free_lock (fs_read_locked hi io n buf) k s Hlk Hrun) as (lk & _ & ->).
  destruct (with_free_lock (fs_write_locked hi io n buf) k s Hlk Hrun) as (lk' & _ & ->).
  unfold fs_read_locked, fs_write_locked, get_fd. destruct (Z.ltb_spec io 0); [lia|]. cbn [fileArray set_lock]. rewrite Hfd.
  cbn [deref mbind outcome_bind globalIO set_lock].
  destruct (fs_locate_spec fd (globalIO k) N len Hok Hops Him) as (d1 & -> & Hok1 & Hc1). cbn [mbind outcome_bind].
  rewrite clip_spec by lia. fold cnt. rewrite <- Hc1 in Him.
  destruct (bad_half_seek hi N (f_inode fd) len (file_pos fd) d1 Hme Hok1 Him) as (v & Hseek & Hrd & Hwr & _);
    [lia|change (Z.of_nat (length (contents d1)) ≤ 2 ^ 44); by rewrite Hc1|done|].
  destruct (chunk_range (file_pos fd) cnt) as [Hch _]; [lia..|].
  cbn [fs_read_loop fs_write_loop]. destruct (Z.ltb_spec 0 cnt); [|lia]. rewrite Hseek. cbn [mbind outcome_bind].
  split.
  - unfold ioread. cbn [op_read fs_iops vio_iops vioblk_ops]. by rewrite Hrd.
  - change (drop (Z.to_nat 0) buf) with buf. rewrite length_take. change (0 <=? 0) with true. rewrite bool_decide_true by lia. cbn [andb mbind outcome_bind].
    unfold iowrite. cbn [op_write fs_iops vio_iops vioblk_ops].
    destruct (take (Z.to_nat (chunk (file_pos fd) cnt)) buf) as [|c data] eqn:Hd; [apply (f_equal length) in Hd; rewrite length_take in Hd; cbn in Hd; lia|].
    cbn [length iowrite_loop]. by rewrite Hwr.
Qed.
End FileSystem.

(** ** Waiting for a request and the interrupt *)

(** What the device promises about its interrupt: it is pending from the completion
    of a request until it is acknowledged. *)
Class VioblkIrq (η : Type) `{VioblkHw η} : Type := {
  complete : η → η;
  complete_pending h : Z.land (vget interrupt_status (complete h)) 1 ≠ 0;
  notify_pending q h : vget interrupt_status (vset queue_notify q h) = vget interrupt_status h
}.

Inductive vio_event : Type :=
| EvSubmit
| EvComplete
| EvIsr
| EvWait
| EvSched (op : sched_op).

Section Interrupt.
Context {η : Type} `{VioblkIrq η} (base : Z).

Definition outstanding (d : vioblk_device η) : Prop := avail_idx (vq_avail (v_vq d)) ≠ used_idx (vq_used (v_vq d)).
Definition irq_pending (d : vioblk_device η) : Prop := Z.land (vget interrupt_status (vregs d)) 1 ≠ 0.

Definition submit (d : vioblk_device η) : vioblk_device η :=
  let q := v_vq d in let a := vq_avail q in
  set_vdma (Virtq (VAvail (avail_flags a) (u16 (avail_idx a + 1)) 0) (vq_used q) (vq_desc q) (vq_header q) (vq_status q))
    (v_blkbuf d) (vset queue_notify 0 (vregs d)) d.
Definition completed (d : vioblk_device η) : vioblk_device η :=
  let q := v_vq d in let u := vq_used q in
  set_vdma (Virtq (vq_avail q) (VUsed (used_flags u) (avail_idx (vq_avail q)) (used_ring0 u)) (vq_desc q) (vq_header q) (vq_status q))
    (v_blkbuf d) (complete (vregs d)) d.

(** One event: a thread submits a request, the device completes it, an interrupt, a
    thread comes to the wait of its request (again), anything else that the threads
    do. *)
Definition vio_do (ev : vio_event) (d : vioblk_device η) (s : sched) : outcome (vioblk_device η * sched) :=
  match ev with
  | EvSubmit => Done (submit d, s)
  | EvComplete => Done (completed d, s)
  | EvIsr => vioblk_isr base d s
  | EvWait => r ← used_wait base d s; match r with Returned _ s | Blocked _ s => Done (d, s) end
  | EvSched op => s ← run_op op s; Done (d, s)
  end.

Definition vio_allowed (ev : vio_event) (d : vioblk_device η) (s : sched) : Prop :=
  match ev with
  | EvSubmit => ¬ outstanding d
  | EvComplete => outstanding d
  | EvIsr => True
  | EvWait => CURTHR s ≠ idle_thread s
  | EvSched op => op_allowed op s ∧ op ≠ OpWait (used_updated base)
  end.

Inductive vio_reach : vioblk_device η → sched → Prop :=
| vio_start d s a :
    sched_rep s a → running s → waitq a (used_updated base) = [] →
    0 ≤ avail_idx (vq_avail (v_vq d)) < 2 ^ 16 → vio_reach d s
| vio_step ev d s d' s' :
    vio_reach d s → vio_allowed ev d s → vio_do ev d s = Done (d', s') → vio_reach d' s'.

(** Threads wait only for a request that is outstanding, or whose interrupt is
    still to come. *)
Record wait_inv (d : vioblk_device η) (s : sched) (a : asched) : Prop := {
  wi_rep : sched_rep s a;
  wi_run : running s;
  wi_wait : waitq a (used_updated base) ≠ [] → outstanding d ∨ irq_pending d;
  wi_idx : 0 ≤ avail_idx (vq_avail (v_vq d)) < 2 ^ 16
}.

Lemma a_suspend_waitq still a a' c : a_suspend still a = Some a' → waitq a' c = waitq a c.
Proof. unfold a_suspend. destruct (ready a); [done|]. by intros [= <-]. Qed.

Lemma a_step_waitq op a a' c : a_step op a a' → op ≠ OpWait c → waitq a' c ≠ [] → waitq a c ≠ [].
Proof.
  intros Hs Hne. destruct Hs as [a a' Hs|c' a a' Hs|c' a|p a a' Hs].
  - by rewrite (a_suspend_waitq _ _ _ _ Hs).
  - unfold a_wait in Hs. rewrite (a_suspend_waitq _ _ _ _ Hs). cbn [waitq]. rewrite set_waitq_ne by congruence. done.
  - cbn [a_broadcast waitq]. unfold set_waitq. by case_decide.
  - rewrite (a_suspend_waitq _ _ _ _ Hs). cbn [a_broadcast waitq]. unfold set_waitq. by case_decide.
Qed.

Lemma isr_spec d s a : sched_rep s a → running s →
  ∃ d' s' a', vioblk_isr base d s = Done (d', s') ∧ v_vq d' = v_vq d ∧ running s' ∧ sched_rep s' a' ∧
    (irq_pending d → a' = a_broadcast (used_updated base) a) ∧ (¬ irq_pending d → a' = a).
Proof.
  intros Hrep Hrun. unfold vioblk_isr. set (d' := set_vdma _ _ _ d).
  destruct (decide (Z.land (vget interrupt_status (vregs d)) 1 = 0)) as [Hz|Hz].
  - rewrite (proj2 (Z.eqb_eq _ _) Hz). cbn [negb mbind outcome_bind]. exists d', s, a. split_and!; try done.
  - rewrite (proj2 (Z.eqb_neq _ _) Hz). cbn [negb].
    destruct (run_op_refines (OpBroadcast (used_updated base)) s a Hrep Hrun I) as (s' & a' & Hb & Ha & Hrep' & Hrun' & _).
    cbn [run_op] in Hb. rewrite Hb. cbn [mbind outcome_bind]. inversion Ha; subst. exists d', s', (a_broadcast (used_updated base) a). by split_and!.
Qed.

Lemma wait_spec d s a : sched_rep s a → running s → CURTHR s ≠ idle_thread s →
  (¬ outstanding d → ∃ s', used_wait base d s = Done (Returned tt s') ∧ sched_rep s' a ∧ running s') ∧
  (outstanding d → ∃ saved s' a', used_wait base d s = Done (Blocked saved s') ∧ sched_rep s' a' ∧ running s' ∧
     a_wait (used_updated base) a = Some a').
Proof.
  intros Hrep Hrun Hid. unfold used_wait, used_test, intr_disable, outstanding.
  assert (Hrep' : sched_rep (with_sie false s) a) by by apply sched_rep_sie.
  split; intros Ho.
  - rewrite (proj2 (Z.eqb_eq _ _)) by (destruct (decide (avail_idx (vq_avail (v_vq d)) = used_idx (vq_used (v_vq d)))); tauto).
    eexists. split; [reflexivity|]. split; [by apply sched_rep_sie|done].
  - rewrite (proj2 (Z.eqb_neq _ _)) by done.
    destruct (run_op_refines (OpWait (used_updated base)) (with_sie false s) a Hrep' Hrun Hid) as (s' & a' & Hw & Ha & Hrep2 & Hrun2 & _).
    cbn [run_op] in Hw. apply bind_Done in Hw as ([saved s1] & Hw & [= <-]). rewrite Hw. cbn [mbind outcome_bind].
    inversion Ha; subst. exists saved, s1, a'. by split_and!.
Qed.

Lemma wait_inv_step ev d s a d' s' : wait_inv d s a → vio_allowed ev d s → vio_do ev d s = Done (d', s') → ∃ a', wait_inv d' s' a'.
Proof.
  intros [Hrep Hrun Hw Hix] Hal Hdo. destruct ev as [| | | |op]; cbn [vio_do vio_allowed] in *.
  - injection Hdo as <- <-. exists a. split; [done|done| |apply u16_range]. intros _. left. unfold outstanding in *. cbn.
    destruct (decide (avail_idx (vq_avail (v_vq d)) = used_idx (vq_used (v_vq d)))) as [<-|]; [|tauto]. by apply u16_succ_ne.
  - injection Hdo as <- <-. exists a. split; [done|done| |done]. intros _. right. apply complete_pending.
  - destruct (isr_spec d s a Hrep Hrun) as (d1 & s1 & a1 & Hi & Hq & Hrun1 & Hrep1 & Hp & Hnp). rewrite Hi in Hdo. injection Hdo as <- <-.
    exists a1. split; [done|done| |by rewrite Hq]. unfold outstanding. rewrite Hq. intros Hne.
    destruct (decide (Z.land (vget interrupt_status (vregs d)) 1 = 0)) as [Hz|Hz].
    + rewrite Hnp in Hne by (unfold irq_pending; tauto). destruct (Hw Hne) as [?|Hip]; [by left|done].
    + rewrite Hp in Hne by done. cbn [a_broadcast waitq] in Hne. by rewrite set_waitq_eq in Hne.
  - destruct (wait_spec d s a Hrep Hrun Hal) as [Hret Hblk].
    destruct (decide (avail_idx (vq_avail (v_vq d)) = used_idx (vq_used (v_vq d)))) as [He|Hne].
    + destruct (Hret ltac:(unfold outstanding; tauto)) as (s1 & Hu & ? & ?). rewrite Hu in Hdo. injection Hdo as <- <-. by exists a.
    + destruct (Hblk Hne) as (saved & s1 & a1 & Hu & ? & ? & _). rewrite Hu in Hdo. injection Hdo as <- <-.
      exists a1. split; [done|done| |done]. intros _. by left.
  - destruct Hal as [Hal Hop]. destruct (run_op_refines op s a Hrep Hrun Hal) as (s1 & a1 & Hr & Ha & Hrep1 & Hrun1 & _).
    rewrite Hr in Hdo. injection Hdo as <- <-. exists a1. split; [done|done| |done]. intros Hne. apply Hw. by eapply a_step_waitq.
Qed.

(** C17: no wake-up is lost: whatever the order of submissions, completions,
    interrupts, waits and scheduling, threads that wait for a request that has been
    completed have its interrupt still pending, and the interrupt makes all of them
    ready; the test of the loop and the wait are one step, because interrupts are
    off between them. *)
Theorem vioblk_no_lost_wakeup d s :
  vio_reach d s →
  ∃ a, sched_rep s a ∧ (¬ outstanding d → waitq a (used_updated base) ≠ [] → irq_pending d) ∧
    (irq_pending d → ∃ d' s' a', vioblk_isr base d s = Done (d', s') ∧ sched_rep s' a' ∧
       waitq a' (used_updated base) = [] ∧ ∀ t, t ∈ waitq a (used_updated base) → t ∈ ready a').
Proof.
  intros Hr. assert (Hinv : ∃ a, wait_inv d s a).
  { induction Hr as [d s a Hrep Hrun Hw Hix|ev d s d' s' _ [a IH] Hal Hdo]; [exists a; split; try done|by eapply wait_inv_step]. }
  destruct Hinv as [a [Hrep Hrun Hw Hix]]. exists a. split; [done|]. split.
  - intros Ho Hne. destruct (Hw Hne); tauto.
  - intros Hp. destruct (isr_spec d s a Hrep Hrun) as (d' & s' & a' & Hi & _ & _ & Hrep' & Ha & _). rewrite (Ha Hp) in *.
    exists d', s', (a_broadcast (used_updated base) a). split; [done|]. split; [done|]. cbn [a_broadcast waitq ready].
    split; [apply set_waitq_eq|]. intros t Ht. apply elem_of_app. by right.
Qed.
End Interrupt.
