(* ===== verification/VioblkSetup.v ===== *)
(** Attaching and opening the virtio block device, and a simulated device on which
    the theorems about the driver are tried. *)
From Stdlib Require Import ZArith Lia.
From stdpp Require Import base gmap list strings.
From S2P Require Import Prelude CString Pages Heap Pte Memory Thread ThreadLists Scheduler Lock Io IoSpec Disk Kfs KfsSpec Timer Plic Intr Device Virtio Vioblk VioblkSpec VioblkDisk.

Open Scope Z_scope.

(** What a device promises about its configuration: writing a register other than
    the notification changes neither the medium nor the configuration space; the
    capacity counts sectors of 512 bytes; a queue that was set up and made ready is
    live. *)
Class VioblkConfig (η : Type) `{VioblkLaws η} : Type := {
  cfg_media r v h : r ≠ queue_notify → media (vset r v h) = media h;
  cfg_const c r v h : r ≠ queue_notify → c ∈ [device_id; blk_capacity; blk_blk_size] → vget c (vset r v h) = vget c h;
  cfg_live base st h :
    live base (virtio_enable_virtq 0 (vset status st
      (virtio_attach_virtq 0 1 (base + off_desc) (base + off_used) (base + off_avail) h)))
}.

Section Setup.
Context {η : Type} `{!VirtioHw η, !VioblkHw η, !VioblkLaws η, !VioblkConfig η, !VirtioFeatures η}.

(** [h'] is [h] after some writes to configuration registers. *)
Record configured (h h' : η) : Prop := {
  cf_media : media h' = media h;
  cf_const c : c ∈ [device_id; blk_capacity; blk_blk_size] → vget c h' = vget c h
}.

#[export] Instance configured_preorder : PreOrder configured.
Proof. split; [by split|]. intros h1 h2 h3 [H1 H2] [H3 H4]. split; [congruence|]. intros c Hc. by rewrite H4, H2. Qed.

Lemma configured_vset r v h : r ≠ queue_notify → configured h (vset r v h).
Proof. intros Hr. split; [by apply cfg_media|]. intros c Hc. by apply cfg_const. Qed.

Hint Resolve configured_vset : core.

Ltac config := first [done | apply configured_vset; done | etrans; [|apply configured_vset; done]; config].

Lemma check_needed_configured needed : ∀ i h, configured h (check_needed i needed h).2.
Proof.
  induction needed as [|w needed IH]; intros i h; cbn [check_needed]; [done|]. case_match; [apply IH|].
  case_match; [|by apply configured_vset]. etrans; [by apply (configured_vset device_features_sel i)|apply IH].
Qed.

Lemma request_wanted_configured wanted : ∀ i enabled h, configured h (request_wanted i wanted enabled h).2.
Proof.
  induction wanted as [|w wanted IH]; intros i [|e enabled] h; cbn [request_wanted]; try done.
  set (g := if w =? 0 then _ else _). assert (Hg : configured h g.2) by (unfold g; case_match; cbn [snd]; config).
  destruct g as [e' h1]. specialize (IH (i + 1) enabled h1). destruct (request_wanted _ _ _ _) as [en h2]. cbn [snd] in *. by etrans.
Qed.

Lemma negotiate_configured enabled wanted needed h rc en h' :
  virtio_negotiate_features enabled wanted needed h = Done (rc, en, h') → configured h h'.
Proof.
  unfold virtio_negotiate_features. pose proof (check_needed_configured needed 0 h) as Hc.
  destruct (check_needed 0 needed h) as [ok h1]. cbn [snd] in Hc. destruct ok; cbn [negb]; [|by intros [= _ _ <-]].
  pose proof (request_wanted_configured wanted 0 enabled h1) as Hw. destruct (request_wanted 0 wanted enabled h1) as [en1 h2]. cbn [snd] in Hw.
  intros Hn. apply bind_Done in Hn as (u & _ & [= _ _ <-]). etrans; [exact Hc|]. etrans; [exact Hw|]. by apply configured_vset.
Qed.

(** The driver asks for the block size and the topology only: when the needed
    features are offered, the negotiation succeeds, but the device has not accepted
    INDIRECT_DESC or RING_RESET, which the driver goes on to use; otherwise it
    fails and nothing new is accepted. *)
Theorem vioblk_negotiation h :
  ∃ rc enabled h', virtio_negotiate_features (replicate 4 None) wanted_features needed_features h = Done (rc, enabled, h') ∧
    (rc = 0 ↔ Z.testbit (offered h 0) VIRTIO_F_INDIRECT_DESC = true ∧ Z.testbit (offered h 1) (VIRTIO_F_RING_RESET - 32) = true) ∧
    (rc = 0 → ∀ k, 0 ≤ k → Z.testbit (accepted h' 0) k =
       Z.testbit (offered h 0) k && ((k =? VIRTIO_BLK_F_BLK_SIZE) || (k =? VIRTIO_BLK_F_TOPOLOGY))) ∧
    (rc ≠ 0 → ∀ j, accepted h' j = accepted h j) ∧
    (∀ j, 1 ≤ j < VIRTIO_FEATLEN → accepted h' j = accepted h j).
Proof.
  destruct (negotiate_spec (replicate 4 None) wanted_features needed_features h eq_refl) as (rc & en & h' & Hn & _ & Hor).
  exists rc, en, h'. split; [done|].
  assert (Hbit : ∀ w b, 0 ≤ b → Z.land w (Z.shiftl 1 b) = Z.shiftl 1 b ↔ Z.testbit w b = true).
  { intros w b Hb. rewrite Z.shiftl_1_l. split.
    - intros Hl. assert (Z.testbit (Z.land w (2 ^ b)) b = true) as Ht by (rewrite Hl; apply Z.pow2_bits_true; lia).
      rewrite Z.land_spec in Ht. by apply andb_true_iff in Ht as [? _].
    - intros Ht. apply Z.bits_inj'. intros k Hk. rewrite Z.land_spec, Z.pow2_bits_eqb by lia.
      destruct (Z.eqb_spec b k) as [->|]; [by rewrite Ht|]. apply andb_false_r. }
  assert (Hne : needed_features = [Z.shiftl 1 28; Z.shiftl 1 8; 0; 0]) by done.
  assert (Hwf : wanted_features = [Z.lor (Z.shiftl 1 6) (Z.shiftl 1 10); 0; 0; 0]) by done.
  rewrite Hne, Hwf in *. change VIRTIO_F_INDIRECT_DESC with 28. change (VIRTIO_F_RING_RESET - 32) with 8.
  rewrite <- !Hbit by lia. destruct Hor as [(-> & -> & Hac & k & w & Hk & Hlack)|(-> & Hall & _ & Hacc)].
  - split.
    { split; [done|]. intros [H0 H1]. exfalso. apply Hlack. destruct k as [|[|[|[|k]]]]; cbn in Hk; try done; injection Hk as <-; try done;
        by rewrite Z.land_0_r. }
    split; [done|]. split; intros; apply Hac.
  - split; [split; [|done]; intros _; split; [apply (Hall 0%nat _ eq_refl)|apply (Hall 1%nat _ eq_refl)]|]. split; [|split; [done|]].
    + intros _ k Hk. rewrite (Hacc 0%nat _ eq_refl : accepted h' 0 = _). change (Z.lor (Z.shiftl 1 6) (Z.shiftl 1 10) =? 0) with false. cbn iota.
      rewrite Z.land_spec, Z.lor_spec, !Z.shiftl_1_l, !Z.pow2_bits_eqb by lia. by rewrite (Z.eqb_sym 6), (Z.eqb_sym 10).
    + intros j Hj. assert (j = 1 ∨ j = 2 ∨ j = 3) as [->|[->| ->]] by (unfold VIRTIO_FEATLEN in Hj; lia);
        [exact (Hacc 1%nat _ eq_refl)|exact (Hacc 2%nat _ eq_refl)|exact (Hacc 3%nat _ eq_refl)].
Qed.

(** What [vioblk_attach] leaves, when the device offers what is needed. *)
Lemma attach_negotiates h : Z.testbit (offered h 0) VIRTIO_F_INDIRECT_DESC = true →
  Z.testbit (offered h 1) (VIRTIO_F_RING_RESET - 32) = true →
  ∃ en h' b, virtio_negotiate_features (replicate 4 None) wanted_features needed_features h = Done (0, en, h') ∧
    virtio_featset_test en VIRTIO_BLK_F_BLK_SIZE = Done b ∧ configured h h'.
Proof.
  intros H0 H1. destruct (negotiate_spec (replicate 4 None) wanted_features needed_features h eq_refl) as (rc & en & h' & Hn & _ & Hor).
  pose proof (negotiate_configured _ _ _ _ _ _ _ Hn) as Hc. destruct Hor as [(_ & _ & _ & k & w & Hk & Hlack)|(-> & _ & Hen & _)].
  - exfalso. apply Hlack. assert (Hbit : ∀ w b, 0 ≤ b → Z.testbit w b = true → Z.land w (2 ^ b) = 2 ^ b).
    { intros w' b Hb Ht. apply Z.bits_inj'. intros j Hj. rewrite Z.land_spec, Z.pow2_bits_eqb by lia.
      destruct (Z.eqb_spec b j) as [->|]; [by rewrite Ht|]. apply andb_false_r. }
    change needed_features with [2 ^ 28; 2 ^ 8; 0; 0] in Hk.
    destruct k as [|[|[|[|k]]]]; cbn [lookup list_lookup] in Hk; try done; injection Hk as <-;
      [by apply Hbit|by apply Hbit|by rewrite Z.land_0_r..].
  - exists en, h'. specialize (Hen 0%nat (Z.lor (2 ^ 6) (2 ^ 10)) eq_refl ltac:(done)).
    unfold virtio_featset_test. change (Z.to_nat (VIRTIO_BLK_F_BLK_SIZE / 32)) with 0%nat. rewrite Hen. cbn [deref mbind outcome_bind]. eauto.
Qed.

Context {π D : Type} `{PlicDev π} `{DriverState D (vio_drivers η)}.

Abbreviation kstate_vio := (kstate π D).

Abbreviation blk := [98; 108; 107].
Abbreviation blk_reg base := (Reg blk [] vioblk_open base).

(** The structure [d] of a device that is attached and not yet open: opening it makes
    a driver that is ready for use, with the medium of [h], at position 0. *)
Record attached (irqno base : Z) (h : η) (d : vioblk_device η) : Prop := {
  at_closed : v_opened d = 0;
  at_irqno : v_irqno d = irqno;
  at_ok : ∀ d', d' = set_vopened (virtio_enable_virtq 0 (vregs d)) true (ioref (v_refcnt d)) 1 d →
    vio_ok base (Vio d' (-1)) ∧ v_pos d' = 0 ∧ dmedia d' = media h
}.

(** A device with blocks of 512 bytes that offers what the driver needs. *)
Record blk_hardware (h : η) : Prop := {
  bh_id : vget device_id h = VIRTIO_ID_BLOCK;
  bh_blksz : vget blk_blk_size h = 512;
  bh_capacity : 512 * vget blk_capacity h = Z.of_nat (length (media h));
  bh_size : Z.of_nat (length (media h)) < 2 ^ 63;
  bh_indirect : Z.testbit (offered h 0) VIRTIO_F_INDIRECT_DESC = true;
  bh_reset : Z.testbit (offered h 1) (VIRTIO_F_RING_RESET - 32) = true
}.

Lemma vio_state_set base d (k : kstate_vio) :
  vio_state (set_vdev base d k) = VioDrivers (blk_lock (vio_state k)) (<[base := d]> (blk_devs (vio_state k))).
Proof. unfold vio_state at 1, set_vdev. cbn [drivers]. apply driver_put. Qed.

Lemma vioblk_attach_spec irqno junk h tab (k : kstate_vio) devs l p1 hp1 base hp2 :
  blk_hardware h → tab_ok tab → 0 ≤ irqno < NIRQ → registry devs l → (length l < Z.to_nat NDEV)%nat → (512 ≤ length junk)%nat →
  kmalloc 32 (kheap (ksched k)) = Done (p1, hp1) → kmalloc (u64 (sizeof_vioblk_device + 512)) hp1 = Done (base, hp2) →
  ∃ d, attached irqno base h d ∧
    vioblk_attach irqno junk h (tab, k) devs =
      Done ((<[Z.to_nat irqno := IsrEntry (Some vioblk_isr_entry) base VIOBLK_IRQ_PRIO]> tab,
             KState (plic k) (ktimer k) (with_heap hp2 (condition_init (CondObj p1) (with_heap hp1 (ksched k))))
               (put_driver (VioDrivers (Some (Lock (CondObj p1) (-1))) (<[base := d]> (blk_devs (vio_state k)))) (drivers k))),
            <[length l := entry (blk_reg base)]> devs).
Proof.
  intros [Hid Hbs Hcap0 Hsize Ho0 Ho1] Htab Hirq Hreg Hlen Hjunk Hk1 Hk2. unfold vioblk_attach. rewrite Hid, Z.eqb_refl. cbn [kassert mbind outcome_bind].
  set (h1 := vset status _ h). assert (Hc1 : configured h h1) by (apply configured_vset; done).
  destruct (attach_negotiates h1) as (en & h2 & b & Hn & Hb & Hc2); [unfold h1; by rewrite status_offered|unfold h1; by rewrite status_offered|].
  rewrite Hn. cbn [mbind outcome_bind]. rewrite Hb. cbn [mbind outcome_bind].
  assert (Hc : configured h h2) by by etrans.
  assert (Hblk : (if b then vget blk_blk_size h2 else 512) = 512).
  { destruct b; [|done]. rewrite (cf_const _ _ Hc); [done|]. set_solver. }
  rewrite Hblk, Hk1. cbn [mbind outcome_bind]. unfold lock_init.
  change (kheap (condition_init (CondObj p1) (with_heap hp1 (ksched k)))) with hp1. rewrite Hk2. cbn [mbind outcome_bind].
  set (h3 := virtio_attach_virtq _ _ _ _ _ h2).
  assert (Hc3 : configured h2 h3) by (unfold h3, virtio_attach_virtq; config).
  unfold intr_register_isr at 1. destruct (Z.ltb_spec irqno 0); [lia|]. destruct (Z.leb_spec NIRQ irqno); [lia|]. cbn [orb mbind outcome_bind].
  change (VIOBLK_IRQ_PRIO <=? 0) with false. cbn iota.
  assert (Hstr : is_str blk) by (repeat constructor; done).
  unfold blk_name. rewrite (device_register_spec _ _ _ _ _ _ Hreg Hstr), decide_False by lia. cbn [mbind outcome_bind].
  set (h4 := vset status _ h3). assert (Hc4 : configured h h4) by (etrans; [exact Hc|]; etrans; [exact Hc3|]; apply configured_vset; done).
  set (cap := vget blk_capacity h2). set (d0 := VioBlk h4 _ _ _ _ _ _ _ _ _ _ _ _ _). exists d0. split; [|reflexivity].
  split; [done|unfold d0, NIRQ in *; cbn [v_irqno]; apply u16_small; lia|]. intros d1 ->. cbn [vregs d0].
  set (h5 := virtio_enable_virtq 0 h4). assert (Hc5 : configured h h5).
  { etrans; [exact Hc4|]. unfold h5, virtio_enable_virtq. config. }
  assert (Hmedia : media h5 = media h) by apply Hc5.
  assert (Hcap : u64 (cap * 512) = Z.of_nat (length (media h5))).
  { unfold cap. rewrite (cf_const _ _ Hc) by set_solver. rewrite Hmedia, <- Hcap0, Z.mul_comm. apply u64_small. lia. }
  split; [|done]. split; [|done|done|done]. split.
  - split; try done; [apply cfg_live|]; unfold d0; cbn [vdev set_vopened v_blkbuf]; rewrite length_take; lia.
  - unfold d0, dmedia. cbn [vdev set_vopened v_size vregs]. split; [exact Hcap|]. rewrite Hcap, Hmedia. split; [|done].
    rewrite <- Hcap0, Z.mul_comm. apply Z.mod_mul. lia.
  - unfold d0. cbn [vdev set_vopened v_size v_pos]. rewrite Hcap. lia.
Qed.

(** Opening it by its name. *)
Lemma open_blk base devs l rest st : registry devs l → (length l < Z.to_nat NDEV)%nat →
  device_open (cstr blk rest) (Z.of_nat (length (named blk l))) (<[length l := entry (blk_reg base)]> devs) st = vioblk_open base st.
Proof.
  intros Hreg Hlen. assert (Hstr : is_str blk) by (repeat constructor; done).
  pose proof (registry_insert devs l (blk_reg base) Hreg ltac:(lia) Hstr) as Hreg1.
  rewrite (device_open_spec _ _ _ _ _ _ Hreg1 Hstr) by lia.
  assert (Hnamed : named blk (l ++ [blk_reg base]) = named blk l ++ [blk_reg base]).
  { unfold named. rewrite filter_app. f_equal. }
  rewrite Hnamed, Nat2Z.id. by rewrite list_lookup_middle.
Qed.

Lemma vioblk_open_attached irqno base h d tab (k : kstate_vio) e :
  attached irqno base h d → blk_devs (vio_state k) !! base = Some d → isr_lookup irqno tab = Done e → isr e ≠ None →
  ∃ p, vioblk_open base (tab, k) = Done (0, Some base, (tab, set_vdev base
      (set_vopened (virtio_enable_virtq 0 (vregs d)) true (ioref (v_refcnt d)) 1 d)
      (KState p (ktimer k) (condition_init (used_updated base) (ksched k)) (drivers k)))).
Proof.
  intros [Hcl Hirq _] Hd Hl He. unfold vioblk_open. rewrite Hd. cbn [deref mbind outcome_bind]. rewrite Hcl.
  change (0 =? 0) with true. cbn [negb]. rewrite Hirq. unfold intr_enable_irq. rewrite Hl. cbn [mbind outcome_bind].
  destruct (isr e); [|done]. cbn [mbind outcome_bind]. eexists. reflexivity.
Qed.

(** Attaching a block device with blocks of 512 bytes and opening it by its
    name yields a driver that is ready for use: registered under the next instance
    number, its interrupt routed to the driver, the whole medium in range, at
    position 0, with the lock free; a second open is refused. *)
Theorem vioblk_attach_open irqno junk h tab (k : kstate_vio) devs l p1 hp1 base hp2 rest :
  blk_hardware h → tab_ok tab → 0 ≤ irqno < NIRQ → registry devs l → (length l < Z.to_nat NDEV)%nat → (512 ≤ length junk)%nat →
  kmalloc 32 (kheap (ksched k)) = Done (p1, hp1) → kmalloc (u64 (sizeof_vioblk_device + 512)) hp1 = Done (base, hp2) →
  ∃ st devs' st' d lk,
    vioblk_attach irqno junk h (tab, k) devs = Done (st, devs') ∧
    device_open (cstr blk rest) (Z.of_nat (length (named blk l))) devs' st = Done (0, Some base, st') ∧
    blk_devs (vio_state st'.2) !! base = Some d ∧ blk_lock (vio_state st'.2) = Some lk ∧ lock_tid lk = -1 ∧
    vio_ok base (Vio d (-1)) ∧ v_pos d = 0 ∧ dmedia d = media h ∧
    isr_lookup irqno st'.1 = Done (IsrEntry (Some vioblk_isr_entry) base VIOBLK_IRQ_PRIO) ∧
    device_open (cstr blk rest) (Z.of_nat (length (named blk l))) devs' st' = Done (- EBUSY, None, st').
Proof.
  intros Hh Htab Hirq Hreg Hlen Hjunk Hk1 Hk2.
  destruct (vioblk_attach_spec irqno junk h tab k devs l p1 hp1 base hp2) as (d & Hat & He); try done.
  set (tab1 := <[_ := _]> tab) in He. set (k1 := KState _ _ _ _) in He.
  assert (Hl : isr_lookup irqno tab1 = Done (IsrEntry (Some vioblk_isr_entry) base VIOBLK_IRQ_PRIO)).
  { unfold isr_lookup, tab1. destruct (Z.ltb_spec irqno 0); [lia|]. unfold tab_ok, NIRQ in *. by rewrite list_lookup_insert_eq by lia. }
  assert (Hd : blk_devs (vio_state k1) !! base = Some d).
  { unfold vio_state, k1. cbn [drivers]. rewrite driver_put. apply lookup_insert_eq. }
  destruct (vioblk_open_attached _ _ _ _ tab1 k1 _ Hat Hd Hl ltac:(done)) as (p & Ho). destruct (at_ok _ _ _ _ Hat _ eq_refl) as (Hok & Hp & Hm).
  eexists _, _, _, _, _. split; [exact He|]. split; [rewrite open_blk by done; exact Ho|].
  cbn [fst snd]. rewrite vio_state_set. cbn [blk_devs blk_lock]. split; [apply lookup_insert_eq|].
  split; [unfold vio_state; cbn [drivers k1]; rewrite driver_put; reflexivity|]. split; [done|].
  split; [exact Hok|]. split; [exact Hp|]. split; [exact Hm|]. split; [exact Hl|].
  rewrite open_blk by done. unfold vioblk_open. rewrite vio_state_set. cbn [blk_devs]. rewrite lookup_insert_eq. done.
Qed.
End Setup.

(** ** A simulated device *)

(** Without a medium it is an empty slot. *)
Record blk_sim : Type := BlkSim {
  sim_media : list Z;
  sim_busy : bool;
  sim_isr : Z;
  sim_regs : vreg → Z;
  sim_accepted : Z → Z
}.

Definition sim_offered (i : Z) : Z := if i =? 0 then 2 ^ 6 + 2 ^ 28 else if i =? 1 then 2 ^ 8 else 0.

Definition sim_set (r : vreg) (v : Z) (h : blk_sim) : blk_sim :=
  let regs r' := if decide (r' = r) then v else sim_regs h r' in
  match r with
  | queue_notify => BlkSim (sim_media h) true (sim_isr h) (sim_regs h) (sim_accepted h)
  | interrupt_ack => BlkSim (sim_media h) (sim_busy h) (Z.land (sim_isr h) (Z.lnot v)) (sim_regs h) (sim_accepted h)
  | driver_features =>
      let sel := sim_regs h driver_features_sel in
      BlkSim (sim_media h) (sim_busy h) (sim_isr h) regs (λ j, if decide (j = sel) then v else sim_accepted h j)
  | queue_ready => BlkSim (sim_media h) false (sim_isr h) regs (sim_accepted h)
  | _ => BlkSim (sim_media h) (sim_busy h) (sim_isr h) regs (sim_accepted h)
  end.

#[export] Instance sim_hw : VirtioHw blk_sim := {
  vget r h :=
    match r with
    | magic_value => VIRTIO_MAGIC
    | version => 2
    | device_id => match sim_media h with [] => VIRTIO_ID_NONE | _ => VIRTIO_ID_BLOCK end
    | device_features => sim_offered (sim_regs h device_features_sel)
    | interrupt_status => sim_isr h
    | blk_capacity => Z.of_nat (length (sim_media h)) / 512
    | blk_blk_size => 512
    | r => sim_regs h r
    end;
  vset := sim_set
}.

(** It serves a request as soon as it runs. *)
Definition sim_serve (r : blk_request) (b : list Z) (h : blk_sim) : list Z * blk_sim :=
  let '(m, b) := if br_in r then (sim_media h, overwrite 0 (slice (512 * br_sector r) (br_len r) (sim_media h)) b)
                 else (overwrite (512 * br_sector r) (take (Z.to_nat (br_len r)) b) (sim_media h), b) in
  (b, BlkSim m false (Z.lor (sim_isr h) 1) (sim_regs h) (sim_accepted h)).

Definition sim_run (base : Z) (x : virtq * list Z * blk_sim) : virtq * list Z * blk_sim :=
  let '(q, b, h) := x in
  if sim_busy h then
    match decode base q with
    | Some r =>
        let '(b, h) := sim_serve r b h in
        let u := vq_used q in
        (Virtq (vq_avail q) (VUsed (used_flags u) (avail_idx (vq_avail q)) (VUsedElem 0 (br_len r))) (vq_desc q) (vq_header q) VIRTIO_BLK_S_OK, b, h)
    | None => x
    end
  else x.

#[export] Instance sim_blk : VioblkHw blk_sim := { vrun := sim_run }.

#[export] Program Instance sim_laws : VioblkLaws blk_sim := {
  media := sim_media;
  live _ h := sim_busy h = false;
  vpatience := 0
}.
Next Obligation.
  intros base q b h r Hl Hdec (Ht & Hpos & Hmod & Hlb & Hs & Hm) Hix. exists 0%nat. cbn [Nat.iter nat_rect vset sim_hw sim_set vrun sim_blk].
  unfold sim_run. cbn [sim_busy]. rewrite Hdec. unfold sim_serve. cbn [sim_media].
  destruct (br_in r) eqn:Hin; (eexists _, _, _; split; [lia|]; split; [reflexivity|]; split; [lia|]);
    cbn [sim_busy vq_avail vq_used used_idx vq_desc vq_status sim_media]; (split; [done|]); (split; [done|]); (split; [done|]); (split; [done|]).
  - assert (length (slice (512 * br_sector r) (br_len r) (sim_media h)) = Z.to_nat (br_len r)) as Hsl by (apply slice_length; lia).
    rewrite overwrite_length by lia. split; [done|]. split; [done|]. intros _. unfold transferred. by rewrite Hin.
  - rewrite overwrite_length by (rewrite ?length_take; lia). split; [done|]. split; [done|]. intros _. unfold transferred. by rewrite Hin.
Qed.

#[export] Instance sim_reliable : VioblkReliable blk_sim.
Proof.
  split. intros base q b h r n q' b' h' _ Hdec _ _ Hit _.
  assert (Hstep : ∃ b1 h1 q1, sim_run base (q, b, vset queue_notify 0 h) = (q1, b1, h1) ∧ sim_busy h1 = false ∧ vq_status q1 = VIRTIO_BLK_S_OK).
  { cbn [vset sim_hw sim_set]. unfold sim_run. cbn [sim_busy]. rewrite Hdec. unfold sim_serve. cbn [sim_media].
    destruct (br_in r); eexists _, _, _; (split; [reflexivity|done]). }
  destruct Hstep as (b1 & h1 & q1 & He & Hb & Hst).
  assert (Hidle : ∀ k, Nat.iter k (vrun base) (q1, b1, h1) = (q1, b1, h1)).
  { induction k as [|k IH]; [done|]. cbn [Nat.iter nat_rect]. change (nat_rect _ _ _ k) with (Nat.iter k (vrun base) (q1, b1, h1)).
    rewrite IH. cbn [vrun sim_blk]. unfold sim_run. by rewrite Hb. }
  rewrite Nat.iter_succ_r in Hit. cbn [vrun sim_blk] in Hit. rewrite He in Hit. rewrite Hidle in Hit. by injection Hit as <- _ _.
Qed.

#[export] Program Instance sim_irq : VioblkIrq blk_sim := {
  complete h := BlkSim (sim_media h) (sim_busy h) (Z.lor (sim_isr h) 1) (sim_regs h) (sim_accepted h)
}.
Next Obligation.
  intros h. cbn. intros Hz. assert (Hb : Z.testbit (Z.land (Z.lor (sim_isr h) 1) 1) 0 = true).
  { rewrite Z.land_spec, Z.lor_spec. by rewrite orb_true_r. }
  by rewrite Hz in Hb.
Qed.
Next Obligation. done. Qed.

#[export] Instance sim_config : VioblkConfig blk_sim.
Proof.
  split.
  - intros r v h Hr. by destruct r.
  - intros c r v h Hr Hc. assert (c = device_id ∨ c = blk_capacity ∨ c = blk_blk_size) as [->|[->| ->]] by set_solver; by destruct r.
  - done.
Qed.

#[export] Program Instance sim_features : VirtioFeatures blk_sim := {
  offered _ i := sim_offered i;
  accepted h i := sim_accepted h i
}.
Next Obligation. done. Qed.
Next Obligation. done. Qed.
Next Obligation. done. Qed.
Next Obligation. done. Qed.
Next Obligation. done. Qed.
Next Obligation. done. Qed.
Next Obligation. done. Qed.
Next Obligation. done. Qed.
Next Obligation. intros v h Hv. done. Qed.

(** ** Witnesses *)

Lemma sim_patience : (vpatience (η:=blk_sim) ≤ 0)%nat.
Proof. done. Qed.

Definition blk_medium : list Z := replicate 512 7 ++ replicate 512 9.

(** The driver over a medium, with blocks of [blk] bytes, at position [pos]. *)
Definition vio_of (m : list Z) (blk pos : Z) : vio blk_sim :=
  let len := Z.of_nat (length m) in
  Vio (VioBlk (BlkSim m false 0 (λ _, 0) (λ _, 0)) true 1 0 1 1 0 blk pos len (len / blk) virtq_zero 0 (replicate (Z.to_nat blk) 0)) (-1).

Lemma vio_of_dev m blk pos base : 0 < blk → blk mod 512 = 0 → dev_ok base blk (vdev (vio_of m blk pos)).
Proof. intros Hb Hm. split; try done. cbn [vio_of vdev v_blkbuf]. rewrite length_replicate. lia. Qed.

Lemma vio_of_ok m pos base : Z.of_nat (length m) mod 512 = 0 → Z.of_nat (length m) < 2 ^ 63 → 0 ≤ pos ≤ Z.of_nat (length m) →
  vio_ok base (vio_of m 512 pos).
Proof. intros Hm Hl Hp. split; [|done..]. split; [by apply vio_of_dev| |done]. split; [done|]. by split. Qed.

Lemma vioblk_read_spec_witness :
  ∃ v', vioblk_read 0 1 0 600 (vio_of blk_medium 512 500) = Done (524, replicate 12 7 ++ replicate 512 9, v') ∧
    v_pos (vdev v') = 1024 ∧ vio_lock v' = -1.
Proof.
  assert (Hok : vio_ok 0 (vio_of blk_medium 512 500)) by (apply vio_of_ok; vm_compute; intuition congruence).
  destruct (vioblk_read_spec 0 1 0 sim_patience 600 (vio_of blk_medium 512 500) Hok ltac:(lia))
    as (r & data & v' & He & Hd & [(Hr & Hl & [Hok' Hp _] & _)|(_ & _ & Hno)]); [|destruct Hno; apply sim_reliable].
  change (r = 524) in Hr. subst r. rewrite Hl in Hd.
  assert (Hv : slice 500 524 blk_medium = replicate 12 7 ++ replicate 512 9) by (vm_compute; reflexivity).
  exists v'. rewrite He, Hp. split; [|split; [reflexivity|apply (vo_free _ _ Hok')]].
  rewrite <- Hv. do 3 f_equal. exact Hd.
Defined.

Lemma vioblk_write_spec_witness :
  ∃ v', vioblk_write 0 1 0 [1; 2; 3] (vio_of blk_medium 512 511) = Done (3, v') ∧
    dmedia (vdev v') = replicate 511 7 ++ [1; 2; 3] ++ replicate 510 9.
Proof.
  assert (Hok : vio_ok 0 (vio_of blk_medium 512 511)) by (apply vio_of_ok; vm_compute; intuition congruence).
  destruct (vioblk_write_spec 0 1 0 sim_patience [1; 2; 3] (vio_of blk_medium 512 511) Hok ltac:(done) ltac:(cbn; lia))
    as (r & v' & He & _ & [(Hr & _ & Hm)|(_ & _ & Hno)]); [|destruct Hno; apply sim_reliable].
  change (r = 3) in Hr. subst r.
  assert (Hv : overwrite 511 [1; 2; 3] blk_medium = replicate 511 7 ++ [1; 2; 3] ++ replicate 510 9) by (vm_compute; reflexivity).
  exists v'. split; [exact He|]. rewrite <- Hv. exact Hm.
Defined.

Lemma vioblk_early_return_deadlocks_witness :
  ∃ v', vioblk_read 0 1 0 0 (vio_of blk_medium 512 500) = Done (0, [], v') ∧ vioblk_read 0 1 0 8 v' = OutOfFuel.
Proof.
  assert (Hok : vio_ok 0 (vio_of blk_medium 512 500)) by (apply vio_of_ok; vm_compute; intuition congruence).
  destruct (vioblk_early_return_deadlocks 0 1 0 sim_patience (vio_of blk_medium 512 500) 1025 Hok ltac:(lia) ltac:(vm_compute; reflexivity))
    as ((v' & He & Hs & _) & _).
  exists v'. split; [exact He|apply Hs].
Defined.

Lemma vioblk_block_size_ignored_witness :
  ∃ v', vioblk_read 0 1 0 1024 (vio_of (replicate 512 1 ++ replicate 512 2 ++ replicate 1024 3) 1024 1024) =
    Done (1024, replicate 512 2 ++ replicate 512 3, v').
Proof.
  assert (Hv : slice 512 1024 (replicate 512 1 ++ replicate 512 2 ++ replicate 1024 3) = replicate 512 2 ++ replicate 512 3)
    by (vm_compute; reflexivity).
  rewrite <- Hv.
  apply (vioblk_block_size_ignored 0 1 0 sim_patience (vio_of (replicate 512 1 ++ replicate 512 2 ++ replicate 1024 3) 1024 1024) 1024 1);
    [apply sim_reliable|by apply vio_of_dev|reflexivity|by vm_compute|lia|reflexivity|vm_compute; split; reflexivity|lia|vm_compute; discriminate].
Defined.

(** The image of a file system, up to a whole number of sectors. *)
Definition blk_image : list Z := image_example ++ replicate 509 0.

Lemma blk_image_ok : image_ok blk_image 1 0 3.
Proof.
  assert (Hl : Z.of_nat (length blk_image) = 8704) by (vm_compute; reflexivity).
  assert (Hle : le32 blk_image (4096 * (1 + 0) + 4 + 4 * 0) = 0) by (vm_compute; reflexivity).
  assert (Ho : ∀ p, 0 ≤ p < 3 → data_off blk_image 1 0 p = 8192 + p).
  { intros p Hp. unfold data_off. rewrite (Z.div_small p 4096), (Z.mod_small p 4096) by lia. rewrite Hle. lia. }
  split; rewrite ?Hl; [by vm_compute|by vm_compute|lia|lia|lia| |].
  - intros p Hp. rewrite Ho by done. lia.
  - intros p q Hp Hq. rewrite !Ho by done. lia.
Qed.

Definition blk_kfs : kfs (vio blk_sim) := Kfs (replicate 4096 0) [] 0 (vio_of [] 512 0) (Lock (CondObj 5) (-1)).

Lemma vioblk_mount_open_read_witness :
  ∃ k1 s1 k2 s2 k3 s3,
    @fs_mount _ (fs_iops 0 1 0) (vio_of blk_image 512 0) blk_kfs lock_sched = Done (0, k1, s1) ∧
    @fs_open _ (fs_iops 0 1 0) (cstr [97; 98] []) k1 s1 = Done (0, Some 0, k2, s2) ∧
    @fs_read _ (fs_iops 0 1 0) 0 0 10 [0; 0; 0; 0] k2 s2 = Done (FsDone 3 [10; 20; 30; 0] k3 s3).
Proof.
  assert (E : overwrite 0 (file_bytes (dmedia (vdev (vio_of blk_image 512 0))) 1 0 0 (Z.min 10 3)) [0; 0; 0; 0] = [10; 20; 30; 0])
    by (vm_compute; reflexivity).
  rewrite <- E. change 3 with (Z.min 10 3).
  eapply (vioblk_mount_open_read 0 1 0 sim_patience 0 (vio_of blk_image 512 0) blk_kfs lock_sched lock_abs 0 [97; 98] 0 1 3 [] 10 [0; 0; 0; 0]);
    [reflexivity|apply vio_of_ok; vm_compute; intuition congruence|reflexivity|vm_compute; discriminate|reflexivity| |apply blk_image_ok|reflexivity
    |apply lock_sched_rep|by exists None, None, None| |reflexivity|reflexivity|vm_compute; split; [discriminate|reflexivity]
    |vm_compute; split; [discriminate|reflexivity]|vm_compute; discriminate].
  - split; [lia| |intros y Hy; lia|vm_compute; reflexivity].
    split; [repeat constructor|]. split; [cbn; lia|]. eexists. vm_compute. reflexivity.
  - reflexivity.
Defined.

Definition blk_open : kfs (vio blk_sim) :=
  Kfs (take 4096 blk_image) [FileDesc true 1 0 3 0 1] 0 (vio_of blk_image 512 0) (Lock (CondObj 5) (-1)).

Lemma vioblk_bad_half_hangs_witness :
  @fs_read _ (fs_iops 0 1 0) 1 0 3 [0; 0; 0] blk_open lock_sched = OutOfFuel ∧
  @fs_write _ (fs_iops 0 1 0) 1 0 3 [7; 8; 9] blk_open lock_sched = OutOfFuel.
Proof.
  assert (Hr : @fs_ready _ (fs_iops 0 1 0) (fs_disk 0 1 0 sim_patience) blk_open lock_sched 0 1 3 (FileDesc true 1 0 3 0 1)).
  { split; [apply vio_of_ok; vm_compute; intuition congruence|split; [lia|reflexivity]|reflexivity|reflexivity|cbn [file_pos]; lia
      |apply blk_image_ok|reflexivity|exists lock_abs; apply lock_sched_rep|by exists None, None, None]. }
  assert (Hlen : Z.of_nat (length (dmedia (vdev (globalIO blk_open)))) ≤ 2 ^ 44) by (vm_compute; discriminate).
  split.
  - apply (vioblk_bad_half_hangs 0 1 0 sim_patience 1 0 3 [0; 0; 0] blk_open lock_sched 1 3 (FileDesc true 1 0 3 0 1));
      [discriminate|exact Hr|reflexivity|reflexivity|reflexivity|vm_compute; discriminate|exact Hlen|vm_compute; discriminate].
  - apply (vioblk_bad_half_hangs 0 1 0 sim_patience 1 0 3 [7; 8; 9] blk_open lock_sched 1 3 (FileDesc true 1 0 3 0 1));
      [discriminate|exact Hr|reflexivity|reflexivity|reflexivity|vm_compute; discriminate|exact Hlen|vm_compute; discriminate].
Defined.

(** A request of thread 0, its wait, and the completion. *)
Definition blk_start : vioblk_device blk_sim := vdev (vio_of blk_medium 512 0).

Lemma vioblk_no_lost_wakeup_witness :
  ∃ d s a, vio_reach 0 d s ∧ sched_rep s a ∧ ¬ outstanding d ∧ irq_pending d ∧
    ∃ d' s' a', vioblk_isr 0 d s = Done (d', s') ∧ sched_rep s' a' ∧ waitq a' (used_updated 0) = [].
Proof.
  assert (H0 : vio_reach 0 blk_start lock_sched).
  { apply (vio_start 0 blk_start lock_sched lock_abs); [apply lock_sched_rep|by exists None, None, None|reflexivity|cbn; lia]. }
  pose proof (vio_step 0 EvSubmit _ _ (submit blk_start) lock_sched H0 ltac:(vm_compute; tauto) eq_refl) as H1.
  pose proof (λ d' s', vio_step 0 EvWait _ _ d' s' H1) as H2.
  specialize (H2 _ _ ltac:(vm_compute; discriminate) ltac:(vm_compute; reflexivity)).
  pose proof (λ d' s', vio_step 0 EvComplete _ _ d' s' H2) as H3.
  specialize (H3 _ _ ltac:(vm_compute; discriminate) eq_refl).
  destruct (vioblk_no_lost_wakeup 0 _ _ H3) as (a & Hrep & _ & Hisr).
  assert (Hp : irq_pending (completed (submit blk_start))) by (vm_compute; discriminate).
  destruct (Hisr Hp) as (d' & s' & a' & He & Hrep' & Hw & _).
  eexists _, _, a. split; [exact H3|]. split; [exact Hrep|]. split; [vm_compute; tauto|]. split; [exact Hp|]. by exists d', s', a'.
Defined.

Definition blk_hw : blk_sim :=
  BlkSim blk_medium false 0
    (λ r, match r with device_id => VIRTIO_ID_BLOCK | blk_capacity => 2 | blk_blk_size => 512 | _ => 0 end) (λ _, 0).

Definition blk_kernel : kstate plic_regs (vio_drivers blk_sim) :=
  KState (PlicRegs ∅ 0 []) timer_example lock_sched (VioDrivers None ∅).

Lemma vioblk_attach_open_witness :
  ∃ st devs base st' d, vioblk_attach 8 (replicate 512 0) blk_hw (isrtab_init, blk_kernel) devtab_init = Done (st, devs) ∧
    device_open (cstr [98; 108; 107] []) 0 devs st = Done (0, Some base, st') ∧
    blk_devs (vio_state st'.2) !! base = Some d ∧ dmedia d = blk_medium ∧ v_pos d = 0.
Proof.
  set (hp := λ e, Heap true 0x80200000 e (Mem ∅ 0 0 0 true)).
  assert (Hk1 : kmalloc 32 (kheap lock_sched) = Done (0x80200fe0, hp 0x80200fe0)) by reflexivity.
  assert (Hk2 : kmalloc (u64 (sizeof_vioblk_device + 512)) (hp 0x80200fe0) = Done (0x80200d00, hp 0x80200d00)) by reflexivity.
  destruct (vioblk_attach_open 8 (replicate 512 0) blk_hw isrtab_init blk_kernel devtab_init [] 0x80200fe0 (hp 0x80200fe0) 0x80200d00 (hp 0x80200d00) [])
    as (st & devs & st' & d & lk & Ha & Ho & Hd & _ & _ & _ & Hp & Hm & _);
    [split; vm_compute; reflexivity|reflexivity|unfold NIRQ; lia
    |apply registry_init|vm_compute; lia|rewrite length_replicate; lia|exact Hk1|exact Hk2|].
  exists st, devs, 0x80200d00, st', d. split; [exact Ha|]. split; [exact Ho|]. split; [exact Hd|]. split; [exact Hm|exact Hp].
Defined.
