(* ===== verification/Console.v ===== *)
(** Console output and input (src/src/kern/console.c), polled over UART0.

    [polls] bounds how often one character is waited for.  The state is the
    registers and the two static variables [cprev]; the functions that print
    formatted text also turn interrupts off, in the state of the threads.  The
    kernel is built without CONSOLE_RAW. *)
From Stdlib Require Import ZArith Lia.
From stdpp Require Import base gmap list strings.
From S2P Require Import Prelude CString Heap Memory Thread Io Uart UartSpec.

Open Scope Z_scope.

Record console (υ : Type) : Type := Console { com0 : υ; put_cprev : Z; get_cprev : Z }.
Arguments Console {υ}.
Arguments com0 {υ}.
Arguments put_cprev {υ}.
Arguments get_cprev {υ}.

Section Console.
Context {υ : Type} `{UartHw υ} (polls : nat).

Definition console_init (c : console υ) : console υ * Z := (Console (com0_init (com0 c)) (put_cprev c) (get_cprev c), 1).

Definition console_putchar (c : Z) (t : console υ) : outcome (console υ) :=
  u ← (if c =? CR then u ← com0_putc polls c (com0 t); com0_putc polls NL u
       else if c =? NL then
         u ← (if negb (put_cprev t =? CR) then com0_putc polls CR (com0 t) else Done (com0 t));
         com0_putc polls c u
       else com0_putc polls c (com0 t));
  Done (Console u c (get_cprev t)).

(** The loop skips newlines after a carriage return; [fuel] bounds how many. *)
Fixpoint getchar_loop (fuel : nat) (cprev : Z) (u : υ) : outcome (Z * υ) :=
  match fuel with
  | O => OutOfFuel
  | S k =>
      '(c, u) ← com0_getc polls u;
      if (c =? NL) && (cprev =? CR) then getchar_loop k cprev u else Done (c, u)
  end.

Definition console_getchar (fuel : nat) (t : console υ) : outcome (Z * console υ) :=
  '(c, u) ← getchar_loop fuel (get_cprev t) (com0 t);
  Done (if c =? CR then NL else c, Console u (put_cprev t) c).

Fixpoint console_puts (str : list Z) (t : console υ) : outcome (console υ) :=
  match str with
  | [] => Undefined
  | c :: str => if c =? 0 then console_putchar NL t else t ← console_putchar c t; console_puts str t
  end.

(** [line] is what the buffer holds before [p]. *)
Fixpoint console_getsn (fuel gfuel : nat) (line : list Z) (n : Z) (t : console υ) : outcome (list Z * console υ) :=
  match fuel with
  | O => OutOfFuel
  | S k =>
      '(c, t) ← console_getchar gfuel t;
      if c =? CR then console_getsn k gfuel line n t else
      if c =? NL then Done (line ++ [0], t) else
      if (c =? 8) || (c =? 127) then
        if bool_decide (line = []) then console_getsn k gfuel line n t
        else console_getsn k gfuel (take (pred (length line)) line) (u64 (n + 1)) t
      else if 1 <? n then console_getsn k gfuel (line ++ [c]) (n - 1) t
      else console_getsn k gfuel line n t
  end.

(** ** Formatted output *)

Definition vprintf_putc (c : Z) (t : console υ) : outcome (console υ) := console_putchar c t.

Definition console_vprintf (intr_initialized : bool) (fmt : list Z) (args : list va) (t : console υ) (s : sched)
    : outcome (Z * console υ * sched) :=
  let '(saved, s) := if intr_initialized then intr_disable s else (false, s) in
  '(nout, t) ← vgprintf vprintf_putc fmt args t;
  Done (nout, t, if intr_initialized then intr_restore saved s else s).

Definition console_printf := console_vprintf.
Definition kprintf := console_printf.

(** The format "%s: %s:%d: ". *)
Definition label_fmt : list Z := cstr [37; 115; 58; 32; 37; 115; 58; 37; 100; 58; 32] [].

Definition console_labeled_printf (intr_initialized : bool) (label src_flname : list Z) (src_lineno : Z)
    (fmt : list Z) (args : list va) (t : console υ) (s : sched) : outcome (console υ * sched) :=
  let '(saved, s) := if intr_initialized then intr_disable s else (false, s) in
  '(_, t, s) ← console_printf intr_initialized label_fmt [VaStr (Some label); VaStr (Some src_flname); VaInt src_lineno] t s;
  '(_, t, s) ← console_vprintf intr_initialized fmt args t s;
  t ← console_putchar NL t;
  Done (t, if intr_initialized then intr_restore saved s else s).
End Console.
