(* ===== verification/ConsoleSpec.v ===== *)
(** The console sends the text it is given with every newline as CR LF, and reads
    lines. *)
From Stdlib Require Import ZArith Lia.
From stdpp Require Import base gmap list strings.
From S2P Require Import Prelude CString Heap Memory Thread Io Uart UartSpec Console.

Open Scope Z_scope.

(** ** A port that is polled *)

(** [polled u n] is the port after [n] reads of its line status. *)
Definition polled {υ} `{UartHw υ} (n : nat) (u : υ) : υ := Nat.iter n (λ u, (uread LSR u).2) u.

(** What polling relies on: reading the status changes neither what was sent nor
    what will arrive; the transmitter becomes free, and the next byte arrives,
    within a bounded number of reads; a byte is then sent or received. *)
Class UartPolled (υ : Type) `{UartHw υ} : Type := {
  sent : υ → list Z;
  incoming : υ → list Z;
  p_ok : υ → Prop;
  p_bound : nat;
  p_lsr u : p_ok u → p_ok (uread LSR u).2 ∧ sent (uread LSR u).2 = sent u ∧ incoming (uread LSR u).2 = incoming u;
  p_free u : p_ok u → ∃ n, (n < p_bound)%nat ∧ status_bit LSR_THRE (uread LSR (polled n u)).1 = true;
  p_send c u : p_ok u → status_bit LSR_THRE (uread LSR u).1 = true →
    let u' := uwrite RBR c (uread LSR u).2 in p_ok u' ∧ sent u' = sent u ++ [c] ∧ incoming u' = incoming u;
  p_arrives u : p_ok u → incoming u ≠ [] → ∃ n, (n < p_bound)%nat ∧ status_bit LSR_DR (uread LSR (polled n u)).1 = true;
  p_receive c r u : p_ok u → incoming u = c :: r → status_bit LSR_DR (uread LSR u).1 = true →
    let '(v, u') := uread RBR (uread LSR u).2 in v = c ∧ p_ok u' ∧ sent u' = sent u ∧ incoming u' = r
}.

Section Spec.
Context {υ : Type} `{UartPolled υ} (polls : nat) (Hpolls : (p_bound ≤ polls)%nat).

Lemma polled_ok n : ∀ u, p_ok u → p_ok (polled n u) ∧ sent (polled n u) = sent u ∧ incoming (polled n u) = incoming u.
Proof.
  induction n as [|n IH]; intros u Hu; [done|]. destruct (IH u Hu) as (Hok & Hs & Hi). change (polled (S n) u) with (uread LSR (polled n u)).2.
  destruct (p_lsr _ Hok) as (? & -> & ->). done.
Qed.

(** Polling stops at the first read that shows the bit. *)
Lemma spin_spec bits : ∀ fuel u, p_ok u → (∃ n, (n < fuel)%nat ∧ status_bit bits (uread LSR (polled n u)).1 = true) →
  ∃ u0, p_ok u0 ∧ sent u0 = sent u ∧ incoming u0 = incoming u ∧ status_bit bits (uread LSR u0).1 = true ∧
    spin fuel bits u = Done (uread LSR u0).2.
Proof.
  induction fuel as [|fuel IH]; intros u Hu (n & Hn & Hb); [lia|]. cbn [spin].
  destruct (uread LSR u) as [v u1] eqn:Hr. destruct (status_bit bits v) eqn:Hv.
  - exists u. rewrite Hr. done.
  - destruct n as [|n]; [cbn in Hb; rewrite Hr in Hb; cbn in Hb; congruence|].
    destruct (p_lsr u Hu) as (Hu1 & Hs & Hi). rewrite Hr in Hu1, Hs, Hi. cbn [snd] in *.
    destruct (IH u1 Hu1) as (u0 & Hok & Hs0 & Hi0 & Hb0 & Hsp).
    { exists n. split; [lia|]. unfold polled in *. rewrite Nat.iter_succ_r, Hr in Hb. exact Hb. }
    exists u0. rewrite Hs0, Hi0. done.
Qed.

Lemma com0_putc_spec c u : p_ok u →
  ∃ u', com0_putc polls c u = Done u' ∧ p_ok u' ∧ sent u' = sent u ++ [c] ∧ incoming u' = incoming u.
Proof.
  intros Hu. destruct (p_free u Hu) as (n & Hn & Hb). destruct (spin_spec LSR_THRE polls u Hu) as (u0 & Hok & Hs & Hi & Hb0 & Hsp); [exists n; split; [lia|done]|].
  unfold com0_putc. rewrite Hsp. cbn [mbind outcome_bind]. eexists. split; [reflexivity|].
  destruct (p_send c u0 Hok Hb0) as (? & -> & ->). rewrite Hs, Hi. done.
Qed.

Lemma com0_getc_spec c r u : p_ok u → incoming u = c :: r →
  ∃ u', com0_getc polls u = Done (c, u') ∧ p_ok u' ∧ sent u' = sent u ∧ incoming u' = r.
Proof.
  intros Hu Hin. destruct (p_arrives u Hu) as (n & Hn & Hb); [by rewrite Hin|].
  destruct (spin_spec LSR_DR polls u Hu) as (u0 & Hok & Hs & Hi & Hb0 & Hsp); [exists n; split; [lia|done]|].
  unfold com0_getc. rewrite Hsp. cbn [mbind outcome_bind]. rewrite Hin in Hi.
  pose proof (p_receive c r u0 Hok Hi Hb0) as Hrec. destruct (uread RBR _) as [v u1]. destruct Hrec as (-> & ? & ? & ?).
  exists u1. rewrite <- Hs. done.
Qed.

(** ** Output *)

(** What is sent for a text when [prev] was printed before it. *)
Fixpoint line_ends (prev : Z) (cs : list Z) : list Z :=
  match cs with
  | [] => []
  | c :: cs => (if c =? CR then [CR; NL] else if c =? NL then (if prev =? CR then [NL] else [CR; NL]) else [c]) ++ line_ends c cs
  end.

(** The plain rule: a newline is sent as CR LF. *)
Definition expand_nl (cs : list Z) : list Z := flat_map (λ c, if c =? NL then [CR; NL] else [c]) cs.

Lemma line_ends_plain cs : ∀ prev, CR ∉ cs → prev ≠ CR → line_ends prev cs = expand_nl cs.
Proof.
  induction cs as [|c cs IH]; intros prev Hcs Hp; [done|]. apply not_elem_of_cons in Hcs as [Hc Hcs]. cbn [line_ends expand_nl flat_map].
  rewrite (proj2 (Z.eqb_neq c CR)) by done. rewrite (proj2 (Z.eqb_neq prev CR)) by done. rewrite (IH c Hcs) by done. by destruct (c =? NL).
Qed.

(** A console whose port is in use. *)
Definition con_step (t t' : console υ) (out : list Z) (prev : Z) : Prop :=
  p_ok (com0 t') ∧ sent (com0 t') = sent (com0 t) ++ out ∧ incoming (com0 t') = incoming (com0 t) ∧
  put_cprev t' = prev ∧ get_cprev t' = get_cprev t.

Lemma console_putchar_spec c t : p_ok (com0 t) →
  ∃ t', console_putchar polls c t = Done t' ∧ con_step t t' (line_ends (put_cprev t) [c]) c.
Proof.
  intros Hu. unfold console_putchar, con_step. cbn [line_ends]. destruct (c =? CR) eqn:Hc.
  - destruct (com0_putc_spec c _ Hu) as (u1 & -> & H1 & Hs1 & Hi1). cbn [mbind outcome_bind].
    destruct (com0_putc_spec NL u1 H1) as (u2 & -> & H2 & Hs2 & Hi2). cbn [mbind outcome_bind].
    apply Z.eqb_eq in Hc as ->. eexists. split; [reflexivity|]. cbn [com0 put_cprev get_cprev].
    rewrite Hs2, Hs1, Hi2, Hi1, <- app_assoc. done.
  - destruct (c =? NL) eqn:Hn.
    + apply Z.eqb_eq in Hn as ->. destruct (put_cprev t =? CR); cbn [negb].
      * cbn [mbind outcome_bind]. destruct (com0_putc_spec NL _ Hu) as (u1 & -> & H1 & Hs1 & Hi1). cbn [mbind outcome_bind].
        eexists. split; [reflexivity|]. by split.
      * destruct (com0_putc_spec CR _ Hu) as (u1 & -> & H1 & Hs1 & Hi1). cbn [mbind outcome_bind].
        destruct (com0_putc_spec NL u1 H1) as (u2 & -> & H2 & Hs2 & Hi2). cbn [mbind outcome_bind].
        eexists. split; [reflexivity|]. cbn [com0 put_cprev get_cprev]. rewrite Hs2, Hs1, Hi2, Hi1, <- app_assoc. done.
    + destruct (com0_putc_spec c _ Hu) as (u1 & -> & H1 & Hs1 & Hi1). cbn [mbind outcome_bind].
      eexists. split; [reflexivity|]. by split.
Qed.

Lemma put_all_spec cs : ∀ t, p_ok (com0 t) →
  ∃ t', put_all (vprintf_putc polls) cs t = Done t' ∧ con_step t t' (line_ends (put_cprev t) cs) (default (put_cprev t) (last cs)).
Proof.
  induction cs as [|c cs IH]; intros t Hu; cbn [put_all].
  - exists t. split; [done|]. split; [done|]. by rewrite app_nil_r.
  - destruct (console_putchar_spec c t Hu) as (t1 & He & Hu1 & Hs1 & Hi1 & Hp1 & Hg1). change (vprintf_putc polls c t) with (console_putchar polls c t). rewrite He. cbn [mbind outcome_bind].
    destruct (IH t1 Hu1) as (t2 & -> & Hu2 & Hs2 & Hi2 & Hp2 & Hg2). exists t2. split; [done|].
    rewrite Hp1 in *. split; [done|]. rewrite Hs2, Hs1, Hi2, Hi1, Hg2, Hg1, Hp2. split.
    { cbn [line_ends]. by rewrite app_nil_r, <- app_assoc. }
    split; [done|]. split; [|done]. rewrite last_cons. by destruct (last cs).
Qed.

(** What is printed through the console, by a format and its arguments, is sent
    as it is with every newline as CR LF; the state of the threads is as before. *)
Theorem console_printf_sends ii fmt args n out (t : console υ) s :
  p_ok (com0 t) → vgprintf collect fmt args [] = Done (n, out) → CR ∉ out → put_cprev t ≠ CR →
  n = u64 (Z.of_nat (length out)) ∧
  ∃ t' s', console_printf polls ii fmt args t s = Done (n, t', s') ∧ p_ok (com0 t') ∧
    sent (com0 t') = sent (com0 t) ++ expand_nl out ∧ incoming (com0 t') = incoming (com0 t) ∧ s' = s ∧
    put_cprev t' ≠ CR.
Proof.
  intros Hu Hfmt Hcr Hp. destruct (vgprintf_transparent _ _ _ _ Hfmt) as [Hn Ht]. split; [done|].
  destruct (put_all_spec out t Hu) as (t' & Hput & Hu' & Hs & Hi & Hp' & _). rewrite line_ends_plain in Hs by done.
  assert (Hprev : put_cprev t' ≠ CR).
  { rewrite Hp'. destruct (last out) as [c|] eqn:Hl; [|done]. cbn [default from_option id]. intros ->. apply Hcr. by apply last_Some_elem_of. }
  unfold console_printf, console_vprintf. destruct ii; cbn [intr_disable].
  - rewrite Ht, Hput. cbn [mbind outcome_bind]. eexists _, _. split; [reflexivity|]. split_and!; [done..| |done]. by destruct s.
  - rewrite Ht, Hput. cbn [mbind outcome_bind]. eexists _, _. split; [reflexivity|]. done.
Qed.

Lemma console_puts_spec a rest : ∀ t, p_ok (com0 t) → nul_free a →
  ∃ t', console_puts polls (cstr a rest) t = Done t' ∧ con_step t t' (line_ends (put_cprev t) (a ++ [NL])) NL.
Proof.
  induction a as [|c a IH]; intros t Hu Ha; cbn [cstr app console_puts].
  - change (0 =? 0) with true. cbn iota. by apply console_putchar_spec.
  - apply Forall_cons in Ha as [Hc Ha]. rewrite (proj2 (Z.eqb_neq c 0)) by done.
    destruct (console_putchar_spec c t Hu) as (t1 & -> & Hu1 & Hs1 & Hi1 & Hp1 & Hg1). cbn [mbind outcome_bind].
    change (a ++ 0 :: rest) with (cstr a rest). destruct (IH t1 Hu1 Ha) as (t2 & -> & Hu2 & Hs2 & Hi2 & Hp2 & Hg2). exists t2. split; [done|].
    rewrite Hp1 in *. split; [done|]. rewrite Hs2, Hs1, Hi2, Hi1, Hg2, Hg1, Hp2. split; [|done].
    cbn [line_ends]. by rewrite app_nil_r, <- app_assoc.
Qed.

Lemma line_ends_app cs1 cs2 : ∀ prev, line_ends prev (cs1 ++ cs2) = line_ends prev cs1 ++ line_ends (default prev (last cs1)) cs2.
Proof.
  induction cs1 as [|c cs1 IH]; intros prev; [done|]. cbn [app line_ends]. rewrite IH, last_cons, <- app_assoc. by destruct (last cs1).
Qed.

(** A line that already ends in CR LF is sent with a second line feed, before
    the line end that [console_puts] adds. *)
Theorem console_doubles_crlf (t : console υ) a rest :
  p_ok (com0 t) → nul_free a → CR ∉ a → NL ∉ a → put_cprev t ≠ CR →
  ∃ t', console_puts polls (cstr (a ++ [CR; NL]) rest) t = Done t' ∧ sent (com0 t') = sent (com0 t) ++ a ++ [CR; NL; NL; CR; NL].
Proof.
  intros Hu Ha Hcr Hnl Hp. destruct (console_puts_spec (a ++ [CR; NL]) rest t Hu) as (t' & He & _ & Hs & _).
  { apply Forall_app. split; [done|]. by repeat constructor. }
  exists t'. split; [done|]. rewrite Hs. f_equal. rewrite <- app_assoc, line_ends_app, line_ends_plain by done. f_equal.
  clear -Hnl. induction a as [|c a IH]; [done|]. apply not_elem_of_cons in Hnl as [Hc Hn]. cbn [expand_nl flat_map].
  rewrite (proj2 (Z.eqb_neq c NL)) by done. cbn [app]. f_equal. by apply IH.
Qed.

(** ** Input *)

Definition erases (c : Z) : bool := (c =? 8) || (c =? 127).

(** What is in a line of at most [room] characters after typing: an erasing
    character takes the last one away, what does not fit is lost. *)
Definition typed (room : Z) (line cs : list Z) : list Z :=
  foldl (λ line c, if erases c then take (pred (length line)) line else if Z.of_nat (length line) <? room then line ++ [c] else line) line cs.

Lemma getchar_spec gfuel c r (t : console υ) : p_ok (com0 t) → incoming (com0 t) = c :: r → (c ≠ NL ∨ get_cprev t ≠ CR) → (0 < gfuel)%nat →
  ∃ u, console_getchar polls gfuel t = Done (if c =? CR then NL else c, Console u (put_cprev t) c) ∧ p_ok u ∧ sent u = sent (com0 t) ∧ incoming u = r.
Proof.
  intros Hu Hin Hne Hg. destruct (com0_getc_spec c r (com0 t) Hu Hin) as (u & He & Hok & Hs & Hi). exists u. split; [|done].
  unfold console_getchar. destruct gfuel as [|gfuel]; [lia|]. cbn [getchar_loop]. rewrite He. cbn [mbind outcome_bind].
  assert ((c =? NL) && (get_cprev t =? CR) = false) as ->; [|done].
  apply andb_false_iff. destruct Hne; [left|right]; by apply Z.eqb_neq.
Qed.

(** A line typed at the console, up to CR or LF, is returned as edited, ended by
    NUL and cut so that it fits into the [n] bytes of the buffer; the next line
    starts after it. *)
Theorem console_getsn_reads fuel gfuel n (t : console υ) cs e rest :
  p_ok (com0 t) → 1 ≤ n < 2 ^ 63 → incoming (com0 t) = cs ++ e :: rest →
  Forall (λ c, c ≠ CR ∧ c ≠ NL) cs → e = CR ∨ e = NL → get_cprev t ≠ CR → (length cs < fuel)%nat → (0 < gfuel)%nat →
  ∃ t', console_getsn polls fuel gfuel [] n t = Done (typed (n - 1) [] cs ++ [0], t') ∧
    Z.of_nat (length (typed (n - 1) [] cs ++ [0])) ≤ n ∧ incoming (com0 t') = rest ∧ sent (com0 t') = sent (com0 t).
Proof.
  intros Hu Hn Hin Hcs He Hp Hf Hg.
  assert (Hgen : ∀ cs fuel line room (t : console υ), p_ok (com0 t) → incoming (com0 t) = cs ++ e :: rest → Forall (λ c, c ≠ CR ∧ c ≠ NL) cs →
    get_cprev t ≠ CR → (length cs < fuel)%nat → Z.of_nat (length line) + room = n → 1 ≤ room →
    ∃ t', console_getsn polls fuel gfuel line room t = Done (typed (n - 1) line cs ++ [0], t') ∧
      Z.of_nat (length (typed (n - 1) line cs)) < n ∧ incoming (com0 t') = rest ∧ sent (com0 t') = sent (com0 t)).
  { clear t cs fuel Hu Hin Hcs Hp Hf. induction cs as [|c cs IH]; intros fuel line room t Hu Hin Hcs Hp Hf Hlen Hroom;
      destruct fuel as [|fuel]; try (cbn in Hf; lia); cbn [console_getsn].
    - destruct (getchar_spec gfuel e rest t Hu Hin) as (u & -> & Hok & Hs & Hi); [tauto|done|]. cbn [mbind outcome_bind].
      assert ((if e =? CR then NL else e) = NL) as -> by (destruct He as [-> | ->]; done). change (NL =? CR) with false. change (NL =? NL) with true.
      cbn iota. eexists. split; [reflexivity|]. split; [cbn; lia|]. done.
    - apply Forall_cons in Hcs as [[Hc1 Hc2] Hcs]. cbn [length] in Hf.
      destruct (getchar_spec gfuel c _ t Hu Hin) as (u & -> & Hok & Hs & Hi); [tauto|done|]. cbn [mbind outcome_bind].
      rewrite (proj2 (Z.eqb_neq c CR)) by done. rewrite (proj2 (Z.eqb_neq c CR)), (proj2 (Z.eqb_neq c NL)) by done. change ((c =? 8) || (c =? 127)) with (erases c).
      rewrite <- Hs.
      assert (Hrec : ∀ line' room', Z.of_nat (length line') + room' = n → 1 ≤ room' →
        ∃ t', console_getsn polls fuel gfuel line' room' (Console u (put_cprev t) c) = Done (typed (n - 1) line' cs ++ [0], t') ∧
          Z.of_nat (length (typed (n - 1) line' cs)) < n ∧ incoming (com0 t') = rest ∧ sent (com0 t') = sent u)
        by (intros; apply (IH fuel line' room' (Console u (put_cprev t) c)); auto; lia).
      assert (typed (n - 1) line (c :: cs) = typed (n - 1) (if erases c then take (pred (length line)) line
        else if Z.of_nat (length line) <? n - 1 then line ++ [c] else line) cs) as -> by done. destruct (erases c).
      + destruct (decide (line = [])) as [->|Hne]; [rewrite bool_decide_eq_true_2 by done; by apply Hrec|].
        rewrite bool_decide_eq_false_2 by done. assert (0 < length line)%nat by (destruct line; [done|cbn; lia]).
        rewrite u64_small by lia. apply Hrec; [rewrite length_take; lia|lia].
      + destruct (Z.ltb_spec 1 room), (Z.ltb_spec (Z.of_nat (length line)) (n - 1)); try lia; apply Hrec; rewrite ?length_app; cbn; lia. }
  destruct (Hgen cs fuel [] n t) as (t' & Hr & Hlen & Hi & Hs); try done; [lia|].
  exists t'. split; [done|]. split; [rewrite length_app; cbn; lia|]. done.
Qed.
End Spec.

(** ** A port that is busy for a while after each byte *)

Record uart_slow : Type := USlow { g_sent : list Z; g_busy : nat; g_in : list Z }.

#[export] Instance uart_slow_hw : UartHw uart_slow := {
  uread r u :=
    match r with
    | LSR => (Z.lor (match g_in u with [] => 0 | _ => 1 end) (match g_busy u with O => 32 | _ => 0 end),
              USlow (g_sent u) (pred (g_busy u)) (g_in u))
    | RBR => (default 0 (head (g_in u)), USlow (g_sent u) (g_busy u) (tail (g_in u)))
    | _ => (0, u)
    end;
  uwrite r v u := match r with RBR => USlow (g_sent u ++ [v]) 2 (g_in u) | _ => u end
}.

Lemma slow_thre u : status_bit LSR_THRE (uread LSR u).1 = bool_decide (g_busy u = 0%nat).
Proof. destruct u as [s [|b] [|c r]]; done. Qed.

Lemma slow_dr u : status_bit LSR_DR (uread LSR u).1 = bool_decide (g_in u ≠ []).
Proof. destruct u as [s [|b] [|c r]]; done. Qed.

#[export, refine] Instance uart_slow_polled : UartPolled uart_slow := {|
  sent := g_sent; incoming := g_in; p_ok := λ u, (g_busy u ≤ 2)%nat; p_bound := 3
|}.
Proof.
  - intros u Hu. cbn. split; [lia|done].
  - intros u Hu. exists (g_busy u). split; [lia|]. rewrite slow_thre. apply bool_decide_eq_true. destruct u as [s b i]. cbn in *.
    by destruct b as [|[|[|b]]]; [..|lia].
  - intros c u Hu _. done.
  - intros u Hu Hne. exists 0%nat. split; [lia|]. rewrite slow_dr. by apply bool_decide_eq_true.
  - intros c r u Hu Hin _. cbn. rewrite Hin. split; [done|]. split; [lia|done].
Defined.

Lemma slow_bound : (p_bound (υ:=uart_slow) ≤ 3)%nat.
Proof. done. Qed.

Definition con_example (i : list Z) : console uart_slow := Console (USlow [] 2 i) 0 0.

(** "%d" and a newline, applied to 42. *)
Lemma console_printf_sends_witness :
  ∃ t' s', console_printf 3 true [37; 100; 10; 0] [VaInt 42] (con_example []) (boot_sched 1 2 (Heap true 0 0 (Mem ∅ 0 0 0 true))) = Done (3, t', s') ∧
    sent (com0 t') = [52; 50; 13; 10].
Proof.
  destruct (console_printf_sends 3 slow_bound true [37; 100; 10; 0] [VaInt 42] 3 [52; 50; 10] (con_example [])
    (boot_sched 1 2 (Heap true 0 0 (Mem ∅ 0 0 0 true)))) as (_ & t' & s' & He & _ & Hs & _);
    [cbn; lia|vm_compute; reflexivity|unfold CR; set_solver|done|].
  exists t', s'. split; [exact He|exact Hs].
Defined.

Lemma console_doubles_crlf_witness :
  ∃ t', console_puts 3 (cstr [97; 13; 10] []) (con_example []) = Done t' ∧ sent (com0 t') = [97; 13; 10; 10; 13; 10].
Proof.
  apply (console_doubles_crlf 3 slow_bound (con_example []) [97] []);
    [cbn; lia|by repeat constructor|unfold CR; set_solver|unfold NL; set_solver|done].
Defined.

(** "ab", a backspace and "cde" into a buffer of 4 bytes. *)
Lemma console_getsn_reads_witness :
  ∃ t', console_getsn 3 9 1 [] 4 (con_example [97; 98; 8; 99; 100; 101; 13; 120]) = Done ([97; 99; 100; 0], t') ∧ incoming (com0 t') = [120].
Proof.
  destruct (console_getsn_reads 3 slow_bound 9 1 4 (con_example [97; 98; 8; 99; 100; 101; 13; 120]) [97; 98; 8; 99; 100; 101] 13 [120])
    as (t' & He & _ & Hi & _); [cbn; lia|lia|reflexivity|by repeat constructor|by left|done|cbn; lia|lia|].
  exists t'. split; [exact He|exact Hi].
Defined.
