(* ===== verification/Halt.v ===== *)
(** The end of the machine (src/src/kern/halt.c): stores to the test device of the
    virt board.

    The functions do not return; what they do is the store, and for [panic] what the
    console has sent before it.  In the other files a call of [panic] is the outcome
    [Panicked], which ends the run. *)
From Stdlib Require Import ZArith Lia.
From stdpp Require Import base list strings pretty.
From S2P Require Import Prelude CString Heap Memory Thread Io Uart UartSpec Printing Console ConsoleSpec.

Open Scope Z_scope.

(** A store of an int: the address and the value. *)
Record store : Type := Store { store_addr : Z; store_val : Z }.

Definition halt_success : store := Store 0x100000 0x5555.
Definition halt_failure : store := Store 0x100000 0x3333.

Section Halt.
Context {υ : Type} `{UartHw υ} (polls : nat).

Definition panic (msg : option (list Z)) (t : console υ) : outcome (console υ * store) :=
  t ← (match msg with Some msg => console_puts polls msg t | None => Done t end);
  Done (t, halt_failure).

(** What the macro [assert] of halt.h does when its condition does not hold. *)
Definition assert_fmt : list Z := cstr (string_bytes "ASSERTION FAILED (%s:%d)" ++ [NL]) [].
Definition assert_failed (intr_initialized : bool) (file : list Z) (line : Z) (t : console υ) (s : sched) : outcome (console υ * store) :=
  '(_, t, _) ← kprintf polls intr_initialized assert_fmt [VaStr (Some file); VaInt line] t s;
  panic None t.
End Halt.

(** A panic reports its message before the machine ends in failure, whatever was
    printed before; no other store is made to the device. *)
Lemma panic_reports {υ} `{UartPolled υ} polls a rest (t : console υ) : (p_bound ≤ polls)%nat → p_ok (com0 t) → nul_free a →
  ∃ t', panic polls (Some (cstr a rest)) t = Done (t', halt_failure) ∧ sent (com0 t') = sent (com0 t) ++ line_ends (put_cprev t) (a ++ [NL]) ∧
    halt_failure ≠ halt_success.
Proof.
  intros Hp Hu Ha. destruct (console_puts_spec polls Hp a rest t Hu Ha) as (t' & He & _ & Hs & _). exists t'. unfold panic. by rewrite He.
Qed.

(** A failed assertion names its place. *)
Lemma assert_reports {υ} `{UartPolled υ} polls ii file rest line (t : console υ) s : (p_bound ≤ polls)%nat → p_ok (com0 t) → put_cprev t ≠ CR →
  nul_free file → CR ∉ file → 0 ≤ line < 2 ^ 31 →
  ∃ t', assert_failed polls ii (cstr file rest) line t s = Done (t', halt_failure) ∧
    sent (com0 t') = sent (com0 t) ++ expand_nl (string_bytes "ASSERTION FAILED (" ++ file ++ string_bytes (":" +:+ pretty line +:+ ")") ++ [NL]).
Proof.
  intros Hp Hu Hprev Hf Hc Hl. set (out := string_bytes "ASSERTION FAILED (" ++ file ++ string_bytes ":" ++ string_bytes (pretty line) ++ string_bytes ")" ++ [NL]).
  assert (Hout : ∃ n, vgprintf collect assert_fmt [VaStr (Some (cstr file rest)); VaInt line] [] = Done (n, out)).
  { apply prints_vgprintf. change (length assert_fmt) with (18 + S (1 + S (2 + 3)))%nat.
    change assert_fmt with (string_bytes "ASSERTION FAILED (" ++ 37 :: 115 :: string_bytes ":" ++ 37 :: 100 :: (string_bytes ")" ++ [NL]) ++ [0]).
    apply (prints_lit (string_bytes "ASSERTION FAILED (")); [by repeat constructor|]. apply prints_s; [done|].
    apply (prints_lit (string_bytes ":")); [by repeat constructor|]. apply prints_int; [by left|].
    change (string_bytes ")" ++ [NL]) with ((string_bytes ")" ++ [NL]) ++ []).
    apply (prints_lit (string_bytes ")" ++ [NL])); [by repeat constructor|]. apply prints_nil. }
  destruct Hout as [n Hout]. assert (Hcr : CR ∉ out).
  { assert (Hlit : ∀ s, bool_decide (CR ∈ string_bytes s) = false → CR ∉ string_bytes s) by (intros x; apply bool_decide_eq_false_1).
    unfold out. rewrite !not_elem_of_app. split_and!; [by apply Hlit|done|by apply Hlit| |by apply Hlit|unfold NL; by intros [=]%list_elem_of_singleton].
    intros Hin. pose proof (proj1 (Forall_forall _ _) (pretty_digits line ltac:(lia)) _ Hin) as Hd. cbv beta in Hd. unfold CR in Hd. lia. }
  destruct (console_printf_sends polls Hp ii _ _ n out t s Hu Hout Hcr Hprev) as (_ & t' & s' & He & _ & Hs & _).
  exists t'. unfold assert_failed, kprintf. rewrite He. split; [reflexivity|]. rewrite Hs. unfold out. by rewrite !string_bytes_app, <- !app_assoc.
Qed.
