(* ===== verification/Objects.v ===== *)
(** I/O objects by reference (src/src/kern/io.h): what [struct io_intf *] means to
    the callers of ioread, iowrite, ioctl and ioclose.

    A reference is an open file or the structure of a device; [vtable] is the
    operations of its object, over the state of all objects and of the threads.
    The calls of one thread are modelled: waiting for the lock of the file system
    does not return ([OutOfFuel]). *)
From Stdlib Require Import ZArith Lia.
From stdpp Require Import base gmap list strings.
From S2P Require Import Prelude CString Pages Heap Memory Thread Lock Io Device Kfs.

Open Scope Z_scope.

Inductive io_ref : Type :=
| IoFile (spot : Z)
| IoDev (p : Z).

#[export] Instance io_ref_eq_dec : EqDecision io_ref.
Proof. solve_decision. Defined.

(** [struct io_intf] in an object: whether the operations pointer is set, and the
    reference count. *)
Class IoIntf (σ : Type) : Type := {
  ops_set : σ → bool;
  refcnt : σ → Z;
  set_refcnt : Z → σ → σ
}.

#[export] Instance file_intf : IoIntf file_desc := {
  ops_set := f_ops;
  refcnt := f_refcnt;
  set_refcnt n fd := FileDesc (f_ops fd) n (file_pos fd) (file_size fd) (f_inode fd) (f_flags fd)
}.

(** The file system on a disk of type [β], the devices of type [δ] by the addresses
    of their structures, and the table of devices. *)
Record io_world (δ β : Type) : Type := IoWorld {
  fsys : kfs β;
  devobjs : gmap Z δ;
  devtab : list (device (gmap Z δ * sched))
}.
Arguments IoWorld {δ β}.
Arguments fsys {δ β}.
Arguments devobjs {δ β}.
Arguments devtab {δ β}.

Section Objects.
Context {δ β : Type} `{IoIntf δ} `{IoOps δ} `{IoOps β} (stack_hi : Z).

Abbreviation world := (io_world δ β).

Definition set_fsys (k : kfs β) (w : world) : world := IoWorld k (devobjs w) (devtab w).
Definition set_dev (p : Z) (d : δ) (w : world) : world := IoWorld (fsys w) (<[p := d]> (devobjs w)) (devtab w).

(** ** Operations of an open file *)

Definition file_read (spot n : Z) (ws : world * sched) : outcome (Z * list Z * (world * sched)) :=
  let '(w, s) := ws in
  r ← fs_read stack_hi spot n (replicate (Z.to_nat n) 0) (fsys w) s;
  match r with
  | FsDone rc buf k s => Done (rc, take (Z.to_nat rc) buf, (set_fsys k w, s))
  | FsBlocked _ _ => OutOfFuel
  end.

Definition file_write (spot : Z) (buf : list Z) (ws : world * sched) : outcome (Z * (world * sched)) :=
  let '(w, s) := ws in
  r ← fs_write stack_hi spot (Z.of_nat (length buf)) buf (fsys w) s;
  match r with
  | FsDone rc _ k s => Done (rc, (set_fsys k w, s))
  | FsBlocked _ _ => OutOfFuel
  end.

Definition file_ctl (spot cmd arg : Z) (ws : world * sched) : outcome (Z * Z * (world * sched)) :=
  let '(w, s) := ws in
  fd ← get_fd spot (fsys w);
  '(r, arg, fd) ← fd_ioctl cmd arg fd;
  Done (r, arg, (set_fsys (set_fd spot fd (fsys w)) w, s)).

Definition file_close (spot : Z) (ws : world * sched) : outcome (world * sched) :=
  let '(w, s) := ws in
  '(k, s) ← fs_close spot (fsys w) s;
  Done (set_fsys k w, s).

(** ** Operations of a device *)

Definition on_dev {A} (p : Z) (f : δ → outcome (A * δ)) (ws : world * sched) : outcome (A * (world * sched)) :=
  let '(w, s) := ws in
  d ← deref (devobjs w !! p);
  '(a, d) ← f d;
  Done (a, (set_dev p d w, s)).

Definition dev_close (p : Z) (f : δ → outcome δ) (ws : world * sched) : outcome (world * sched) :=
  '(_, ws) ← on_dev p (λ d, d ← f d; Done (tt, d)) ws;
  Done ws.

Definition vtable (r : io_ref) : IoOps (world * sched) :=
  match r with
  | IoFile spot => {|
      op_close := Some (file_close spot);
      op_read := Some (file_read spot);
      op_write := Some (file_write spot);
      op_ctl := Some (file_ctl spot)
    |}
  | IoDev p => {|
      op_close := (λ f, dev_close p f) <$> op_close;
      op_read := (λ f n, on_dev p (f n)) <$> op_read;
      op_write := (λ f buf, on_dev p (f buf)) <$> op_write;
      op_ctl := (λ f cmd arg, on_dev p (f cmd arg)) <$> op_ctl
    |}
  end.

(** ** The object of a reference *)

Definition obj_ops (r : io_ref) (w : world) : outcome bool :=
  match r with
  | IoFile spot => fd ← get_fd spot (fsys w); Done (ops_set fd)
  | IoDev p => d ← deref (devobjs w !! p); Done (ops_set d)
  end.

Definition obj_refcnt (r : io_ref) (w : world) : outcome Z :=
  match r with
  | IoFile spot => fd ← get_fd spot (fsys w); Done (refcnt fd)
  | IoDev p => d ← deref (devobjs w !! p); Done (refcnt d)
  end.

Definition set_obj_refcnt (r : io_ref) (n : Z) (w : world) : outcome world :=
  match r with
  | IoFile spot => fd ← get_fd spot (fsys w); Done (set_fsys (set_fd spot (set_refcnt n fd) (fsys w)) w)
  | IoDev p => d ← deref (devobjs w !! p); Done (set_dev p (set_refcnt n d) w)
  end.

(** [io->ops->...]: the operations pointer must be set. *)
Definition with_ops {A} (r : io_ref) (w : world) (k : outcome A) : outcome A :=
  ops ← obj_ops r w;
  if ops : bool then k else Undefined.

Definition ref_ioread (r : io_ref) (n : Z) (ws : world * sched) : outcome (Z * list Z * (world * sched)) :=
  with_ops r ws.1 (@ioread _ (vtable r) n ws).
Definition ref_iowrite (r : io_ref) (buf : list Z) (ws : world * sched) : outcome (Z * (world * sched)) :=
  with_ops r ws.1 (@iowrite _ (vtable r) buf ws).
Definition ref_ioctl (r : io_ref) (cmd arg : Z) (ws : world * sched) : outcome (Z * Z * (world * sched)) :=
  with_ops r ws.1 (@ioctl _ (vtable r) cmd arg ws).
Definition ref_ioseek (r : io_ref) (pos : Z) (ws : world * sched) : outcome (Z * (world * sched)) :=
  with_ops r ws.1 (@ioseek _ (vtable r) pos ws).

(** [ioclose]: the count is stored before the object is closed; the operations
    pointer is used only when it drops to zero. *)
Definition ref_ioclose (r : io_ref) (ws : world * sched) : outcome (world * sched) :=
  let '(w, s) := ws in
  n ← obj_refcnt r w;
  w ← set_obj_refcnt r (u32 (n - 1)) w;
  if u32 (n - 1) =? 0 then with_ops r w ('(_, ws) ← @ioclose _ (vtable r) n (w, s); Done ws)
  else Done (w, s).

(** [io->refcnt += 1]. *)
Definition ref_addref (r : io_ref) (w : world) : outcome world :=
  n ← obj_refcnt r w;
  set_obj_refcnt r (u32 (n + 1)) w.

(** ** Opening *)

Definition open_device (name : list Z) (instno : Z) (ws : world * sched) : outcome (Z * option io_ref * (world * sched)) :=
  let '(w, s) := ws in
  '(rc, p, ds) ← device_open name instno (devtab w) (devobjs w, s);
  Done (rc, option_map IoDev p, (IoWorld (fsys w) ds.1 (devtab w), ds.2)).

Definition open_file (name : list Z) (ws : world * sched) : outcome (Z * option io_ref * (world * sched)) :=
  let '(w, s) := ws in
  '(rc, spot, k, s) ← fs_open name (fsys w) s;
  Done (rc, option_map IoFile spot, (set_fsys k w, s)).
End Objects.
