(* ===== verification/Process.v ===== *)
(** Processes (src/src/kern/process.c, process.h).

    Process structures are named by their addresses.  Their memory space identifiers
    are in the state of the threads, which switch spaces; the rest of a structure is
    a [process].  Diagnostic output is not modelled. *)
From Stdlib Require Import ZArith Lia.
From stdpp Require Import base gmap list strings.
From S2P Require Import Prelude CString Pages Heap Pte Memory Thread Lock Io Timer Device Kfs Elf Uart Console Objects.

Open Scope Z_scope.

Definition NPROC : Z := 16.
Definition MAIN_PID : Z := 0.
Definition PROCESS_IOMAX : Z := 16.
Definition sizeof_process : Z := 144.

(** A member that was never written is [None]; the pointers of [iotab] may be NULL. *)
Record process : Type := Proc { p_id : option Z; p_tid : option Z; iotab : list (option io_ref) }.

(** The state that processes share: I/O objects, threads with the memory, alarms,
    the console, the processes by address and their table. *)
Record kernel (δ β υ : Type) : Type := Kernel {
  kworld : io_world δ β;
  ksch : sched;
  ktim : timer;
  kcon : console υ;
  procs : gmap Z process;
  proctab : list (option Z)
}.
Arguments Kernel {δ β υ}.
Arguments kworld {δ β υ}.
Arguments ksch {δ β υ}.
Arguments ktim {δ β υ}.
Arguments kcon {δ β υ}.
Arguments procs {δ β υ}.
Arguments proctab {δ β υ}.

(** How a call that was made for a user ends: it returns a value; its thread waits,
    and another one is current; the thread enters user mode at [upc] with the stack
    pointer [usp]; the thread has ended, or the machine is halted. *)
Inductive ends (δ β υ : Type) : Type :=
| Returns (v : Z) (k : kernel δ β υ)
| Waits (saved : bool) (k : kernel δ β υ)
| Enters (upc usp : Z) (k : kernel δ β υ)
| Exits (saved : bool) (k : kernel δ β υ)
| Halts (k : kernel δ β υ).
Arguments Returns {δ β υ}.
Arguments Waits {δ β υ}.
Arguments Enters {δ β υ}.
Arguments Exits {δ β υ}.
Arguments Halts {δ β υ}.

(** The memory of the machine. *)
Definition pages (s : sched) : mem := heap_pages (kheap s).
Definition with_pages (m : mem) (s : sched) : sched :=
  let h := kheap s in
  with_heap (Heap (heap_initialized h) (heap_start h) (heap_end h) m) s.
Definition with_mtag (p mtag : Z) (s : sched) : sched :=
  Sched (threads s) (tlists s) (thrtab s) (CURTHR s) (sie s) (main_thread s) (idle_thread s)
    (<[p := mtag]> (proc_mtag s)) (kheap s).

Definition iotab_get (fd : Z) (p : process) : outcome (option io_ref) :=
  if fd <? 0 then Undefined else deref (iotab p !! Z.to_nat fd).

Section Process.
Context {δ β υ : Type} `{IoIntf δ} `{IoOps δ} `{IoOps β} (stack_hi : Z).

Abbreviation kern := (kernel δ β υ).

Definition set_io (ws : io_world δ β * sched) (k : kern) : kern :=
  Kernel ws.1 ws.2 (ktim k) (kcon k) (procs k) (proctab k).
Definition set_sched (s : sched) (k : kern) : kern :=
  Kernel (kworld k) s (ktim k) (kcon k) (procs k) (proctab k).
Definition set_process (p : Z) (x : process) (k : kern) : kern :=
  Kernel (kworld k) (ksch k) (ktim k) (kcon k) (<[p := x]> (procs k)) (proctab k).
Definition set_proctab (l : list (option Z)) (k : kern) : kern :=
  Kernel (kworld k) (ksch k) (ktim k) (kcon k) (procs k) l.

(** [current_process]: the address and the structure. *)
Definition current_process (k : kern) : outcome (Z * process) :=
  t ← running_thread (ksch k);
  p ← thread_process t (ksch k);
  p ← deref p;
  x ← deref (procs k !! p);
  Done (p, x).

Definition procmgr_init (main_proc : Z) (k : kern) : outcome kern :=
  t ← running_thread (ksch k);
  let s := with_mtag main_proc (active_memory_space (pages (ksch k))) (ksch k) in
  s ← thread_set_process t (Some main_proc) s;
  Done (set_process main_proc (Proc (Some MAIN_PID) (Some t) (replicate (Z.to_nat PROCESS_IOMAX) None)) (set_sched s k)).

(** The executable is read while the pages are mapped; the operations of the object
    do not change the memory.  Without a valid header the entry point was never
    written. *)
Definition process_exec (exeio : io_ref) (k : kern) : outcome (ends δ β υ) :=
  m ← memory_unmap_and_free_user (pages (ksch k));
  '(_, entry, ws, m) ← with_ops exeio (kworld k) (@elf_load _ (vtable stack_hi exeio) 0 (kworld k, ksch k) m);
  exe_entry ← deref entry;
  let '(_, s) := intr_disable (with_pages m ws.2) in
  Done (Enters exe_entry USER_STACK_VMA (set_io (ws.1, s) k)).

(** The loop that closes the open objects. *)
Fixpoint close_all (l : list (option io_ref)) (ws : io_world δ β * sched) : outcome (io_world δ β * sched) :=
  match l with
  | [] => Done ws
  | None :: l => close_all l ws
  | Some r :: l =>
      ops ← obj_ops r ws.1;
      ws ← (if ops : bool then ref_ioclose stack_hi r ws else Done ws);
      close_all l ws
  end.

Definition process_exit (k : kern) : outcome (ends δ β υ) :=
  '(_, curr) ← current_process k;
  m ← memory_space_reclaim (pages (ksch k));
  ws ← close_all (iotab curr) (kworld k, with_pages m (ksch k));
  r ← thread_exit ws.2;
  match r with
  | HaltSuccess => Done (Halts (set_io ws k))
  | Switched saved s => Done (Exits saved (set_io (ws.1, s) k))
  end.

(** The first free slot of the table. *)
Fixpoint free_slot (x : Z) (l : list (option Z)) : option Z :=
  match l with
  | [] => None
  | None :: _ => Some x
  | Some _ :: l => free_slot (x + 1) l
  end.

(** The loop that copies the table of the parent. *)
Fixpoint copy_refs (l : list (option io_ref)) (w : io_world δ β) : outcome (io_world δ β) :=
  match l with
  | [] => Done w
  | None :: l => copy_refs l w
  | Some r :: l => w ← ref_addref r w; copy_refs l w
  end.

(** The thread of the child is not started. *)
Definition process_fork (k : kern) : outcome (Z * kern) :=
  '(new_proc, h) ← kmalloc sizeof_process (kheap (ksch k));
  let k := set_sched (with_heap h (ksch k)) k in
  let slot := free_slot 0 (take (Z.to_nat NPROC) (proctab k)) in
  let k := match slot with Some x => set_proctab (<[Z.to_nat x := Some new_proc]> (proctab k)) k | None => k end in
  '(_, curr) ← current_process k;
  w ← copy_refs (iotab curr) (kworld k);
  let k := set_process new_proc (Proc slot None (iotab curr)) (set_io (w, ksch k) k) in
  '(mtag, m) ← memory_space_clone 0 (pages (ksch k));
  let s := with_mtag new_proc mtag (with_pages m (ksch k)) in
  let '(saved, s) := intr_disable s in
  let s := switch_space mtag s in
  Done (0, set_sched (intr_restore saved s) k).
End Process.
