(* ===== verification/ProcSpec.v ===== *)
(** What I/O on open files leaves alone, and open files as block objects. *)
From Stdlib Require Import ZArith Lia.
From stdpp Require Import base gmap list strings.
From S2P Require Import Prelude CString Pages Heap Pte Memory MemFacts PageTables Mapping Spaces Vmem Thread Frames ThreadLists Scheduler Lock Io IoSpec Disk Timer Device Kfs KfsSpec Elf ElfSpec Stale Uart Console Objects Process.

Open Scope Z_scope.

(** ** Waking threads *)

(** A thread whose place in the lists may have changed. *)
Record same_thread (th th' : thread) : Prop := {
  st_tid : tid th' = tid th;
  st_proc : tproc th' = tproc th;
  st_stack : stack_base th' = stack_base th;
  st_context : context th' = context th
}.

Record keeps (s s' : sched) : Prop := {
  kp_cur : CURTHR s' = CURTHR s;
  kp_tab : thrtab s' = thrtab s;
  kp_heap : kheap s' = kheap s;
  kp_mtag : proc_mtag s' = proc_mtag s;
  kp_main : main_thread s' = main_thread s;
  kp_threads t th : threads s !! t = Some th → ∃ th', threads s' !! t = Some th' ∧ same_thread th th'
}.

#[export] Instance same_thread_preorder : PreOrder same_thread.
Proof. split; [by split|]. intros a b c [] []. split; congruence. Qed.

#[export] Instance keeps_preorder : PreOrder keeps.
Proof.
  split; [intros s; split; try done; intros t th ?; by exists th|].
  intros a b c [? ? ? ? ? H1] [? ? ? ? ? H2]. split; try congruence. intros t th Ht.
  destruct (H1 t th Ht) as (th1 & Ht1 & ?). destruct (H2 t th1 Ht1) as (th2 & ? & ?). exists th2. split; [done|]. by etrans.
Qed.

Lemma keeps_upd t f s s' : (∀ th, same_thread th (f th)) → upd_thr t f s = Done s' → keeps s s'.
Proof.
  intros Hf Hu. unfold upd_thr, get_thr in Hu. apply bind_Done in Hu as (th & Ht & [= <-]). apply deref_Done in Ht.
  split; try done. intros u thu Hu. cbn [threads with_threads]. destruct (decide (u = t)) as [->|].
  - rewrite Hu in Ht. injection Ht as ->. rewrite lookup_insert_eq. eauto.
  - rewrite lookup_insert_ne by done. exists thu. by split.
Qed.

#[export] Instance keeps_frame : ListFrame keeps.
Proof.
  split; [exact _| |intros l x s; split; try done; intros t th ?; by exists th|intros b s; split; try done; intros t th ?; by exists th].
  intros t f s th Hf Ht. eapply (keeps_upd t f); [|unfold upd_thr, get_thr; by rewrite Ht]. intros u. by destruct Hf; split.
Qed.

Lemma keeps_broadcast c s s' : condition_broadcast c s = Done s' → keeps s s'.
Proof. apply (frame_broadcast keeps). Qed.

Lemma keeps_release lk s lk' s' : lock_release lk s = Done (lk', s') → keeps s s'.
Proof. intros Hr. unfold lock_release in Hr. apply bind_Done in Hr as (s1 & H1 & [= _ <-]). by eapply keeps_broadcast. Qed.

(** The calls on files. *)
Section Files.
Context {β : Type} `{IoOps β}.

Lemma keeps_lock body (k : kfs β) s rc buf k' s' :
  (∀ k1 s1 r, body k1 s1 = Done r → ∃ rc buf k' s', r = FsDone rc buf k' s' ∧ keeps s1 s') →
  with_kfs_lock body k s = Done (FsDone rc buf k' s') → keeps s s'.
Proof.
  intros Hbody Hl. unfold with_kfs_lock in Hl. apply bind_Done in Hl as (r & Ha & Hl). unfold lock_acquire in Ha.
  destruct (lock_tid (kfs_lock k) =? - UNLOCK).
  - apply bind_Done in Ha as (t & _ & [= <-]). destruct (Hbody _ _ _ Hl) as (? & ? & ? & ? & [= -> -> -> ->] & ?). done.
  - apply bind_Done in Ha as ([saved s1] & _ & [= <-]). done.
Qed.

Lemma keeps_fs_read hi io n buf (k : kfs β) s rc buf' k' s' : fs_read hi io n buf k s = Done (FsDone rc buf' k' s') → keeps s s'.
Proof.
  apply keeps_lock. intros k1 s1 r Hr. unfold fs_read_locked in Hr. apply bind_Done in Hr as (fd & _ & Hr).
  apply bind_Done in Hr as ([loc d] & _ & Hr). destruct loc as [[[[? ?] ?] ?]|]; [|injection Hr as <-; eexists _, _, _, _; by split].
  apply bind_Done in Hr as ([[[? ?] ?] ?] & _ & Hr). apply bind_Done in Hr as ([lk s2] & Hl & [= <-]).
  eexists _, _, _, _. split; [done|]. by eapply keeps_release.
Qed.

Lemma keeps_fs_write hi io n buf (k : kfs β) s rc buf' k' s' : fs_write hi io n buf k s = Done (FsDone rc buf' k' s') → keeps s s'.
Proof.
  apply keeps_lock. intros k1 s1 r Hr. unfold fs_write_locked in Hr. apply bind_Done in Hr as (fd & _ & Hr).
  apply bind_Done in Hr as ([loc d] & _ & Hr). destruct loc as [[[[? ?] ?] ?]|]; [|injection Hr as <-; eexists _, _, _, _; by split].
  apply bind_Done in Hr as ([[? ?] ?] & _ & Hr). apply bind_Done in Hr as ([lk s2] & Hl & [= <-]).
  eexists _, _, _, _. split; [done|]. by eapply keeps_release.
Qed.
End Files.

(** ** The current process *)

Section Current.
Context {δ β υ : Type}.

Lemma current_threads (k k' : kernel δ β υ) r :
  CURTHR (ksch k') = CURTHR (ksch k) → thrtab (ksch k') = thrtab (ksch k) →
  (∀ t th, threads (ksch k) !! t = Some th → ∃ th', threads (ksch k') !! t = Some th' ∧ same_thread th th') →
  procs k' = procs k → current_process k = Done r → current_process k' = Done r.
Proof.
  intros Hcur Htab Hthr Hp Hc. unfold current_process, running_thread, thread_process, thrtab_get, get_thr in *. rewrite Hp, Hcur, Htab.
  apply bind_Done in Hc as (t & Ht & Hc). apply bind_Done in Ht as (th & Hth & [= <-]). apply deref_Done in Hth.
  destruct (Hthr _ _ Hth) as (th' & -> & [Htid _ _ _]). cbn [deref mbind outcome_bind]. rewrite Htid.
  apply bind_Done in Hc as (p & Hpr & Hc). apply bind_Done in Hpr as (u & Hu & Hpr). rewrite Hu. cbn [mbind outcome_bind].
  apply bind_Done in Hpr as (o & Ho & Hpr). rewrite Ho. cbn [mbind outcome_bind]. apply bind_Done in Hpr as (v & Hv & Hpr).
  rewrite Hv. cbn [mbind outcome_bind]. apply bind_Done in Hpr as (t0 & Ht0 & Hpr). rewrite Ht0. cbn [mbind outcome_bind].
  apply bind_Done in Hpr as (th0 & Hth0 & [= <-]). apply deref_Done in Hth0. destruct (Hthr _ _ Hth0) as (th0' & -> & [_ Hpr0 _ _]).
  cbn [deref mbind outcome_bind]. by rewrite Hpr0.
Qed.

Lemma current_keeps (k k' : kernel δ β υ) s h r :
  keeps (ksch k) s → ksch k' = with_heap h s → procs k' = procs k → current_process k = Done r → current_process k' = Done r.
Proof. intros [Hcur Htab _ _ _ Hthr] Hs. apply current_threads; by rewrite Hs. Qed.
Lemma current_thread (k : kernel δ β υ) p x : current_process k = Done (p, x) → procs k !! p = Some x.
Proof.
  unfold current_process. intros Hc. apply bind_Done in Hc as (t & _ & Hc). apply bind_Done in Hc as (o & _ & Hc).
  apply bind_Done in Hc as (p' & _ & Hc). apply bind_Done in Hc as (x' & Hx & [= -> ->]). by apply deref_Done in Hx.
Qed.
End Current.

(** ** An open file is a block object *)

(** Writing to a file overwrites its bytes. *)
Lemma file_bytes_written img img' N i len pos data : image_ok img N i len → 0 ≤ pos → pos + Z.of_nat (length data) ≤ len →
  written img img' N i pos (Z.of_nat (length data)) data →
  file_bytes img' N i 0 len = overwrite pos data (file_bytes img N i 0 len).
Proof.
  intros Him Hp Hl Hw. destruct (written_image _ _ _ _ _ _ _ _ Him Hp Hl Hw) as [Him' Hoff]. destruct Hw as (Hlen & Hin & Hout).
  pose proof (im_size _ _ _ _ Him).
  apply list_eq. intros o. destruct (decide (o < Z.to_nat len)%nat) as [Ho|Ho].
  - rewrite <- (Nat2Z.id o). rewrite overwrite_lookup by (rewrite ?file_bytes_length; lia). rewrite !file_bytes_lookup by lia.
    rewrite Hoff by lia. rewrite Z.add_0_l. rewrite list_lookup_total_alt. case_decide as Hc.
    + specialize (Hin (Z.of_nat o - pos) ltac:(lia)). replace (pos + (Z.of_nat o - pos)) with (Z.of_nat o) in Hin by lia. rewrite Hin.
      destruct (data !! Z.to_nat (Z.of_nat o - pos)) eqn:E; [done|]. apply lookup_ge_None in E. lia.
    + rewrite Hout; [by rewrite list_lookup_total_alt|pose proof (im_data _ _ _ _ Him (Z.of_nat o) ltac:(lia)); pose proof (im_area _ _ _ _ Him); pose proof (im_inode _ _ _ _ Him); lia|].
      intros q Hq Heq. apply (im_inj _ _ _ _ Him) in Heq; lia.
  - rewrite !lookup_ge_None_2; [done| |]; rewrite ?overwrite_length; rewrite ?file_bytes_length; lia.
Qed.

Section FileDisk.
Context {δ β : Type} `{IoIntf δ} `{IoOps δ} `{IoDisk β} (spot : Z).

Abbreviation iostate := (io_world δ β * sched)%type.

Definition file_img (ws : iostate) : list Z := contents (globalIO (fsys ws.1)).
Definition file_fd (ws : iostate) : file_desc := default zero_desc (fileArray (fsys ws.1) !! Z.to_nat spot).

(** The bytes of the file that is open at [spot]. *)
Definition file_contents (ws : iostate) : list Z :=
  file_bytes (file_img ws) (le32 (file_img ws) 4) (f_inode (file_fd ws)) 0 (file_size (file_fd ws)).

Record file_ok (ws : iostate) : Prop := {
  fo_ready : fs_ready (fsys ws.1) ws.2 spot (le32 (file_img ws) 4) (file_size (file_fd ws)) (file_fd ws)
}.

Lemma file_ok_fd ws : file_ok ws → fileArray (fsys ws.1) !! Z.to_nat spot = Some (file_fd ws) ∧ 0 ≤ spot.
Proof. intros [[_ [Hs Hf] _ _ _ _ _ _ _]]. done. Qed.

Lemma file_contents_length ws : file_ok ws → Z.of_nat (length (file_contents ws)) = file_size (file_fd ws).
Proof. intros [Hr]. pose proof (fr_pos _ _ _ _ _ _ Hr). unfold file_contents. rewrite file_bytes_length. lia. Qed.

(** [ws'] is the same file, at [pos], with the bytes [data]. *)
Definition file_at (ws ws' : iostate) (pos : Z) (data : list Z) : Prop :=
  file_ok ws' ∧ file_contents ws' = data ∧ file_pos (file_fd ws') = pos ∧ keeps ws.2 ws'.2.

(** From what the calls of the file system leave. *)
Lemma file_at_intro (ws : iostate) k' s' N len fd pos data :
  file_ok ws → fs_ready k' s' spot N len (fd_at pos fd) → file_fd ws = fd → keeps ws.2 s' →
  file_bytes (contents (globalIO k')) N (f_inode fd) 0 len = data →
  file_at ws (set_fsys k' ws.1, s') pos data.
Proof.
  intros Hok Hr Hfd Hk Hd. pose proof Hr as [_ [_ Hl] _ Hsz _ Him _ _ _]. pose proof (im_inodes _ _ _ _ Him) as HN.
  assert (Hfd' : file_fd (set_fsys k' ws.1, s') = fd_at pos fd) by (unfold file_fd; cbn [fst set_fsys fsys]; by rewrite Hl).
  assert (Himg : file_img (set_fsys k' ws.1, s') = contents (globalIO k')) by done.
  split; [|split; [|split; [by rewrite Hfd'|done]]].
  - split. rewrite Hfd', Himg, HN, Hsz. exact Hr.
  - unfold file_contents. rewrite Hfd', Himg, HN, Hsz. exact Hd.
Qed.

Context (hi : Z) (Hhi : clean_half hi).

Lemma file_read_at n ws : file_ok ws → 0 ≤ n < 2 ^ 63 →
  let pos := file_pos (file_fd ws) in let cnt := Z.min n (file_size (file_fd ws) - pos) in
  ∃ ws', @ioread _ (vtable hi (IoFile spot)) n ws = Done (cnt, slice pos cnt (file_contents ws), ws') ∧
    file_at ws ws' (pos + cnt) (file_contents ws).
Proof.
  intros Hok Hn pos cnt. destruct (file_ok_fd _ Hok) as [Hfd Hsp]. pose proof Hok as [Hr].
  pose proof (fr_image _ _ _ _ _ _ Hr) as Him. pose proof (im_size _ _ _ _ Him). pose proof (fr_pos _ _ _ _ _ _ Hr).
  destruct (fs_read_spec hi Hhi spot n (replicate (Z.to_nat n) 0) _ _ _ _ _ Hr) as (k' & s' & He & Hr' & Hc & _); [lia|lia|rewrite length_replicate; lia|].
  fold pos cnt in He, Hr'. destruct ws as [w s]. cbn [fst snd] in *. exists (set_fsys k' w, s'). split.
  - unfold ioread. cbn [op_read vtable]. unfold file_read. rewrite He. cbn [mbind outcome_bind].
    assert (Hl : take (Z.to_nat cnt) (overwrite 0 (file_bytes (contents (globalIO (fsys w))) (le32 (file_img (w, s)) 4) (f_inode (file_fd (w, s))) pos cnt)
              (replicate (Z.to_nat n) 0)) = slice pos cnt (file_contents (w, s))).
    { unfold overwrite. change (Z.to_nat 0) with 0%nat. cbn [take]. rewrite app_nil_l, take_app_le, take_ge by (rewrite file_bytes_length; lia).
      unfold file_contents. apply file_bytes_slice; lia. }
    by rewrite Hl.
  - eapply file_at_intro; [done|exact Hr'|done|by eapply keeps_fs_read|]. by rewrite Hc.
Qed.

(** One call of the write operation: cut at the end of the file. *)
Lemma file_write_once data ws : file_ok ws → Z.of_nat (length data) < 2 ^ 63 →
  let pos := file_pos (file_fd ws) in let cnt := Z.min (Z.of_nat (length data)) (file_size (file_fd ws) - pos) in
  ∃ ws', file_write hi spot data ws = Done (cnt, ws') ∧
    file_at ws ws' (pos + cnt) (overwrite pos (take (Z.to_nat cnt) data) (file_contents ws)).
Proof.
  intros Hok Hlt pos cnt. destruct (file_ok_fd _ Hok) as [Hfd Hsp]. pose proof Hok as [Hr].
  pose proof (fr_image _ _ _ _ _ _ Hr) as Him. pose proof (im_size _ _ _ _ Him). pose proof (fr_pos _ _ _ _ _ _ Hr) as Hpos. fold pos in Hpos.
  destruct (fs_write_spec hi Hhi spot (Z.of_nat (length data)) data _ _ _ _ _ Hr) as (k' & s' & He & Hr' & Hw); [lia|lia|lia|].
  fold pos cnt in He, Hr', Hw. destruct ws as [w s]. cbn [fst snd] in *. exists (set_fsys k' w, s'). split.
  - unfold file_write. by rewrite He.
  - eapply file_at_intro; [done|exact Hr'|done|by eapply keeps_fs_write|].
    assert (Hl : Z.of_nat (length (take (Z.to_nat cnt) data)) = cnt) by (rewrite length_take; lia).
    eapply file_bytes_written; [exact Him|lia|fold pos; lia|]. rewrite Hl. destruct Hw as (Hw1 & Hw2 & Hw3).
    split; [done|]. split; [|done]. intros q Hq. rewrite lookup_take_lt by lia. by apply Hw2.
Qed.

Lemma file_at_trans ws ws1 ws2 pos1 data1 pos2 data2 :
  file_at ws ws1 pos1 data1 → file_at ws1 ws2 pos2 data2 → file_at ws ws2 pos2 data2.
Proof. intros (_ & _ & _ & Hk1) (? & ? & ? & Hk2). do 3 (split; [done|]). by etrans. Qed.

(** [iowrite] to a file writes what fits and does not try to go on. *)
Lemma file_write_at data ws : file_ok ws → Z.of_nat (length data) < 2 ^ 63 →
  let pos := file_pos (file_fd ws) in let cnt := Z.min (Z.of_nat (length data)) (file_size (file_fd ws) - pos) in
  ∃ ws', @iowrite _ (vtable hi (IoFile spot)) data ws = Done (cnt, ws') ∧
    file_at ws ws' (pos + cnt) (overwrite pos (take (Z.to_nat cnt) data) (file_contents ws)).
Proof.
  intros Hok Hlt pos cnt. pose proof Hok as [Hr]. pose proof (fr_pos _ _ _ _ _ _ Hr) as Hpos. fold pos in Hpos.
  unfold iowrite. cbn [op_write vtable]. destruct (decide (data = [])) as [->|Hne].
  { cbn [length iowrite_loop]. assert (Hc0 : cnt = 0) by (unfold cnt; cbn [length]; lia). rewrite Hc0, Z.add_0_r. exists ws. split; [done|].
    change (Z.to_nat 0) with 0%nat. cbn [take]. by rewrite overwrite_nil. }
  destruct (file_write_once data ws Hok Hlt) as (ws1 & He & Hat). fold pos cnt in He, Hat.
  destruct data as [|c data]; [done|]. cbn [length iowrite_loop] in *. rewrite He. cbn [mbind outcome_bind].
  destruct (Z.ltb_spec cnt 0); [lia|]. destruct (Z.eqb_spec cnt 0) as [Hz|Hnz].
  { exists ws1. by rewrite Hz in *. }
  rewrite Z.add_0_l. destruct (drop (Z.to_nat cnt) (c :: data)) as [|c2 rest] eqn:Hd.
  { exists ws1. split; [by destruct data|done]. }
  assert (Hlen : Z.of_nat (length (c2 :: rest)) = Z.of_nat (S (length data)) - cnt) by (rewrite <- Hd, length_drop; cbn [length]; lia).
  destruct (file_write_once (c2 :: rest) ws1) as (ws2 & He2 & Hat2); [apply Hat|lia|].
  assert (Hfull : cnt = file_size (file_fd ws) - pos) by (cbn [length] in *; lia).
  assert (Hsz : file_size (file_fd ws1) = file_size (file_fd ws)).
  { destruct Hat as (Hok1 & Hc1 & _). rewrite <- (file_contents_length ws1 Hok1), <- (file_contents_length ws Hok), Hc1.
    rewrite overwrite_length; [done|lia|]. rewrite file_contents_length by done. rewrite length_take. lia. }
  assert (Hp1 : file_pos (file_fd ws1) = pos + cnt) by apply Hat. cbn zeta in He2, Hat2.
  rewrite Hp1, Hsz, Z.min_r in He2, Hat2 by lia.
  replace (file_size (file_fd ws) - (pos + cnt)) with 0 in He2, Hat2 by lia.
  destruct data as [|c1 data]; [cbn [length] in Hlen; lia|]. cbn [length iowrite_loop]. rewrite He2. cbn [mbind outcome_bind].
  change (0 <? 0) with false. change (0 =? 0) with true. cbn iota. exists ws2. split; [done|].
  destruct Hat as (Hok1 & Hc1 & Hp' & Hk1). change (Z.to_nat 0) with 0%nat in Hat2. cbn [take] in Hat2. rewrite overwrite_nil, Z.add_0_r, Hc1 in Hat2.
  eapply file_at_trans; [|exact Hat2]. done.
Qed.

Lemma file_seek_at p ws : file_ok ws → 0 ≤ p ≤ file_size (file_fd ws) →
  ∃ ws', @ioseek _ (vtable hi (IoFile spot)) p ws = Done (0, ws') ∧ file_at ws ws' p (file_contents ws).
Proof.
  intros Hok Hp. destruct (file_ok_fd _ Hok) as [Hfd Hsp]. pose proof Hok as [Hr].
  destruct ws as [w s]. unfold ioseek, ioctl. cbn [op_ctl vtable]. unfold file_ctl, get_fd. destruct (Z.ltb_spec spot 0); [lia|]. cbn [fst] in Hfd. rewrite Hfd.
  cbn [deref mbind outcome_bind]. rewrite fd_setpos; [|apply (fr_ops _ _ _ _ _ _ Hr)|lia]. cbn [mbind outcome_bind].
  eexists. split; [reflexivity|]. eapply (file_at_intro (w, s)); [done| |done|done|done].
  destruct Hr as [? ? ? ? ? ? ? ? ?]. cbn [fst snd] in *. split; try done; cbn [set_fd fileArray fd_at file_pos]; try done.
  split; [done|]. apply list_lookup_insert_eq. by eapply lookup_lt_Some.
Qed.

Lemma file_getpos_at arg ws : file_ok ws →
  ∃ r, @ioctl _ (vtable hi (IoFile spot)) IOCTL_GETPOS arg ws = Done (r, file_pos (file_fd ws), ws).
Proof.
  intros Hok. destruct (file_ok_fd _ Hok) as [Hfd Hsp]. pose proof Hok as [Hr]. destruct ws as [w s]. cbn [fst] in Hfd.
  unfold ioctl. cbn [op_ctl vtable]. unfold file_ctl, get_fd. destruct (Z.ltb_spec spot 0); [lia|]. rewrite Hfd.
  cbn [deref mbind outcome_bind]. unfold fd_ioctl. rewrite (fr_ops _ _ _ _ _ _ Hr). cbn [mbind outcome_bind].
  unfold fs_ioctl. change (IOCTL_GETPOS =? IOCTL_GETLEN) with false. change (IOCTL_GETPOS =? IOCTL_GETPOS) with true. unfold fs_getpos.
  eexists. unfold set_fd. rewrite list_insert_id by done. by destruct w as [[] ? ?].
Qed.
End FileDisk.

Section FileIsDisk.
Context {δ β : Type} `{IoIntf δ} `{IoOps δ} `{IoDisk β} (spot hi : Z) (Hhi : clean_half hi).

(** An open file keeps the promises of a block object, those that the loader and the
    file system rely on. *)
Program Definition file_disk : @IoDisk (io_world δ β * sched) (vtable hi (IoFile spot)) := {|
  contents := file_contents spot;
  dpos ws := file_pos (file_fd spot ws);
  disk_ok := file_ok spot
|}.
Next Obligation.
  intros ws Hok. rewrite file_contents_length by done. destruct Hok as [Hr].
  pose proof (fr_pos _ _ _ _ _ _ Hr). pose proof (im_size _ _ _ _ (fr_image _ _ _ _ _ _ Hr)). lia.
Qed.
Next Obligation.
  intros p ws Hok Hp. rewrite file_contents_length in Hp by done. destruct (file_seek_at spot hi p ws Hok Hp) as (ws' & He & Hok' & Hc & Hpos & _). eauto.
Qed.
Next Obligation. intros arg ws Hok. destruct (file_getpos_at spot hi arg ws Hok) as (r & He). by exists r, ws. Qed.
Next Obligation.
  intros n ws Hok Hn Hl. rewrite file_contents_length in Hl by done. pose proof Hok as [Hr].
  pose proof (fr_pos _ _ _ _ _ _ Hr). pose proof (im_size _ _ _ _ (fr_image _ _ _ _ _ _ Hr)).
  destruct (file_read_at spot hi Hhi n ws Hok ltac:(lia)) as (ws' & He & Hok' & Hc & Hpos & _). rewrite Z.min_l in He, Hpos by lia. exists ws'. done.
Qed.
Next Obligation.
  intros data ws Hok Hne Hl. rewrite file_contents_length in Hl by done.
  pose proof Hok as [Hr]. pose proof (im_size _ _ _ _ (fr_image _ _ _ _ _ _ Hr)). pose proof (fr_pos _ _ _ _ _ _ Hr).
  destruct (file_write_at spot hi Hhi data ws Hok ltac:(lia)) as (ws' & He & Hok' & Hc & Hpos & _). rewrite Z.min_l in He, Hc, Hpos by lia.
  rewrite Nat2Z.id, take_ge in Hc by lia. exists ws'. done.
Qed.

Lemma file_disk0 : @IoDisk0 _ (vtable hi (IoFile spot)) file_disk.
Proof.
  split. intros ws Hok. pose proof Hok as [Hr]. pose proof (fr_pos _ _ _ _ _ _ Hr).
  destruct (file_read_at spot hi Hhi 0 ws Hok ltac:(lia)) as (ws' & He & Hok' & Hc & Hpos & _). rewrite Z.min_l in He, Hpos by lia.
  rewrite slice_nil in He. rewrite Z.add_0_r in Hpos. exists ws'. done.
Qed.
End FileIsDisk.

(** ** The main process *)

Lemma set_proc_rep s a t th p :
  sched_rep s a → threads s !! t = Some th → is_Some (proc_mtag s !! p) →
  sched_rep (with_threads <[t := set_proc (Some p) th]> s) a.
Proof.
  intros Hrep Hth Hp.
  assert (Hv : ∀ x st w q r, views (with_threads <[t := set_proc (Some p) th]> s) x = Some (st, w, q, r) →
    ∃ q', views s x = Some (st, w, q', r) ∧ (q = q' ∨ q = Some p)).
  { intros x st w q r. rewrite (views_upd t (set_proc (Some p)) s th x Hth). case_decide as Hx; [|eauto].
    subst x. unfold view. cbn. intros [= <- <- <- <-]. exists (tproc th). split; [by rewrite (views_thread _ _ _ Hth)|by right]. }
  pose proof (sr_lists _ _ Hrep) as [Hl Hlw]. split.
  - split; [|intros c]; by apply (tl_rep_upd t (set_proc (Some p))).
  - intros x st w q r (q' & Hx & _)%Hv. by eapply (sr_ready _ _ Hrep).
  - intros x st w q r c (q' & Hx & _)%Hv. by eapply (sr_wait _ _ Hrep).
  - apply (sr_cur _ _ Hrep).
  - intros x st w q r (q' & Hx & _)%Hv. by eapply (sr_run _ _ Hrep).
  - destruct (sr_idle _ _ Hrep) as (st & w & q & r & Hi & Hst). cbn [idle_thread with_threads].
    rewrite (views_upd t (set_proc (Some p)) s th _ Hth). case_decide as Hx; [|eauto 10].
    rewrite Hx, (views_thread _ _ _ Hth) in Hi. injection Hi as <- <- <- <-. eexists _, _, _, _. by split.
  - intros x st w q r (q' & Hx & [<-|[= ->]])%Hv; [by eapply (sr_proc _ _ Hrep)|done].
Qed.

Lemma mtag_rep s a p v : sched_rep s a → sched_rep (with_mtag p v s) a.
Proof.
  intros [? ? ? ? ? ? Hp]. split; try done. intros x st w q r Hx. destruct (Hp x st w q r Hx) as [y Hy]. cbn [proc_mtag with_mtag].
  destruct (decide (q = p)) as [->|]; [rewrite lookup_insert_eq|rewrite lookup_insert_ne by done]; eauto.
Qed.

(** After the process manager is initialised, the running thread belongs to the
    main process, whose space is the active one and which has no open descriptor. *)
Lemma procmgr_init_main {δ β υ} (k : kernel δ β υ) main_proc th a :
  sched_rep (ksch k) a → threads (ksch k) !! CURTHR (ksch k) = Some th → 0 ≤ tid th < NTHR →
  thrtab (ksch k) !! Z.to_nat (tid th) = Some (Some (CURTHR (ksch k))) →
  ∃ k' x, procmgr_init main_proc k = Done k' ∧ current_process k' = Done (main_proc, x) ∧ p_id x = Some MAIN_PID ∧
    iotab x = replicate 16 None ∧ sched_rep (ksch k') a ∧ (running (ksch k) → running (ksch k')) ∧
    kheap (ksch k') = kheap (ksch k) ∧ kworld k' = kworld k ∧
    proc_mtag (ksch k') !! main_proc = Some (active_memory_space (pages (ksch k))).
Proof.
  intros Hrep Hth Hid Htab. set (s := ksch k) in *. set (s1 := with_mtag main_proc (active_memory_space (pages s)) s).
  assert (Hrt : running_thread s = Done (tid th)) by (unfold running_thread; by rewrite (get_thr_eq _ _ _ Hth)).
  assert (Hget : thrtab_get (tid th) s1 = Done (Some (CURTHR s))).
  { unfold thrtab_get, NTHR in *. destruct (Z.leb_spec 0 (tid th)); [|lia]. destruct (Z.ltb_spec (tid th) 16); [|lia]. cbn. by rewrite Htab. }
  assert (Hk : (0 <=? tid th) || (tid th <? NTHR) = true) by (destruct (Z.leb_spec 0 (tid th)); [done|lia]).
  assert (Hset : thread_set_process (tid th) (Some main_proc) s1 = Done (with_threads <[CURTHR s := set_proc (Some main_proc) th]> s1)).
  { unfold thread_set_process. rewrite Hk, Hget. cbn [kassert is_null negb deref mbind outcome_bind]. by apply upd_thr_eq. }
  set (s2 := with_threads _ s1) in Hset.
  assert (Hth2 : threads s2 !! CURTHR s = Some (set_proc (Some main_proc) th)) by apply lookup_insert_eq.
  eexists _, _. split; [unfold procmgr_init; fold s; rewrite Hrt; cbn [mbind outcome_bind]; fold s1; rewrite Hset; reflexivity|].
  split; [|split; [|split; [|split; [|split; [|split; [|split]]]]]].
  - unfold current_process, thread_process. cbn [set_process set_sched ksch procs].
    assert (running_thread s2 = Done (tid th)) as ->.
    { unfold running_thread. change (CURTHR s2) with (CURTHR s). by rewrite (get_thr_eq _ _ _ Hth2). }
    cbn [mbind outcome_bind]. rewrite Hk. change (thrtab_get (tid th) s2) with (thrtab_get (tid th) s1). rewrite Hget.
    cbn [kassert is_null negb deref mbind outcome_bind]. rewrite (get_thr_eq _ _ _ Hth2). cbn [tproc set_proc deref mbind outcome_bind].
    rewrite lookup_insert_eq. reflexivity.
  - done.
  - done.
  - apply set_proc_rep; [by apply mtag_rep|done|]. cbn. rewrite lookup_insert_eq. eauto.
  - intros (w & p & q & Hv). unfold running. cbn [set_process set_sched ksch]. change (CURTHR s2) with (CURTHR s).
    rewrite (views_thread _ _ _ Hth2). fold s in Hv. rewrite (views_thread _ _ _ Hth) in Hv. injection Hv as Hst _ _ _.
    eexists _, _, _. unfold view. cbn [set_proc tstate]. by rewrite Hst.
  - done.
  - done.
  - cbn. apply lookup_insert_eq.
Qed.

(** ** Running a program *)

(** Memories with the same words. *)
Definition same_words (m m' : mem) : Prop := ∀ x, rd m' x = rd m x.

Lemma same_words_path root m m' : same_words m m' → ∀ p, node_at root m' p = node_at root m p ∧ entry_at root m' p = entry_at root m p.
Proof.
  intros Hw p. induction p as [|i p [IHn _]]; [done|]. cbn. rewrite IHn. destruct (node_at root m p) as [t|]; [|done]. by rewrite Hw.
Qed.

Lemma same_words_translate root m m' : same_words m m' → ∀ u, translate root u m' = translate root u m ∧ vbyte root u m' = vbyte root u m.
Proof.
  intros Hw u. assert (Ht : translate root u m' = translate root u m) by apply (same_words_path root m m' Hw). split; [done|].
  unfold vbyte, byte_at. rewrite Ht. destruct (translate root u m); [|done]. cbn. by rewrite Hw.
Qed.

Lemma same_words_inv root m m' l : same_words m m' → free_ok m' l → pt_inv root m l → pt_inv root m' l.
Proof.
  intros Hw Hf [_ Hp Hi Hk Ht]. pose proof (same_words_path root m m' Hw) as Hs. split; [done|..].
  - intros p t Hok. rewrite (proj1 (Hs p)). by apply Hp.
  - intros p p' t Hok Hok'. rewrite (proj1 (Hs p)), (proj1 (Hs p')). by apply Hi.
  - intros i. rewrite Hw. by apply Hk.
  - intros p e. rewrite (proj2 (Hs p)). by apply Ht.
Qed.

(** A space in which no page is mapped for the user. *)
Definition no_user (root : Z) (m : mem) : Prop :=
  ∀ p e, path_ok p → length p = 3%nat → entry_at root m p = Some e → has PTE_U e = false.

Lemma unmap_nothing root m l : pt_inv root m l → active_space_root m = root → no_user root m →
  ∃ m', memory_unmap_and_free_user m = Done m' ∧ same_words m m' ∧ same_regs m m' ∧ free_ok m' l.
Proof.
  intros Hi Hroot Hno. destruct (unmap_all root m l Hi m) as (m' & He & fr & Hf & Hs & Hfr & Hrd & _); [done|by eapply pt_free|done|done|].
  assert (fr = []) as ->.
  { destruct fr as [|d fr]; [done|]. exfalso. destruct (proj1 (Hfr d) ltac:(by left)) as (a & b & c & [Hp (e & Hen & Hu & _)] & _).
    by rewrite (Hno [c; b; a] e Hp eq_refl Hen) in Hu. }
  exists m'. split; [done|]. split; [|done]. intros x. apply Hrd. by intros ?%elem_of_nil.
Qed.

Section Exec.
Context {δ β υ : Type} `{IoIntf δ} `{IoOps δ} `{IoDisk β} (hi : Z) (Hhi : clean_half hi).

Lemma process_exec_runs (k : kernel δ β υ) spot root l :
  let img := file_contents spot (kworld k, ksch k) in
  file_ok spot (kworld k, ksch k) → file_pos (file_fd spot (kworld k, ksch k)) = 0 →
  pt_inv root (pages (ksch k)) l → active_space_root (pages (ksch k)) = root → no_user root (pages (ksch k)) →
  exec_ok img → exec_pages img ≤ Z.of_nat (length l) →
  ∃ k', process_exec hi (IoFile spot) k = Done (Enters (e_entry (header_of img)) USER_STACK_VMA k') ∧
    exec_loaded true root img (pages (ksch k)) (pages (ksch k')) ∧ active_space_root (pages (ksch k')) = root ∧ sie (ksch k') = false ∧
    procs k' = procs k ∧ proctab k' = proctab k.
Proof.
  intros img Hok Hpos Hi Hroot Hno He Hl. destruct (unmap_nothing root _ l Hi Hroot Hno) as (m1 & Hm & Hw & Hs & Hf).
  assert (Hi1 : pt_inv root m1 l) by by eapply same_words_inv.
  assert (Hready : @load_ready _ _ (file_disk spot hi Hhi) root (kworld k, ksch k) m1 l).
  { split; [done|done|done|]. by rewrite (same_regs_root _ _ Hs). }
  pose proof (file_disk0 (δ := δ) (β := β) spot hi Hhi) as Hd0.
  destruct (@elf_load_loads _ _ (file_disk spot hi Hhi) Hd0 root 0 _ m1 l Hready He Hl) as (ws & m2 & l2 & Hld & _ & Hs2 & Hexec).
  unfold process_exec. rewrite Hm. cbn [mbind outcome_bind]. unfold with_ops, obj_ops.
  destruct (file_ok_fd spot _ Hok) as [Hfd Hsp]. unfold get_fd. destruct (Z.ltb_spec spot 0); [lia|]. cbn [fst] in Hfd. rewrite Hfd.
  cbn [deref mbind outcome_bind ops_set file_intf]. destruct Hok as [Hr]. rewrite (fr_ops _ _ _ _ _ _ Hr). cbn [mbind outcome_bind].
  rewrite Hld. cbn [deref mbind outcome_bind intr_disable]. eexists. split; [reflexivity|].
  change (pages (ksch (set_io (ws.1, with_sie false (with_pages m2 ws.2)) k))) with m2.
  split; [|split; [by rewrite (same_regs_root _ _ Hs2), (same_regs_root _ _ Hs)|done]].
  destruct Hexec as [Hb Hp Hr']. split; [done|done|]. intros u Hu Hn. destruct (Hr' u Hu Hn) as [Ht Hv].
  destruct (same_words_translate root _ _ Hw u) as [Ht1 Hv1]. by rewrite Ht, Hv.
Qed.
End Exec.

(** Every segment of the executable is in the space at pages of its own, which are not
    in [l']: the bytes of the file, zero behind them, and the permissions that the file
    gives. *)
Record image_in (root : Z) (img : list Z) (m' : mem) (l' : list Z) : Prop := {
  ii_byte ph u : loadable img ph → user_vma u → seg_range ph u → vbyte root u m' = Some (seg_byte img ph u);
  ii_perms ph u : loadable img ph → user_vma u → seg_range ph u →
    ∃ e, translate root u m' = Some e ∧ (entry_page e ∉ l') ∧
      page_perms e (flag_set PF_R (p_flags ph)) (flag_set PF_W (p_flags ph)) (flag_set PF_X (p_flags ph));
  ii_distinct ph ph' u u' e e' : loadable img ph → loadable img ph' → user_vma u → user_vma u' → seg_range ph u → seg_range ph' u' →
    translate root u m' = Some e → translate root u' m' = Some e' → entry_page e = entry_page e' → u / 4096 = u' / 4096
}.

Lemma shadow_free root m0 c l m : shadow root m0 c l m → free_ok m l.
Proof.
  intros Hs. eapply free_ok_ext; [|apply (ov_free _ _ _ _ (sh_over _ _ _ _ _ Hs))|apply (pt_free _ _ _ (sh_inv _ _ _ _ _ Hs))].
  intros q Hq. apply (over_rd root m0); [by eapply sh_over|]. eapply free_not_stale; [exact Hs|exact Hq|apply in_page_self].
Qed.

Lemma shadow_image root m0 img c0 c l m : shadow root m0 c l m → exec_loaded true root img c0 c → image_in root img m l.
Proof.
  intros Hs [Hb Hp _].
  assert (Htr : ∀ ph u e, loadable img ph → user_vma u → seg_range ph u → translate root u m = Some e → node_at root c (path_of u) = Some (entry_page e)).
  { intros ph u e Hph Hu Hr He. destruct (Hp ph u Hph Hu Hr) as (e' & He' & _). rewrite (shadow_translate root m0 c l m u e' Hs Hu He') in He.
    injection He as ->. by apply translate_node. }
  split.
  - intros ph u Hph Hu Hr. by apply (shadow_vbyte root m0 c l m u _ Hs Hu), (Hb ph).
  - intros ph u Hph Hu Hr. destruct (Hp ph u Hph Hu Hr) as (e & He & Hpp). exists e. pose proof (shadow_translate root m0 c l m u e Hs Hu He) as Hm.
    split; [done|]. split; [|done]. apply (node_not_free root c l (path_of u)); [by eapply sh_inv|by eapply Htr|by apply user_vma_path].
  - intros ph ph' u u' e e' Hph Hph' Hu Hu' Hr Hr' He He' Heq. apply path_of_inj; [done..|].
    eapply (pt_inj root c l); [by eapply sh_inv|by apply user_vma_path|by apply user_vma_path|by eapply (Htr ph)|rewrite Heq; by eapply (Htr ph')].
Qed.

Section Replace.
Context {δ β υ : Type} `{IoIntf δ} `{IoOps δ} `{IoDisk β}.

End Replace.
