(* ===== verification/Syscall.v ===== *)
(** System calls and exceptions from user mode (src/src/kern/syscall.c, excp.c).

    User pointers are read and written through the active memory space ([uload],
    [ustore]); a pointer outside of the user half of the address space, which the
    kernel does not check, is [Undefined].  The buffer of a write must be readable
    as a whole.  [strmax] bounds the length of a string, [polls] the waiting for the
    console. *)
From Stdlib Require Import ZArith Lia.
From stdpp Require Import base gmap list strings.
From S2P Require Import Prelude CString Pages Heap Pte Memory MemFacts PageTables Mapping Vmem Thread Lock Io Timer Device Kfs Elf Uart Console Objects Process.

Open Scope Z_scope.

(** ** scnum.h, trap.h, csr.h *)

Definition SYSCALL_EXIT : Z := 0.
Definition SYSCALL_MSGOUT : Z := 1.
Definition SYSCALL_DEVOPEN : Z := 10.
Definition SYSCALL_FSOPEN : Z := 11.
Definition SYSCALL_CLOSE : Z := 20.
Definition SYSCALL_READ : Z := 21.
Definition SYSCALL_WRITE : Z := 22.
Definition SYSCALL_IOCTL : Z := 23.
Definition SYSCALL_EXEC : Z := 30.
Definition SYSCALL_FORK : Z := 31.
Definition SYSCALL_USLEEP : Z := 40.
Definition SYSCALL_WAIT : Z := 41.

Definition TFR_SP : Z := 2.
Definition TFR_A0 : Z := 10.
Record trap_frame : Type := Tfr { tf_x : list Z; tf_sstatus : Z; tf_sepc : Z }.

Definition RISCV_SCAUSE_ECALL_FROM_UMODE : Z := 8.
Definition RISCV_SCAUSE_STORE_PAGE_FAULT : Z := 15.
Definition INSTRUCT : Z := 2.

Definition sizeof_io_intf : Z := 16.
Definition sizeof_alarm : Z := 40.

(** ** User memory *)

Definition user_half (v : Z) : bool := (USER_START_VMA <=? v) && (v <? 2 ^ 38).

Definition uload (v : Z) (m : mem) : outcome Z :=
  if user_half v then
    match vleaf v m with
    | Some e => if has PTE_R e then Done (byte_at (entry_page e + v mod PAGE_SIZE) m) else Panicked "Load page fault"
    | None => Panicked "Load page fault"
    end
  else Undefined.

Fixpoint uload_bytes (v : Z) (n : nat) (m : mem) : outcome (list Z) :=
  match n with
  | O => Done []
  | S n => c ← uload v m; bs ← uload_bytes (u64 (v + 1)) n m; Done (c :: bs)
  end.

(** The bytes of a string with its NUL. *)
Fixpoint uload_str (fuel : nat) (v : Z) (m : mem) : outcome (list Z) :=
  match fuel with
  | O => OutOfFuel
  | S k =>
      c ← uload v m;
      if c =? 0 then Done [0] else
      bs ← uload_str k (u64 (v + 1)) m;
      Done (c :: bs)
  end.

Definition ustore_bytes (v : Z) (bs : list Z) (m : mem) : outcome mem :=
  if bool_decide (bs = []) || (user_half v && user_half (v + Z.of_nat (length bs) - 1)) then vstore_bytes v bs m else Undefined.

Section Syscall.
Context {δ β υ : Type} `{IoIntf δ} `{IoOps δ} `{IoOps β} `{UartHw υ} (stack_hi : Z) (strmax polls : nat).

Abbreviation kern := (kernel δ β υ).
Abbreviation result := (outcome (ends δ β υ)).

Definition set_slot (p fd : Z) (r : option io_ref) (k : kern) : outcome kern :=
  x ← deref (procs k !! p);
  Done (set_process p (Proc (p_id x) (p_tid x) (<[Z.to_nat fd := r]> (iotab x))) k).

(** [current_process()->iotab[fd]] *)
Definition cur_slot (fd : Z) (k : kern) : outcome (option io_ref) :=
  '(_, x) ← current_process k;
  iotab_get fd x.

(** The format "Thread <%s:%d> says: %s" and a newline. *)
Definition msg_fmt : list Z :=
  cstr (string_bytes "Thread <%s:%d> says: %s" ++ [NL]) [].

Definition sysmsgout (msg : Z) (k : kern) : result :=
  t ← running_thread (ksch k);
  nm ← thread_name t (ksch k);
  str ← uload_str strmax msg (pages (ksch k));
  '(_, c, s) ← kprintf polls true msg_fmt [VaStr (Some (cstr (string_bytes nm) [])); VaInt t; VaStr (Some str)] (kcon k) (ksch k);
  Done (Returns 0 (Kernel (kworld k) s (ktim k) c (procs k) (proctab k))).

Definition sysexit (k : kern) : result := process_exit stack_hi k.

Definition sysexec (fd : Z) (k : kern) : result :=
  r ← cur_slot fd k;
  match r with
  | None => Done (Returns (- EINVAL) k)
  | Some r => process_exec stack_hi r k
  end.

(** The loops that look for a free slot, from [x] on: [full x] is the test that
    gives up. *)
Fixpoint scan_slots (full : Z → bool) (fuel : nat) (x : Z) (p : process) : outcome (option Z) :=
  match fuel with
  | O => OutOfFuel
  | S n =>
      r ← iotab_get x p;
      match r with
      | None => Done (Some x)
      | Some _ => if full x then Done None else scan_slots full n (x + 1) p
      end
  end.

(** What both open calls do with the descriptor: [fd] itself, or a free slot. *)
Definition choose_slot (full : Z → bool) (fd : Z) (k : kern) : outcome (option Z) :=
  if 0 <=? fd then Done (Some fd) else
  '(_, x) ← current_process k;
  scan_slots full (S (Z.to_nat PROCESS_IOMAX)) 0 x.

(** The store of the new object into the slot; the slot is not tested. *)
Definition install (fd : Z) (r : io_ref) (k : kern) : result :=
  '(p, x) ← current_process k;
  if Z.of_nat (length (iotab x)) <=? fd then Undefined else
  k ← set_slot p fd (Some r) k;
  Done (Returns fd k).

Definition dev_full (x : Z) : bool := x <=? PROCESS_IOMAX.
Definition fs_full (x : Z) : bool := PROCESS_IOMAX <=? x.

Definition sysdevopen (fd name instno : Z) (k : kern) : result :=
  slot ← choose_slot dev_full fd k;
  match slot with
  | None => Done (Returns (- EINVAL) k)
  | Some x =>
      str ← uload_str strmax name (pages (ksch k));
      '(retVal, r, ws) ← open_device str instno (kworld k, ksch k);
      let k := set_io ws k in
      if negb (retVal =? 0) then Done (Returns (- EINVAL) k) else
      r ← deref r;
      install x r k
  end.

Definition sysfsopen (fd name : Z) (k : kern) : result :=
  slot ← choose_slot fs_full fd k;
  match slot with
  | None => Done (Returns (- EINVAL) k)
  | Some x =>
      '(_, h) ← kmalloc sizeof_io_intf (kheap (ksch k));
      let k := set_sched (with_heap h (ksch k)) k in
      str ← uload_str strmax name (pages (ksch k));
      '(retVal, r, ws) ← open_file str (kworld k, ksch k);
      let k := set_io ws k in
      if negb (retVal =? 0) then Done (Returns (- EINVAL) k) else
      r ← deref r;
      install x r k
  end.

(** The results of [ioread] and [iowrite] are truncated to int. *)
Definition sysread (fd buf bufsz : Z) (k : kern) : result :=
  r ← cur_slot fd k;
  match r with
  | None => Done (Returns (- EACCESS) k)
  | Some r =>
      '(val, data, ws) ← ref_ioread stack_hi r bufsz (kworld k, ksch k);
      m ← ustore_bytes buf data (pages ws.2);
      let k := set_io (ws.1, with_pages m ws.2) k in
      if s32 val <? 0 then Done (Returns (- EIO) k) else Done (Returns (s32 val) k)
  end.

Definition syswrite (fd buf len : Z) (k : kern) : result :=
  r ← cur_slot fd k;
  match r with
  | None => Done (Returns (- EACCESS) k)
  | Some r =>
      data ← uload_bytes buf (Z.to_nat len) (pages (ksch k));
      '(val, ws) ← ref_iowrite stack_hi r data (kworld k, ksch k);
      let k := set_io ws k in
      if s32 val <? 0 then Done (Returns (- EIO) k) else Done (Returns (s32 val) k)
  end.

(** The command IOCTL_SETLEN seeks; every other one is given the address of the
    parameter [arg], so that what it stores there is lost. *)
Definition sysioctl (fd cmd arg : Z) (k : kern) : result :=
  if cmd =? IOCTL_SETLEN then
    r ← cur_slot fd k;
    r ← deref r;
    bs ← uload_bytes arg 8 (pages (ksch k));
    '(temp, ws) ← ref_ioseek stack_hi r (le_val bs) (kworld k, ksch k);
    Done (Returns (s32 temp) (set_io ws k))
  else
    r ← cur_slot fd k;
    r ← deref r;
    '(temp, _, ws) ← ref_ioctl stack_hi r cmd arg (kworld k, ksch k);
    Done (Returns (s32 temp) (set_io ws k)).

Definition sysclose (fd : Z) (k : kern) : result :=
  r ← cur_slot fd k;
  r ← deref r;
  ws ← ref_ioclose stack_hi r (kworld k, ksch k);
  let k := set_io ws k in
  '(p, _) ← current_process k;
  k ← set_slot p fd None k;
  Done (Returns 0 k).

Definition sysfork (k : kern) : result :=
  '(y, k) ← process_fork k;
  Done (Returns y k).

Definition syswait (tid : Z) (k : kern) : result :=
  r ← (if tid =? 0 then thread_join_any (ksch k) else thread_join tid (ksch k));
  match r with
  | Returned t s => Done (Returns t (set_sched s k))
  | Blocked saved s => Done (Waits saved (set_sched s k))
  end.

(** When the thread sleeps, the rest is [sysusleep_resume]. *)
Definition set_timer (t : timer) (k : kern) : kern := Kernel (kworld k) (ksch k) t (kcon k) (procs k) (proctab k).

Definition sysusleep_resume (al : Z) (k : kern) : result :=
  h ← kfree al (kheap (ksch k));
  Done (Returns 0 (set_sched (with_heap h (ksch k)) k)).

Definition sysusleep (us : Z) (k : kern) : result :=
  '(al, h) ← kmalloc sizeof_alarm (kheap (ksch k));
  let '(t, s) := alarm_init al (ktim k) (with_heap h (ksch k)) in
  r ← alarm_sleep_us al us t s;
  match r with
  | SleepReturned t s => sysusleep_resume al (set_timer t (set_sched s k))
  | SleepBlocked saved t s => Done (Waits saved (set_timer t (set_sched s k)))
  end.

(** ** Dispatch *)

Definition reg (i : Z) (tfr : trap_frame) : Z := nth (Z.to_nat i) (tf_x tfr) 0.

Definition syscall (tfr : trap_frame) (k : kern) : result :=
  let a i := reg (TFR_A0 + i) tfr in
  if a 7 =? SYSCALL_MSGOUT then sysmsgout (a 0) k else
  if a 7 =? SYSCALL_EXIT then sysexit k else
  if a 7 =? SYSCALL_DEVOPEN then sysdevopen (s32 (a 0)) (a 1) (s32 (a 2)) k else
  if a 7 =? SYSCALL_FSOPEN then sysfsopen (s32 (a 0)) (a 1) k else
  if a 7 =? SYSCALL_CLOSE then sysclose (s32 (a 0)) k else
  if a 7 =? SYSCALL_READ then sysread (s32 (a 0)) (a 1) (a 2) k else
  if a 7 =? SYSCALL_WRITE then syswrite (s32 (a 0)) (a 1) (a 2) k else
  if a 7 =? SYSCALL_IOCTL then sysioctl (s32 (a 0)) (s32 (a 1)) (a 2) k else
  if a 7 =? SYSCALL_EXEC then sysexec (s32 (a 0)) k else
  if a 7 =? SYSCALL_FORK then sysfork k else
  if a 7 =? SYSCALL_WAIT then syswait (s32 (a 0)) k else
  if a 7 =? SYSCALL_USLEEP then sysusleep (a 0) k else
  Done (Returns 0 k).

(** The trap frame afterwards: the program counter is past the ecall, and a call
    that returns has stored its result in a0. *)
Definition syscall_handler (tfr : trap_frame) (k : kern) : outcome (trap_frame * ends δ β υ) :=
  let tfr := Tfr (tf_x tfr) (tf_sstatus tfr) (u64 (tf_sepc tfr + 4)) in
  r ← syscall tfr k;
  Done (match r with
        | Returns v _ => Tfr (<[Z.to_nat TFR_A0 := u64 v]> (tf_x tfr)) (tf_sstatus tfr) (tf_sepc tfr)
        | _ => tfr
        end, r).

(** ** excp.c *)

Definition excp_names (code : Z) : option string :=
  match code with
  | 0 => Some "Misaligned instruction address"
  | 1 => Some "Instruction access fault"
  | 2 => Some "Illegal instruction"
  | 3 => Some "Breakpoint"
  | 4 => Some "Misaligned load address"
  | 5 => Some "Load access fault"
  | 6 => Some "Misaligned store address"
  | 7 => Some "Store access fault"
  | 8 => Some "Environment call from U mode"
  | 9 => Some "Environment call from S mode"
  | 12 => Some "Instruction page fault"
  | 13 => Some "Load page fault"
  | 15 => Some "Store page fault"
  | _ => None
  end%string.

(** The kernel panics after it has said which exception it was. *)
Definition default_excp_handler {A} (code : Z) : outcome A := Panicked (default "Exception"%string (excp_names code)).

Definition smode_excp_handler (code : Z) (tfr : trap_frame) (k : kern) : outcome (trap_frame * ends δ β υ) :=
  default_excp_handler code.

Definition umode_excp_handler (code : Z) (tfr : trap_frame) (k : kern) : outcome (trap_frame * ends δ β υ) :=
  if code =? RISCV_SCAUSE_ECALL_FROM_UMODE then syscall_handler tfr k else
  if code =? RISCV_SCAUSE_STORE_PAGE_FAULT then
    r ← memory_handle_page_fault (reg INSTRUCT tfr) (pages (ksch k));
    match r with
    | FaultMapped m => Done (tfr, Returns 0 (set_sched (with_pages m (ksch k)) k))
    | FaultExit m => e ← process_exit stack_hi (set_sched (with_pages m (ksch k)) k); Done (tfr, e)
    end
  else default_excp_handler code.
End Syscall.
