(* ===== verification/SyscallSpec.v ===== *)
(** System calls on open files, with the user's memory. *)
From Stdlib Require Import ZArith Lia.
From stdpp Require Import base gmap list strings.
From S2P Require Import Prelude CString Pages Heap Pte Memory MemFacts PageTables Mapping Spaces Vmem Thread ThreadLists Scheduler Lock Io IoSpec Disk Timer Device Kfs KfsSpec Elf ElfSpec Uart Console Objects Process ProcSpec Syscall.

Open Scope Z_scope.

(** ** User memory *)

Section User.
Context (root : Z).

Definition may_write (v n : Z) (m : mem) : Prop :=
  ∀ j, 0 ≤ j < n → user_vma (v + j) ∧ ∃ e, translate root (v + j) m = Some e ∧ has PTE_W e = true.

(** The user may read [bs] at [v]. *)
Definition user_bytes (v : Z) (bs : list Z) (m : mem) : Prop :=
  ∀ (j : nat) b, bs !! j = Some b → user_vma (v + Z.of_nat j) ∧ vbyte root (v + Z.of_nat j) m = Some b ∧
    ∃ e, translate root (v + Z.of_nat j) m = Some e ∧ has PTE_R e = true.

Lemma user_half_vma v : user_vma v → user_half v = true.
Proof.
  unfold user_vma, user_half, USER_START_VMA. rewrite GIGA_SIZE_eq. intros Hv.
  destruct (Z.leb_spec 0xC0000000 v); [|lia]. destruct (Z.ltb_spec v (2 ^ 38)); [done|lia].
Qed.

Lemma user_vma_small v : user_vma v → 0 ≤ v < 2 ^ 38.
Proof. unfold user_vma. rewrite GIGA_SIZE_eq. lia. Qed.

Lemma uload_spec v b m : active_space_root m = root → user_vma v → vbyte root v m = Some b →
  (∃ e, translate root v m = Some e ∧ has PTE_R e = true) → uload v m = Done b.
Proof.
  intros Hr Hv Hb (e & He & Hre). unfold uload. rewrite user_half_vma by done. unfold vleaf. rewrite user_vma_wf, Hr, He, Hre by done.
  unfold vbyte in Hb. rewrite He in Hb. injection Hb as <-. by rewrite PAGE_SIZE_eq.
Qed.

Lemma user_bytes_cons v b bs m : user_bytes v (b :: bs) m → active_space_root m = root →
  uload v m = Done b ∧ user_bytes (v + 1) bs m ∧ u64 (v + 1) = v + 1.
Proof.
  intros Hu Hr. destruct (Hu 0%nat b eq_refl) as (Hv & Hb & He). rewrite Z.add_0_r in *. split; [by apply uload_spec|]. split.
  - intros j c Hj. specialize (Hu (S j) c Hj). by replace (v + Z.of_nat (S j)) with (v + 1 + Z.of_nat j) in Hu by lia.
  - apply u64_small. pose proof (user_vma_small v Hv). lia.
Qed.

Lemma uload_bytes_spec m : active_space_root m = root → ∀ bs v, user_bytes v bs m → uload_bytes v (length bs) m = Done bs.
Proof.
  intros Hr bs. induction bs as [|b bs IH]; intros v Hu; [done|]. destruct (user_bytes_cons v b bs m Hu Hr) as (Hl & Hu' & Hv).
  cbn [length uload_bytes]. rewrite Hl. cbn [mbind outcome_bind]. rewrite Hv, (IH (v + 1) Hu'). done.
Qed.

Lemma uload_str_spec m : active_space_root m = root → ∀ nm fuel v, nul_free nm → user_bytes v (cstr nm []) m → (length nm < fuel)%nat →
  uload_str fuel v m = Done (cstr nm []).
Proof.
  intros Hr nm. induction nm as [|b nm IH]; intros fuel v Hn Hu Hf; destruct fuel as [|fuel]; try (cbn in Hf; lia); cbn [uload_str].
  - destruct (user_bytes_cons v 0 [] m Hu Hr) as (-> & _). done.
  - destruct (user_bytes_cons v b (cstr nm []) m Hu Hr) as (-> & Hu' & Hv). apply Forall_cons in Hn as [Hb Hn]. cbn [mbind outcome_bind].
    rewrite (proj2 (Z.eqb_neq b 0)) by done. rewrite Hv, (IH fuel (v + 1)); [done|done|done|cbn in Hf; lia].
Qed.

Lemma ustore_spec bs m l v : pt_inv root m l → active_space_root m = root → Forall (λ b, 0 ≤ b < 256) bs →
  may_write v (Z.of_nat (length bs)) m →
  ∃ m', ustore_bytes v bs m = Done m' ∧ vstep root m l m' (λ u, v ≤ u < v + Z.of_nat (length bs)) ∧
    ∀ (j : nat) b, bs !! j = Some b → vbyte root (v + Z.of_nat j) m' = Some b.
Proof.
  intros Hi Hr Hb Hw. destruct (vstore_bytes_spec root bs m l v Hi Hr Hb Hw) as (m' & He & Hs). exists m'. split; [|done].
  unfold ustore_bytes. destruct (decide (bs = [])) as [->|Hne]; [done|]. rewrite bool_decide_eq_false_2 by done. cbn [orb].
  assert (0 < Z.of_nat (length bs)) by (destruct bs; [done|cbn [length]; lia]).
  destruct (Hw 0) as [H0 _]; [lia|]. destruct (Hw (Z.of_nat (length bs) - 1)) as [H1 _]; [lia|].
  rewrite Z.add_0_r in H0. replace (v + Z.of_nat (length bs) - 1) with (v + (Z.of_nat (length bs) - 1)) by lia.
  by rewrite !user_half_vma.
Qed.
End User.

(** ** The process that makes a call *)

Section Calls.
Context {δ β υ : Type} `{IoIntf δ} `{IoOps δ} `{IoDisk β} `{UartHw υ} (strmax polls : nat) (root : Z) (hi : Z).

Abbreviation kern := (kernel δ β υ).
Abbreviation iostate k := (kworld (k : kern), ksch (k : kern)).

(** The process [x] at [p] is running in the space of [root]; [l] are the free pages. *)
Record at_user (k : kern) (p : Z) (x : process) (l : list Z) : Prop := {
  au_cur : current_process k = Done (p, x);
  au_tab : length (iotab x) = 16%nat;
  au_inv : pt_inv root (pages (ksch k)) l;
  au_root : active_space_root (pages (ksch k)) = root
}.

Lemma cur_slot_spec k p x l fd o : at_user k p x l → 0 ≤ fd → iotab x !! Z.to_nat fd = Some o → cur_slot fd k = Done o.
Proof.
  intros [Hc _ _ _] Hf Ho. unfold cur_slot. rewrite Hc. cbn [mbind outcome_bind]. unfold iotab_get.
  destruct (Z.ltb_spec fd 0); [lia|]. by rewrite Ho.
Qed.

Lemma file_with_ops {A} spot (k : kern) (f : outcome A) : file_ok spot (iostate k) → with_ops (IoFile spot) (kworld k) f = f.
Proof.
  intros Hok. destruct (file_ok_fd spot _ Hok) as [Hfd Hsp]. destruct Hok as [Hr]. unfold with_ops, obj_ops, get_fd.
  destruct (Z.ltb_spec spot 0); [lia|]. cbn [fst] in Hfd. rewrite Hfd. cbn [deref mbind outcome_bind ops_set file_intf].
  by rewrite (fr_ops _ _ _ _ _ _ Hr).
Qed.

(** The process goes on after a call that only did I/O, in memory that may have
    changed. *)
Lemma at_user_io k p x l (ws : io_world δ β * sched) m l' : at_user k p x l → keeps (ksch k) ws.2 →
  pt_inv root m l' → active_space_root m = root → at_user (set_io (ws.1, with_pages m ws.2) k) p x l'.
Proof.
  intros [Hc Ht _ _] Hk Hi Hr. split; [|done|done|done]. eapply current_keeps; [exact Hk|reflexivity|reflexivity|exact Hc].
Qed.

Lemma file_ok_heap spot h (ws : io_world δ β * sched) : file_ok spot ws → file_ok spot (ws.1, with_heap h ws.2).
Proof.
  intros [[? ? ? ? ? ? ? [x Hx] ?]]. split. split; try done. exists x. by apply sched_rep_heap.
Qed.

Lemma sysread_file_spec fd buf n (k : kern) p x l spot : clean_half hi →
  at_user k p x l → 0 ≤ fd → iotab x !! Z.to_nat fd = Some (Some (IoFile spot)) → file_ok spot (iostate k) →
  let data := file_contents spot (iostate k) in let pos := file_pos (file_fd spot (iostate k)) in
  let cnt := Z.min n (Z.of_nat (length data) - pos) in
  Forall (λ b, 0 ≤ b < 256) data → 0 ≤ n < 2 ^ 63 → may_write root buf cnt (pages (ksch k)) →
  ∃ k', sysread hi fd buf n k = Done (Returns cnt k') ∧ at_user k' p x l ∧
    (∀ j, 0 ≤ j < cnt → vbyte root (buf + j) (pages (ksch k')) = data !! Z.to_nat (pos + j)) ∧
    (∀ u, user_vma u → ¬ buf ≤ u < buf + cnt → vbyte root u (pages (ksch k')) = vbyte root u (pages (ksch k))) ∧
    file_ok spot (iostate k') ∧ file_contents spot (iostate k') = data ∧ file_pos (file_fd spot (iostate k')) = pos + cnt.
Proof.
  intros Hhi Hu Hfd Hx Hok data pos cnt Hb Hn Hw. pose proof Hu as [Hc Ht Hi Hr].
  pose proof (file_contents_length spot _ Hok) as Hlen. fold data in Hlen. pose proof Hok as [Hready].
  pose proof (fr_pos _ _ _ _ _ _ Hready) as Hpos. pose proof (im_size _ _ _ _ (fr_image _ _ _ _ _ _ Hready)) as Hsz.
  fold pos in Hpos. rewrite <- Hlen in Hpos, Hsz.
  destruct (file_read_at spot hi Hhi n (iostate k) Hok Hn) as (ws & He & Hok' & Hd' & Hp' & Hk). cbn zeta in He, Hp', Hk.
  rewrite <- Hlen in He, Hp'. fold data pos cnt in He, Hp', Hd'.
  unfold sysread. rewrite (cur_slot_spec _ _ _ _ _ _ Hu Hfd Hx). cbn [mbind outcome_bind].
  unfold ref_ioread. cbn [fst]. rewrite file_with_ops, He by done. cbn [mbind outcome_bind].
  assert (Hpg : pages ws.2 = pages (ksch k)) by (unfold pages; by rewrite (kp_heap _ _ Hk)). rewrite Hpg.
  assert (Hsl : Z.of_nat (length (slice pos cnt data)) = cnt) by (rewrite slice_length by lia; lia).
  destruct (ustore_spec root (slice pos cnt data) (pages (ksch k)) l buf Hi Hr) as (m' & -> & Hs & Hst).
  { apply Forall_take, Forall_drop. done. }
  { by rewrite Hsl. }
  cbn [mbind outcome_bind]. rewrite Hsl in Hs. rewrite s32_small by lia. destruct (Z.ltb_spec cnt 0); [lia|].
  eexists. split; [reflexivity|]. split; [|split; [|split; [|split; [|split]]]].
  - eapply at_user_io; [done|done|by eapply vs_inv|by eapply vstep_root].
  - intros j Hj. change (pages (ksch (set_io (ws.1, with_pages m' ws.2) k))) with m'.
    assert (Hl : slice pos cnt data !! Z.to_nat j = data !! Z.to_nat (pos + j)) by (rewrite slice_lookup by lia; f_equal; lia).
    destruct (data !! Z.to_nat (pos + j)) as [b|] eqn:E; [|apply lookup_ge_None in E; lia].
    rewrite <- (Hst (Z.to_nat j) b Hl). f_equal. lia.
  - intros u Hu' Hn'. by apply (vs_keep _ _ _ _ _ Hs).
  - exact (file_ok_heap spot _ ws Hok').
  - exact Hd'.
  - exact Hp'.
Qed.

(** [sysread] of an open file stores the bytes of the file from its position on
    in the user's buffer, at most as many as the file has left, and returns how many;
    no other byte of the user's memory changes, and the position moves past them. *)
Theorem sysread_file fd buf n (k : kern) p x l spot : clean_half hi →
  at_user k p x l → 0 ≤ fd → iotab x !! Z.to_nat fd = Some (Some (IoFile spot)) → file_ok spot (iostate k) →
  let data := file_contents spot (iostate k) in let pos := file_pos (file_fd spot (iostate k)) in
  let cnt := Z.min n (Z.of_nat (length data) - pos) in
  Forall (λ b, 0 ≤ b < 256) data → 0 ≤ n < 2 ^ 63 → may_write root buf cnt (pages (ksch k)) →
  ∃ k', sysread hi fd buf n k = Done (Returns cnt k') ∧ at_user k' p x l ∧
    (∀ j, 0 ≤ j < cnt → vbyte root (buf + j) (pages (ksch k')) = data !! Z.to_nat (pos + j)) ∧
    (∀ u, user_vma u → ¬ buf ≤ u < buf + cnt → vbyte root u (pages (ksch k')) = vbyte root u (pages (ksch k))) ∧
    file_ok spot (iostate k') ∧ file_contents spot (iostate k') = data ∧ file_pos (file_fd spot (iostate k')) = pos + cnt.
Proof. apply sysread_file_spec. Qed.

(** [syswrite] to an open file replaces the bytes of the file from its position on
    by those of the user's buffer, as many as the file has room for, and returns how
    many; the user's memory is as before. *)
Theorem syswrite_file fd buf bs (k : kern) p x l spot : clean_half hi →
  at_user k p x l → 0 ≤ fd → iotab x !! Z.to_nat fd = Some (Some (IoFile spot)) → file_ok spot (iostate k) →
  let data := file_contents spot (iostate k) in let pos := file_pos (file_fd spot (iostate k)) in
  let cnt := Z.min (Z.of_nat (length bs)) (Z.of_nat (length data) - pos) in
  user_bytes root buf bs (pages (ksch k)) → Z.of_nat (length bs) < 2 ^ 63 →
  ∃ k', syswrite hi fd buf (Z.of_nat (length bs)) k = Done (Returns cnt k') ∧ at_user k' p x l ∧
    pages (ksch k') = pages (ksch k) ∧ file_ok spot (iostate k') ∧
    file_contents spot (iostate k') = overwrite pos (take (Z.to_nat cnt) bs) data ∧ file_pos (file_fd spot (iostate k')) = pos + cnt.
Proof.
  intros Hhi Hu Hfd Hx Hok data pos cnt Hb Hn. pose proof Hu as [Hc Ht Hi Hr].
  pose proof (file_contents_length spot _ Hok) as Hlen. fold data in Hlen. pose proof Hok as [Hready].
  pose proof (fr_pos _ _ _ _ _ _ Hready) as Hpos. pose proof (im_size _ _ _ _ (fr_image _ _ _ _ _ _ Hready)) as Hsz.
  fold pos in Hpos. rewrite <- Hlen in Hpos, Hsz.
  destruct (file_write_at spot hi Hhi bs (iostate k) Hok Hn) as (ws & He & Hok' & Hd' & Hp' & Hk). cbn zeta in He, Hd', Hp', Hk.
  rewrite <- Hlen in He, Hp', Hd'. fold data pos cnt in He, Hp', Hd'.
  unfold syswrite. rewrite (cur_slot_spec _ _ _ _ _ _ Hu Hfd Hx). cbn [mbind outcome_bind].
  rewrite Nat2Z.id, (uload_bytes_spec root _ Hr bs buf Hb). cbn [mbind outcome_bind].
  unfold ref_iowrite. cbn [fst]. rewrite file_with_ops, He by done. cbn [mbind outcome_bind]. rewrite s32_small by lia. destruct (Z.ltb_spec cnt 0); [lia|].
  assert (Hpg : pages ws.2 = pages (ksch k)) by (unfold pages; by rewrite (kp_heap _ _ Hk)).
  eexists. split; [reflexivity|]. destruct ws as [w s]. cbn [set_io kworld ksch fst snd] in *. split; [|by split_and!].
  split; cbn [set_io ksch snd]; [|done|by rewrite Hpg|by rewrite Hpg].
  eapply (current_keeps _ _ _ (kheap s)); [exact Hk|by destruct s|reflexivity|exact Hc].
Qed.

(** Positions of a file can be set only by the command for lengths: IOCTL_SETLEN
    seeks to the position that the user's memory holds; IOCTL_SETPOS takes the
    user's pointer for the position, which is past the end of every file; and what
    IOCTL_GETLEN and IOCTL_GETPOS ask for is not stored in the user's memory. *)
Theorem sysioctl_file fd arg (k : kern) p x l spot :
  at_user k p x l → 0 ≤ fd → iotab x !! Z.to_nat fd = Some (Some (IoFile spot)) → file_ok spot (iostate k) → USER_START_VMA ≤ arg →
  let size := file_size (file_fd spot (iostate k)) in
  (∀ bs, user_bytes root arg bs (pages (ksch k)) → length bs = 8%nat → 0 ≤ le_val bs ≤ size →
     ∃ k', sysioctl hi fd IOCTL_SETLEN arg k = Done (Returns 0 k') ∧ file_pos (file_fd spot (iostate k')) = le_val bs ∧
       file_contents spot (iostate k') = file_contents spot (iostate k)) ∧
  (∃ k', sysioctl hi fd IOCTL_SETPOS arg k = Done (Returns (- EIO) k') ∧
       file_pos (file_fd spot (iostate k')) = file_pos (file_fd spot (iostate k))) ∧
  (∀ cmd, cmd ∈ [IOCTL_GETLEN; IOCTL_GETPOS] →
     ∃ v k', sysioctl hi fd cmd arg k = Done (Returns v k') ∧ pages (ksch k') = pages (ksch k)).
Proof.
  intros Hu Hfd Hx Hok Harg size. pose proof Hu as [Hc Ht Hi Hr]. destruct (file_ok_fd spot _ Hok) as [Hf Hsp]. pose proof Hok as [Hready].
  pose proof (im_size _ _ _ _ (fr_image _ _ _ _ _ _ Hready)) as Hsz. fold size in Hsz. unfold USER_START_VMA in Harg.
  assert (Hctl : ∀ cmd r a fdn, fs_ioctl cmd arg (file_fd spot (iostate k)) = (r, a, fdn) →
    ref_ioctl hi (IoFile spot) cmd arg (iostate k) = Done (r, a, (set_fsys (set_fd spot fdn (fsys (kworld k))) (kworld k), ksch k))).
  { intros cmd r a fdn He. unfold ref_ioctl. cbn [fst]. rewrite file_with_ops by done. unfold ioctl. cbn [op_ctl vtable]. unfold file_ctl, get_fd.
    destruct (Z.ltb_spec spot 0); [lia|]. cbn [fst] in Hf. rewrite Hf. cbn [deref mbind outcome_bind]. unfold fd_ioctl.
    rewrite (fr_ops _ _ _ _ _ _ Hready), He. done. }
  unfold sysioctl. rewrite (cur_slot_spec _ _ _ _ _ _ Hu Hfd Hx). cbn [mbind outcome_bind deref]. split; [|split].
  - intros bs Hb Hl Hle. change (IOCTL_SETLEN =? IOCTL_SETLEN) with true. cbn iota.
    pose proof (uload_bytes_spec root _ Hr bs arg Hb) as Hload. rewrite Hl in Hload. rewrite Hload. cbn [mbind outcome_bind].
    destruct (file_seek_at spot hi (le_val bs) (iostate k) Hok Hle) as (ws & He & Hok' & Hd' & Hp' & _).
    unfold ref_ioseek. cbn [fst]. rewrite file_with_ops, He by done. cbn [mbind outcome_bind]. change (s32 0) with 0.
    eexists. split; [reflexivity|]. by destruct ws.
  - change (IOCTL_SETPOS =? IOCTL_SETLEN) with false. cbn iota. rewrite (Hctl IOCTL_SETPOS (- EIO) arg (file_fd spot (iostate k))).
    + cbn [mbind outcome_bind]. change (s32 (- EIO)) with (- EIO). eexists. split; [reflexivity|]. cbn [set_io kworld ksch fst snd]. unfold file_fd at 1.
      cbn [fst set_fsys fsys set_fd fileArray]. by rewrite list_lookup_insert_eq by (by eapply lookup_lt_Some).
    + unfold fs_ioctl. change (IOCTL_SETPOS =? IOCTL_GETLEN) with false. change (IOCTL_SETPOS =? IOCTL_GETPOS) with false.
      change (IOCTL_SETPOS =? IOCTL_SETPOS) with true. cbn iota. unfold fs_setpos. fold size. destruct (Z.ltb_spec size arg); [done|lia].
  - intros cmd Hcmd. apply elem_of_cons in Hcmd as [->|Hcmd].
    + change (IOCTL_GETLEN =? IOCTL_SETLEN) with false. cbn iota. rewrite (Hctl IOCTL_GETLEN _ _ _ eq_refl). cbn [mbind outcome_bind]. eexists _, _. by split.
    + apply list_elem_of_singleton in Hcmd as ->. change (IOCTL_GETPOS =? IOCTL_SETLEN) with false. cbn iota.
      rewrite (Hctl IOCTL_GETPOS _ _ _ eq_refl). cbn [mbind outcome_bind]. eexists _, _. by split.
Qed.

(** ** Descriptors *)

Lemma scan_free_slot x y : ∀ fuel i, length (iotab x) = 16%nat → 0 ≤ i ≤ y → y < 16 → (Z.to_nat (y - i) < fuel)%nat →
  iotab x !! Z.to_nat y = Some None → (∀ j, i ≤ j < y → ∃ r, iotab x !! Z.to_nat j = Some (Some r)) →
  scan_slots fs_full fuel i x = Done (Some y).
Proof.
  induction fuel as [|fuel IH]; intros i Hl Hi Hy Hf Hfree Hused; [lia|]. cbn [scan_slots]. unfold iotab_get. destruct (Z.ltb_spec i 0); [lia|].
  destruct (decide (i = y)) as [->|].
  - rewrite Hfree. done.
  - destruct (Hused i ltac:(lia)) as (r & ->). cbn [deref mbind outcome_bind].
    unfold fs_full, PROCESS_IOMAX. destruct (Z.leb_spec 16 i); [lia|]. apply IH; try done; try lia. intros j Hj. apply Hused. lia.
Qed.

Lemma scan_all_used x : ∀ fuel i, length (iotab x) = 16%nat → 0 ≤ i ≤ 16 → (Z.to_nat (16 - i) < fuel)%nat →
  (∀ j, i ≤ j < 16 → ∃ r, iotab x !! Z.to_nat j = Some (Some r)) → scan_slots fs_full fuel i x = Undefined.
Proof.
  induction fuel as [|fuel IH]; intros i Hl Hi Hf Hused; [lia|]. cbn [scan_slots]. unfold iotab_get. destruct (Z.ltb_spec i 0); [lia|].
  destruct (decide (i = 16)) as [->|].
  - by rewrite lookup_ge_None_2 by (rewrite Hl; lia).
  - destruct (Hused i ltac:(lia)) as (r & ->). cbn [deref mbind outcome_bind].
    unfold fs_full, PROCESS_IOMAX. destruct (Z.leb_spec 16 i); [lia|]. apply IH; try done; try lia. intros j Hj. apply Hused. lia.
Qed.

Lemma choose_current full fd k p x l : at_user k p x l → fd < 0 → choose_slot full fd k = scan_slots full 17 0 x.
Proof. intros [Hc _ _ _] Hf. unfold choose_slot. destruct (Z.leb_spec 0 fd); [lia|]. by rewrite Hc. Qed.

(** A negative descriptor asks for the next free one.  For files that is the first
    free slot, but when all 16 are in use the table is read past its end; for devices
    only slot 0 is ever found, and when it is in use the call fails. *)
Theorem next_descriptor fd (k : kern) p x l : at_user k p x l → fd < 0 →
  (∀ y, 0 ≤ y < 16 → iotab x !! Z.to_nat y = Some None → (∀ j, 0 ≤ j < y → ∃ r, iotab x !! Z.to_nat j = Some (Some r)) →
     choose_slot fs_full fd k = Done (Some y)) ∧
  ((∀ j, 0 ≤ j < 16 → ∃ r, iotab x !! Z.to_nat j = Some (Some r)) → ∀ name, sysfsopen strmax fd name k = Undefined) ∧
  (iotab x !! 0%nat = Some None → choose_slot dev_full fd k = Done (Some 0)) ∧
  (∀ r, iotab x !! 0%nat = Some (Some r) → ∀ name instno, sysdevopen strmax fd name instno k = Done (Returns (- EINVAL) k)).
Proof.
  intros Hu Hf. pose proof (au_tab _ _ _ _ Hu) as Hl. split; [|split; [|split]].
  - intros y Hy Hfree Hused. rewrite (choose_current _ _ _ _ _ _ Hu Hf). apply scan_free_slot; try done; lia.
  - intros Hused name. unfold sysfsopen. rewrite (choose_current _ _ _ _ _ _ Hu Hf). rewrite scan_all_used; try done; lia.
  - intros H0'. rewrite (choose_current _ _ _ _ _ _ Hu Hf). cbn [scan_slots]. unfold iotab_get. change (0 <? 0) with false.
    change (Z.to_nat 0) with 0%nat. by rewrite H0'.
  - intros r H0' name instno. unfold sysdevopen. rewrite (choose_current _ _ _ _ _ _ Hu Hf). cbn [scan_slots]. unfold iotab_get.
    change (0 <? 0) with false. change (Z.to_nat 0) with 0%nat. by rewrite H0'.
Qed.

Lemma set_slot_spec k p x l fd r : at_user k p x l →
  set_slot p fd r k = Done (set_process p (Proc (p_id x) (p_tid x) (<[Z.to_nat fd := r]> (iotab x))) k) ∧
  at_user (set_process p (Proc (p_id x) (p_tid x) (<[Z.to_nat fd := r]> (iotab x))) k) p (Proc (p_id x) (p_tid x) (<[Z.to_nat fd := r]> (iotab x))) l.
Proof.
  intros [Hc Ht Hi Hr]. pose proof Hc as Hc'. unfold current_process in Hc. apply bind_Done in Hc as (t & Hrt & Hc). apply bind_Done in Hc as (o & Ho & Hc).
  apply bind_Done in Hc as (p' & Hp & Hc). apply bind_Done in Hc as (x' & Hx & [= -> ->]). apply deref_Done in Hx. split.
  - unfold set_slot. by rewrite Hx.
  - split; [|cbn [iotab]; by rewrite length_insert|done|done]. unfold current_process. cbn [set_process ksch procs]. rewrite Hrt. cbn [mbind outcome_bind].
    rewrite Ho. cbn [mbind outcome_bind]. rewrite Hp. cbn [mbind outcome_bind]. by rewrite lookup_insert_eq.
Qed.

(** An object whose operations pointer is NULL: no call that goes through it is
    defined. *)
Definition no_operations (spot : Z) (ws : io_world δ β * sched) : Prop :=
  (∀ n, ref_ioread hi (IoFile spot) n ws = Undefined) ∧ (∀ bs, ref_iowrite hi (IoFile spot) bs ws = Undefined) ∧
  (∀ cmd arg, ref_ioctl hi (IoFile spot) cmd arg ws = Undefined) ∧ (∀ pos, ref_ioseek hi (IoFile spot) pos ws = Undefined).

Lemma closed_no_operations spot ws fd : get_fd spot (fsys ws.1) = Done fd → f_ops fd = false → no_operations spot ws.
Proof.
  intros Hf Ho. unfold no_operations, ref_ioread, ref_iowrite, ref_ioctl, ref_ioseek, with_ops, obj_ops. rewrite Hf.
  cbn [mbind outcome_bind ops_set file_intf]. by rewrite Ho.
Qed.

(** C25: with [intSpot] in the table of files, closing a descriptor frees it and gives up one reference to the file: while
    others remain the file stays open as it is; with the last one it is closed, also
    when it is the file that was opened last, and reading, writing, seeking and control
    operations on it are not defined any more. *)
Theorem sysclose_file fd (k : kern) p x l spot :
  at_user k p x l → 0 ≤ fd → iotab x !! Z.to_nat fd = Some (Some (IoFile spot)) → file_ok spot (iostate k) →
  0 ≤ intSpot (fsys (kworld k)) < Z.of_nat (length (fileArray (fsys (kworld k)))) →
  let n := f_refcnt (file_fd spot (iostate k)) in 1 ≤ n < 2 ^ 32 →
  ∃ k' x', sysclose hi fd k = Done (Returns 0 k') ∧ at_user k' p x' l ∧ iotab x' = <[Z.to_nat fd := None]> (iotab x) ∧
    (1 < n → file_ok spot (iostate k') ∧ f_refcnt (file_fd spot (iostate k')) = n - 1 ∧
       file_contents spot (iostate k') = file_contents spot (iostate k)) ∧
    (n = 1 → no_operations spot (iostate k')).
Proof.
  intros Hu Hfd Hx Hok Hrange n Hn. pose proof Hu as [Hc Ht Hi Hr]. destruct (file_ok_fd spot _ Hok) as [Hf Hsp]. pose proof Hok as [Hready].
  cbn [fst] in Hf. set (F := file_fd spot (iostate k)) in *. set (w := kworld k) in *. pose proof (lookup_lt_Some _ _ _ Hf) as Hlt.
  unfold sysclose. rewrite (cur_slot_spec _ _ _ _ _ _ Hu Hfd Hx). cbn [deref mbind outcome_bind]. unfold ref_ioclose, obj_refcnt, set_obj_refcnt, get_fd.
  fold w. destruct (Z.ltb_spec spot 0); [lia|]. rewrite Hf. cbn [deref mbind outcome_bind refcnt file_intf]. fold n. rewrite u32_small by lia.
  cbn [set_refcnt file_intf]. set (F1 := FileDesc (f_ops F) (n - 1) (file_pos F) (file_size F) (f_inode F) (f_flags F)).
  set (w1 := set_fsys (set_fd spot F1 (fsys w)) w).
  assert (Hf1 : fileArray (fsys w1) !! Z.to_nat spot = Some F1) by (unfold w1; cbn; by apply list_lookup_insert_eq).
  assert (Hio : ∀ w2, at_user (set_io (w2, ksch k) k) p x l).
  { intros w2. split; [|done|done|done]. eapply (current_keeps k _ (ksch k) (kheap (ksch k))); [done|by destruct (ksch k)|done|done]. }
  destruct (Z.eqb_spec (n - 1) 0) as [Hz|Hnz].
  - unfold with_ops, obj_ops, get_fd. destruct (Z.ltb_spec spot 0); [lia|]. rewrite Hf1. cbn [deref mbind outcome_bind ops_set file_intf f_ops F1].
    rewrite (fr_ops _ _ _ _ _ _ Hready). unfold ioclose. rewrite u32_small by lia. rewrite Hz. change (0 =? 0) with true. cbn iota. cbn [op_close vtable deref mbind outcome_bind].
    unfold file_close. destruct (fs_close_spec spot (fsys w1) (ksch k) F1) as (k2 & -> & fd2 & Hf2 & Ho2);
      [unfold get_fd; destruct (Z.ltb_spec spot 0); [lia|]; by rewrite Hf1|unfold w1; cbn; by rewrite length_insert|].
    cbn [mbind outcome_bind]. set (w2 := set_fsys k2 w1).
    rewrite (au_cur _ _ _ _ (Hio w2)). cbn [mbind outcome_bind]. destruct (set_slot_spec _ _ _ _ fd None (Hio w2)) as [-> Hu'].
    cbn [mbind outcome_bind]. eexists _, _. split; [reflexivity|]. split; [exact Hu'|]. split; [done|]. split; [lia|]. intros _.
    by apply (closed_no_operations _ _ fd2).
  - cbn [mbind outcome_bind]. rewrite (au_cur _ _ _ _ (Hio w1)). cbn [mbind outcome_bind].
    destruct (set_slot_spec _ _ _ _ fd None (Hio w1)) as [-> Hu']. cbn [mbind outcome_bind]. eexists _, _. split; [reflexivity|].
    split; [exact Hu'|]. split; [done|]. split; [|lia]. intros _.
    assert (HF : file_fd spot (w1, ksch k) = F1) by (unfold file_fd; cbn [fst]; by rewrite Hf1).
    change (iostate (set_process p (Proc (p_id x) (p_tid x) (<[Z.to_nat fd := None]> (iotab x))) (set_io (w1, ksch k) k))) with (w1, ksch k).
    split; [|split; [by rewrite HF|unfold file_contents; by rewrite HF]].
    split. rewrite HF. destruct Hready as [? ? ? ? ? ? ? ? ?]. by split.
Qed.

(** ** Opening and reading, as the user does it *)

(** A file system just mounted, whose lock is free, with the file [nm] of [len] bytes. *)
Record fs_mounted (k : kern) (nm : list Z) (y N i len : Z) : Prop := {
  fm_disk : disk_ok (globalIO (fsys (kworld k)));
  fm_boot : boot (fsys (kworld k)) = take 4096 (contents (globalIO (fsys (kworld k))));
  fm_files : fileArray (fsys (kworld k)) = replicate 32 zero_desc;
  fm_lock : lock_tid (kfs_lock (fsys (kworld k))) = -1;
  fm_entry : dir_entry (contents (globalIO (fsys (kworld k)))) y nm i;
  fm_image : image_ok (contents (globalIO (fsys (kworld k)))) N i len;
  fm_small : i < 2 ^ 19 - 1;
  fm_sched : ∃ a, sched_rep (ksch k) a;
  fm_run : running (ksch k);
  fm_heap : 0 ≤ heap_start (kheap (ksch k)) ∧ heap_start (kheap (ksch k)) + 32 ≤ heap_end (kheap (ksch k)) < 2 ^ 32
}.

(** Small blocks are cut off the end of the heap. *)
Lemma kmalloc16 n (h : heap mem) : 0 < n ≤ 16 → 0 ≤ heap_start h → heap_start h + 16 ≤ heap_end h < 2 ^ 32 →
  kmalloc n h = Done (heap_end h - 16, Heap (heap_initialized h) (heap_start h) (heap_end h - 16) (heap_pages h)).
Proof.
  intros Hn Hs He. assert (Hr : round16 n = 16).
  { destruct (round16_spec n) as [Hr Hm]; [lia|]. apply Z.div_exact in Hm; lia. }
  rewrite kmalloc_current; rewrite ?Hr; [done|lia..].
Qed.

Lemma sysfsopen_spec fd name nm y N i len (k : kern) p x l :
  at_user k p x l → 0 ≤ fd < 16 → fs_mounted k nm y N i len → user_bytes root name (cstr nm []) (pages (ksch k)) → (length nm < strmax)%nat →
  ∃ k' x', sysfsopen strmax fd name k = Done (Returns fd k') ∧ at_user k' p x' l ∧ pages (ksch k') = pages (ksch k) ∧
    iotab x' = <[Z.to_nat fd := Some (IoFile 0)]> (iotab x) ∧ file_ok 0 (iostate k') ∧
    file_contents 0 (iostate k') = file_bytes (contents (globalIO (fsys (kworld k)))) N i 0 len ∧ file_pos (file_fd 0 (iostate k')) = 0.
Proof.
  intros Hu Hfd [Hd Hboot Hfiles Hlk Hde Him Hi [a Hrep] Hrun [Hh1 Hh2]] Hname Hstr. pose proof Hu as [Hc Ht Hinv Hr].
  unfold sysfsopen, choose_slot. destruct (Z.leb_spec 0 fd); [|lia]. cbn [mbind outcome_bind].
  rewrite kmalloc16 by (unfold sizeof_io_intf; lia). cbn [mbind outcome_bind]. set (h1 := Heap _ _ _ _).
  change (pages (ksch (set_sched (with_heap h1 (ksch k)) k))) with (pages (ksch k)).
  assert (Hnf : nul_free nm).
  { destruct (de_name _ _ _ _ Hde) as (Hs & _). eapply Forall_impl; [exact Hs|]. cbv beta. lia. }
  rewrite (uload_str_spec root _ Hr nm strmax name Hnf Hname Hstr). cbn [mbind outcome_bind]. unfold open_file. cbn [set_sched kworld ksch].
  destruct (fs_open_spec _ y nm i [] N len (fsys (kworld k)) (with_heap h1 (ksch k)) (heap_end h1 - 16) (Heap (heap_initialized h1) (heap_start h1) (heap_end h1 - 16) (heap_pages h1))
    Hd eq_refl Hboot Hfiles Hde Him Hi) as (k1 & He & Hd1 & Hc1 & Hl1 & Hf1);
    [apply kmalloc16; unfold blockNumSize, h1; cbn [heap_start heap_end]; lia|unfold h1; cbn [heap_end]; lia|].
  rewrite He. cbn [mbind outcome_bind option_map]. change (0 =? 0) with true. cbn [negb deref mbind outcome_bind]. unfold install.
  set (h2 := Heap (heap_initialized h1) _ _ _) in *. set (kk := set_io _ _).
  assert (Hu1 : at_user kk p x l).
  { split; [|done|exact Hinv|exact Hr]. eapply (current_keeps k _ (ksch k) h2); [done|reflexivity|reflexivity|exact Hc]. }
  rewrite (au_cur _ _ _ _ Hu1). cbn [mbind outcome_bind]. rewrite Ht. destruct (Z.leb_spec (Z.of_nat 16) fd); [lia|].
  destruct (set_slot_spec _ _ _ _ fd (Some (IoFile 0)) Hu1) as [-> Hu2]. cbn [mbind outcome_bind]. eexists _, _. split; [reflexivity|].
  split; [exact Hu2|]. split; [done|]. split; [done|].
  assert (HF : file_fd 0 (kworld kk, ksch kk) = FileDesc true 1 0 len i 1) by (change (default zero_desc (fileArray k1 !! 0%nat) = FileDesc true 1 0 len i 1); by rewrite Hf1).
  assert (Himg : file_img (kworld kk, ksch kk) = contents (globalIO (fsys (kworld k)))) by exact Hc1.
  pose proof (im_inodes _ _ _ _ Him) as HN. pose proof (im_size _ _ _ _ Him).
  change (iostate (set_process p (Proc (p_id x) (p_tid x) (<[Z.to_nat fd := Some (IoFile 0)]> (iotab x))) kk)) with (kworld kk, ksch kk).
  split; [|split; [unfold file_contents; by rewrite HF, Himg, HN|by rewrite HF]].
  split. rewrite HF, Himg, HN. cbn [file_size]. split; cbn [file_pos f_ops file_size f_inode]; try done.
  - lia.
  - unfold kk. cbn [set_io kworld fst set_fsys fsys]. by rewrite Hc1.
  - unfold kk. cbn [set_io kworld fst set_fsys fsys]. by rewrite Hl1.
  - exists a. apply sched_rep_heap, sched_rep_heap. done.
Qed.

(** The registers of a call of the user. *)
Definition calls (tfr : trap_frame) (num a0 a1 a2 : Z) : Prop :=
  length (tf_x tfr) = 32%nat ∧ reg 17 tfr = num ∧ reg 10 tfr = a0 ∧ reg 11 tfr = a1 ∧ reg 12 tfr = a2.

(** What the user sees after a call that returned [v]. *)
Definition returned (tfr tfr' : trap_frame) (v : Z) : Prop :=
  tf_sepc tfr' = u64 (tf_sepc tfr + 4) ∧ reg 10 tfr' = u64 v ∧ ∀ i, 0 ≤ i → i ≠ 10 → reg i tfr' = reg i tfr.

Lemma handler_returns (tfr : trap_frame) (k k' : kern) v : length (tf_x tfr) = 32%nat →
  (∀ pc, syscall hi strmax polls (Tfr (tf_x tfr) (tf_sstatus tfr) pc) k = Done (Returns v k')) →
  ∃ tfr', umode_excp_handler hi strmax polls RISCV_SCAUSE_ECALL_FROM_UMODE tfr k = Done (tfr', Returns v k') ∧ returned tfr tfr' v.
Proof.
  intros Hl Hs. unfold umode_excp_handler. rewrite Z.eqb_refl. unfold syscall_handler. rewrite Hs. cbn [mbind outcome_bind].
  eexists. split; [reflexivity|]. unfold returned, reg. cbn [tf_x tf_sepc tf_sstatus]. split; [done|]. split.
  - rewrite nth_lookup, list_lookup_insert_eq by (rewrite Hl; vm_compute; lia). done.
  - intros i Hi Hne. rewrite !nth_lookup, list_lookup_insert_ne; [done|]. unfold TFR_A0. lia.
Qed.


(** ** Page faults *)

(** C36: the handler of store page faults maps the page of the user's stack pointer,
    not that of the address that was stored to: it puts a fresh page of zeroes there,
    also when a page was mapped, and when the fault was elsewhere the address still is
    not mapped, so that the store faults again. *)
Theorem store_fault_maps_stack_page tfr v (k : kern) p x l : at_user k p x l → (3 ≤ length l)%nat →
  let sp := reg TFR_SP tfr in
  USER_START_VMA ≤ sp ≤ USER_END_VMA → user_vma v → v / 4096 ≠ sp / 4096 → translate root v (pages (ksch k)) = None →
  ∃ k' q, umode_excp_handler hi strmax polls RISCV_SCAUSE_STORE_PAGE_FAULT tfr k = Done (tfr, Returns 0 k') ∧
    translate root sp (pages (ksch k')) = Some (pte_word (leaf_pte q (Z.lor (Z.lor PTE_W PTE_R) PTE_U))) ∧
    (∀ i, 0 ≤ i < 512 → rd (pages (ksch k')) (q + 8 * i) = 0) ∧
    translate root v (pages (ksch k')) = None.
Proof.
  intros [Hc Ht Hi Hr] Hl sp Hsp Hv Hne Hnone. destruct (handle_fault_maps root (pages (ksch k)) l sp Hi Hr Hl Hsp) as (q & m' & l' & He & _ & Hm & Hz & Hk).
  unfold umode_excp_handler. change (RISCV_SCAUSE_STORE_PAGE_FAULT =? RISCV_SCAUSE_ECALL_FROM_UMODE) with false. cbn iota. rewrite Z.eqb_refl.
  change (reg INSTRUCT tfr) with sp. rewrite He. cbn [mbind outcome_bind]. eexists _, q. split; [reflexivity|].
  change (pages (ksch (set_sched (with_pages m' (ksch k)) k))) with m'. split; [done|]. split; [done|]. by rewrite Hk.
Qed.
End Calls.
