(* ===== verification/ForkSpec.v ===== *)
(** What fork does: the caller goes on in a copy of its address space, and another
    process structure refers to the same open objects. *)
From Stdlib Require Import ZArith Lia.
From stdpp Require Import base gmap list strings.
From S2P Require Import Prelude CString Pages Heap Pte Memory MemFacts PageTables Mapping Spaces Vmem Clone Thread ThreadLists Scheduler Lock Io IoSpec Disk Timer Device Kfs KfsSpec Elf ElfSpec Uart Console Objects Process ProcSpec Syscall SyscallSpec.

Open Scope Z_scope.

Lemma cloned_words root child m m' m'' l : cloned root child m m' l → same_words m' m'' → free_ok m'' l → cloned root child m m'' l.
Proof.
  intros [Hp Hc Hk Hkeep Hcopy Hfl Hap] Hw Hf. pose proof (same_words_translate root _ _ Hw) as Hr. pose proof (same_words_translate child _ _ Hw) as Hch. split.
  - by eapply same_words_inv.
  - by eapply same_words_inv.
  - intros i Hi. rewrite Hw. by apply Hk.
  - intros v Hv. destruct (Hr v) as [-> ->]. by apply Hkeep.
  - intros v Hv. destruct (Hch v) as [_ ->]. by apply Hcopy.
  - intros v Hv. specialize (Hfl v Hv). destruct (Hch v) as [-> _]. done.
  - intros v v' e e' Hv Hv'. destruct (Hr v) as [-> _], (Hch v') as [-> _]. by apply Hap.
Qed.

(** What an object promises of its reference count. *)
Class IoRefcnt (σ : Type) `{IoIntf σ} : Prop := refcnt_set n (d : σ) : refcnt (set_refcnt n d) = n.
#[export] Instance file_refcnt : IoRefcnt file_desc.
Proof. by intros n []. Qed.

Section Refs.
Context {δ β : Type} `{IoRefcnt δ} `{IoOps δ} `{IoOps β}.

Lemma set_refcnt_spec r n m (w : io_world δ β) : obj_refcnt r w = Done m →
  ∃ w', set_obj_refcnt r n w = Done w' ∧ obj_refcnt r w' = Done n ∧ ∀ r', r' ≠ r → obj_refcnt r' w' = obj_refcnt r' w.
Proof.
  unfold obj_refcnt, set_obj_refcnt. destruct r as [spot|p]; intros Hr; apply bind_Done in Hr as (d & Hd & _); rewrite Hd; cbn [mbind outcome_bind];
    (eexists; split; [reflexivity|]).
  - unfold get_fd in Hd. destruct (Z.ltb_spec spot 0); [done|]. apply deref_Done in Hd. split.
    + unfold get_fd. destruct (Z.ltb_spec spot 0); [lia|]. cbn [set_fsys fsys set_fd fileArray].
      rewrite list_lookup_insert_eq by (by eapply lookup_lt_Some). cbn [deref mbind outcome_bind]. by rewrite refcnt_set.
    + intros [spot'|p'] Hne; [|done]. unfold get_fd. destruct (Z.ltb_spec spot' 0); [done|]. cbn [set_fsys fsys set_fd fileArray].
      rewrite list_lookup_insert_ne; [done|]. intros Heq. apply Hne. f_equal. lia.
  - split.
    + cbn [set_dev devobjs]. rewrite lookup_insert_eq. cbn [deref mbind outcome_bind]. by rewrite refcnt_set.
    + intros [spot'|p'] Hne; [done|]. cbn [set_dev devobjs]. rewrite lookup_insert_ne; [done|]. congruence.
Qed.

(** How often a table of open objects refers to [r]. *)
Definition refs_to (r : io_ref) (l : list (option io_ref)) : Z := Z.of_nat (length (filter (λ o, o = Some r) l)).

Definition all_objects (l : list (option io_ref)) (w : io_world δ β) : Prop := ∀ r, Some r ∈ l → ∃ n, obj_refcnt r w = Done n.

Lemma copy_refs_spec l : ∀ w, all_objects l w →
  ∃ w', copy_refs l w = Done w' ∧ ∀ r n, obj_refcnt r w = Done n → 0 ≤ n < 2 ^ 32 → obj_refcnt r w' = Done (u32 (n + refs_to r l)).
Proof.
  induction l as [|[r|] l IH]; intros w Hw.
  - exists w. split; [done|]. intros r n Hr Hn. unfold refs_to. cbn. by rewrite Z.add_0_r, u32_small.
  - destruct (Hw r) as [n Hr]; [by left|]. destruct (set_refcnt_spec r (u32 (n + 1)) n w Hr) as (w1 & Hs & Hr1 & Ho).
    cbn [copy_refs]. unfold ref_addref. rewrite Hr. cbn [mbind outcome_bind]. rewrite Hs. cbn [mbind outcome_bind].
    destruct (IH w1) as (w' & He & Hc).
    { intros r' Hr'. destruct (decide (r' = r)) as [->|Hne]; [eauto|]. rewrite Ho by done. apply Hw. by right. }
    exists w'. split; [done|]. intros r' n' Hr' Hn'. unfold refs_to. rewrite filter_cons. destruct (decide (r' = r)) as [->|Hne].
    + rewrite decide_True by done. rewrite Hr in Hr'. injection Hr' as ->. rewrite (Hc r _ Hr1) by (apply Z.mod_pos_bound; lia).
      cbn [length]. f_equal. unfold refs_to, u32. rewrite Zplus_mod_idemp_l. f_equal. lia.
    + rewrite decide_False by congruence. apply (Hc r' n'); [by rewrite Ho|done].
  - cbn [copy_refs]. destruct (IH w) as (w' & He & Hc); [intros r Hr; apply Hw; by right|]. exists w'. split; [done|].
    intros r n Hr Hn. unfold refs_to. rewrite filter_cons, decide_False by done. by apply Hc.
Qed.
End Refs.

Section Fork.
Context {δ β υ : Type} `{IoRefcnt δ} `{IoOps δ} `{IoOps β}.

Lemma current_other (k : kernel δ β υ) p x np y : current_process k = Done (p, x) → np ≠ p → current_process (set_process np y k) = Done (p, x).
Proof.
  unfold current_process. cbn [set_process ksch procs]. intros Hc Hne. apply bind_Done in Hc as (t & -> & Hc). apply bind_Done in Hc as (o & Ho & Hc).
  cbn [mbind outcome_bind]. rewrite Ho. cbn [mbind outcome_bind]. apply bind_Done in Hc as (p' & Hp & Hc). rewrite Hp. cbn [mbind outcome_bind].
  apply bind_Done in Hc as (x' & Hx & [= -> ->]). apply deref_Done in Hx. by rewrite lookup_insert_ne, Hx by done.
Qed.

(** The space that becomes active. *)
Lemma switch_same_words mtag (m : mem) l : free_ok m l →
  same_words m (memory_space_switch mtag m).2 ∧ free_ok (memory_space_switch mtag m).2 l ∧
  active_space_root (memory_space_switch mtag m).2 = mtag_to_root mtag.
Proof. intros Hf. split; [done|]. split; [by apply (free_ok_ext m)|done]. Qed.

(** C11: fork makes a process structure that refers to the same open objects, each
    counted once more for every descriptor, and a copy of the address space of the
    caller.  It returns 0 to the caller, which goes on in the copy, although its
    process still has the tag of the old space; no thread is started for the new
    process. *)
Theorem process_fork_spec (k : kernel δ β υ) p x l root :
  at_user root k p x l → no_global root (pages (ksch k)) → (clone_need (pages (ksch k)) root ≤ length l)%nat →
  0 ≤ heap_start (kheap (ksch k)) → heap_start (kheap (ksch k)) + 144 ≤ heap_end (kheap (ksch k)) < 2 ^ 64 →
  let np := heap_end (kheap (ksch k)) - 144 in
  procs k !! np = None → all_objects (iotab x) (kworld k) →
  ∃ child k' l', process_fork k = Done (0, k') ∧ cloned root child (pages (ksch k)) (pages (ksch k')) l' ∧ at_user child k' p x l' ∧
    procs k' = <[np := Proc (free_slot 0 (take 16 (proctab k))) None (iotab x)]> (procs k) ∧
    proc_mtag (ksch k') = <[np := make_mtag child]> (proc_mtag (ksch k)) ∧
    (∀ r n, obj_refcnt r (kworld k) = Done n → 0 ≤ n < 2 ^ 32 → obj_refcnt r (kworld k') = Done (u32 (n + refs_to r (iotab x)))) ∧
    threads (ksch k') = threads (ksch k) ∧ tlists (ksch k') = tlists (ksch k).
Proof.
  intros Hu Hng Hneed Hh1 Hh2 np Hnp Hobj. pose proof Hu as [Hc Ht Hi Hr]. destruct (copy_refs_spec (iotab x) (kworld k) Hobj) as (w' & Hw & Hcnt).
  destruct (memory_space_clone_runs root 0 (pages (ksch k)) l Hi Hng Hr Hneed) as (child & m' & l' & Hcl & Hcd & _ & Hmt).
  destruct (switch_same_words (make_mtag child) m' l' (pt_free _ _ _ (cl_child _ _ _ _ _ Hcd))) as (Hsw & Hsf & Hsr). rewrite Hmt in Hsr.
  assert (Hne : np ≠ p).
  { intros Heq. pose proof Hc as Hc'. unfold current_process in Hc'. apply bind_Done in Hc' as (t & _ & Hc'). apply bind_Done in Hc' as (o & _ & Hc').
    apply bind_Done in Hc' as (p' & _ & Hc'). apply bind_Done in Hc' as (x' & Hx & [= -> ->]). apply deref_Done in Hx. congruence. }
  unfold process_fork. rewrite kmalloc_current by (change (round16 sizeof_process) with 144; lia). change (round16 sizeof_process) with 144. fold np.
  cbn [mbind outcome_bind]. set (h1 := Heap _ _ np _). set (slot := free_slot 0 _). set (k1 := set_sched (with_heap h1 (ksch k)) k).
  set (k2 := match slot with Some x => _ | None => k1 end).
  assert (Hk2 : kworld k2 = kworld k ∧ ksch k2 = with_heap h1 (ksch k) ∧ procs k2 = procs k) by (unfold k2; by destruct slot).
  destruct Hk2 as (Hk2w & Hk2s & Hk2p).
  assert (Hc2 : current_process k2 = Done (p, x)) by (eapply (current_keeps k k2 (ksch k) h1); done).
  rewrite Hc2. cbn [mbind outcome_bind]. rewrite Hk2w, Hw. cbn [mbind outcome_bind]. cbn [set_process set_io ksch snd]. rewrite Hk2s.
  change (pages (with_heap h1 (ksch k))) with (pages (ksch k)). rewrite Hcl. cbn [mbind outcome_bind intr_disable].
  eexists child, _, l'. split; [reflexivity|]. cbn [set_sched set_process set_io ksch procs kworld fst].
  change (pages _) with (memory_space_switch (make_mtag child) m').2 at 2.
  split; [by eapply cloned_words|]. split; [|split; [by rewrite Hk2p|done]].
  split; [|done| |exact Hsr].
  - match goal with |- current_process (set_sched ?S _) = _ => set (s' := S) end.
    change (current_process (set_process np (Proc slot None (iotab x)) (Kernel w' s' (ktim k2) (kcon k2) (procs k2) (proctab k2))) = Done (p, x)).
    apply current_other; [|exact Hne].
    eapply (current_threads k); [done|done| |exact Hk2p|exact Hc]. intros t th Hth. by exists th.
  - eapply same_words_inv; [exact Hsw|exact Hsf|apply (cl_child _ _ _ _ _ Hcd)].
Qed.
End Fork.
