(* ===== verification/ExitSpec.v ===== *)
(** What the exit of a process gives up: the pages of the user, one reference for
    every descriptor, and the thread. *)
From Stdlib Require Import ZArith Lia.
From stdpp Require Import base gmap list strings.
From S2P Require Import Prelude CString Pages Heap Pte Memory MemFacts PageTables Mapping Spaces Thread Frames ThreadLists Scheduler Lock Io Disk Timer Device Kfs Elf Uart Console Objects Process ProcSpec Syscall SyscallSpec ForkSpec.

Open Scope Z_scope.

(** ** Closing the table of open files *)

Section Close.
Context {δ β : Type} `{IoRefcnt δ} `{IoOps δ} `{IoOps β} (hi : Z).

(** The file at [spot] after [n] references are given up. *)
Record released (n : Z) (fd fd' : file_desc) : Prop := {
  rl_refcnt : f_refcnt fd' = f_refcnt fd - n;
  rl_ops : f_ops fd' = if decide (0 < n ∧ f_refcnt fd = n) then false else f_ops fd;
  rl_pos : file_pos fd' = file_pos fd;
  rl_size : file_size fd' = file_size fd;
  rl_inode : f_inode fd' = f_inode fd
}.

Ltac rel := split; cbn; repeat case_decide; try congruence; try tauto; lia.

Lemma released_0 fd : released 0 fd fd.
Proof. rel. Qed.

Lemma released_step n fd fd1 fd2 : 0 ≤ n → n + 1 ≤ f_refcnt fd → released 1 fd fd1 → released n fd1 fd2 → released (n + 1) fd fd2.
Proof.
  intros Hn Hle [Hr Ho Hp Hs Hi] [Hr' Ho' Hp' Hs' Hi']. rewrite Ho in Ho'. rewrite Hr in Hr', Ho'. clear Hr Ho.
  repeat case_decide; rel.
Qed.

Abbreviation files := (list file_desc).
Definition file_at (spot : Z) (w : io_world δ β) : option file_desc :=
  if spot <? 0 then None else fileArray (fsys w) !! Z.to_nat spot.

Lemma get_fd_at spot (w : io_world δ β) fd : get_fd spot (fsys w) = Done fd ↔ file_at spot w = Some fd.
Proof. unfold get_fd, file_at. case_match; [done|]. apply deref_Done. Qed.

Lemma file_at_set spot spot' fd (w : io_world δ β) : is_Some (file_at spot w) →
  file_at spot' (set_fsys (set_fd spot fd (fsys w)) w) = if decide (spot' = spot) then Some fd else file_at spot' w.
Proof.
  unfold file_at. intros Hs. destruct (Z.ltb_spec spot 0); [by destruct Hs|]. cbn [set_fsys fsys set_fd fileArray].
  destruct (decide (spot' = spot)) as [->|Hne].
  - destruct (Z.ltb_spec spot 0); [lia|]. apply list_lookup_insert_eq. by apply lookup_lt_is_Some.
  - destruct (Z.ltb_spec spot' 0); [done|]. apply list_lookup_insert_ne. lia.
Qed.

Definition last_opened (w : io_world δ β) : Prop := is_Some (file_at (intSpot (fsys w)) w).

(** Giving up one reference. *)
Lemma close_one spot fd (w : io_world δ β) s : file_at spot w = Some fd → f_ops fd = true → 1 ≤ f_refcnt fd < 2 ^ 32 → last_opened w →
  ∃ w', ref_ioclose hi (IoFile spot) (w, s) = Done (w', s) ∧ last_opened w' ∧
    (∃ fd', file_at spot w' = Some fd' ∧ released 1 fd fd') ∧
    (∀ spot' g, spot' ≠ spot → file_at spot' w = Some g → ∃ g', file_at spot' w' = Some g' ∧ released 0 g g').
Proof.
  intros Hf Ho Hn Hl. unfold ref_ioclose, obj_refcnt, set_obj_refcnt. pose proof Hf as Hg. apply get_fd_at in Hg. rewrite Hg.
  cbn [mbind outcome_bind refcnt file_intf set_refcnt]. rewrite u32_small by lia.
  set (fd1 := FileDesc (f_ops fd) (f_refcnt fd - 1) (file_pos fd) (file_size fd) (f_inode fd) (f_flags fd)).
  set (w1 := set_fsys (set_fd spot fd1 (fsys w)) w).
  assert (Hw1 : ∀ spot', file_at spot' w1 = if decide (spot' = spot) then Some fd1 else file_at spot' w) by (intros; by apply file_at_set).
  assert (Hl1 : last_opened w1).
  { unfold last_opened. change (intSpot (fsys w1)) with (intSpot (fsys w)). rewrite Hw1. by case_decide. }
  destruct (Z.eqb_spec (f_refcnt fd - 1) 0) as [Hz|Hnz].
  - unfold with_ops, obj_ops. assert (Hg1 : get_fd spot (fsys w1) = Done fd1) by (apply get_fd_at; rewrite Hw1; by rewrite decide_True).
    rewrite Hg1. cbn [mbind outcome_bind ops_set file_intf f_ops fd1]. rewrite Ho. unfold ioclose. rewrite u32_small by lia. rewrite Hz.
    change (0 =? 0) with true. cbn iota. cbn [op_close vtable deref mbind outcome_bind]. unfold file_close, fs_close. rewrite Hg1.
    cbn [mbind outcome_bind]. set (fd2 := FileDesc false (f_refcnt fd1) (file_pos fd1) (file_size fd1) (f_inode fd1) (f_flags fd1)).
    set (w2 := set_fsys (set_fd spot fd2 (fsys w1)) w1).
    assert (Hw2 : ∀ spot', file_at spot' w2 = if decide (spot' = spot) then Some fd2 else file_at spot' w).
    { intros spot'. unfold w2. rewrite file_at_set by (rewrite Hw1; by rewrite decide_True). case_decide as Hd; [done|]. by rewrite Hw1, decide_False. }
    assert (Hi2 : intSpot (fsys w2) = intSpot (fsys w)) by done.
    assert (Hl2 : ∃ fi, file_at (intSpot (fsys w)) w2 = Some fi) by (rewrite Hw2; case_decide; [eauto|destruct Hl as [fi Hfi]; eauto]).
    destruct Hl2 as [fi Hfi]. change (set_fd spot fd2 (fsys w1)) with (fsys w2). rewrite Hi2.
    rewrite (proj2 (get_fd_at _ _ _) Hfi). cbn [mbind outcome_bind kfree].
    assert (Hs : with_heap (kheap s) s = s) by (by destruct s). rewrite Hs.
    set (fi' := FileDesc (f_ops fi) (f_refcnt fi) (file_pos fi) (file_size fi) (f_inode fi) 0).
    set (w3 := set_fsys (set_fd (intSpot (fsys w)) fi' (fsys w2)) w2).
    assert (Hw3 : ∀ spot', file_at spot' w3 = if decide (spot' = intSpot (fsys w)) then Some fi' else file_at spot' w2).
    { intros spot'. unfold w3. by rewrite file_at_set by eauto. }
    exists w3. split; [done|]. split; [unfold last_opened; change (intSpot (fsys w3)) with (intSpot (fsys w)); rewrite Hw3; by rewrite decide_True|].
    split.
    + rewrite Hw3. case_decide as Hd.
      * exists fi'. split; [done|]. rewrite <- Hd, Hw2, decide_True in Hfi by done. injection Hfi as <-.
        rel.
      * rewrite Hw2, decide_True by done. exists fd2. split; [done|]. rel.
    + intros spot' g Hne Hg'. rewrite Hw3. case_decide as Hd.
      * exists fi'. split; [done|]. rewrite <- Hd, Hw2, decide_False, Hg' in Hfi by done. injection Hfi as <-.
        rel.
      * rewrite Hw2, decide_False by done. exists g. split; [done|apply released_0].
  - exists w1. split; [done|]. split; [done|]. split.
    + rewrite Hw1, decide_True by done. exists fd1. split; [done|]. rel.
    + intros spot' g Hne Hg'. rewrite Hw1, decide_False by done. exists g. split; [done|apply released_0].
Qed.

(** Every descriptor is an open file that counts all its references. *)
Definition counted (l : list (option io_ref)) (w : io_world δ β) : Prop :=
  ∀ r, Some r ∈ l → ∃ spot fd, r = IoFile spot ∧ file_at spot w = Some fd ∧ f_ops fd = true ∧ refs_to r l ≤ f_refcnt fd < 2 ^ 32.

Lemma refs_to_cons o r l : refs_to r (o :: l) = (if decide (o = Some r) then 1 else 0) + refs_to r l.
Proof. unfold refs_to. rewrite filter_cons. case_decide; cbn [length]; lia. Qed.

Lemma refs_to_pos r l : 0 ≤ refs_to r l ∧ (Some r ∈ l → 0 < refs_to r l) ∧ (Some r ∉ l → refs_to r l = 0).
Proof.
  unfold refs_to. split; [lia|]. split.
  - intros Hr. destruct (filter (λ o, o = Some r) l) eqn:Hf; [|cbn; lia].
    assert (Hin : Some r ∈ filter (λ o, o = Some r) l) by by apply list_elem_of_filter. rewrite Hf in Hin. by apply not_elem_of_nil in Hin.
  - intros Hr. destruct (filter (λ o, o = Some r) l) as [|o] eqn:Hf; [done|]. destruct Hr.
    assert (Hin : o ∈ filter (λ o, o = Some r) l) by (rewrite Hf; by left). by apply list_elem_of_filter in Hin as [-> ?].
Qed.

Lemma close_all_spec l : ∀ (w : io_world δ β) s, counted l w → last_opened w →
  ∃ w', close_all hi l (w, s) = Done (w', s) ∧
    ∀ spot fd, file_at spot w = Some fd → ∃ fd', file_at spot w' = Some fd' ∧ released (refs_to (IoFile spot) l) fd fd'.
Proof.
  induction l as [|[r|] l IH]; intros w s Hc Hl.
  - exists w. split; [done|]. intros spot fd Hf. exists fd. split; [done|]. apply released_0.
  - destruct (Hc r) as (spot & fd & -> & Hf & Ho & Hn); [by left|]. rewrite refs_to_cons, decide_True in Hn by done.
    pose proof (refs_to_pos (IoFile spot) l) as (Hp0 & Hp1 & Hp2).
    destruct (close_one spot fd w s Hf Ho) as (w1 & He & Hl1 & (fd1 & Hf1 & Hr1) & Hoth); [lia|done|].
    cbn [close_all fst]. unfold obj_ops. rewrite (proj2 (get_fd_at _ _ _) Hf). cbn [mbind outcome_bind ops_set file_intf]. rewrite Ho, He.
    cbn [mbind outcome_bind]. destruct (IH w1 s) as (w' & He' & Hfin); [|done|].
    + intros r Hr. destruct (decide (r = IoFile spot)) as [->|Hne].
      * exists spot, fd1. split; [done|]. split; [done|]. destruct Hr1 as [Hr1 Ho1 _ _ _]. specialize (Hp1 Hr).
        split; [rewrite Ho1, decide_False by lia; done|]. lia.
      * destruct (Hc r) as (spot' & g & -> & Hg & Hgo & Hgn); [by right|]. rewrite refs_to_cons, decide_False in Hgn by congruence.
        destruct (Hoth spot' g) as (g' & Hg' & [Hr2 Ho2 _ _ _]); [congruence|done|]. exists spot', g'. split; [done|]. split; [done|].
        rewrite decide_False in Ho2 by lia. split; [congruence|]. lia.
    + exists w'. split; [done|]. intros spot' g Hg. rewrite refs_to_cons. destruct (decide (spot' = spot)) as [->|Hne].
      * rewrite decide_True by done. rewrite Hf in Hg. injection Hg as <-. destruct (Hfin spot fd1 Hf1) as (fd' & Hf' & Hr').
        exists fd'. split; [done|]. rewrite Z.add_comm. eapply released_step; [lia|lia|exact Hr1|exact Hr'].
      * rewrite decide_False by congruence. destruct (Hoth spot' g) as (g' & Hg' & [Ha Hb Hc' Hd He2]); [congruence|done|].
        destruct (Hfin spot' g' Hg') as (g2 & Hg2 & [Ha2 Hb2 Hc2 Hd2 He3]). exists g2. split; [done|]. rewrite decide_False in Hb by lia.
        rewrite Z.add_0_l. rewrite Ha, Hb in *. replace (f_refcnt g - 0) with (f_refcnt g) in * by lia. rel.
  - cbn [close_all]. destruct (IH w s) as (w' & He & Hfin); [|done|].
    + intros r Hr. destruct (Hc r) as (spot & fd & Hrs & Hf & Ho & Hn); [by right|]. exists spot, fd. split; [done|]. split; [done|]. split; [done|].
      by rewrite refs_to_cons, decide_False in Hn by done.
    + exists w'. split; [done|]. intros spot fd Hf. rewrite refs_to_cons, decide_False by done. by apply Hfin.
Qed.
End Close.

(** ** The memory through a switch of threads *)

(** Switching threads changes no page, only the space that is active. *)
Definition same_pages (s s' : sched) : Prop := ram (pages s') = ram (pages s) ∧ free_list (pages s') = free_list (pages s).

#[export] Instance same_pages_preorder : PreOrder same_pages.
Proof. split; [by split|]. intros a b c [H1 H2] [H3 H4]. split; congruence. Qed.

Lemma same_pages_heap s s' : kheap s' = kheap s → same_pages s s'.
Proof. intros He. unfold same_pages, pages. by rewrite He. Qed.

#[export] Instance same_pages_frame : SwitchFrame same_pages.
Proof. split; [split; [exact _|..]|..]; intros; by split. Qed.

Lemma exit_pages s saved s' : thread_exit s = Done (Switched saved s') → same_pages s s'.
Proof. apply (frame_exit same_pages). Qed.

Lemma rep_pages m s a : sched_rep s a → sched_rep (with_pages m s) a.
Proof. intros [[Hl Hlw] ? ? ? ? ? ?]. split; try done. Qed.

(** ** Exit *)

Section Exit.
Context {δ β υ : Type} `{IoRefcnt δ} `{IoOps δ} `{IoDisk β}.

End Exit.
