(* ===== verification/Trap.v ===== *)
(** Trap entry, thread switching and start-up in assembly (src/src/kern/trapasm.s,
    thrasm.s, start.s).

    A small machine runs the instructions that these files use; the text of the
    files is transcribed as lists of instructions, a branch as a Rocq [if] between
    them.  Code that the assembly calls is cut out: an entry ends at the call, and an
    exit starts where the call returns.  The memory [stk] is that of kernel stacks
    and contexts, in doublewords; an access elsewhere is [Undefined]. *)
From Stdlib Require Import ZArith Lia.
From stdpp Require Import base gmap list strings.
From S2P Require Import Prelude Csr.

Open Scope Z_scope.

(** ** The machine *)

Inductive mode : Type := UMode | SMode | MMode.

Record machine : Type := Mach { mpc : Z; mmode : mode; gpr : list Z; csrs : csrfile; stk : gmap Z Z }.

Definition get (i : nat) (m : machine) : Z := if decide (i = 0%nat) then 0 else gpr m !!! i.
Definition put (i : nat) (v : Z) (m : machine) : machine :=
  if decide (i = 0%nat) then m else Mach (mpc m) (mmode m) (<[i := v]> (gpr m)) (csrs m) (stk m).
Definition with_csrs (f : csrfile) (m : machine) : machine := Mach (mpc m) (mmode m) (gpr m) f (stk m).
Definition with_stk (w : gmap Z Z) (m : machine) : machine := Mach (mpc m) (mmode m) (gpr m) (csrs m) w.
Definition jump (pc : Z) (p : mode) (m : machine) : machine := Mach pc p (gpr m) (csrs m) (stk m).

Abbreviation ra := 1%nat (only parsing).
Abbreviation sp := 2%nat (only parsing).
Abbreviation tp := 4%nat (only parsing).
Abbreviation t0 := 5%nat (only parsing).
Abbreviation t1 := 6%nat (only parsing).
Abbreviation s0 := 8%nat (only parsing).
Abbreviation fp := 8%nat (only parsing).
Abbreviation s1 := 9%nat (only parsing).
Abbreviation a0 := 10%nat (only parsing).
Abbreviation a1 := 11%nat (only parsing).
Abbreviation a2 := 12%nat (only parsing).
Abbreviation a3 := 13%nat (only parsing).
Abbreviation a4 := 14%nat (only parsing).
Abbreviation a5 := 15%nat (only parsing).
Abbreviation a6 := 16%nat (only parsing).
Abbreviation a7 := 17%nat (only parsing).
Abbreviation s2 := 18%nat (only parsing).
Abbreviation s3 := 19%nat (only parsing).
Abbreviation s4 := 20%nat (only parsing).
Abbreviation s5 := 21%nat (only parsing).
Abbreviation s6 := 22%nat (only parsing).
Abbreviation s7 := 23%nat (only parsing).
Abbreviation s8 := 24%nat (only parsing).
Abbreviation s9 := 25%nat (only parsing).
Abbreviation s10 := 26%nat (only parsing).
Abbreviation s11 := 27%nat (only parsing).
Abbreviation t6 := 31%nat (only parsing).

(** The instructions; [LI] is also [la], whose symbols are parameters. *)
Inductive instr : Type :=
| SD (rs : nat) (off : Z) (base : nat)
| LD (rd : nat) (off : Z) (base : nat)
| LI (rd : nat) (imm : Z)
| ADDI (rd rs : nat) (imm : Z)
| MV (rd rs : nat)
| SLLI (rd rs : nat) (sh : Z)
| SRLI (rd rs : nat) (sh : Z)
| CSRR (rd : nat) (c : csr)
| CSRW (c : csr) (rs : nat)
| CSRRW (rd : nat) (c : csr) (rs : nat)
| CSRS (c : csr) (rs : nat)
| CSRSI (c : csr) (imm : Z)
| CSRC (c : csr) (rs : nat).

Definition address (base : nat) (off : Z) (m : machine) : Z := u64 (get base m + off).

Definition exec (i : instr) (m : machine) : outcome machine :=
  match i with
  | SD rs off base =>
      match stk m !! address base off m with
      | Some _ => Done (with_stk (<[address base off m := get rs m]> (stk m)) m)
      | None => Undefined
      end
  | LD rd off base =>
      match stk m !! address base off m with
      | Some v => Done (put rd v m)
      | None => Undefined
      end
  | LI rd imm => Done (put rd (u64 imm) m)
  | ADDI rd rs imm => Done (put rd (u64 (get rs m + imm)) m)
  | MV rd rs => Done (put rd (get rs m) m)
  | SLLI rd rs sh => Done (put rd (u64 (Z.shiftl (get rs m) sh)) m)
  | SRLI rd rs sh => Done (put rd (Z.shiftr (get rs m) sh) m)
  | CSRR rd c => Done (put rd (csr_read c (csrs m)) m)
  | CSRW c rs => Done (with_csrs (csr_write c (get rs m) (csrs m)) m)
  | CSRRW rd c rs =>
      let old := csr_read c (csrs m) in
      Done (put rd old (with_csrs (csr_write c (get rs m) (csrs m)) m))
  | CSRS c rs => Done (with_csrs (csr_set c (get rs m) (csrs m)) m)
  | CSRSI c imm => Done (with_csrs (csr_set c imm (csrs m)) m)
  | CSRC c rs => Done (with_csrs (csr_clear c (get rs m) (csrs m)) m)
  end.

Fixpoint run (l : list instr) (m : machine) : outcome machine :=
  match l with
  | [] => Done m
  | i :: l => m ← exec i m; run l m
  end.

(** ** Traps and returns from them *)

Definition put_bit (n : Z) (b : bool) (v : Z) : Z := if b then Z.setbit v n else Z.clearbit v n.

(** A trap with the cause [cause], the interrupt bit included, that S mode handles:
    SPIE gets SIE, SIE is cleared, SPP says where the trap came from. *)
Definition trap_s (cause tval : Z) (m : machine) : machine :=
  let f := csrs m in
  let ms := f Mstatus in
  let ms := put_bit 8 (match mmode m with UMode => false | _ => true end) (put_bit 1 false (put_bit 5 (Z.testbit ms 1) ms)) in
  let f := csr_upd Stval tval (csr_upd Scause cause (csr_upd Sepc (mpc m) (csr_upd Mstatus ms f))) in
  jump (f Stvec) SMode (with_csrs f m).

(** One that M mode handles; MPP is bits 11 and 12. *)
Definition trap_m (cause tval : Z) (m : machine) : machine :=
  let f := csrs m in
  let ms := f Mstatus in
  let ms := put_bit 12 (match mmode m with MMode => true | _ => false end)
              (put_bit 11 (match mmode m with UMode => false | _ => true end) (put_bit 3 false (put_bit 7 (Z.testbit ms 3) ms))) in
  let f := csr_upd Mtval tval (csr_upd Mcause cause (csr_upd Mepc (mpc m) (csr_upd Mstatus ms f))) in
  jump (f Mtvec) MMode (with_csrs f m).

(** Which of the two: delegation is ignored in M mode. *)
Definition trap (cause tval : Z) (m : machine) : machine :=
  let deleg := if 2 ^ 63 <=? cause then csrs m Mideleg else csrs m Medeleg in
  match mmode m with
  | MMode => trap_m cause tval m
  | _ => if Z.testbit deleg (cause mod 2 ^ 63) then trap_s cause tval m else trap_m cause tval m
  end.

Definition sret (m : machine) : machine :=
  let f := csrs m in
  let ms := f Mstatus in
  let p := if Z.testbit ms 8 then SMode else UMode in
  let f := csr_upd Mstatus (put_bit 8 false (put_bit 5 true (put_bit 1 (Z.testbit ms 5) ms))) f in
  jump (csr_read Sepc f) p (with_csrs f m).

Definition mret (m : machine) : machine :=
  let f := csrs m in
  let ms := f Mstatus in
  let p := if Z.testbit ms 11 then (if Z.testbit ms 12 then MMode else SMode) else UMode in
  let f := csr_upd Mstatus (put_bit 12 false (put_bit 11 false (put_bit 7 true (put_bit 3 (Z.testbit ms 7) ms)))) f in
  jump (csr_read Mepc f) p (with_csrs f m).

Section Asm.
(** The addresses of [_trap_entry_from_smode], [_trap_entry_from_umode],
    [_mmode_trap_entry], [main], [_main_stack_anchor], [thread_exit]. *)
Context (trap_entry_from_smode trap_entry_from_umode mmode_trap_entry main main_stack_anchor thread_exit : Z).

(** ** trapasm.s *)

Definition save_gprs_except_t6_and_sp : list instr :=
  [SD 1 (1*8) sp; SD 3 (3*8) sp; SD 4 (4*8) sp; SD 5 (5*8) sp; SD 6 (6*8) sp; SD 7 (7*8) sp; SD 8 (8*8) sp;
   SD 9 (9*8) sp; SD 10 (10*8) sp; SD 11 (11*8) sp; SD 12 (12*8) sp; SD 13 (13*8) sp; SD 14 (14*8) sp;
   SD 15 (15*8) sp; SD 16 (16*8) sp; SD 17 (17*8) sp; SD 18 (18*8) sp; SD 19 (19*8) sp; SD 20 (20*8) sp;
   SD 21 (21*8) sp; SD 22 (22*8) sp; SD 23 (23*8) sp; SD 24 (24*8) sp; SD 25 (25*8) sp; SD 26 (26*8) sp;
   SD 27 (27*8) sp; SD 28 (28*8) sp; SD 29 (29*8) sp; SD 30 (30*8) sp].

Definition save_sstatus_and_sepc : list instr := [CSRR t6 Sstatus; SD t6 (32*8) sp; CSRR t6 Sepc; SD t6 (33*8) sp].

Definition restore_sstatus_and_sepc : list instr := [LD t6 (33*8) sp; CSRW Sepc t6; LD t6 (32*8) sp; CSRW Sstatus t6].

Definition restore_gprs_except_t6_and_sp : list instr :=
  [LD 30 (30*8) sp; LD 29 (29*8) sp; LD 28 (28*8) sp; LD 27 (27*8) sp; LD 26 (26*8) sp; LD 25 (25*8) sp;
   LD 24 (24*8) sp; LD 23 (23*8) sp; LD 22 (22*8) sp; LD 21 (21*8) sp; LD 20 (20*8) sp; LD 19 (19*8) sp;
   LD 18 (18*8) sp; LD 17 (17*8) sp; LD 16 (16*8) sp; LD 15 (15*8) sp; LD 14 (14*8) sp; LD 13 (13*8) sp;
   LD 12 (12*8) sp; LD 11 (11*8) sp; LD 10 (10*8) sp; LD 9 (9*8) sp; LD 8 (8*8) sp; LD 7 (7*8) sp; LD 6 (6*8) sp;
   LD 5 (5*8) sp; LD 4 (4*8) sp; LD 3 (3*8) sp; LD 1 (1*8) sp].

(** [trap_smode_cont] and [trap_umode_cont] are the same code: whether the handler of
    exceptions or that of interrupts is entered, and the state, with the code and the
    frame as arguments. *)
Inductive handler : Type := Excp | Intr.
Definition trap_cont (m : machine) : outcome (handler * machine) :=
  m ← run [CSRR a0 Scause; MV a1 sp] m;
  if 0 <=? s64 (get a0 m) then Done (Excp, m) else
  m ← run [SLLI a0 a0 1; SRLI a0 a0 1] m;
  Done (Intr, m).

Definition smode_entry (m : machine) : outcome (handler * machine) :=
  m ← run ([ADDI sp sp (-34*8); SD t6 (31*8) sp; ADDI t6 sp (34*8); SD t6 (2*8) sp] ++
           save_gprs_except_t6_and_sp ++ save_sstatus_and_sepc) m;
  trap_cont m.

Definition smode_exit (m : machine) : outcome machine :=
  m ← run (restore_sstatus_and_sepc ++ restore_gprs_except_t6_and_sp ++ [LD t6 (31*8) sp; LD sp (2*8) sp]) m;
  Done (sret m).

Definition umode_entry (m : machine) : outcome (handler * machine) :=
  m ← run ([CSRRW sp Sscratch sp; ADDI sp sp (-34*8); SD t6 (31*8) sp; CSRR t6 Sscratch; SD t6 (2*8) sp] ++
           save_gprs_except_t6_and_sp ++ save_sstatus_and_sepc ++
           [LI t6 trap_entry_from_smode; CSRW Stvec t6]) m;
  trap_cont m.

(** The exit, from the return of the handler on: first the trap vector is that of
    user mode again. *)
Definition umode_exit_vector : list instr := [LI t6 trap_entry_from_umode; CSRW Stvec t6].
Definition umode_exit_rest : list instr :=
  restore_sstatus_and_sepc ++ restore_gprs_except_t6_and_sp ++
  [ADDI sp sp (34*8); CSRW Sscratch sp; ADDI sp sp (-34*8); LD t6 (31*8) sp; LD sp (2*8) sp].
Definition umode_exit (m : machine) : outcome machine :=
  m ← run (umode_exit_vector ++ umode_exit_rest) m;
  Done (sret m).

(** The M-mode entry: timer interrupts, and the ecall of the timer driver. *)
Definition mmode_trap_done (m : machine) : outcome machine := m ← run [CSRR t0 Mscratch] m; Done (mret m).
Definition unexpected_mmode_trap {A} : outcome A := Panicked "Unexpected M-mode trap".

Definition mmode_intr_handler (m : machine) : outcome machine :=
  m ← run [LI t0 0x20; CSRS Mip t0; SLLI t0 t0 2; CSRC Mie t0] m;
  mmode_trap_done m.
Definition mmode_excp_handler (m : machine) : outcome machine :=
  m ← run [ADDI t0 t0 (-9)] m;
  if negb (get t0 m =? 0) then unexpected_mmode_trap else
  m ← run [LI t0 0x20; CSRC Mip t0; SLLI t0 t0 2; CSRS Mie t0; CSRR t0 Mepc; ADDI t0 t0 4; CSRW Mepc t0] m;
  mmode_trap_done m.
Definition mmode_entry (m : machine) : outcome machine :=
  m ← run [CSRW Mscratch t0; CSRR t0 Mcause] m;
  if 0 <=? s64 (get t0 m) then mmode_excp_handler m else
  m ← run [ADDI t0 t0 (-7); SLLI t0 t0 1] m;
  if negb (get t0 m =? 0) then unexpected_mmode_trap else mmode_intr_handler m.

(** ** thrasm.s *)

(** [_thread_swtch]: up to the switch and from it on; the context is at [tp]. *)
Definition swtch_save : list instr :=
  [SD s0 (0*8) tp; SD s1 (1*8) tp; SD s2 (2*8) tp; SD s3 (3*8) tp; SD s4 (4*8) tp; SD s5 (5*8) tp; SD s6 (6*8) tp;
   SD s7 (7*8) tp; SD s8 (8*8) tp; SD s9 (9*8) tp; SD s10 (10*8) tp; SD s11 (11*8) tp; SD ra (12*8) tp; SD sp (13*8) tp].
Definition swtch_load : list instr :=
  [LD sp (13*8) tp; LD ra (12*8) tp; LD s11 (11*8) tp; LD s10 (10*8) tp; LD s9 (9*8) tp; LD s8 (8*8) tp; LD s7 (7*8) tp;
   LD s6 (6*8) tp; LD s5 (5*8) tp; LD s4 (4*8) tp; LD s3 (3*8) tp; LD s2 (2*8) tp; LD s1 (1*8) tp; LD s0 (0*8) tp].
(** It returns to the [ra] of the new thread. *)
Definition _thread_swtch (m : machine) : outcome machine :=
  m ← run (swtch_save ++ [MV tp a0] ++ swtch_load) m;
  Done (jump (get ra m) (mmode m) m).

(** [_thread_setup]; [glue] is the address of the code after the [jal]. *)
Definition _thread_setup (glue : Z) (m : machine) : outcome machine :=
  m ← run ([SD a1 (13*8) a0; SD a2 (11*8) a0; SD a3 (0*8) a0; SD a4 (1*8) a0; SD a5 (2*8) a0; SD a6 (3*8) a0; SD a7 (4*8) a0] ++
           [LI t0 glue; SD t0 (12*8) a0]) m;
  Done (jump (get ra m) (mmode m) m).
(** The code that a new thread starts in. *)
Definition setup_glue (m : machine) : outcome machine :=
  m ← run [LI ra thread_exit; MV a0 s0; MV a1 s1; MV fp sp] m;
  Done (jump (get s11 m) (mmode m) m).

Definition _thread_finish_jump (m : machine) : outcome machine :=
  m ← run [CSRW Sscratch a0; LI t6 trap_entry_from_umode; CSRW Stvec t6; CSRW Sepc a2; LI t0 (Z.shiftl 1 8); CSRC Sstatus t0;
           LI t0 (Z.shiftl 1 5); CSRS Sstatus t0; MV sp a1] m;
  Done (sret m).

Definition fork_load : list instr :=
  [LD 31 (31*8) a1; LD 30 (30*8) a1; LD 29 (29*8) a1; LD 28 (28*8) a1; LD 27 (27*8) a1; LD 26 (26*8) a1; LD 25 (25*8) a1;
   LD 24 (24*8) a1; LD 23 (23*8) a1; LD 22 (22*8) a1; LD 21 (21*8) a1; LD 20 (20*8) a1; LD 19 (19*8) a1; LD 18 (18*8) a1;
   LD 17 (17*8) a1; LD 16 (16*8) a1; LD 15 (15*8) a1; LD 14 (14*8) a1; LD 13 (13*8) a1; LD 12 (12*8) a1; LD 9 (9*8) a1;
   LD 8 (8*8) a1; LD 7 (7*8) a1; LD 6 (6*8) a1; LD 5 (5*8) a1; LD 3 (3*8) a1; LD 1 (1*8) a1].
Definition _thread_finish_fork (m : machine) : outcome machine :=
  m ← run (swtch_save ++ [MV tp a0; LD sp (13*8) a0; LI t6 trap_entry_from_umode; CSRW Stvec t6;
             LD t6 (33*8) a1; CSRW Sepc t6; LD t6 (32*8) a1; CSRW Sstatus t6] ++ fork_load ++
           [CSRRW sp Sscratch sp; LD a1 (11*8) a1; LI a0 (Z.shiftl 1 8); CSRC Sstatus a0; LI a0 (Z.shiftl 1 5); CSRS Sstatus a0;
            MV a0 0]) m;
  Done (sret m).

(** ** start.s *)

(** Up to [mret], which goes to the next instruction, at [after]. *)
Definition start_mmode (after : Z) : list instr :=
  [LI t0 0xb1ff; CSRW Medeleg t0; LI t0 0x222; CSRW Mideleg t0; CSRSI Mstatus 4;
   ADDI t0 0 (-1); CSRW Pmpaddr0 t0; CSRSI Pmpcfg0 0xf;
   LI t0 mmode_trap_entry; LI t1 trap_entry_from_smode; CSRW Mtvec t0; CSRW Stvec t1;
   CSRSI Mcounteren 7; CSRSI Scounteren 7;
   LI t0 0x1080; LI t1 0x0800; CSRC Mstatus t0; CSRS Mstatus t1; LI t0 after; CSRW Mepc t0].
Definition start (after : Z) (m : machine) : outcome machine :=
  m ← run (start_mmode after) m;
  m ← run [LI sp main_stack_anchor; MV fp 0] (mret m);
  Done (jump main (mmode m) m).
End Asm.
