(* ===== verification/TrapSpec.v ===== *)
(** What the assembly does: traps from user and S mode keep the registers of what they
    interrupted, timer interrupts in M mode are invisible, a thread that is switched
    to again goes on where it was. *)
From Stdlib Require Import ZArith Lia.
From stdpp Require Import base gmap list strings.
From S2P Require Import Prelude CString Pages Heap Pte Memory Thread Lock Io Timer Device Kfs Elf Uart Console Objects Process Syscall Csr Trap.

Open Scope Z_scope.

(** ** Registers *)

Lemma get_put_eq i v m : i ≠ 0%nat → (i < length (gpr m))%nat → get i (put i v m) = v.
Proof.
  intros Hi Hl. unfold get, put. rewrite !decide_False by done. cbn [gpr]. by apply list_lookup_total_insert_eq.
Qed.
Lemma get_put_ne i j v m : i ≠ j → get i (put j v m) = get i m.
Proof.
  intros Hij. unfold get, put. case_decide; [done|]. destruct (decide (j = 0%nat)); [done|]. cbn [gpr].
  by rewrite list_lookup_total_insert_ne.
Qed.
Lemma length_put i v m : length (gpr (put i v m)) = length (gpr m).
Proof. unfold put. case_decide; [done|]. apply length_insert. Qed.
Lemma csrs_put i v m : csrs (put i v m) = csrs m.
Proof. unfold put. by case_decide. Qed.
Lemma stk_put i v m : stk (put i v m) = stk m.
Proof. unfold put. by case_decide. Qed.
Lemma mmode_put i v m : mmode (put i v m) = mmode m.
Proof. unfold put. by case_decide. Qed.
Lemma mpc_put i v m : mpc (put i v m) = mpc m.
Proof. unfold put. by case_decide. Qed.
Lemma get_0 m : get 0 m = 0.
Proof. done. Qed.
Lemma get_csrs i f m : get i (with_csrs f m) = get i m.
Proof. done. Qed.
Lemma get_stk i w m : get i (with_stk w m) = get i m.
Proof. done. Qed.
Lemma get_jump i pc p m : get i (jump pc p m) = get i m.
Proof. done. Qed.

Definition with_gpr (g : list Z) (m : machine) : machine := Mach (mpc m) (mmode m) g (csrs m) (stk m).

Create HintDb machine.
#[export] Hint Rewrite length_put csrs_put stk_put mmode_put mpc_put get_0 get_csrs get_stk get_jump : machine.
#[export] Hint Rewrite get_put_eq get_put_ne using (first [done | (autorewrite with machine; cbn [gpr with_csrs with_stk with_gpr jump]; lia)]) : machine.

Lemma run_app l1 l2 m : run (l1 ++ l2) m = m ← run l1 m; run l2 m.
Proof. revert m. induction l1 as [|i l1 IH]; intros m; cbn [app run]; [done|]. destruct (exec i m); cbn [mbind outcome_bind]; [apply IH|done..]. Qed.

(** ** Storing and loading registers *)

(** [n] doublewords at [a]. *)
Record block (a n : Z) (w : gmap Z Z) : Prop := {
  bl_low : 0 ≤ a;
  bl_high : a + 8 * n < 2 ^ 64;
  bl_words i : 0 ≤ i < n → is_Some (w !! (a + 8 * i))
}.

Lemma block_agree a n w w' : (∀ b, is_Some (w !! b) → is_Some (w' !! b)) → block a n w → block a n w'.
Proof. intros Hw [? ? H]. split; try done. intros i Hi. by apply Hw, H. Qed.

Lemma block_insert a n w b v : block a n w → block a n (<[b := v]> w).
Proof. apply block_agree. intros c Hc. destruct (decide (b = c)) as [->|]; [rewrite lookup_insert_eq; eauto|by rewrite lookup_insert_ne]. Qed.

(** Memory that holds nothing yet. *)
Fixpoint zeros (a : Z) (n : nat) : gmap Z Z :=
  match n with O => ∅ | S n => <[a + 8 * Z.of_nat n := 0]> (zeros a n) end.

Lemma zeros_lookup a n i : 0 ≤ i < Z.of_nat n → zeros a n !! (a + 8 * i) = Some 0.
Proof.
  induction n as [|n IH]; intros Hi; [lia|]. cbn [zeros]. destruct (decide (i = Z.of_nat n)) as [->|]; [apply lookup_insert_eq|].
  rewrite lookup_insert_ne by lia. apply IH. lia.
Qed.

Lemma zeros_block a n b k : 0 ≤ a → a + 8 * Z.of_nat n < 2 ^ 64 → a ≤ b → (8 | b - a) → 0 ≤ k → b + 8 * k ≤ a + 8 * Z.of_nat n → block b k (zeros a n).
Proof.
  intros Ha Hn Hb [q Hq] Hk Hbk. split; [lia|lia|]. intros i Hi. exists 0. replace (b + 8 * i) with (a + 8 * (q + i)) by lia.
  apply zeros_lookup. lia.
Qed.

Lemma exec_SD rs off base i n m : block (get base m) n (stk m) → 0 ≤ i < n → off = 8 * i →
  exec (SD rs off base) m = Done (with_stk (<[get base m + 8 * i := get rs m]> (stk m)) m).
Proof.
  intros [Hl Hh Hw] Hi ->. cbn [exec]. unfold address. rewrite u64_small by lia. by destruct (Hw i Hi) as [v ->].
Qed.

Lemma exec_LD rd off base i n m v : block (get base m) n (stk m) → 0 ≤ i < n → off = 8 * i →
  stk m !! (get base m + 8 * i) = Some v → exec (LD rd off base) m = Done (put rd v m).
Proof. intros [Hl Hh Hw] Hi -> Hv. cbn [exec]. unfold address. rewrite u64_small by lia. by rewrite Hv. Qed.

(** The other instructions. *)
Lemma exec_LI rd imm m : exec (LI rd imm) m = Done (put rd (u64 imm) m).
Proof. done. Qed.
Lemma exec_ADDI rd rs imm m : exec (ADDI rd rs imm) m = Done (put rd (u64 (get rs m + imm)) m).
Proof. done. Qed.
Lemma exec_MV rd rs m : exec (MV rd rs) m = Done (put rd (get rs m) m).
Proof. done. Qed.
Lemma exec_SLLI rd rs sh m : exec (SLLI rd rs sh) m = Done (put rd (u64 (Z.shiftl (get rs m) sh)) m).
Proof. done. Qed.
Lemma exec_SRLI rd rs sh m : exec (SRLI rd rs sh) m = Done (put rd (Z.shiftr (get rs m) sh) m).
Proof. done. Qed.
Lemma exec_CSRR rd c m : exec (CSRR rd c) m = Done (put rd (csr_read c (csrs m)) m).
Proof. done. Qed.
Lemma exec_CSRW c rs m : exec (CSRW c rs) m = Done (with_csrs (csr_write c (get rs m) (csrs m)) m).
Proof. done. Qed.
Lemma exec_CSRRW rd c rs m :
  exec (CSRRW rd c rs) m = Done (put rd (csr_read c (csrs m)) (with_csrs (csr_write c (get rs m) (csrs m)) m)).
Proof. done. Qed.
Lemma exec_CSRS c rs m : exec (CSRS c rs) m = Done (with_csrs (csr_set c (get rs m) (csrs m)) m).
Proof. done. Qed.
Lemma exec_CSRC c rs m : exec (CSRC c rs) m = Done (with_csrs (csr_clear c (get rs m) (csrs m)) m).
Proof. done. Qed.
Lemma exec_CSRSI c imm m : exec (CSRSI c imm) m = Done (with_csrs (csr_set c imm (csrs m)) m).
Proof. done. Qed.
Lemma bind_ret {A B} (a : A) (f : A → outcome B) : (Done a ≫= f) = f a.
Proof. done. Qed.

(** One instruction that does not touch memory. *)
Ltac step :=
  first [rewrite exec_LI | rewrite exec_ADDI | rewrite exec_MV | rewrite exec_SLLI | rewrite exec_SRLI | rewrite exec_CSRR
       | rewrite exec_CSRW | rewrite exec_CSRRW | rewrite exec_CSRS | rewrite exec_CSRC | rewrite exec_CSRSI];
  rewrite bind_ret.

(** A list of registers and the slots that they go to or come from. *)
Definition stores (base : nat) (l : list (nat * Z)) : list instr := (λ p, SD p.1 (8 * p.2) base) <$> l.
Definition loads (base : nat) (l : list (nat * Z)) : list instr := (λ p, LD p.1 (8 * p.2) base) <$> l.

Lemma run_stores base n l : ∀ m, block (get base m) n (stk m) → Forall (λ p, 0 ≤ p.2 < n) l → NoDup l.*2 →
  ∃ w, run (stores base l) m = Done (with_stk w m) ∧ block (get base m) n w ∧
    (∀ r i, (r, i) ∈ l → w !! (get base m + 8 * i) = Some (get r m)) ∧
    (∀ a, (∀ i, i ∈ l.*2 → a ≠ get base m + 8 * i) → w !! a = stk m !! a).
Proof.
  induction l as [|[r i] l IH]; intros m Hb Hl Hnd.
  { exists (stk m). split; [by destruct m|]. split; [done|]. split; [|done]. intros r i Hi. by apply not_elem_of_nil in Hi. }
  apply Forall_cons in Hl as [Hi Hl]. apply NoDup_cons in Hnd as [Hni Hnd]. cbn [snd] in Hi.
  cbn [stores fmap list_fmap run fst snd]. rewrite (exec_SD _ _ _ i n) by done. cbn [mbind outcome_bind].
  destruct (IH (with_stk (<[get base m + 8 * i := get r m]> (stk m)) m)) as (w & Hr & Hb' & Hin & Hout); [by apply block_insert|done|done|].
  rewrite get_stk in *. exists w. split; [exact Hr|]. split; [done|]. split.
  - intros r' i' Hp. apply elem_of_cons in Hp as [[= -> ->]|Hp]; [|by rewrite (Hin _ _ Hp)].
    rewrite Hout; [cbn [stk with_stk]; by rewrite lookup_insert_eq|]. intros j Hj ?. assert (i = j) as -> by lia. done.
  - intros a Ha. cbn [fmap list_fmap snd] in Ha. rewrite Hout by (intros j Hj; apply Ha; by right). cbn [stk with_stk].
    apply lookup_insert_ne. intros Heq. apply (Ha i); [by left|done].
Qed.

Lemma run_loads base n (val : nat → Z) l : ∀ m, block (get base m) n (stk m) → Forall (λ p, 0 ≤ p.2 < n) l →
  Forall (λ r, r ≠ 0%nat ∧ r ≠ base ∧ (r < length (gpr m))%nat) l.*1 → NoDup l.*1 →
  (∀ r i, (r, i) ∈ l → stk m !! (get base m + 8 * i) = Some (val r)) →
  ∃ g, run (loads base l) m = Done (with_gpr g m) ∧ length g = length (gpr m) ∧
    (∀ r, r ∈ l.*1 → get r (with_gpr g m) = val r) ∧ (∀ r, r ∉ l.*1 → get r (with_gpr g m) = get r m).
Proof.
  induction l as [|[r i] l IH]; intros m Hb Hl Hrs Hnd Hv.
  { exists (gpr m). split; [by destruct m|]. split; [done|]. split; [|by destruct m]. intros r Hr. by apply not_elem_of_nil in Hr. }
  apply Forall_cons in Hl as [Hi Hl]. apply Forall_cons in Hrs as [(Hr0 & Hrb & Hrl) Hrs]. apply NoDup_cons in Hnd as [Hnr Hnd].
  cbn [fst snd] in *. cbn [loads fmap list_fmap run fst snd].
  rewrite (exec_LD _ _ _ i n _ (val r)) by (first [done | apply Hv; by left]). cbn [mbind outcome_bind].
  assert (Hbase : get base (put r (val r) m) = get base m) by (by apply get_put_ne).
  destruct (IH (put r (val r) m)) as (g & Hg & Hlen & Hin & Hout); rewrite ?Hbase, ?stk_put.
  - done.
  - done.
  - eapply Forall_impl; [exact Hrs|]. cbn. intros ? ?. by rewrite length_put.
  - done.
  - intros r' i' Hp. apply Hv. by right.
  - exists g. assert (Hsame : with_gpr g (put r (val r) m) = with_gpr g m).
    { unfold with_gpr. by rewrite mpc_put, mmode_put, csrs_put, stk_put. }
    rewrite Hsame, length_put in *. split; [done|]. split; [done|]. split.
    + intros r' Hr'. apply elem_of_cons in Hr' as [->|Hr']; [|by apply Hin].
      rewrite Hout by done. by apply get_put_eq.
    + intros r' Hr'. apply not_elem_of_cons in Hr' as [Hne Hr']. rewrite Hout by done. by apply get_put_ne.
Qed.

(** ** The trap frame in memory *)

(** Slot 0 is not used. *)
Record holds_frame (a : Z) (fr : trap_frame) (w : gmap Z Z) : Prop := {
  hf_x i : (1 ≤ i < 32)%nat → w !! (a + 8 * Z.of_nat i) = Some (tf_x fr !!! i);
  hf_sstatus : w !! (a + 8 * 32) = Some (tf_sstatus fr);
  hf_sepc : w !! (a + 8 * 33) = Some (tf_sepc fr)
}.

Definition gpr_slots : list (nat * Z) := (λ i, (i, Z.of_nat i)) <$> (1%nat :: seq 3 28).

Lemma save_gprs_stores : save_gprs_except_t6_and_sp = stores 2 gpr_slots.
Proof. reflexivity. Qed.
Lemma restore_gprs_loads : restore_gprs_except_t6_and_sp = loads 2 (reverse gpr_slots).
Proof. reflexivity. Qed.

Lemma gpr_slots_spec r i : (r, i) ∈ gpr_slots ↔ i = Z.of_nat r ∧ (r = 1%nat ∨ (3 ≤ r < 31)%nat).
Proof.
  unfold gpr_slots. rewrite list_elem_of_fmap. split.
  - intros (j & [= -> ->] & Hj). split; [done|]. apply elem_of_cons in Hj as [->|Hj]; [by left|]. apply elem_of_seq in Hj. lia.
  - intros [-> Hr]. exists r. split; [done|]. apply elem_of_cons. destruct Hr as [->|Hr]; [by left|]. right. apply elem_of_seq. lia.
Qed.

Lemma gpr_slots_bounds : Forall (λ p, 0 ≤ p.2 < 34) gpr_slots ∧ NoDup gpr_slots.*2 ∧ NoDup gpr_slots.*1.
Proof.
  split; [|split; by apply (bool_decide_unpack _)]. apply Forall_forall. intros [r i] Hp. apply gpr_slots_spec in Hp. cbn. lia.
Qed.

Lemma put_put i v v' m : put i v (put i v' m) = put i v m.
Proof. unfold put. case_decide; [done|]. cbn. by rewrite list_insert_insert_eq. Qed.
Lemma put_stk i v w m : put i v (with_stk w m) = with_stk w (put i v m).
Proof. unfold put. by case_decide. Qed.
Lemma put_with_csrs i v f m : put i v (with_csrs f m) = with_csrs f (put i v m).
Proof. unfold put. by case_decide. Qed.
Lemma with_stk_stk w w' m : with_stk w (with_stk w' m) = with_stk w m.
Proof. done. Qed.
#[export] Hint Rewrite put_put put_stk with_stk_stk : machine.

(** Saving everything but sp and t6, whose slots are as they were. *)
Lemma save_rest m a : get sp m = a → block a 34 (stk m) → length (gpr m) = 32%nat →
  ∃ w, run (save_gprs_except_t6_and_sp ++ save_sstatus_and_sepc) m = Done (with_stk w (put t6 (csr_read Sepc (csrs m)) m)) ∧ block a 34 w ∧
    (∀ i, i = 1%nat ∨ (3 ≤ i < 31)%nat → w !! (a + 8 * Z.of_nat i) = Some (get i m)) ∧
    (∀ i, i = 2 ∨ i = 31 → w !! (a + 8 * i) = stk m !! (a + 8 * i)) ∧
    w !! (a + 8 * 32) = Some (csr_read Sstatus (csrs m)) ∧ w !! (a + 8 * 33) = Some (csr_read Sepc (csrs m)) ∧
    (∀ b, b < a ∨ a + 272 ≤ b → w !! b = stk m !! b).
Proof.
  intros <- Hb Hlen. set (a := get sp m) in *. destruct gpr_slots_bounds as (Hbd & Hnd & _).
  destruct (run_stores sp 34 gpr_slots m Hb Hbd Hnd) as (w & Hr & Hbw & Hin & Hout). fold a in Hbw, Hin, Hout.
  rewrite run_app, save_gprs_stores, Hr. cbn [mbind outcome_bind]. unfold save_sstatus_and_sepc. cbn [run].
  step. cbn [csrs with_stk]. autorewrite with machine.
  set (m1 := with_stk w (put t6 (csr_read Sstatus (csrs m)) m)).
  assert (Hsp1 : get sp m1 = a) by (unfold m1; by autorewrite with machine).
  rewrite (exec_SD _ _ _ 32 34) by (first [done | lia | by rewrite Hsp1]). rewrite bind_ret, Hsp1.
  assert (Ht6 : get t6 m1 = csr_read Sstatus (csrs m)) by (unfold m1; autorewrite with machine; done). rewrite Ht6.
  step. unfold m1. cbn [stk csrs with_stk]. autorewrite with machine.
  set (m2 := with_stk _ (put t6 _ m)). assert (Hsp2 : get sp m2 = a) by (unfold m2; by autorewrite with machine).
  rewrite (exec_SD _ _ _ 33 34) by (first [done | lia | rewrite Hsp2; by apply block_insert]). rewrite bind_ret, Hsp2.
  assert (Ht6' : get t6 m2 = csr_read Sepc (csrs m)) by (unfold m2; autorewrite with machine; done). rewrite Ht6'.
  unfold m2. cbn [stk with_stk]. autorewrite with machine. eexists. split; [reflexivity|].
  split; [by do 2 apply block_insert|]. split_and!.
  - intros i Hi. rewrite !lookup_insert_ne by lia. apply Hin. by apply gpr_slots_spec.
  - intros i Hi. rewrite !lookup_insert_ne by lia. apply Hout. intros j Hj. apply list_elem_of_fmap in Hj as ([r k] & -> & Hp).
    apply gpr_slots_spec in Hp. cbn [snd]. lia.
  - by rewrite lookup_insert_ne, lookup_insert_eq by lia.
  - apply lookup_insert_eq.
  - intros b Hb'. rewrite !lookup_insert_ne by lia. apply Hout. intros j Hj. apply list_elem_of_fmap in Hj as ([r k] & -> & Hp).
    apply gpr_slots_spec in Hp. cbn [snd]. lia.
Qed.

(** Loading them again. *)
Definition exit_csrs (fr : trap_frame) (f : csrfile) : csrfile := csr_write Sstatus (tf_sstatus fr) (csr_write Sepc (tf_sepc fr) f).

Lemma restore_rest m a fr : get sp m = a → block a 34 (stk m) → length (gpr m) = 32%nat → holds_frame a fr (stk m) →
  ∃ g, run (restore_sstatus_and_sepc ++ restore_gprs_except_t6_and_sp) m = Done (with_gpr g (with_csrs (exit_csrs fr (csrs m)) m)) ∧
    length g = 32%nat ∧ g !!! 2%nat = a ∧ (∀ i, i = 1%nat ∨ (3 ≤ i < 31)%nat → g !!! i = tf_x fr !!! i).
Proof.
  intros <- Hb Hlen [Hx Hss Hse]. set (a := get sp m) in *. destruct gpr_slots_bounds as (Hbd & _ & Hnd).
  rewrite run_app. unfold restore_sstatus_and_sepc. cbn [run].
  rewrite (exec_LD _ _ _ 33 34 _ (tf_sepc fr)) by (first [done | lia]). rewrite bind_ret. step.
  rewrite get_put_eq by (first [done | lia]). autorewrite with machine.
  set (m1 := with_csrs _ (put t6 _ m)). assert (Hsp1 : get sp m1 = a) by (unfold m1; by autorewrite with machine).
  assert (Hstk1 : stk m1 = stk m) by (unfold m1; cbn [stk with_csrs]; by autorewrite with machine).
  rewrite (exec_LD _ _ _ 32 34 _ (tf_sstatus fr)) by (first [done | lia | by rewrite Hsp1, Hstk1]). rewrite bind_ret. step.
  rewrite get_put_eq by (first [done | (unfold m1; cbn [gpr with_csrs]; autorewrite with machine; lia)]).
  set (m2 := with_csrs _ (put t6 _ m1)).
  assert (Hsp2 : get sp m2 = a) by (unfold m2; by autorewrite with machine).
  assert (Hstk2 : stk m2 = stk m) by (unfold m2; cbn [stk with_csrs]; by autorewrite with machine).
  assert (Hlen2 : length (gpr m2) = 32%nat) by (unfold m2, m1; cbn [gpr with_csrs]; autorewrite with machine; cbn [gpr with_csrs]; by autorewrite with machine).
  rewrite restore_gprs_loads.
  destruct (run_loads 2 34 (λ i, tf_x fr !!! i) (reverse gpr_slots) m2) as (g & Hg & Hgl & Hin & Hout).
  - by rewrite Hsp2, Hstk2.
  - by apply Forall_reverse.
  - apply Forall_forall. intros r Hr. apply list_elem_of_fmap in Hr as ([r' i] & -> & Hp). apply elem_of_reverse, gpr_slots_spec in Hp.
    cbn [fst]. lia.
  - rewrite fmap_reverse, reverse_Permutation. done.
  - intros r i Hp. apply elem_of_reverse, gpr_slots_spec in Hp as [-> Hr]. rewrite Hsp2, Hstk2. apply Hx. lia.
  - exists g. rewrite bind_ret, Hg. split.
    + unfold m2, m1, with_gpr. cbn [mpc mmode csrs stk with_csrs]. autorewrite with machine. cbn [mpc mmode csrs stk with_csrs].
      by autorewrite with machine.
    + split; [by rewrite Hgl|]. split.
      * rewrite <- Hsp2. rewrite <- (Hout sp); [done|]. intros Hr. apply list_elem_of_fmap in Hr as ([r' i] & He & Hp).
        apply elem_of_reverse, gpr_slots_spec in Hp. cbn [fst] in He. lia.
      * intros i Hi. rewrite <- (Hin i); [unfold get; by rewrite decide_False by lia|].
        apply list_elem_of_fmap. exists (i, Z.of_nat i). split; [done|]. by apply elem_of_reverse, gpr_slots_spec.
Qed.

(** ** Entry *)

Lemma with_gpr_get i g m : i ≠ 0%nat → get i (with_gpr g m) = g !!! i.
Proof. intros. unfold get. by rewrite decide_False. Qed.
Lemma gpr_get i m : i ≠ 0%nat → gpr m !!! i = get i m.
Proof. intros. unfold get. by rewrite decide_False. Qed.

(** The handler of a trap is about to start: the code and the frame are its
    arguments, and the frame is at the stack pointer. *)
Record at_handler (a : Z) (fr : trap_frame) (code : Z) (m : machine) : Prop := {
  ah_code : get a0 m = code;
  ah_ptr : get a1 m = a;
  ah_sp : get sp m = a;
  ah_len : length (gpr m) = 32%nat;
  ah_block : block a 34 (stk m);
  ah_frame : holds_frame a fr (stk m)
}.

Definition handler_of (cause : Z) : handler := if cause <? 2 ^ 63 then Excp else Intr.

Lemma trap_cont_spec c m : csrs m Scause = c → 0 ≤ c < 2 ^ 64 → length (gpr m) = 32%nat →
  ∃ m1, trap_cont m = Done (handler_of c, m1) ∧ get a0 m1 = c mod 2 ^ 63 ∧ get a1 m1 = get sp m ∧
    (∀ i, i ≠ a0 → i ≠ a1 → get i m1 = get i m) ∧ csrs m1 = csrs m ∧ stk m1 = stk m ∧ length (gpr m1) = 32%nat.
Proof.
  intros Hc Hr Hlen. unfold trap_cont. cbn [run]. do 2 step. rewrite !bind_ret. autorewrite with machine.
  cbn [csr_read]. rewrite Hc. unfold handler_of.
  set (m1 := put a1 (get sp m) (put a0 c m)).
  assert (H0 : get a0 m1 = c) by (unfold m1; rewrite get_put_ne, get_put_eq by (first [done | lia]); done).
  assert (H1 : get a1 m1 = get sp m) by (unfold m1; rewrite get_put_eq by (first [done | rewrite length_put; lia]); done).
  assert (Hl : length (gpr m1) = 32%nat) by (unfold m1; by autorewrite with machine).
  assert (Hs : csrs m1 = csrs m ∧ stk m1 = stk m) by (unfold m1; by autorewrite with machine).
  assert (Ho : ∀ i, i ≠ a0 → i ≠ a1 → get i m1 = get i m) by (intros i ? ?; unfold m1; by rewrite !get_put_ne by done).
  assert (Hsig : (0 <=? s64 c) = (c <? 2 ^ 63)).
  { unfold s64. destruct (Z.ltb_spec c (2 ^ 63)).
    - rewrite Z.mod_small by lia. apply Z.leb_le. lia.
    - replace (c + 2 ^ 63) with (c - 2 ^ 63 + 1 * 2 ^ 64) by lia. rewrite Z.mod_add, Z.mod_small by lia. apply Z.leb_gt. lia. }
  rewrite Hsig. destruct (Z.ltb_spec c (2 ^ 63)).
  - exists m1. rewrite Z.mod_small by lia. destruct Hs. by split_and!.
  - cbn [run]. do 2 step. rewrite bind_ret. rewrite get_put_eq, put_put by (first [done | lia]). rewrite H0.
    assert (Hsh : Z.shiftr (u64 (Z.shiftl c 1)) 1 = c mod 2 ^ 63).
    { rewrite Z.shiftl_mul_pow2, Z.shiftr_div_pow2 by lia. unfold u64. change (2 ^ 1) with 2. change (2 ^ 64) with (2 ^ 63 * 2).
      rewrite Z.mul_mod_distr_r by lia. apply Z.div_mul. lia. }
    rewrite Hsh. eexists. split; [reflexivity|]. autorewrite with machine. destruct Hs. split_and!; [| | |done|done|done].
    + reflexivity.
    + exact H1.
    + intros i ? ?. rewrite get_put_ne by done. by apply Ho.
Qed.

(** A frame of what the registers hold. *)
Definition frame_of (m : machine) : trap_frame := Tfr (gpr m) (csr_read Sstatus (csrs m)) (csr_read Sepc (csrs m)).

(** What both entries have done when t6 and sp are in their slots and sp is at the
    frame. *)
Lemma entry_rest m m0 a w0 : get sp m0 = a → length (gpr m0) = 32%nat → stk m0 = w0 → block a 34 w0 →
  (∀ i, i = 1%nat ∨ (3 ≤ i < 31)%nat → get i m0 = get i m) →
  w0 !! (a + 8 * 2) = Some (get sp m) → w0 !! (a + 8 * 31) = Some (get t6 m) →
  csr_read Sstatus (csrs m0) = csr_read Sstatus (csrs m) → csr_read Sepc (csrs m0) = csr_read Sepc (csrs m) →
  ∃ w, run (save_gprs_except_t6_and_sp ++ save_sstatus_and_sepc) m0 = Done (with_stk w (put t6 (csr_read Sepc (csrs m0)) m0)) ∧
    block a 34 w ∧ holds_frame a (frame_of m) w ∧ (∀ b, b < a ∨ a + 272 ≤ b → w !! b = w0 !! b).
Proof.
  intros Hsp Hlen <- Hb Hg H2 H31 Hss Hse. destruct (save_rest m0 a Hsp Hb Hlen) as (w & Hr & Hbw & Hin & Hkeep & Hw1 & Hw2 & Hout).
  exists w. split; [done|]. split; [done|]. split; [|done]. split; cbn [frame_of tf_x tf_sstatus tf_sepc].
  - intros i Hi. rewrite gpr_get by lia. destruct (decide (i = 2%nat)) as [->|]; [change (Z.of_nat 2) with 2; by rewrite (Hkeep 2) by lia|].
    destruct (decide (i = 31%nat)) as [->|]; [change (Z.of_nat 31) with 31; by rewrite (Hkeep 31) by lia|]. rewrite Hin, Hg by lia. done.
  - by rewrite Hw1, Hss.
  - by rewrite Hw2, Hse.
Qed.

Lemma smode_entry_spec m a c : length (gpr m) = 32%nat → get sp m = a + 272 → block a 34 (stk m) → csrs m Scause = c → 0 ≤ c < 2 ^ 64 →
  ∃ m1, smode_entry m = Done (handler_of c, m1) ∧ at_handler a (frame_of m) (c mod 2 ^ 63) m1 ∧ csrs m1 = csrs m ∧
    (∀ b, b < a ∨ a + 272 ≤ b → stk m1 !! b = stk m !! b) ∧ get tp m1 = get tp m.
Proof.
  intros Hlen Hsp Hb Hc Hcr. pose proof (bl_low _ _ _ Hb). pose proof (bl_high _ _ _ Hb). unfold smode_entry. rewrite run_app. cbn [run]. step.
  rewrite Hsp. replace (a + 272 + -34 * 8) with a by lia. rewrite u64_small by lia. set (m1 := put sp a m).
  assert (Hsp1 : get sp m1 = a) by (unfold m1; rewrite get_put_eq by (first [done | lia]); done).
  assert (Hstk1 : stk m1 = stk m) by (unfold m1; by autorewrite with machine).
  rewrite (exec_SD _ _ _ 31 34) by (first [done | lia | by rewrite Hsp1, Hstk1]). rewrite bind_ret, Hsp1, Hstk1.
  assert (H31 : get t6 m1 = get t6 m) by (unfold m1; by rewrite get_put_ne). rewrite H31. set (w1 := <[_ := _]> (stk m)).
  step. rewrite get_stk, Hsp1, u64_small by lia. rewrite put_stk. set (m2 := put t6 (a + 34 * 8) m1).
  assert (Hsp2 : get sp m2 = a) by (unfold m2; by rewrite get_put_ne).
  assert (Ht2 : get t6 m2 = a + 272) by (unfold m2, m1; rewrite get_put_eq by (first [done | autorewrite with machine; lia]); lia).
  rewrite (exec_SD _ _ _ 2 34) by (first [done | lia | (rewrite get_stk, Hsp2; by apply block_insert)]).
  rewrite !bind_ret, !get_stk, Hsp2, Ht2, with_stk_stk. cbn [stk with_stk]. set (w2 := <[_ := _]> w1). set (m3 := with_stk w2 m2).
  destruct (entry_rest m m3 a w2) as (w & Hr & Hbw & Hfr & Hout).
  - done.
  - unfold m3, m2, m1. cbn [gpr with_stk]. by autorewrite with machine.
  - done.
  - by do 2 apply block_insert.
  - intros i Hi. unfold m3, m2, m1. rewrite get_stk, !get_put_ne by lia. done.
  - unfold w2. by rewrite lookup_insert_eq, Hsp.
  - unfold w2, w1. rewrite lookup_insert_ne by lia. apply lookup_insert_eq.
  - unfold m3, m2, m1. cbn [csrs with_stk]. by autorewrite with machine.
  - unfold m3, m2, m1. cbn [csrs with_stk]. by autorewrite with machine.
  - rewrite Hr, bind_ret. set (m4 := with_stk w _).
    assert (Hcs : csrs m4 = csrs m) by (unfold m4, m3, m2, m1; cbn [csrs with_stk]; autorewrite with machine; cbn [csrs with_stk]; by autorewrite with machine).
    assert (Hl4 : length (gpr m4) = 32%nat) by (unfold m4, m3, m2, m1; cbn [gpr with_stk]; autorewrite with machine; cbn [gpr with_stk]; by autorewrite with machine).
    assert (Hsp4 : get sp m4 = a) by (unfold m4, m3; rewrite get_stk, get_put_ne, get_stk by done; done).
    destruct (trap_cont_spec c m4) as (m5 & -> & Hr0 & Hr1 & Ho & Hcs5 & Hst5 & Hl5); [by rewrite Hcs|done..|].
    exists m5. split; [done|]. rewrite Hsp4 in Hr1. split; [|split; [by rewrite Hcs5|split]].
    + split; [done|done|by rewrite Ho|done|by rewrite Hst5|by rewrite Hst5].
    + intros b Hb'. rewrite Hst5. cbn [m4 stk with_stk]. rewrite Hout by done. unfold w2, w1. by rewrite !lookup_insert_ne by lia.
    + rewrite Ho by done. unfold m4, m3, m2, m1. by rewrite get_stk, get_put_ne, get_stk, !get_put_ne by done.
Qed.

(** [csr_write] of the registers that hold plain values. *)
Definition plain (c : csr) : Prop := c ∈ [Stvec; Sscratch; Mscratch; Mtvec; Medeleg; Mideleg; Mie].
Lemma csr_write_plain c v f : plain c → 0 ≤ v < 2 ^ 64 → csr_write c v f c = v.
Proof.
  intros Hc Hv. unfold plain in Hc. rewrite !elem_of_cons, elem_of_nil in Hc.
  destruct Hc as [->|[->|[->|[->|[->|[->|[->|[]]]]]]]]; cbn [csr_write]; by rewrite csr_upd_same, u64_small.
Qed.
Lemma csr_write_other c c' v f : c ∉ [Sstatus; Sie; Sip] → c' ≠ c → csr_write c v f c' = f c'.
Proof.
  intros Hc Hne. rewrite !not_elem_of_cons in Hc. destruct Hc as (? & ? & ? & _).
  destruct c; try done; cbn [csr_write]; by apply csr_upd_ne.
Qed.

(** The registers after the entry from user mode: sscratch has the stack pointer of
    the user. *)
Definition entry_csrs (v usp : Z) (f : csrfile) : csrfile := csr_write Stvec v (csr_write Sscratch usp f).

Lemma umode_entry_spec smode_addr m a c : length (gpr m) = 32%nat → csrs m Sscratch = a + 272 → block a 34 (stk m) →
  csrs m Scause = c → 0 ≤ c < 2 ^ 64 → 0 ≤ get sp m < 2 ^ 64 → 0 ≤ smode_addr < 2 ^ 64 →
  ∃ m1, umode_entry smode_addr m = Done (handler_of c, m1) ∧ at_handler a (frame_of m) (c mod 2 ^ 63) m1 ∧
    csrs m1 = entry_csrs smode_addr (get sp m) (csrs m) ∧
    (∀ b, b < a ∨ a + 272 ≤ b → stk m1 !! b = stk m !! b) ∧ get tp m1 = get tp m.
Proof.
  intros Hlen Hsc Hb Hc Hcr Husp Hsa. pose proof (bl_low _ _ _ Hb). pose proof (bl_high _ _ _ Hb). unfold umode_entry. rewrite run_app. cbn [run].
  step. cbn [csr_read]. rewrite Hsc. set (f1 := csr_write Sscratch (get sp m) (csrs m)). step.
  rewrite get_put_eq by (first [done | (cbn [gpr with_csrs]; lia)]). rewrite put_put. replace (a + 272 + -34 * 8) with a by lia.
  rewrite u64_small by lia. set (m1 := put sp a (with_csrs f1 m)).
  assert (Hsp1 : get sp m1 = a) by (unfold m1; rewrite get_put_eq by (first [done | (cbn [gpr with_csrs]; lia)]); done).
  assert (Hstk1 : stk m1 = stk m) by (unfold m1; by autorewrite with machine).
  rewrite (exec_SD _ _ _ 31 34) by (first [done | lia | by rewrite Hsp1, Hstk1]). rewrite bind_ret, Hsp1, Hstk1.
  assert (H31 : get t6 m1 = get t6 m) by (unfold m1; by rewrite get_put_ne). rewrite H31. set (w1 := <[_ := _]> (stk m)).
  step. cbn [csrs with_stk].
  assert (Hc1 : csrs m1 = f1) by (unfold m1; by autorewrite with machine).
  assert (Hs1 : csr_read Sscratch (csrs m1) = get sp m) by (rewrite Hc1; cbn [csr_read]; apply csr_write_plain; [by repeat constructor|done]).
  rewrite Hs1, put_stk. set (m2 := put t6 (get sp m) m1).
  assert (Hsp2 : get sp m2 = a) by (unfold m2; by rewrite get_put_ne).
  assert (Ht2 : get t6 m2 = get sp m) by (unfold m2, m1; rewrite get_put_eq by (first [done | (autorewrite with machine; cbn [gpr with_csrs]; lia)]); done).
  rewrite (exec_SD _ _ _ 2 34) by (first [done | lia | (rewrite get_stk, Hsp2; by apply block_insert)]).
  rewrite !bind_ret, !get_stk, Hsp2, Ht2, with_stk_stk. cbn [stk with_stk]. set (w2 := <[_ := _]> w1). set (m3 := with_stk w2 m2).
  assert (Hc3 : csrs m3 = f1) by (unfold m3, m2; cbn [csrs with_stk]; by rewrite csrs_put).
  destruct (entry_rest m m3 a w2) as (w & Hr & Hbw & Hfr & Hout).
  - done.
  - unfold m3, m2, m1. cbn [gpr with_stk]. by autorewrite with machine.
  - done.
  - by do 2 apply block_insert.
  - intros i Hi. unfold m3, m2, m1. rewrite get_stk, !get_put_ne by lia. done.
  - apply lookup_insert_eq.
  - unfold w2, w1. rewrite lookup_insert_ne by lia. apply lookup_insert_eq.
  - rewrite Hc3. cbn [csr_read]. unfold f1. by rewrite csr_write_other by (first [done | set_solver]).
  - rewrite Hc3. cbn [csr_read]. unfold f1. by rewrite csr_write_other by (first [done | set_solver]).
  - rewrite app_assoc, run_app, Hr, bind_ret. cbn [run]. step. step. rewrite !bind_ret.
    rewrite get_put_eq by (first [done | (cbn [gpr with_stk]; unfold m3, m2, m1; autorewrite with machine; cbn [gpr with_stk]; autorewrite with machine; cbn [gpr with_csrs]; lia)]).
    rewrite csrs_put, u64_small by lia. cbn [csrs with_stk]. rewrite csrs_put, Hc3. set (m4 := with_csrs _ _).
    assert (Hcs : csrs m4 = entry_csrs smode_addr (get sp m) (csrs m)) by done.
    assert (Hl4 : length (gpr m4) = 32%nat) by (unfold m4, m3, m2, m1; cbn [gpr with_csrs]; autorewrite with machine; cbn [gpr with_stk]; autorewrite with machine; cbn [gpr with_stk]; by autorewrite with machine).
    assert (Hsp4 : get sp m4 = a) by (unfold m4, m3; rewrite get_csrs, get_put_ne, get_stk, get_put_ne, get_stk by done; done).
    assert (Hst4 : stk m4 = w) by (unfold m4; cbn [stk with_csrs]; by rewrite stk_put).
    destruct (trap_cont_spec c m4) as (m5 & -> & Hr0 & Hr1 & Ho & Hcs5 & Hst5 & Hl5); [|done..|].
    { rewrite Hcs. unfold entry_csrs. rewrite !csr_write_other by (first [done | set_solver]). done. }
    exists m5. split; [done|]. rewrite Hsp4 in Hr1. rewrite Hst4 in Hst5. split; [|split; [by rewrite Hcs5|split]].
    + split; [done|done|by rewrite Ho|done|by rewrite Hst5|by rewrite Hst5].
    + intros b Hb'. rewrite Hst5, Hout by done. unfold w2, w1. by rewrite !lookup_insert_ne by lia.
    + rewrite Ho by done. unfold m4, m3, m2, m1. by rewrite get_csrs, get_put_ne, get_stk, get_put_ne, get_stk, !get_put_ne by done.
Qed.

(** ** Exit *)

Lemma put_bit_spec n b v i : 0 ≤ n → Z.testbit (put_bit n b v) i = if decide (i = n) then b else Z.testbit v i.
Proof.
  intros Hn. unfold put_bit. destruct b.
  - rewrite Z.setbit_eqb by done. destruct (decide (i = n)) as [->|Hne]; [by rewrite Z.eqb_refl|].
    by rewrite (proj2 (Z.eqb_neq n i)) by congruence.
  - rewrite Z.clearbit_eqb by done. destruct (decide (i = n)) as [->|Hne]; [rewrite Z.eqb_refl; apply andb_false_r|].
    rewrite (proj2 (Z.eqb_neq n i)) by congruence. apply andb_true_r.
Qed.

(** [m'] holds the registers that the frame has. *)
Record restored (fr : trap_frame) (m m' : machine) : Prop := {
  rs_gpr i : (1 ≤ i < 32)%nat → get i m' = tf_x fr !!! i;
  rs_len : length (gpr m') = 32%nat;
  rs_stk : stk m' = stk m
}.

Lemma smode_exit_spec m a fr : get sp m = a → block a 34 (stk m) → length (gpr m) = 32%nat → holds_frame a fr (stk m) →
  ∃ m', smode_exit m = Done (sret m') ∧ restored fr m m' ∧ csrs m' = exit_csrs fr (csrs m).
Proof.
  intros Hsp Hb Hlen Hfr. pose proof Hfr as [Hx _ _]. unfold smode_exit. rewrite app_assoc, run_app.
  destruct (restore_rest m a fr Hsp Hb Hlen Hfr) as (g & -> & Hgl & Hg2 & Hg). rewrite bind_ret. cbn [run].
  set (m1 := with_gpr g _). assert (Hsp1 : get sp m1 = a) by done.
  rewrite (exec_LD _ _ _ 31 34 _ (tf_x fr !!! 31%nat)) by (first [done | lia | by rewrite Hsp1 | (rewrite Hsp1; by apply (Hx 31%nat); lia)]).
  rewrite bind_ret. assert (Hsp2 : get sp (put t6 (tf_x fr !!! 31%nat) m1) = a) by (by rewrite get_put_ne).
  rewrite (exec_LD _ _ _ 2 34 _ (tf_x fr !!! 2%nat)) by (first [done | lia | (rewrite Hsp2, ?stk_put; first [done | by apply (Hx 2%nat); lia])]).
  rewrite !bind_ret. eexists. split; [reflexivity|]. autorewrite with machine. split; [|done]. split.
  - intros i Hi. destruct (decide (i = 2%nat)) as [->|]; [rewrite get_put_eq by (first [done | (autorewrite with machine; cbn [gpr m1 with_gpr]; lia)]); done|].
    rewrite get_put_ne by done. destruct (decide (i = 31%nat)) as [->|]; [rewrite get_put_eq by (first [done | (cbn [gpr m1 with_gpr]; lia)]); done|].
    rewrite get_put_ne by done. unfold m1. rewrite with_gpr_get by lia. apply Hg. lia.
  - by autorewrite with machine.
  - by autorewrite with machine.
Qed.

Lemma umode_exit_spec umode_addr m a fr : get sp m = a → block a 34 (stk m) → length (gpr m) = 32%nat → holds_frame a fr (stk m) →
  0 ≤ umode_addr < 2 ^ 64 →
  ∃ m', umode_exit umode_addr m = Done (sret m') ∧ restored fr m m' ∧
    csrs m' = csr_write Sscratch (a + 272) (exit_csrs fr (csr_write Stvec umode_addr (csrs m))).
Proof.
  intros Hsp Hb Hlen Hfr Hua. pose proof Hfr as [Hx _ _]. pose proof (bl_low _ _ _ Hb). pose proof (bl_high _ _ _ Hb).
  unfold umode_exit, umode_exit_vector, umode_exit_rest. cbn [app run]. step. step. rewrite get_put_eq, csrs_put, u64_small by (first [done | lia]).
  set (m0 := with_csrs _ _).
  destruct (restore_rest m0 a fr) as (g & Hr & Hgl & Hg2 & Hg).
  { unfold m0. by rewrite get_csrs, get_put_ne. } { unfold m0. cbn [stk with_csrs]. by rewrite stk_put. }
  { unfold m0. cbn [gpr with_csrs]. by rewrite length_put. } { unfold m0. cbn [stk with_csrs]. by rewrite stk_put. }
  rewrite app_assoc, run_app, Hr, bind_ret. cbn [run]. set (m1 := with_gpr g _).
  assert (Hsp1 : get sp m1 = a) by done. assert (Hst1 : stk m1 = stk m) by (cbn [m1 stk with_gpr with_csrs]; unfold m0; by autorewrite with machine).
  step. rewrite Hsp1, u64_small by lia. step. rewrite get_put_eq by (first [done | (cbn [gpr m1 with_gpr]; lia)]). rewrite csrs_put.
  set (m2 := with_csrs _ _). step.
  assert (Hl2 : length (gpr m2) = 32%nat) by (unfold m2; cbn [gpr with_csrs]; by rewrite length_put).
  assert (Hst2 : stk m2 = stk m) by (unfold m2; cbn [stk with_csrs]; by rewrite stk_put).
  assert (Hsp2 : get sp m2 = a + 272) by (unfold m2; rewrite get_csrs, get_put_eq by (first [done | (cbn [gpr m1 with_gpr]; lia)]); lia).
  rewrite Hsp2. replace (a + 272 + -34 * 8) with a by lia. rewrite u64_small by lia. set (m3 := put sp a m2).
  assert (Hsp3 : get sp m3 = a) by (unfold m3; rewrite get_put_eq by (first [done | lia]); done).
  assert (Hst3 : stk m3 = stk m) by (unfold m3; by rewrite stk_put).
  rewrite (exec_LD _ _ _ 31 34 _ (tf_x fr !!! 31%nat)) by (first [done | lia | (rewrite Hsp3, Hst3; first [done | by apply (Hx 31%nat); lia])]).
  rewrite bind_ret. assert (Hsp4 : get sp (put t6 (tf_x fr !!! 31%nat) m3) = a) by (by rewrite get_put_ne).
  rewrite (exec_LD _ _ _ 2 34 _ (tf_x fr !!! 2%nat)) by (first [done | lia | (rewrite Hsp4, stk_put, Hst3; first [done | by apply (Hx 2%nat); lia])]).
  rewrite !bind_ret. eexists. split; [reflexivity|]. split; [split|].
  - intros i Hi. destruct (decide (i = 2%nat)) as [->|]; [rewrite get_put_eq by (first [done | (unfold m3; autorewrite with machine; lia)]); done|].
    rewrite get_put_ne by done.
    destruct (decide (i = 31%nat)) as [->|]; [rewrite get_put_eq by (first [done | (unfold m3; autorewrite with machine; lia)]); done|].
    unfold m3, m2. rewrite !get_put_ne, get_csrs, get_put_ne by done. unfold m1. rewrite with_gpr_get by lia. apply Hg. lia.
  - rewrite !length_put. unfold m3. by rewrite length_put.
  - by rewrite !stk_put.
  - rewrite !csrs_put. unfold m3. rewrite csrs_put. unfold m2. cbn [csrs with_csrs]. unfold m1. cbn [csrs with_gpr with_csrs]. unfold m0. done.
Qed.

(** ** The bits of sstatus through a trap *)

Lemma exit_sret m' f fr : csrs m' Mstatus = exit_csrs fr f Mstatus → csrs m' Sepc = exit_csrs fr f Sepc →
  mpc (sret m') = Z.land (u64 (tf_sepc fr)) (Z.lnot 1) ∧
  mmode (sret m') = (if Z.testbit (tf_sstatus fr) 8 then SMode else UMode) ∧
  irq_on (csrs (sret m')) = Z.testbit (tf_sstatus fr) 5 ∧
  (∀ c, c ≠ Mstatus → csrs (sret m') c = csrs m' c).
Proof.
  intros Hms Hse.
  assert (Hb : ∀ i, 0 ≤ i → Z.testbit SSTATUS_MASK i = true → Z.testbit (exit_csrs fr f Mstatus) i = Z.testbit (tf_sstatus fr) i).
  { intros i Hi Hm. unfold exit_csrs. rewrite sstatus_write_bit by done. by rewrite Hm. }
  unfold sret. cbn [mpc mmode jump csrs with_csrs csr_read]. split; [|split; [|split]].
  - rewrite csr_upd_ne, Hse by done. unfold exit_csrs. rewrite sstatus_write_other by done. cbn [csr_write]. apply csr_upd_same.
  - by rewrite Hms, Hb.
  - unfold irq_on. rewrite csr_upd_same, !put_bit_spec by lia. rewrite !decide_False, decide_True by done. by rewrite Hms, Hb.
  - intros c Hn. by apply csr_upd_ne.
Qed.

Lemma exit_csrs_other fr f c : c ∉ [Mstatus; Sepc] → exit_csrs fr f c = f c.
Proof.
  rewrite !not_elem_of_cons. intros (? & ? & _). unfold exit_csrs. rewrite sstatus_write_other by done.
  by apply csr_write_other; [set_solver|].
Qed.

(** What a trap to S mode leaves. *)
Lemma trap_s_spec cause tval m : let t := trap_s cause tval m in
  gpr t = gpr m ∧ stk t = stk m ∧ mmode t = SMode ∧ mpc t = csrs m Stvec ∧ csrs t Scause = cause ∧ csrs t Sepc = mpc m ∧
  irq_on (csrs t) = false ∧ Z.testbit (csr_read Sstatus (csrs t)) 5 = irq_on (csrs m) ∧
  Z.testbit (csr_read Sstatus (csrs t)) 8 = (match mmode m with UMode => false | _ => true end) ∧
  (∀ c, c ∉ [Mstatus; Sepc; Scause; Stval] → csrs t c = csrs m c).
Proof.
  unfold trap_s, irq_on. cbn [gpr jump with_csrs stk mmode mpc csrs]. split_and!; try done.
  - rewrite !csr_upd_ne by done. rewrite csr_upd_same. rewrite !put_bit_spec by lia. by rewrite decide_False, decide_True by done.
  - rewrite sstatus_bit, !csr_upd_ne, csr_upd_same, !put_bit_spec by (first [done | lia]).
    rewrite !decide_False by done. rewrite decide_True by done. apply andb_true_r.
  - rewrite sstatus_bit, !csr_upd_ne, csr_upd_same, !put_bit_spec by (first [done | lia]). rewrite decide_True by done. apply andb_true_r.
  - intros c Hn. rewrite !not_elem_of_cons in Hn. destruct Hn as (? & ? & ? & ? & _). by rewrite !csr_upd_ne.
Qed.

(** ** Round trips *)

(** A trap with this cause goes to S mode. *)
Definition delegated (cause : Z) (f : csrfile) : Prop :=
  Z.testbit (if 2 ^ 63 <=? cause then f Mideleg else f Medeleg) (cause mod 2 ^ 63) = true.

Lemma trap_delegated cause tval m : mmode m ≠ MMode → delegated cause (csrs m) → trap cause tval m = trap_s cause tval m.
Proof. unfold delegated, trap. intros Hm ->. destruct (mmode m); congruence. Qed.

(** A handler that was entered in [m1] has returned in [m2], with [fr] in the place of
    the frame. *)
Record returned (a : Z) (fr : trap_frame) (m1 m2 : machine) : Prop := {
  rt_sp : get sp m2 = get sp m1;
  rt_len : length (gpr m2) = 32%nat;
  rt_block : block a 34 (stk m2);
  rt_frame : holds_frame a fr (stk m2);
  rt_deleg c : c ∈ [Medeleg; Mideleg] → csrs m2 c = csrs m1 c
}.

Definition word_pc (pc : Z) : Prop := 0 ≤ pc < 2 ^ 64 ∧ pc mod 2 = 0.
Lemma word_pc_keep pc : word_pc pc → Z.land (u64 pc) (Z.lnot 1) = pc.
Proof.
  intros [Hr He]. rewrite u64_small by done. apply Z.bits_inj'. intros i Hi. rewrite Z.land_spec, Z.lnot_spec by done.
  destruct (decide (i = 0)) as [->|Hne].
  - assert (Hb : Z.testbit pc 0 = false); [|by rewrite Hb].
    rewrite <- (Z.mod_pow2_bits_low pc 1) by lia. change (2 ^ 1) with 2. by rewrite He, Z.bits_0.
  - rewrite (proj2 (Z.testbit_false 1 i Hi)); [apply andb_true_r|]. rewrite Z.div_small; [done|].
    split; [lia|]. apply (Z.pow_gt_1 2); lia.
Qed.

Section Roundtrip.
Context (smode_addr umode_addr : Z).
Hypothesis Hsa : 0 ≤ smode_addr < 2 ^ 64.
Hypothesis Hua : 0 ≤ umode_addr < 2 ^ 64.

(** A machine that runs a user program and can take a trap: [K] is the anchor of the
    kernel stack of its thread. *)
Record user_ready (K : Z) (m : machine) : Prop := {
  ur_mode : mmode m = UMode;
  ur_len : length (gpr m) = 32%nat;
  ur_gpr i : 0 ≤ get i m < 2 ^ 64;
  ur_pc : word_pc (mpc m);
  ur_stvec : csrs m Stvec = umode_addr;
  ur_sscratch : csrs m Sscratch = K;
  ur_stack : block (K - 272) 34 (stk m);
  ur_medeleg : csrs m Medeleg = 0xb1ff;
  ur_mideleg : csrs m Mideleg = 0x222
}.

Lemma get_range m : length (gpr m) = 32%nat → (∀ i, (1 ≤ i < 32)%nat → 0 ≤ get i m < 2 ^ 64) → ∀ i, 0 ≤ get i m < 2 ^ 64.
Proof.
  intros Hl Hr i. destruct (decide (1 ≤ i < 32)%nat) as [?|Hi]; [by apply Hr|]. unfold get. case_decide; [lia|].
  rewrite list_lookup_total_alt, lookup_ge_None_2 by lia. cbn. lia.
Qed.

Lemma umode_trap_runs K cause tval m : user_ready K m → 0 ≤ cause < 2 ^ 64 → delegated cause (csrs m) →
  let t := trap cause tval m in
  gpr t = gpr m ∧ mpc t = umode_addr ∧ csr_read Sepc (csrs t) = mpc m ∧
  Z.testbit (csr_read Sstatus (csrs t)) 8 = false ∧ Z.testbit (csr_read Sstatus (csrs t)) 5 = irq_on (csrs m) ∧
  ∃ m1, umode_entry smode_addr t = Done (handler_of cause, m1) ∧ at_handler (K - 272) (frame_of t) (cause mod 2 ^ 63) m1 ∧
    irq_on (csrs m1) = false ∧ csrs m1 Stvec = smode_addr ∧ get tp m1 = get tp m ∧
    ∀ m2 fr, returned (K - 272) fr m1 m2 → (∀ i, (1 ≤ i < 32)%nat → 0 ≤ tf_x fr !!! i < 2 ^ 64) →
      word_pc (tf_sepc fr) → Z.testbit (tf_sstatus fr) 8 = false →
      ∃ m3, umode_exit umode_addr m2 = Done m3 ∧ user_ready K m3 ∧ mpc m3 = tf_sepc fr ∧
        (∀ i, (1 ≤ i < 32)%nat → get i m3 = tf_x fr !!! i) ∧ irq_on (csrs m3) = Z.testbit (tf_sstatus fr) 5 ∧ stk m3 = stk m2.
Proof.
  intros [Hm Hlen Hgr Hpc Hsv Hss Hb Hmd Hid] Hc Hd t. unfold t.
  assert (Hnm : mmode m ≠ MMode) by (rewrite Hm; discriminate). rewrite (trap_delegated _ _ _ Hnm Hd).
  destruct (trap_s_spec cause tval m) as (Hg & Hst & Hmd' & Hpc' & Hsc & Hse & Hoff & H5 & H8 & Hoth). set (t' := trap_s cause tval m) in *.
  rewrite Hm in H8. split; [done|]. split; [by rewrite Hpc'|]. split; [done|]. split; [done|]. split; [done|].
  assert (Hget : ∀ i, get i t' = get i m) by (intros i; unfold get; by rewrite Hg).
  destruct (umode_entry_spec smode_addr t' (K - 272) cause) as (m1 & He & Hah & Hcs & _ & Htp); rewrite ?Hg, ?Hst, ?Hget; try done.
  { rewrite Hoth by set_solver. rewrite Hss. lia. }
  exists m1. split; [done|]. split; [done|]. rewrite Hcs. unfold entry_csrs.
  split; [unfold irq_on; rewrite !csr_write_other by (first [done | set_solver]); exact Hoff|].
  split; [by apply csr_write_plain; [repeat constructor|]|]. split; [by rewrite Htp, Hget|].
  intros m2 fr [Hsp2 Hlen2 Hb2 Hfr2 Hdel] Hxr Hfpc H8'. rewrite (ah_sp _ _ _ _ Hah) in Hsp2.
  destruct (umode_exit_spec umode_addr m2 (K - 272) fr Hsp2 Hb2 Hlen2 Hfr2 Hua) as (m' & Hex & [Hrg Hrl Hrs] & Hcs').
  replace (K - 272 + 272) with K in Hcs' by lia.
  destruct (exit_sret m' (csr_write Stvec umode_addr (csrs m2)) fr) as (Hpc3 & Hmode3 & Hirq3 & Hoth3).
  { rewrite Hcs'. by apply csr_write_other; [set_solver|]. } { rewrite Hcs'. by apply csr_write_other; [set_solver|]. }
  assert (Hback : ∀ c, c ∈ [Medeleg; Mideleg] → csrs (sret m') c = csrs m c).
  { intros c Hin. rewrite !elem_of_cons, elem_of_nil in Hin.
    assert (Hne : c ∉ [Mstatus; Sepc; Sscratch; Stvec; Scause; Stval]) by (destruct Hin as [->|[->|[]]]; set_solver).
    rewrite !not_elem_of_cons in Hne. destruct Hne as (? & ? & ? & ? & ? & ? & _).
    rewrite Hoth3, Hcs' by done. rewrite csr_write_other by (first [done | set_solver]). rewrite exit_csrs_other by set_solver.
    rewrite csr_write_other by (first [done | set_solver]). rewrite Hdel by set_solver. rewrite Hcs. unfold entry_csrs.
    rewrite !csr_write_other by (first [done | set_solver]). apply Hoth. set_solver. }
  pose proof (bl_high _ _ _ Hb). pose proof (bl_low _ _ _ Hb).
  exists (sret m'). split; [done|]. rewrite word_pc_keep in Hpc3 by done. rewrite H8' in Hmode3. split; [split|].
  - done.
  - done.
  - apply get_range; [done|]. intros i Hi. change (get i (sret m')) with (get i m'). rewrite Hrg by done. by apply Hxr.
  - by rewrite Hpc3.
  - rewrite Hoth3, Hcs' by done. rewrite csr_write_other by (first [done | set_solver]). rewrite exit_csrs_other by set_solver.
    apply csr_write_plain; [by repeat constructor|done].
  - rewrite Hoth3, Hcs' by done. apply csr_write_plain; [by repeat constructor|lia].
  - change (stk (sret m')) with (stk m'). by rewrite Hrs.
  - rewrite Hback by set_solver. done.
  - rewrite Hback by set_solver. done.
  - split; [done|]. split; [exact Hrg|]. split; [done|]. exact Hrs.
Qed.

Section Ecall.
Context {δ β υ : Type} `{IoIntf δ} `{IoOps δ} `{IoOps β} `{UartHw υ} (stack_hi : Z) (strmax polls : nat).

Lemma ecall_frame fr (k : kernel δ β υ) fr' v k' :
  umode_excp_handler stack_hi strmax polls RISCV_SCAUSE_ECALL_FROM_UMODE fr k = Done (fr', Returns v k') →
  fr' = Tfr (<[10%nat := u64 v]> (tf_x fr)) (tf_sstatus fr) (u64 (tf_sepc fr + 4)).
Proof.
  unfold umode_excp_handler. change (RISCV_SCAUSE_ECALL_FROM_UMODE =? RISCV_SCAUSE_ECALL_FROM_UMODE) with true. cbn iota.
  intros Hs. unfold syscall_handler in Hs. apply bind_Done in Hs as (r & _ & [= <- ->]). done.
Qed.

(** A system call of a user program, from the ecall to the return to user mode:
    the entry code gives the handler a frame with the registers of the program, on the
    kernel stack, with interrupts off; when the call returns [v], the program goes on
    behind the ecall in user mode with [v] in a0, every other register as before and
    interrupts as before, and is ready for the next trap. *)
Theorem ecall_roundtrip K tval m (k : kernel δ β υ) fr v k' : user_ready K m →
  let t := trap RISCV_SCAUSE_ECALL_FROM_UMODE tval m in
  umode_excp_handler stack_hi strmax polls RISCV_SCAUSE_ECALL_FROM_UMODE (frame_of t) k = Done (fr, Returns v k') →
  mpc t = umode_addr ∧
  ∃ m1, umode_entry smode_addr t = Done (Excp, m1) ∧ at_handler (K - 272) (frame_of t) RISCV_SCAUSE_ECALL_FROM_UMODE m1 ∧
    irq_on (csrs m1) = false ∧
    ∀ m2, returned (K - 272) fr m1 m2 →
      ∃ m3, umode_exit umode_addr m2 = Done m3 ∧ user_ready K m3 ∧ mpc m3 = u64 (mpc m + 4) ∧ get a0 m3 = u64 v ∧
        (∀ i, i ≠ a0 → get i m3 = get i m) ∧ irq_on (csrs m3) = irq_on (csrs m) ∧ stk m3 = stk m2.
Proof.
  intros Hu t Hh. pose proof Hu as [_ Hlen Hgr [Hpc Hpc2] _ _ _ Hmd _]. apply ecall_frame in Hh as ->.
  destruct (umode_trap_runs K RISCV_SCAUSE_ECALL_FROM_UMODE tval m Hu ltac:(done)) as (Hg & Hpct & Hse & H8 & H5 & m1 & He & Hah & Hoff & _ & _ & Hret).
  { unfold delegated. cbn. by rewrite Hmd. }
  fold t in Hg, Hpct, Hse, H8, H5, He, Hah, Hret. split; [done|]. exists m1. split; [done|]. split; [done|]. split; [done|].
  intros m2 Hr. destruct (Hret m2 _ Hr) as (m3 & Hex & Hur & Hpc3 & Hx & Hirq & Hst); cbn [tf_x tf_sepc tf_sstatus frame_of] in *.
  - rewrite Hg. intros i Hi. destruct (decide (i = 10%nat)) as [->|]; [rewrite list_lookup_total_insert_eq by lia; apply u64_range|].
    rewrite list_lookup_total_insert_ne, gpr_get by lia. apply Hgr.
  - rewrite Hse. split; [apply u64_range|]. unfold u64. replace (2 ^ 64) with (2 * 2 ^ 63) by done. rewrite Z.rem_mul_r by lia.
    rewrite Z.mul_comm, Z.mod_add, Zmod_mod, Z.add_mod, Hpc2 by lia. done.
  - done.
  - exists m3. rewrite Hse in Hpc3. rewrite H5 in Hirq. split; [done|]. split; [done|]. split; [done|].
    pose proof (ur_len _ _ Hur) as Hlen3. split; [rewrite Hx, Hg by lia; by rewrite list_lookup_total_insert_eq by lia|].
    split; [|done]. intros i Hi. destruct (decide (1 ≤ i < 32)%nat) as [Hb|Hb].
    + rewrite Hx by done. rewrite Hg, list_lookup_total_insert_ne, gpr_get by lia. done.
    + unfold get. case_decide; [done|]. by rewrite !list_lookup_total_alt, !lookup_ge_None_2 by lia.
Qed.
End Ecall.

(** C39: the entry from user mode does not set tp, which is where the kernel keeps the
    running thread: the handler of every trap, the scheduler of an interrupt included,
    takes the tp of the user program for it, whatever the program put there. *)
Theorem user_tp_is_curthr K cause tval m v : user_ready K m → 0 ≤ cause < 2 ^ 64 → delegated cause (csrs m) → 0 ≤ v < 2 ^ 64 →
  ∃ m1, umode_entry smode_addr (trap cause tval (put tp v m)) = Done (handler_of cause, m1) ∧ get tp m1 = v.
Proof.
  intros [Hm Hlen Hgr Hpc Hsv Hss Hb Hmd Hid] Hc Hd Hv.
  destruct (umode_trap_runs K cause tval (put tp v m)) as (_ & _ & _ & _ & _ & m1 & He & _ & _ & _ & Htp & _).
  - split; rewrite ?mmode_put, ?length_put, ?mpc_put, ?csrs_put, ?stk_put; try done. intros i.
    destruct (decide (i = tp)) as [->|]; [by rewrite get_put_eq by (first [done | lia])|]. rewrite get_put_ne by done. apply Hgr.
  - done.
  - by rewrite csrs_put.
  - exists m1. split; [done|]. by rewrite Htp, get_put_eq by (first [done | lia]).
Qed.

(** C40: the exit to user mode sets the trap vector of user mode before it disables
    interrupts: after a handler that left them on, an interrupt that comes then enters
    at the vector of user mode from S mode, and the frame of the kernel is stored below
    the stack pointer of the user. *)
Theorem exit_window_uses_user_stack m usp cause : length (gpr m) = 32%nat → irq_on (csrs m) = true → mmode m = SMode →
  csrs m Sscratch = usp → block (usp - 272) 34 (stk m) → csrs m Mideleg = 0x222 → cause ∈ [2 ^ 63 + 5; 2 ^ 63 + 9] →
  0 ≤ get sp m < 2 ^ 64 →
  ∃ m1 m2, run (umode_exit_vector umode_addr) m = Done m1 ∧ irq_on (csrs m1) = true ∧
    mpc (trap cause 0 m1) = umode_addr ∧ umode_entry smode_addr (trap cause 0 m1) = Done (Intr, m2) ∧
    get sp m2 = usp - 272 ∧ stk m2 !! (usp - 272 + 8 * 2) = Some (get sp m).
Proof.
  intros Hlen Hon Hm Hus Hb Hid Hc Hsp. unfold umode_exit_vector. cbn [run]. step. step.
  rewrite get_put_eq, csrs_put, u64_small by (first [done | lia]). set (m1 := with_csrs _ _).
  exists m1. assert (Hc1 : csrs m1 = csr_write Stvec umode_addr (csrs m)) by done.
  assert (Hm1 : mmode m1 ≠ MMode) by (unfold m1; cbn [mmode with_csrs]; rewrite mmode_put, Hm; discriminate).
  assert (Hcr : 0 ≤ cause < 2 ^ 64 ∧ 2 ^ 63 ≤ cause) by (rewrite !elem_of_cons, elem_of_nil in Hc; lia).
  assert (Hd : delegated cause (csrs m1)).
  { unfold delegated. rewrite Hc1, !csr_write_other, Hid by (first [done | set_solver]). rewrite (proj2 (Z.leb_le _ _)) by lia.
    rewrite !elem_of_cons, elem_of_nil in Hc. by destruct Hc as [->|[->|[]]]. }
  rewrite (trap_delegated _ _ _ Hm1 Hd).
  destruct (trap_s_spec cause 0 m1) as (Hg & Hst & _ & Hpc & Hsc & _ & _ & _ & _ & Hoth). set (t := trap_s cause 0 m1) in *.
  assert (Hg1 : ∀ i, i ≠ t6 → get i t = get i m).
  { intros i Hi. transitivity (get i m1); [unfold get; by rewrite Hg|]. unfold m1. rewrite get_csrs. by apply get_put_ne. }
  destruct (umode_entry_spec smode_addr t (usp - 272) cause) as (m2 & He & Hah & _).
  - rewrite Hg. unfold m1. cbn [gpr with_csrs]. by rewrite length_put.
  - rewrite Hoth by set_solver. rewrite Hc1, csr_write_other by (first [done | set_solver]). lia.
  - rewrite Hst. unfold m1. cbn [stk with_csrs]. by rewrite stk_put.
  - done.
  - lia.
  - by rewrite Hg1.
  - done.
  - exists m2. split; [done|]. split; [unfold irq_on; rewrite Hc1, csr_write_other by (first [done | set_solver]); exact Hon|].
    split; [rewrite Hpc, Hc1; apply csr_write_plain; [by repeat constructor|done]|].
    unfold handler_of in He. rewrite (proj2 (Z.ltb_ge _ _)) in He by lia. split; [done|]. split; [by apply Hah|].
    rewrite <- (Hg1 sp) by done. pose proof (hf_x _ _ _ (ah_frame _ _ _ _ Hah) 2 ltac:(lia)) as Hx. change (Z.of_nat 2) with 2 in Hx. rewrite Hx.
    cbn [frame_of tf_x]. by rewrite gpr_get.
Qed.

End Roundtrip.

(** C16: a trap in the kernel is transparent: when the handler leaves the frame alone,
    the interrupted code goes on where it was in S mode, with all its registers and its
    interrupt flag. *)
Theorem smode_trap_transparent smode_addr a cause tval m : mmode m = SMode → length (gpr m) = 32%nat → word_pc (mpc m) →
  csrs m Stvec = smode_addr → get sp m = a + 272 → block a 34 (stk m) → 0 ≤ cause < 2 ^ 64 → delegated cause (csrs m) →
  let t := trap cause tval m in
  mpc t = smode_addr ∧
  ∃ m1, smode_entry t = Done (handler_of cause, m1) ∧ at_handler a (frame_of t) (cause mod 2 ^ 63) m1 ∧ irq_on (csrs m1) = false ∧
    (∀ b, b < a ∨ a + 272 ≤ b → stk m1 !! b = stk m !! b) ∧
    ∀ m2, returned a (frame_of t) m1 m2 →
      ∃ m3, smode_exit m2 = Done m3 ∧ mpc m3 = mpc m ∧ mmode m3 = SMode ∧ (∀ i, get i m3 = get i m) ∧
        irq_on (csrs m3) = irq_on (csrs m) ∧ stk m3 = stk m2 ∧ (∀ c, c ∉ [Mstatus; Sepc] → csrs m3 c = csrs m2 c).
Proof.
  intros Hm Hlen Hpc Hsv Hsp Hb Hc Hd t. assert (Hnm : mmode m ≠ MMode) by (rewrite Hm; discriminate).
  unfold t. rewrite (trap_delegated _ _ _ Hnm Hd). clear t. set (t := trap_s cause tval m).
  destruct (trap_s_spec cause tval m) as (Hg & Hst & _ & Hpct & Hsc & Hse & Hoff & H5 & H8 & _). fold t in Hg, Hst, Hpct, Hsc, Hse, Hoff, H5, H8.
  rewrite Hm in H8. split; [by rewrite Hpct|].
  assert (Hget : ∀ i, get i t = get i m) by (intros i; unfold get; by rewrite Hg).
  destruct (smode_entry_spec t a cause) as (m1 & He & Hah & Hcs & Hout & _); rewrite ?Hg, ?Hst, ?Hget; try done.
  exists m1. split; [done|]. split; [done|]. split; [by rewrite Hcs|]. split; [intros b Hb'; by rewrite Hout, Hst|].
  intros m2 [Hsp2 Hlen2 Hb2 Hfr2 _]. rewrite (ah_sp _ _ _ _ Hah) in Hsp2.
  destruct (smode_exit_spec m2 a _ Hsp2 Hb2 Hlen2 Hfr2) as (m' & Hex & [Hrg Hrl Hrs] & Hcs').
  destruct (exit_sret m' (csrs m2) (frame_of t)) as (Hpc3 & Hmode3 & Hirq3 & Hoth3); [by rewrite Hcs'..|].
  cbn [frame_of tf_x tf_sstatus tf_sepc csr_read] in *. rewrite H8 in Hmode3. rewrite Hse, word_pc_keep in Hpc3 by done.
  exists (sret m'). split; [done|]. split; [done|]. split; [done|]. split; [|split; [by rewrite Hirq3|split; [exact Hrs|]]].
  - intros i. change (get i (sret m')) with (get i m'). destruct (decide (1 ≤ i < 32)%nat) as [Hi|Hi].
    + rewrite Hrg, gpr_get by lia. apply Hget.
    + unfold get. case_decide; [done|]. by rewrite !list_lookup_total_alt, !lookup_ge_None_2 by lia.
  - intros c Hn. rewrite Hoth3, Hcs' by set_solver. by apply exit_csrs_other.
Qed.

(** ** Examples *)

(** A program at 0x400 that has put a0 .. a7 and its stack pointer into registers; the
    kernel stack of its thread ends at 8464. *)
Definition user_regs : list Z := [0; 0; 0xD0000000; 0; 4096] ++ replicate 5 0 ++ [5; 0xC0001200; 16; 0; 0; 0; 0; SYSCALL_READ] ++ replicate 14 7.
Definition user_csrs (stvec : Z) : csrfile :=
  λ c, match c with Stvec => stvec | Sscratch => 8464 | Medeleg => 0xb1ff | Mideleg => 0x222 | Mstatus => 0x22 | _ => 0 end.
Definition user_machine : machine := Mach 0x400 UMode user_regs (user_csrs 0x200) (zeros 8192 34).

Lemma user_machine_ready : user_ready 0x200 8464 user_machine.
Proof.
  split; try reflexivity.
  - apply get_range; [reflexivity|]. intros i Hi. do 32 (destruct i as [|i]; [vm_compute; by split|]). lia.
  - by split.
  - apply zeros_block; first [lia | by exists 0].
Qed.

Lemma user_tp_is_curthr_witness :
  ∃ m1, umode_entry 0x100 (trap 8 0 (put tp 0xBAD user_machine)) = Done (Excp, m1) ∧ get tp m1 = 0xBAD.
Proof.
  destruct (user_tp_is_curthr 0x100 0x200 ltac:(done) ltac:(done) 8464 8 0 user_machine 0xBAD user_machine_ready) as (m1 & He & Ht); [done|reflexivity|done|].
  exists m1. split; [exact He|exact Ht].
Defined.

(** In the kernel, on its way back to the user, with interrupts on; the stack of the
    user ends at 8464 too. *)
Definition kernel_machine : machine := Mach 0x110 SMode user_regs (user_csrs 0x100) (zeros 8192 34).

Lemma exit_window_uses_user_stack_witness :
  ∃ m1 m2, run (umode_exit_vector 0x200) kernel_machine = Done m1 ∧ umode_entry 0x100 (trap (2 ^ 63 + 5) 0 m1) = Done (Intr, m2) ∧
    get sp m2 = 8464 - 272 ∧ stk m2 !! (8464 - 272 + 16) = Some 0xD0000000.
Proof.
  destruct (exit_window_uses_user_stack 0x100 0x200 ltac:(done) ltac:(done) kernel_machine 8464 (2 ^ 63 + 5)) as (m1 & m2 & H1 & _ & _ & H2 & H3 & H4);
    [reflexivity|reflexivity|reflexivity|reflexivity| |reflexivity|by left|by vm_compute|].
  - apply zeros_block; first [lia | by exists 0].
  - exists m1, m2. split; [exact H1|]. split; [exact H2|]. split; [exact H3|exact H4].
Defined.

(** In the kernel, with the stack pointer at the end of the stack. *)
Definition busy_machine : machine := put sp 8464 kernel_machine.

Lemma at_handler_returned a fr code m1 : at_handler a fr code m1 → returned a fr m1 m1.
Proof. by intros []. Qed.

Lemma smode_trap_transparent_witness :
  ∃ m1 m3, smode_entry (trap (2 ^ 63 + 9) 0 busy_machine) = Done (Intr, m1) ∧ smode_exit m1 = Done m3 ∧
    mpc m3 = 0x110 ∧ irq_on (csrs m3) = true ∧ get a0 m3 = 5.
Proof.
  destruct (smode_trap_transparent 0x100 8192 (2 ^ 63 + 9) 0 busy_machine) as (_ & m1 & He & Hah & _ & _ & Hret);
    [reflexivity|reflexivity|by split|reflexivity|reflexivity|apply zeros_block; first [lia | by exists 0]|done|reflexivity|].
  destruct (Hret m1 (at_handler_returned _ _ _ _ Hah)) as (m3 & Hx & Hpc & _ & Hg & Hirq & _).
  exists m1, m3. split; [exact He|]. split; [exact Hx|]. split; [exact Hpc|]. split; [exact Hirq|by rewrite (Hg a0)].
Defined.
