(* ===== verification/SwitchSpec.v ===== *)
(** What the assembly does besides traps to S mode: the M-mode entry, start-up,
    switching, starting and forking threads, entering user mode. *)
From Stdlib Require Import ZArith Lia.
From stdpp Require Import base gmap list strings.
From S2P Require Import Prelude CString Pages Heap Pte Memory Thread Lock Io Timer Device Kfs Elf Uart Console Objects Process Syscall Csr Trap TrapSpec.

Open Scope Z_scope.

(** ** M mode *)

Lemma trap_m_spec cause tval m : let t := trap_m cause tval m in
  gpr t = gpr m ∧ stk t = stk m ∧ mpc t = csrs m Mtvec ∧ csrs t Mcause = cause ∧ csrs t Mepc = mpc m ∧
  Z.testbit (csrs t Mstatus) 7 = Z.testbit (csrs m Mstatus) 3 ∧
  Z.testbit (csrs t Mstatus) 11 = (match mmode m with UMode => false | _ => true end) ∧
  Z.testbit (csrs t Mstatus) 12 = (match mmode m with MMode => true | _ => false end) ∧
  (∀ i, 0 ≤ i → i ∉ [3; 7; 11; 12] → Z.testbit (csrs t Mstatus) i = Z.testbit (csrs m Mstatus) i) ∧
  (∀ c, c ∉ [Mstatus; Mepc; Mcause; Mtval] → csrs t c = csrs m c).
Proof.
  unfold trap_m. cbn [gpr jump with_csrs stk mmode mpc csrs]. split_and!; try done.
  1-3: rewrite !csr_upd_ne, csr_upd_same, !put_bit_spec by (first [done | lia]).
  1-3: by rewrite ?decide_False, ?decide_True by done.
  - intros i Hi Hn. rewrite !not_elem_of_cons in Hn. destruct Hn as (? & ? & ? & ? & _).
    rewrite !csr_upd_ne, csr_upd_same, !put_bit_spec by (first [done | lia]). by rewrite !decide_False by done.
  - intros c Hn. rewrite !not_elem_of_cons in Hn. destruct Hn as (? & ? & ? & ? & _). by rewrite !csr_upd_ne.
Qed.

(** [m3] is [m] after a trap to M mode, at [pc]. *)
Record resumed (pc : Z) (m m3 : machine) : Prop := {
  rm_pc : mpc m3 = pc;
  rm_mode : mmode m3 = mmode m;
  rm_gpr i : get i m3 = get i m;
  rm_stk : stk m3 = stk m;
  rm_csr c : c ∉ [Mstatus; Mip; Mie; Mscratch; Mepc; Mcause; Mtval] → csrs m3 c = csrs m c;
  rm_status i : 0 ≤ i → i ∉ [7; 11; 12] → Z.testbit (csrs m3 Mstatus) i = Z.testbit (csrs m Mstatus) i
}.

Lemma mret_resumed m m' cause tval pc :
  mmode m ≠ MMode → length (gpr m) = 32%nat → word_pc pc → csrs m' Mepc = pc →
  (∀ i, get i m' = get i m) → stk m' = stk m → csrs m' Mstatus = csrs (trap_m cause tval m) Mstatus →
  (∀ c, c ∉ [Mstatus; Mip; Mie; Mscratch; Mepc; Mcause; Mtval] → csrs m' c = csrs m c) →
  resumed pc m (mret m') ∧ (∀ c, c ≠ Mstatus → csrs (mret m') c = csrs m' c).
Proof.
  intros Hm Hlen Hpc He Hg Hst Hms Hc. destruct (trap_m_spec cause tval m) as (_ & _ & _ & _ & _ & H7 & H11 & H12 & Hoth & _).
  rewrite <- Hms in *.
  unfold mret. split.
  - split; cbn [mpc mmode jump with_csrs stk csrs].
    + cbn [csr_read]. by rewrite csr_upd_ne.
    + rewrite H11, H12. by destruct (mmode m).
    + done.
    + done.
    + intros c Hn. rewrite csr_upd_ne by set_solver. by apply Hc.
    + intros i Hi Hn. rewrite !not_elem_of_cons in Hn. destruct Hn as (? & ? & ? & _). rewrite csr_upd_same, !put_bit_spec by lia.
      rewrite !(decide_False (P := i = 12)), !(decide_False (P := i = 11)), !(decide_False (P := i = 7)) by done.
      case_decide as H3; [subst; exact H7|]. apply Hoth; [done|]. rewrite !not_elem_of_cons. split_and!; try done. apply not_elem_of_nil.
  - intros c Hn. cbn [csrs jump with_csrs]. by apply csr_upd_ne.
Qed.

Lemma u64_bit v i : 0 ≤ i < 64 → Z.testbit (u64 v) i = Z.testbit v i.
Proof. intros Hi. unfold u64. apply Z.mod_pow2_bits_low. lia. Qed.

Lemma const_bit v n i : v = Z.shiftl 1 n → 0 ≤ n → Z.testbit v i = bool_decide (i = n).
Proof. intros -> Hn. by apply bit_spec. Qed.

(** STIP of mip and MTIE of mie. *)
Lemma stip_set f i : 0 ≤ i → Z.testbit (csr_set Mip 0x20 f Mip) i = Z.testbit (f Mip) i || bool_decide (i = 5).
Proof.
  intros Hi. unfold csr_set. cbn [csr_write csr_read]. rewrite csr_upd_same, merge_spec, Z.lor_spec, (const_bit 0x20 5) by done.
  case_bool_decide as H5; [subst; by rewrite orb_true_r|]. rewrite orb_false_r. by destruct (Z.testbit MIP_MASK i).
Qed.
Lemma stip_clear f i : 0 ≤ i → Z.testbit (csr_clear Mip 0x20 f Mip) i = Z.testbit (f Mip) i && bool_decide (i ≠ 5).
Proof.
  intros Hi. unfold csr_clear. cbn [csr_write csr_read]. rewrite csr_upd_same, merge_spec, Z.land_spec, Z.lnot_spec, (const_bit 0x20 5) by done.
  destruct (decide (i = 5)) as [->|H5]; [rewrite !(bool_decide_true (5 = 5)), bool_decide_false by tauto; by rewrite !andb_false_r|].
  rewrite bool_decide_false, bool_decide_true, !andb_true_r by done. by destruct (Z.testbit MIP_MASK i).
Qed.
Lemma mtie_set f i : 0 ≤ i < 64 → Z.testbit (csr_set Mie 0x80 f Mie) i = Z.testbit (f Mie) i || bool_decide (i = 7).
Proof.
  intros Hi. unfold csr_set. cbn [csr_write csr_read]. by rewrite csr_upd_same, u64_bit, Z.lor_spec, (const_bit 0x80 7) by done.
Qed.
Lemma mtie_clear f i : 0 ≤ i < 64 → Z.testbit (csr_clear Mie 0x80 f Mie) i = Z.testbit (f Mie) i && bool_decide (i ≠ 7).
Proof.
  intros Hi. unfold csr_clear. cbn [csr_write csr_read]. rewrite csr_upd_same, u64_bit, Z.land_spec, Z.lnot_spec, (const_bit 0x80 7) by (first [done | lia]).
  f_equal. destruct (decide (i = 7)) as [->|]; [done|]. by rewrite bool_decide_false, bool_decide_true.
Qed.

(** The timer interrupt and the ecall of the timer driver, as the code that they
    interrupt sees them. *)
Lemma csr_set_other c c' v f : c ∉ [Sstatus; Sie; Sip] → c' ≠ c → csr_set c v f c' = f c'.
Proof. apply csr_write_other. Qed.
Lemma csr_clear_other c c' v f : c ∉ [Sstatus; Sie; Sip] → c' ≠ c → csr_clear c v f c' = f c'.
Proof. apply csr_write_other. Qed.

Ltac other := first [discriminate | apply (bool_decide_unpack _); exact I | set_solver].

(** The state after a step as writes to registers, then to the CSRs, of a machine of
    32 registers. *)
Ltac regs := first [done | (autorewrite with machine; cbn [gpr with_csrs with_stk with_gpr jump]; autorewrite with machine; cbn [gpr with_csrs with_stk with_gpr jump]; lia)].
Lemma with_csrs_csrs f g m : with_csrs f (with_csrs g m) = with_csrs f m.
Proof. done. Qed.
Ltac norm := repeat first
  [rewrite with_csrs_csrs | rewrite put_with_csrs | rewrite put_stk | rewrite get_csrs | rewrite get_stk | rewrite csrs_put | rewrite put_put
  | rewrite get_put_eq by regs | rewrite get_put_ne by done | progress cbn [csrs with_csrs]].
Ltac steps := repeat (first [step | rewrite bind_ret]; norm).

Lemma mmode_intr_runs t : length (gpr t) = 32%nat → csrs t Mcause = 2 ^ 63 + 7 → 0 ≤ get t0 t < 2 ^ 64 →
  ∃ m', mmode_entry t = Done (mret m') ∧ (∀ i, get i m' = get i t) ∧ stk m' = stk t ∧
    csrs m' = csr_clear Mie 0x80 (csr_set Mip 0x20 (csr_write Mscratch (get t0 t) (csrs t))).
Proof.
  intros Hlen Hc Ht0. unfold mmode_entry. cbn [run]. steps. set (f := csr_write Mscratch (get t0 t) (csrs t)).
  assert (Hf : csr_read Mcause f = 2 ^ 63 + 7) by (cbn [csr_read]; unfold f; by rewrite csr_write_other by other).
  rewrite Hf. change (0 <=? s64 (2 ^ 63 + 7)) with false. cbn iota. steps.
  change (u64 (Z.shiftl (u64 (2 ^ 63 + 7 + -7)) 1) =? 0) with true. cbn [negb]. unfold mmode_intr_handler, mmode_trap_done. cbn [run]. steps.
  change (u64 (Z.shiftl (u64 32) 2)) with 0x80. change (u64 32) with 0x20.
  assert (Hsc : csr_read Mscratch (csr_clear Mie 128 (csr_set Mip 32 f)) = get t0 t).
  { cbn [csr_read]. rewrite csr_clear_other, csr_set_other by other. by apply csr_write_plain; [repeat constructor|]. }
  rewrite Hsc. eexists. split; [reflexivity|]. split; [|split; [cbn [stk with_csrs]; apply stk_put|done]].
  intros i. rewrite !get_csrs. destruct (decide (i = t0)) as [->|]; [by rewrite get_put_eq by regs|by rewrite get_put_ne].
Qed.

Lemma mmode_excp_runs t : length (gpr t) = 32%nat → csrs t Mcause = 9 → 0 ≤ get t0 t < 2 ^ 64 →
  ∃ m', mmode_entry t = Done (mret m') ∧ (∀ i, get i m' = get i t) ∧ stk m' = stk t ∧
    csrs m' = csr_write Mepc (u64 (csrs t Mepc + 4)) (csr_set Mie 0x80 (csr_clear Mip 0x20 (csr_write Mscratch (get t0 t) (csrs t)))).
Proof.
  intros Hlen Hc Ht0. unfold mmode_entry. cbn [run]. steps. set (f := csr_write Mscratch (get t0 t) (csrs t)).
  assert (Hf : csr_read Mcause f = 9) by (cbn [csr_read]; unfold f; by rewrite csr_write_other by other).
  rewrite Hf. change (0 <=? s64 9) with true. cbn iota. unfold mmode_excp_handler, mmode_trap_done. cbn [run]. steps.
  change (u64 (9 + -9) =? 0) with true. cbn [negb]. steps. change (u64 (Z.shiftl (u64 32) 2)) with 0x80. change (u64 32) with 0x20.
  set (f2 := csr_set Mie _ _). assert (He : csr_read Mepc f2 = csrs t Mepc).
  { cbn [csr_read]. unfold f2. rewrite csr_set_other, csr_clear_other by other. unfold f. by rewrite csr_write_other by other. }
  rewrite He. set (f3 := csr_write Mepc _ f2). assert (Hsc : csr_read Mscratch f3 = get t0 t).
  { cbn [csr_read]. unfold f3, f2. rewrite csr_write_other, csr_set_other, csr_clear_other by other. by apply csr_write_plain; [repeat constructor|]. }
  rewrite Hsc. eexists. split; [reflexivity|]. split; [|split; [cbn [stk with_csrs]; apply stk_put|done]].
  intros i. rewrite !get_csrs. destruct (decide (i = t0)) as [->|]; [by rewrite get_put_eq by regs|by rewrite get_put_ne].
Qed.

(** C34: M mode is invisible: a timer interrupt becomes a pending timer interrupt of S
    mode and is masked until the timer is set again; the ecall of the timer driver
    takes the pending interrupt back and unmasks it.  The code that was running goes on
    with all registers, its mode and every other bit of mstatus as before. *)
Theorem mmode_timer m tval : mmode m ≠ MMode → length (gpr m) = 32%nat → word_pc (mpc m) → (∀ i, 0 ≤ get i m < 2 ^ 64) →
  csrs m Medeleg = 0xb1ff → csrs m Mideleg = 0x222 →
  (let t := trap (2 ^ 63 + 7) tval m in mpc t = csrs m Mtvec ∧
   ∃ m3, mmode_entry t = Done m3 ∧ resumed (mpc m) m m3 ∧
     (∀ i, 0 ≤ i → Z.testbit (csrs m3 Mip) i = Z.testbit (csrs m Mip) i || bool_decide (i = 5)) ∧
     (∀ i, 0 ≤ i < 64 → Z.testbit (csrs m3 Mie) i = Z.testbit (csrs m Mie) i && bool_decide (i ≠ 7))) ∧
  (mmode m = SMode → let t := trap 9 tval m in mpc t = csrs m Mtvec ∧
   ∃ m3, mmode_entry t = Done m3 ∧ resumed (u64 (mpc m + 4)) m m3 ∧
     (∀ i, 0 ≤ i → Z.testbit (csrs m3 Mip) i = Z.testbit (csrs m Mip) i && bool_decide (i ≠ 5)) ∧
     (∀ i, 0 ≤ i < 64 → Z.testbit (csrs m3 Mie) i = Z.testbit (csrs m Mie) i || bool_decide (i = 7))).
Proof.
  intros Hm Hlen Hpc Hg Hme Hmi.
  assert (Htm : ∀ cause, Z.testbit (if 2 ^ 63 <=? cause then 0x222 else 0xb1ff) (cause mod 2 ^ 63) = false → trap cause tval m = trap_m cause tval m).
  { intros cause Hd. unfold trap. rewrite Hme, Hmi, Hd. by destruct (mmode m). }
  split; [|intros Hs].
  - intros t. unfold t. rewrite Htm by done. clear t. set (t := trap_m (2 ^ 63 + 7) tval m).
    destruct (trap_m_spec (2 ^ 63 + 7) tval m) as (Hgt & Hst & Hpt & Hct & Het & _ & _ & _ & _ & Hot). fold t in Hgt, Hst, Hpt, Hct, Het, Hot.
    assert (Hget : ∀ i, get i t = get i m) by (intros i; unfold get; by rewrite Hgt). split; [done|].
    destruct (mmode_intr_runs t) as (m' & Hr & Hgm & Hsm & Hcm); [by rewrite Hgt|done|by rewrite Hget|].
    destruct (mret_resumed m m' (2 ^ 63 + 7) tval (mpc m) Hm Hlen Hpc) as [Hres Hrc].
    + by rewrite Hcm, csr_clear_other, csr_set_other, csr_write_other by other.
    + intros i. by rewrite Hgm.
    + by rewrite Hsm.
    + by rewrite Hcm, csr_clear_other, csr_set_other, csr_write_other by other.
    + intros c Hn. rewrite Hcm, csr_clear_other, csr_set_other, csr_write_other by set_solver. apply Hot. set_solver.
    + exists (mret m'). split; [done|]. split; [done|]. split; intros i Hi; rewrite Hrc, Hcm by done.
      * rewrite csr_clear_other, stip_set, csr_write_other by other. by rewrite Hot by set_solver.
      * rewrite mtie_clear, csr_set_other, csr_write_other by other. by rewrite Hot by set_solver.
  - intros t. unfold t. rewrite Htm by done. clear t. set (t := trap_m 9 tval m).
    destruct (trap_m_spec 9 tval m) as (Hgt & Hst & Hpt & Hct & Het & _ & _ & _ & _ & Hot). fold t in Hgt, Hst, Hpt, Hct, Het, Hot.
    assert (Hget : ∀ i, get i t = get i m) by (intros i; unfold get; by rewrite Hgt). split; [done|].
    assert (Hpc4 : word_pc (u64 (mpc m + 4))).
    { destruct Hpc as [Hpr Hp2]. split; [apply u64_range|]. unfold u64. replace (2 ^ 64) with (2 * 2 ^ 63) by done.
      rewrite Z.rem_mul_r by lia. rewrite Z.mul_comm, Z.mod_add, Zmod_mod, Z.add_mod, Hp2 by lia. done. }
    destruct (mmode_excp_runs t) as (m' & Hr & Hgm & Hsm & Hcm); [by rewrite Hgt|done|by rewrite Hget|].
    destruct (mret_resumed m m' 9 tval (u64 (mpc m + 4)) Hm Hlen Hpc4) as [Hres Hrc].
    + rewrite Hcm, Het. cbn [csr_write]. rewrite csr_upd_same. by apply word_pc_keep.
    + intros i. by rewrite Hgm.
    + by rewrite Hsm.
    + by rewrite Hcm, csr_write_other, csr_set_other, csr_clear_other, csr_write_other by other.
    + intros c Hn. rewrite Hcm, csr_write_other, csr_set_other, csr_clear_other, csr_write_other by set_solver. apply Hot. set_solver.
    + exists (mret m'). split; [done|]. split; [done|]. split; intros i Hi; rewrite Hrc, Hcm by done.
      * rewrite csr_write_other, csr_set_other, stip_clear, csr_write_other by other. by rewrite Hot by set_solver.
      * rewrite csr_write_other, mtie_set, csr_clear_other, csr_write_other by other. by rewrite Hot by set_solver.
Qed.

(** ** Start-up and entering user mode *)

(** The configuration that start.s writes. *)
Definition start_csrs (smode_addr mmode_addr after : Z) (f : csrfile) : csrfile :=
  let f := csr_write Mideleg 0x222 (csr_write Medeleg 0xb1ff f) in
  let f := csr_set Pmpcfg0 15 (csr_write Pmpaddr0 (2 ^ 64 - 1) (csr_set Mstatus 4 f)) in
  let f := csr_set Scounteren 7 (csr_set Mcounteren 7 (csr_write Stvec smode_addr (csr_write Mtvec mmode_addr f))) in
  csr_write Mepc after (csr_set Mstatus 0x0800 (csr_clear Mstatus 0x1080 f)).

Lemma start_mmode_runs smode_addr mmode_addr after m : length (gpr m) = 32%nat → 0 ≤ after < 2 ^ 64 →
  0 ≤ smode_addr < 2 ^ 64 → 0 ≤ mmode_addr < 2 ^ 64 →
  ∃ m1, run (start_mmode smode_addr mmode_addr after) m = Done m1 ∧ csrs m1 = start_csrs smode_addr mmode_addr after (csrs m) ∧
    length (gpr m1) = 32%nat ∧ stk m1 = stk m.
Proof.
  intros Hlen Haf Hsa Hma. unfold start_mmode. cbn [run]. steps. rewrite get_0. change (u64 (0 + -1)) with (2 ^ 64 - 1).
  rewrite (u64_small smode_addr), (u64_small mmode_addr), (u64_small after) by lia.
  eexists. split; [reflexivity|]. split; [done|]. cbn [gpr stk with_csrs]. by autorewrite with machine.
Qed.

(** The code at reset leaves the kernel at [main] in S mode with the stack of the
    main thread, the trap vectors of S and M mode set, and the traps delegated that the
    kernel handles in S mode; the flag of interrupts is not changed.  Interrupts of M
    mode itself stay off, although a comment says that they are enabled: the bit that is
    set is not MIE. *)
Theorem start_spec smode_addr mmode_addr main anchor after m :
  mmode m = MMode → length (gpr m) = 32%nat → word_pc after →
  0 ≤ smode_addr < 2 ^ 64 → 0 ≤ mmode_addr < 2 ^ 64 → 0 ≤ anchor < 2 ^ 64 →
  ∃ m3, start smode_addr mmode_addr main anchor after m = Done m3 ∧ mmode m3 = SMode ∧ mpc m3 = main ∧ get sp m3 = anchor ∧ get fp m3 = 0 ∧
    csrs m3 Stvec = smode_addr ∧ csrs m3 Mtvec = mmode_addr ∧ csrs m3 Medeleg = 0xb1ff ∧ csrs m3 Mideleg = 0x222 ∧
    irq_on (csrs m3) = irq_on (csrs m) ∧ Z.testbit (csrs m3 Mstatus) 3 = false ∧ stk m3 = stk m.
Proof.
  intros Hm Hlen Haf Hsa Hma Han. pose proof Haf as [Har _]. unfold start.
  destruct (start_mmode_runs smode_addr mmode_addr after m Hlen Har Hsa Hma) as (m1 & -> & Hc & Hl1 & Hs1). rewrite bind_ret.
  set (f := start_csrs smode_addr mmode_addr after (csrs m)) in *.
  assert (Hms : ∀ i, 0 ≤ i < 64 → Z.testbit (f Mstatus) i =
    ((Z.testbit (csrs m Mstatus) i || bool_decide (i = 2)) && negb (bool_decide (i = 7) || bool_decide (i = 12))) || bool_decide (i = 11)).
  { intros i Hi. unfold f, start_csrs. rewrite csr_write_other by other. unfold csr_set, csr_clear. cbn [csr_write csr_read].
    rewrite !csr_upd_same, !u64_bit, Z.lor_spec, u64_bit, Z.land_spec, Z.lnot_spec by lia. rewrite (const_bit 0x800 11) by done.
    assert (H7 : Z.testbit 0x1080 i = bool_decide (i = 7) || bool_decide (i = 12)).
    { change 0x1080 with (Z.lor (Z.shiftl 1 7) (Z.shiftl 1 12)). by rewrite Z.lor_spec, !bit_spec by lia. }
    rewrite H7. rewrite !csr_upd_ne, !csr_upd_same by done. rewrite u64_bit, Z.lor_spec, (const_bit 4 2) by done.
    by rewrite !csr_upd_ne by done. }
  assert (Hmr : mmode (mret m1) = SMode ∧ gpr (mret m1) = gpr m1 ∧ stk (mret m1) = stk m ∧
    (∀ c, c ≠ Mstatus → csrs (mret m1) c = f c) ∧ irq_on (csrs (mret m1)) = irq_on (csrs m) ∧ Z.testbit (csrs (mret m1) Mstatus) 3 = false).
  { unfold mret, irq_on. rewrite Hc. cbn [mmode jump with_csrs gpr stk csrs]. rewrite !Hms by lia.
    split; [by destruct (Z.testbit (csrs m Mstatus) 11), (Z.testbit (csrs m Mstatus) 12)|].
    split; [done|]. split; [done|]. split; [intros c ?; by apply csr_upd_ne|].
    rewrite csr_upd_same, !put_bit_spec by lia. rewrite !decide_False, decide_True, Hms by (first [done | lia]).
    split; [by destruct (Z.testbit (csrs m Mstatus) 1)|]. by rewrite andb_false_r. }
  destruct Hmr as (Hmm & Hgm & Hsm & Hcm & Hirq & H3). cbn [run]. steps. rewrite get_0, !u64_small by lia.
  eexists. split; [reflexivity|]. rewrite !get_jump. cbn [mpc mmode jump csrs stk]. rewrite !mmode_put, !csrs_put, !stk_put.
  split; [done|]. split; [done|]. split; [by rewrite get_put_ne, get_put_eq by (first [done | rewrite Hgm; lia])|].
  split; [by rewrite get_put_eq by (first [done | rewrite length_put, Hgm; lia])|].
  rewrite !Hcm by done. unfold f, start_csrs. cbn zeta.
  split; [rewrite csr_write_other, csr_set_other, csr_clear_other, !csr_set_other by other; by apply csr_write_plain; [repeat constructor|]|].
  split; [rewrite csr_write_other, csr_set_other, csr_clear_other, !csr_set_other, csr_write_other by other; by apply csr_write_plain; [repeat constructor|]|].
  split; [rewrite csr_write_other, csr_set_other, csr_clear_other, !csr_set_other, !csr_write_other, csr_set_other, csr_write_other, csr_set_other, csr_write_other by other; by apply csr_write_plain; [repeat constructor|]|].
  split; [|done]. rewrite csr_write_other, csr_set_other, csr_clear_other, !csr_set_other, !csr_write_other, csr_set_other, csr_write_other, csr_set_other by other.
  by apply csr_write_plain; [repeat constructor|].
Qed.

(** What [process_exec] ends with: [_thread_finish_jump] with the anchor of the
    kernel stack, the stack pointer and the program counter of the user enters user
    mode there, ready for traps, with interrupts on; the other registers still hold
    what the kernel left in them. *)
Theorem finish_jump_enters umode_addr m : length (gpr m) = 32%nat → (∀ i, 0 ≤ get i m < 2 ^ 64) →
  word_pc (get a2 m) → block (get a0 m - 272) 34 (stk m) → csrs m Medeleg = 0xb1ff → csrs m Mideleg = 0x222 → 0 ≤ umode_addr < 2 ^ 64 →
  ∃ m3, _thread_finish_jump umode_addr m = Done m3 ∧ user_ready umode_addr (get a0 m) m3 ∧
    mpc m3 = get a2 m ∧ get sp m3 = get a1 m ∧ irq_on (csrs m3) = true ∧
    (∀ i, i ∉ [sp; t0; t6] → get i m3 = get i m) ∧ stk m3 = stk m.
Proof.
  intros Hlen Hg Hpc Hb Hme Hmi Hua. unfold _thread_finish_jump. cbn [run]. steps.
  rewrite !(u64_small umode_addr), !(u64_small (Z.shiftl 1 8)), !(u64_small (Z.shiftl 1 5)) by (first [done | lia]).
  set (f := csr_set Sstatus _ _). set (m' := with_csrs f _).
  assert (Hp : ∀ c, c ∉ [Sstatus; Sie; Sip; Mstatus; Sepc; Stvec; Sscratch] → f c = csrs m c).
  { intros c Hc. unfold f, csr_set, csr_clear. rewrite !sstatus_write_other, !csr_write_other; [done|..]; first [other | set_solver]. }
  assert (Hmst : Z.testbit (f Mstatus) 8 = false ∧ Z.testbit (f Mstatus) 5 = true).
  { unfold f. rewrite !sstatus_set_bit, !sstatus_clear_bit, !bit_spec by done. split; [|apply orb_true_r].
    by rewrite andb_false_r. }
  assert (Hgm : ∀ i, i ∉ [sp; t0; t6] → get i m' = get i m).
  { intros i Hi. rewrite !not_elem_of_cons in Hi. destruct Hi as (? & ? & ? & _). unfold m'. by rewrite get_csrs, !get_put_ne by done. }
  assert (Hsp' : get sp m' = get a1 m) by (unfold m'; by rewrite get_csrs, get_put_eq by regs).
  assert (Hlen' : length (gpr m') = 32%nat) by (unfold m'; cbn [gpr with_csrs]; by autorewrite with machine).
  assert (Hst' : stk m' = stk m) by (unfold m'; cbn [stk with_csrs]; by autorewrite with machine).
  exists (sret m'). split; [done|]. destruct Hmst as [H8 H5]. unfold sret. change (csrs m') with f. rewrite H8, H5.
  assert (Hpc3 : csr_read Sepc (csr_upd Mstatus (put_bit 8 false (put_bit 5 true (put_bit 1 true (f Mstatus)))) f) = get a2 m).
  { cbn [csr_read]. rewrite csr_upd_ne by done. unfold f, csr_set, csr_clear. rewrite !sstatus_write_other by done. cbn [csr_write].
    rewrite csr_upd_same. by apply word_pc_keep. }
  rewrite Hpc3. split; [split|].
  - done.
  - done.
  - apply get_range; [done|]. intros i _. rewrite get_jump, get_csrs. destruct (decide (i ∈ [sp; t0; t6])) as [Hi|Hi]; [|by rewrite Hgm].
    rewrite !elem_of_cons, elem_of_nil in Hi. destruct Hi as [->|[->|[->|[]]]]; [by rewrite Hsp'| |].
    + unfold m'. rewrite get_csrs, get_put_ne, get_put_eq by (first [done | regs]). by vm_compute.
    + unfold m'. rewrite get_csrs, !get_put_ne, get_put_eq by (first [done | regs]). done.
  - done.
  - cbn [csrs jump with_csrs]. rewrite csr_upd_ne by done. unfold f, csr_set, csr_clear. rewrite !sstatus_write_other by done.
    rewrite csr_write_other by other. by apply csr_write_plain; [repeat constructor|].
  - cbn [csrs jump with_csrs]. rewrite csr_upd_ne by done. unfold f, csr_set, csr_clear. rewrite !sstatus_write_other by done.
    rewrite (csr_write_other Sepc), (csr_write_other Stvec) by other. apply csr_write_plain; [repeat constructor|apply Hg].
  - cbn [stk jump with_csrs]. by rewrite Hst'.
  - cbn [csrs jump with_csrs]. rewrite csr_upd_ne, Hp by other. done.
  - cbn [csrs jump with_csrs]. rewrite csr_upd_ne, Hp by other. done.
  - split; [done|]. split; [exact Hsp'|]. split; [|split; [exact Hgm|exact Hst']].
    unfold irq_on. cbn [csrs jump with_csrs]. rewrite csr_upd_same, !put_bit_spec by lia. by rewrite !decide_False, decide_True by done.
Qed.

(** ** Contexts of threads *)

(** The registers that a function keeps, as they are in a context. *)
Definition ctx_regs : list (nat * Z) :=
  [(s0, 0); (s1, 1); (s2, 2); (s3, 3); (s4, 4); (s5, 5); (s6, 6); (s7, 7); (s8, 8); (s9, 9); (s10, 10); (s11, 11); (ra, 12); (sp, 13)].
Lemma swtch_save_stores : swtch_save = stores tp ctx_regs.
Proof. reflexivity. Qed.
Lemma swtch_load_loads : swtch_load = loads tp (reverse ctx_regs).
Proof. reflexivity. Qed.

Definition ctx_of (m : machine) : thread_context :=
  Ctx (map (λ r, get r m) [s0; s1; s2; s3; s4; s5; s6; s7; s8; s9; s10; s11]) (get ra m) (get sp m).
Definition ctx_words (c : thread_context) : list Z := ctx_s c ++ [ctx_ra c; ctx_sp c].
(** The structure of the thread at [a] starts with the context [c]. *)
Definition holds_ctx (a : Z) (c : thread_context) (w : gmap Z Z) : Prop :=
  length (ctx_s c) = 12%nat ∧ ∀ k, (k < 14)%nat → w !! (a + 8 * Z.of_nat k) = Some (ctx_words c !!! k).

Definition ctx_slot (r : nat) : nat :=
  match r with 1 => 12 | 2 => 13 | 8 => 0 | 9 => 1 | _ => r - 16 end%nat.

Lemma ctx_regs_spec r i m : (r, i) ∈ ctx_regs → 0 ≤ i < 14 ∧ ctx_words (ctx_of m) !!! Z.to_nat i = get r m ∧ ctx_slot r = Z.to_nat i.
Proof.
  unfold ctx_regs. rewrite !elem_of_cons, elem_of_nil. intros Hp. repeat destruct Hp as [[= -> ->]|Hp]; try done; (split; [lia|split; reflexivity]).
Qed.
Lemma ctx_regs_all k : (k < 14)%nat → ∃ r, (r, Z.of_nat k) ∈ ctx_regs.
Proof.
  intros Hk. destruct (ctx_regs !! k) as [[r i]|] eqn:Hl; [|apply lookup_ge_None in Hl; cbn in Hl; lia].
  exists r. replace (Z.of_nat k) with i; [by eapply list_elem_of_lookup_2|].
  do 14 (destruct k as [|k]; [by injection Hl as <- <-|]). lia.
Qed.
Lemma ctx_regs_bounds : Forall (λ p, 0 ≤ p.2 < 14) ctx_regs ∧ NoDup ctx_regs.*2 ∧ NoDup ctx_regs.*1 ∧
  Forall (λ r, r ≠ 0%nat ∧ r ≠ tp ∧ (r < 32)%nat) ctx_regs.*1.
Proof. split; [|split; [|split]]; by apply (bool_decide_unpack _). Qed.

(** A context is determined by its words. *)
Lemma ctx_words_eq c m : length (ctx_s c) = 12%nat → (∀ r i, (r, i) ∈ ctx_regs → get r m = ctx_words c !!! Z.to_nat i) → ctx_of m = c.
Proof.
  intros Hl Hr. destruct c as [s rr ss]. cbn [ctx_s] in Hl.
  do 12 (destruct s as [|? s]; [done|]). destruct s; [|done].
  assert (Hreg : Forall (λ p, get p.1 m = ctx_words (Ctx [z; z0; z1; z2; z3; z4; z5; z6; z7; z8; z9; z10] rr ss) !!! Z.to_nat p.2) ctx_regs).
  { apply Forall_forall. intros [r i] Hp. by apply Hr. }
  unfold ctx_regs in Hreg. rewrite !Forall_cons in Hreg. cbn [fst snd] in Hreg. unfold ctx_of. cbn [map].
  destruct Hreg as (-> & -> & -> & -> & -> & -> & -> & -> & -> & -> & -> & -> & -> & -> & _). reflexivity.
Qed.

Lemma holds_ctx_block a c w : 0 ≤ a → a + 8 * 14 < 2 ^ 64 → holds_ctx a c w → block a 14 w.
Proof.
  intros Hl Hh [_ Hw]. split; [done|done|]. intros i Hi. exists (ctx_words c !!! Z.to_nat i). rewrite <- Hw by lia. do 2 f_equal. lia.
Qed.

(** [_thread_swtch] from the thread at tp to that at a0. *)
Lemma swtch_spec m c : length (gpr m) = 32%nat → let A := get tp m in let B := get a0 m in
  block A 14 (stk m) → block B 14 (stk m) → A + 112 ≤ B ∨ B + 112 ≤ A → holds_ctx B c (stk m) →
  ∃ m', _thread_swtch m = Done m' ∧ get tp m' = B ∧ mpc m' = ctx_ra c ∧ ctx_of m' = c ∧ holds_ctx A (ctx_of m) (stk m') ∧
    holds_ctx B c (stk m') ∧ (∀ b, b < A ∨ A + 112 ≤ b → stk m' !! b = stk m !! b) ∧
    csrs m' = csrs m ∧ mmode m' = mmode m ∧ length (gpr m') = 32%nat.
Proof.
  intros Hlen A B HA HB Hd [Hcl Hcw]. destruct ctx_regs_bounds as (Hbd & Hn2 & Hn1 & Hrs).
  destruct (run_stores tp 14 ctx_regs m HA Hbd Hn2) as (w & Hr & Hbw & Hin & Hout). fold A in Hbw, Hin, Hout.
  assert (Hout' : ∀ b, b < A ∨ A + 112 ≤ b → w !! b = stk m !! b).
  { intros b Hb. apply Hout. intros i Hi. apply list_elem_of_fmap in Hi as ([r j] & -> & Hp). apply (ctx_regs_spec _ _ m) in Hp. cbn [snd]. lia. }
  unfold _thread_swtch. rewrite run_app, swtch_save_stores, Hr, bind_ret, run_app. cbn [run]. step. rewrite bind_ret. rewrite get_stk. fold B.
  rewrite put_stk. set (m1 := with_stk w (put tp B m)).
  assert (Htp1 : get tp m1 = B) by (unfold m1; rewrite get_stk, get_put_eq by (first [done | lia]); done).
  rewrite swtch_load_loads.
  assert (HwB : ∀ k, (k < 14)%nat → w !! (B + 8 * Z.of_nat k) = Some (ctx_words c !!! k)) by (intros k Hk; rewrite Hout' by lia; by apply Hcw).
  destruct (run_loads tp 14 (λ r, ctx_words c !!! ctx_slot r) (reverse ctx_regs) m1) as (g & Hg & Hgl & Hgi & Hgo).
  - rewrite Htp1. unfold m1. cbn [stk with_stk]. split; [apply HB|apply HB|].
    intros k Hk. exists (ctx_words c !!! Z.to_nat k). rewrite <- HwB by lia. do 2 f_equal. lia.
  - by apply Forall_reverse.
  - rewrite fmap_reverse. apply Forall_reverse. unfold m1. cbn [gpr with_stk]. by rewrite length_put, Hlen.
  - by rewrite fmap_reverse, reverse_Permutation.
  - intros r i Hp. apply elem_of_reverse, (ctx_regs_spec _ _ m) in Hp as (Hi & _ & ->). rewrite Htp1. unfold m1. cbn [stk with_stk].
    rewrite <- HwB by lia. do 2 f_equal. lia.
  - rewrite Hg, bind_ret. set (m2 := with_gpr g m1).
    assert (Hreg : ∀ r i, (r, i) ∈ ctx_regs → get r m2 = ctx_words c !!! Z.to_nat i).
    { intros r i Hp. unfold m2. rewrite Hgi; [by apply (ctx_regs_spec _ _ m) in Hp as (_ & _ & ->)|].
      rewrite fmap_reverse. apply elem_of_reverse, list_elem_of_fmap. by exists (r, i). }
    assert (Htp2 : get tp m2 = B).
    { unfold m2. rewrite Hgo; [done|]. rewrite fmap_reverse, elem_of_reverse. by apply (bool_decide_unpack _). }
    eexists. split; [reflexivity|]. rewrite get_jump. cbn [mpc jump stk csrs mmode gpr m2 with_gpr m1 with_stk].
    rewrite csrs_put, mmode_put. split; [done|].
    split; [rewrite (Hreg ra 12) by (by apply (bool_decide_unpack _)); unfold ctx_words; rewrite lookup_total_app_r by lia; by rewrite Hcl|].
    split; [by apply ctx_words_eq|]. split; [|split; [by split|split; [done|split; [done|split; [done|]]]]].
    + split; [done|]. intros k Hk. destruct (ctx_regs_all k Hk) as [r Hp]. rewrite (Hin _ _ Hp).
      apply (ctx_regs_spec _ _ m) in Hp as (_ & Hv & _). by rewrite Nat2Z.id in Hv; rewrite Hv.
    + rewrite Hgl. unfold m1. cbn [gpr with_stk]. by rewrite length_put.
Qed.

(** C15: a thread that gives up the CPU in [_thread_swtch] goes on behind that call when it
    is switched to again: whatever runs in between, if it leaves the context of the
    thread alone, tp, sp and the registers that a function keeps are as they were, and
    it returns to where the call came from. *)
Theorem switch_back m c m2 : length (gpr m) = 32%nat → let A := get tp m in let B := get a0 m in
  block A 14 (stk m) → block B 14 (stk m) → A + 112 ≤ B ∨ B + 112 ≤ A → holds_ctx B c (stk m) →
  ∃ m1, _thread_swtch m = Done m1 ∧ get tp m1 = B ∧ mpc m1 = ctx_ra c ∧ ctx_of m1 = c ∧
    (length (gpr m2) = 32%nat → get a0 m2 = A → let C := get tp m2 in block C 14 (stk m2) → block A 14 (stk m2) →
     A + 112 ≤ C ∨ C + 112 ≤ A → (∀ b, A ≤ b < A + 112 → stk m2 !! b = stk m1 !! b) →
     ∃ m3, _thread_swtch m2 = Done m3 ∧ get tp m3 = A ∧ mpc m3 = get ra m ∧ ctx_of m3 = ctx_of m).
Proof.
  intros Hlen A B HA HB Hd Hc. destruct (swtch_spec m c Hlen HA HB Hd Hc) as (m1 & Hs & Htp & Hpc & Hctx & Hold & _).
  exists m1. split; [done|]. split; [done|]. split; [done|]. split; [done|]. intros Hlen2 Ha0 C HC HA2 Hd2 Hkeep.
  destruct (swtch_spec m2 (ctx_of m) Hlen2) as (m3 & Hs3 & Htp3 & Hpc3 & Hctx3 & _).
  - done.
  - by rewrite Ha0.
  - rewrite Ha0. fold C. lia.
  - rewrite Ha0. destruct Hold as [Hl Hw]. split; [done|]. intros k Hk. fold A in Hw. rewrite Hkeep by lia. by apply Hw.
  - exists m3. split; [done|]. split; [by rewrite Htp3|]. by split.
Qed.

Lemma block_below b w w' a n : a + 8 * n ≤ b → block a n w → (∀ x, x < b → w' !! x = w !! x) → block a n w'.
Proof. intros Hab [Hl Hh Hw] Heq. split; [done|done|]. intros i Hi. rewrite Heq by lia. by apply Hw. Qed.

(** [_thread_setup(thr, ksp, start, arg)]. *)
Lemma setup_spec glue m : length (gpr m) = 32%nat → block (get a0 m) 14 (stk m) → 0 ≤ glue < 2 ^ 64 →
  ∃ m1, _thread_setup glue m = Done m1 ∧ length (gpr m1) = 32%nat ∧ get tp m1 = get tp m ∧ block (get a0 m) 14 (stk m1) ∧
    (∀ k v, (k, v) ∈ [(13, get a1 m); (11, get a2 m); (0, get a3 m); (1, get a4 m); (12, glue)] → stk m1 !! (get a0 m + 8 * k) = Some v) ∧
    (∀ b, b < get a0 m ∨ get a0 m + 112 ≤ b → stk m1 !! b = stk m !! b) ∧ mpc m1 = get ra m ∧ get sp m1 = get sp m.
Proof.
  intros Hlen Hb Hg. unfold _thread_setup. rewrite run_app.
  change ([SD a1 (13 * 8) a0; _; _; _; _; _; _]) with (stores a0 [(a1, 13); (a2, 11); (a3, 0); (a4, 1); (a5, 2); (a6, 3); (a7, 4)]).
  set (l := [(a1, 13); _; _; _; _; _; _]).
  destruct (run_stores a0 14 l m Hb) as (w & -> & Hbw & Hin & Hout); [by apply (bool_decide_unpack _)..|].
  rewrite bind_ret. cbn [run]. steps. rewrite u64_small by lia. set (m1 := with_stk w (put t0 glue m)).
  assert (Ha0 : get a0 m1 = get a0 m) by (unfold m1; by rewrite get_stk, get_put_ne).
  rewrite (exec_SD _ _ _ 12 14) by (first [done | lia | by rewrite Ha0]). rewrite !bind_ret, Ha0.
  assert (Ht0 : get t0 m1 = glue) by (unfold m1; by rewrite get_stk, get_put_eq by regs). rewrite Ht0.
  eexists. split; [reflexivity|]. cbn [stk mpc jump with_stk m1]. rewrite !get_stk.
  split; [unfold m1; cbn [gpr with_stk jump]; by rewrite length_put|]. split; [unfold m1; by rewrite get_jump, !get_stk, get_put_ne|].
  split; [apply (block_agree _ _ w); [intros b HB; by apply lookup_insert_is_Some'; right|done]|].
  split; [|split; [|split]].
  - intros k v Hkv. destruct (decide (k = 12)) as [->|Hk].
    + replace (get a0 m + 8 * 12) with (get a0 m + 96) by lia. rewrite lookup_insert_eq. f_equal.
      rewrite !elem_of_cons, elem_of_nil in Hkv. naive_solver.
    + rewrite lookup_insert_ne by lia. rewrite !elem_of_cons, elem_of_nil in Hkv.
      destruct Hkv as [[= -> ->]|[[= -> ->]|[[= -> ->]|[[= -> ->]|[[= -> ->]|[]]]]]]; [| | | |done];
        (apply Hin; by apply (bool_decide_unpack _)).
  - intros b Hb'. rewrite lookup_insert_ne by lia. apply Hout. intros i Hi.
    assert (0 ≤ i < 14); [|lia]. unfold l in Hi. cbn in Hi. rewrite !elem_of_cons, elem_of_nil in Hi. lia.
  - unfold m1. by rewrite !get_stk, get_put_ne.
  - unfold m1. by rewrite get_jump, !get_stk, get_put_ne.
Qed.

(** C26: a new thread starts: after [_thread_setup] has written its context, the first
    switch to it runs [start] with [arg], on the stack at [ksp], and a return from
    [start] goes to [thread_exit]. *)
Theorem thread_starts glue thread_exit m m2 : length (gpr m) = 32%nat → let thr := get a0 m in
  block thr 14 (stk m) → 0 ≤ glue < 2 ^ 64 → 0 ≤ thread_exit < 2 ^ 64 →
  ∃ m1, _thread_setup glue m = Done m1 ∧ mpc m1 = get ra m ∧ get sp m1 = get sp m ∧ (∀ b, b < thr ∨ thr + 112 ≤ b → stk m1 !! b = stk m !! b) ∧
    (length (gpr m2) = 32%nat → get a0 m2 = thr → block (get tp m2) 14 (stk m2) → block thr 14 (stk m2) →
     get tp m2 + 112 ≤ thr ∨ thr + 112 ≤ get tp m2 → (∀ b, thr ≤ b < thr + 112 → stk m2 !! b = stk m1 !! b) →
     ∃ m3 m4, _thread_swtch m2 = Done m3 ∧ mpc m3 = glue ∧ setup_glue thread_exit m3 = Done m4 ∧ mpc m4 = get a2 m ∧ get a0 m4 = get a3 m ∧
       get sp m4 = get a1 m ∧ get fp m4 = get a1 m ∧ get ra m4 = thread_exit ∧ get tp m4 = thr).
Proof.
  intros Hlen thr Hb Hgl Hte. destruct (setup_spec glue m Hlen Hb Hgl) as (m1 & Hs & _ & _ & _ & Hw & Hout & Hpc & Hsp). fold thr in Hw, Hout.
  exists m1. split; [done|]. split; [done|]. split; [done|]. split; [done|]. intros Hlen2 Ha0 Htp HB Hd Hkeep.
  set (c := Ctx (map (λ k, default 0 (stk m2 !! (thr + 8 * k))) [0; 1; 2; 3; 4; 5; 6; 7; 8; 9; 10; 11]) (default 0 (stk m2 !! (thr + 8 * 12))) (default 0 (stk m2 !! (thr + 8 * 13)))).
  assert (Hc : holds_ctx thr c (stk m2)).
  { split; [done|]. intros k Hk. destruct (bl_words _ _ _ HB (Z.of_nat k)) as [v Hv]; [lia|].
    assert (Hck : ctx_words c !!! k = default 0 (stk m2 !! (thr + 8 * Z.of_nat k))); [|by rewrite Hck, Hv].
    clear Hv. do 14 (destruct k as [|k]; [reflexivity|]). lia. }
  destruct (swtch_spec m2 c Hlen2) as (m3 & Hs3 & Htp3 & Hpc3 & Hctx3 & _ & _ & _ & _ & _ & Hlen3); [done|by rewrite Ha0|rewrite Ha0; lia|by rewrite Ha0|].
  assert (Hk : ∀ k v, (k, v) ∈ [(13, get a1 m); (11, get a2 m); (0, get a3 m); (1, get a4 m); (12, glue)] → stk m2 !! (thr + 8 * k) = Some v).
  { intros k v Hkv. rewrite <- (Hw k v Hkv). apply Hkeep. rewrite !elem_of_cons, elem_of_nil in Hkv.
    assert (0 ≤ k < 14); [|lia]. destruct Hkv as [[= -> ->]|[[= -> ->]|[[= -> ->]|[[= -> ->]|[[= -> ->]|[]]]]]]; lia. }
  pose proof (Hk 13 (get a1 m) ltac:(set_solver)) as K13. pose proof (Hk 11 (get a2 m) ltac:(set_solver)) as K11. pose proof (Hk 0 (get a3 m) ltac:(set_solver)) as K0.
  pose proof (Hk 12 (glue) ltac:(set_solver)) as K12. pose proof (f_equal (λ c, ctx_s c !!! 0%nat) Hctx3) as R0. pose proof (f_equal (λ c, ctx_s c !!! 11%nat) Hctx3) as R11.
  pose proof (f_equal ctx_sp Hctx3) as R13. cbn [ctx_of ctx_s ctx_sp map] in R0, R11, R13. unfold c in R0, R11, R13. cbn [ctx_s ctx_sp map] in R0, R11, R13.
  rewrite K13 in R13. cbn in R13. change (get 8 m3 = default 0 (stk m2 !! (thr + 8 * 0))) in R0. rewrite K0 in R0. cbn in R0.
  change (get 27 m3 = default 0 (stk m2 !! (thr + 8 * 11))) in R11. rewrite K11 in R11. cbn in R11.
  exists m3. unfold setup_glue. cbn [run]. steps. rewrite u64_small by lia. eexists. split; [done|].
  split; [rewrite Hpc3; unfold c; cbn [ctx_ra]; by rewrite K12|]. split; [reflexivity|]. rewrite !get_jump. cbn [mpc jump].
  repeat first [rewrite get_put_eq by regs | rewrite get_put_ne by done]. by rewrite Htp3, R0, R13.
Qed.

(** ** Examples *)

Lemma get_range_list (l : list Z) f w pc p : length l = 32%nat → Forall (λ v, 0 ≤ v < 2 ^ 64) l → ∀ i, 0 ≤ get i (Mach pc p l f w) < 2 ^ 64.
Proof.
  intros Hl Hr. apply get_range; [done|]. intros i Hi. unfold get. rewrite decide_False by lia. cbn [gpr].
  rewrite Forall_lookup in Hr. apply (Hr i), list_lookup_lookup_total_lt. lia.
Qed.

Lemma mmode_timer_witness :
  ∃ m3, mmode_entry (trap (2 ^ 63 + 7) 0 kernel_machine) = Done m3 ∧ mpc m3 = 0x110 ∧ get a0 m3 = 5 ∧ Z.testbit (csrs m3 Mip) 5 = true.
Proof.
  destruct (mmode_timer kernel_machine 0) as [(_ & m3 & He & Hr & Hp & _) _]; [done|reflexivity|by split| |reflexivity|reflexivity|].
  - apply get_range_list; [reflexivity|]. by apply (bool_decide_unpack _).
  - exists m3. split; [exact He|]. split; [apply Hr|]. split; [by rewrite (rm_gpr _ _ _ Hr a0)|]. by rewrite (Hp 5).
Defined.

Lemma start_spec_witness :
  let m := Mach 0x80000000 MMode (replicate 32 0) (λ _, 0) ∅ in
  ∃ m3, start 0x100 0x300 0x1000 8464 0x80000100 m = Done m3 ∧ mpc m3 = 0x1000 ∧ mmode m3 = SMode ∧ csrs m3 Stvec = 0x100.
Proof.
  intros m. destruct (start_spec 0x100 0x300 0x1000 8464 0x80000100 m) as (m3 & He & Hm & Hpc & _ & _ & Hst & _);
    [done|reflexivity|by split|done|done|done|].
  exists m3. split; [exact He|]. split; [exact Hpc|]. split; [exact Hm|exact Hst].
Defined.

(** The arguments of [_thread_finish_jump] in a0 to a2. *)
Definition jump_machine : machine := put a2 0xC0000100 (put a1 0xD0000000 (put a0 8464 kernel_machine)).

Lemma finish_jump_enters_witness : ∃ m3, _thread_finish_jump 0x200 jump_machine = Done m3 ∧ mpc m3 = 0xC0000100 ∧ mmode m3 = UMode ∧ get sp m3 = 0xD0000000.
Proof.
  destruct (finish_jump_enters 0x200 jump_machine) as (m3 & He & Hu & Hpc & Hsp & _); [reflexivity| |by split| |reflexivity|reflexivity|done|].
  - apply (get_range_list (gpr jump_machine)); [reflexivity|]. by apply (bool_decide_unpack _).
  - change (block 8192 34 (zeros 8192 34)). apply zeros_block; first [lia | by exists 0].
  - exists m3. split; [exact He|]. split; [exact Hpc|]. split; [apply Hu|exact Hsp].
Defined.

(** Two threads with contexts at 4096 and 4352; the first one runs. *)
Definition two_threads : machine :=
  Mach 0x500 SMode (<[ra := 0x504]> (<[sp := 8000]> (<[a0 := 4352]> (<[tp := 4096]> (replicate 32 3))))) (user_csrs 0x100) (zeros 4096 64).
Definition idle_ctx : thread_context := Ctx (replicate 12 0) 0 0.

Lemma two_threads_blocks a : a = 4096 ∨ a = 4352 → block a 14 (zeros 4096 64).
Proof. intros Ha. destruct Ha as [->| ->]; apply zeros_block; first [lia | by exists 0 | by exists 32]. Qed.

Lemma holds_idle a : a = 4096 ∨ a = 4352 → holds_ctx a idle_ctx (zeros 4096 64).
Proof.
  intros Ha. split; [done|]. intros k Hk. destruct Ha as [->| ->].
  - rewrite zeros_lookup by lia. do 14 (destruct k as [|k]; [reflexivity|]). lia.
  - replace (4352 + 8 * Z.of_nat k) with (4096 + 8 * (32 + Z.of_nat k)) by lia. rewrite zeros_lookup by lia.
    do 14 (destruct k as [|k]; [reflexivity|]). lia.
Qed.

(** The second thread switches back. *)
Lemma switch_back_witness :
  ∃ m1 m3, _thread_swtch two_threads = Done m1 ∧ get tp m1 = 4352 ∧ _thread_swtch (put a0 4096 m1) = Done m3 ∧ mpc m3 = 0x504 ∧ get sp m3 = 8000.
Proof.
  destruct (swtch_spec two_threads idle_ctx eq_refl) as (m1 & He & Htp & _ & _ & Ho & Hb & Hout & _ & _ & Hl);
    [by apply two_threads_blocks; left|by apply two_threads_blocks; right|by left|by apply holds_idle; right|].
  change (get tp two_threads) with 4096 in *. change (get a0 two_threads) with 4352 in *.
  destruct (switch_back two_threads idle_ctx (put a0 4096 m1) eq_refl) as (m1' & He' & Htp' & _ & _ & Hback);
    [by apply two_threads_blocks; left|by apply two_threads_blocks; right|by left|by apply holds_idle; right|].
  rewrite He in He'. injection He' as <-. exists m1. destruct Hback as (m3 & H1 & H2 & H3 & H4).
  - rewrite length_put. exact Hl.
  - rewrite get_put_eq; [reflexivity|discriminate|rewrite Hl; lia].
  - rewrite (get_put_ne tp a0), Htp, stk_put by discriminate. apply (holds_ctx_block _ idle_ctx); [lia|lia|exact Hb].
  - rewrite stk_put. apply (holds_ctx_block 4096 (ctx_of two_threads)); [lia|lia|exact Ho].
  - rewrite (get_put_ne tp a0), Htp by discriminate. left. change (4096 + 112 ≤ 4352). lia.
  - intros b _. rewrite stk_put. reflexivity.
  - exists m3. split; [exact He|]. split; [exact Htp|]. split; [exact H1|]. split; [exact H3|]. exact (f_equal ctx_sp H4).
Defined.

(** The arguments of [_thread_setup]. *)
Definition setup_machine : machine := put a3 77 (put a2 0x900 (put a1 7000 two_threads)).

Lemma thread_starts_witness :
  ∃ m1 m3 m4, _thread_setup 0x600 setup_machine = Done m1 ∧ _thread_swtch (put a0 4352 m1) = Done m3 ∧ mpc m3 = 0x600 ∧
    setup_glue 0x700 m3 = Done m4 ∧ mpc m4 = 0x900 ∧ get a0 m4 = 77 ∧ get sp m4 = 7000.
Proof.
  assert (Hb : block (get a0 setup_machine) 14 (stk setup_machine)) by by apply two_threads_blocks; right.
  destruct (setup_spec 0x600 setup_machine eq_refl Hb ltac:(done)) as (m1 & He & Hl & Htp & HbB & _ & Hout & _).
  change (get tp setup_machine) with 4096 in *. change (get a0 setup_machine) with 4352 in *.
  assert (HbA : block 4096 14 (stk m1)).
  { apply (block_below 4352 (stk setup_machine)); [lia|by apply two_threads_blocks; left|]. intros b Hlt. apply Hout. by left. }
  pose proof (thread_starts 0x600 0x700 setup_machine (put a0 4352 m1) eq_refl Hb ltac:(lia) ltac:(lia)) as Hts.
  destruct Hts as (m1' & He' & _ & _ & _ & Hst).
  rewrite He in He'. injection He' as <-. destruct Hst as (m3 & m4 & H1 & H2 & H3 & H4 & H5 & H6 & _).
  - rewrite length_put. exact Hl.
  - rewrite get_put_eq; [reflexivity|discriminate|rewrite Hl; lia].
  - rewrite (get_put_ne tp a0), Htp, stk_put by discriminate. exact HbA.
  - rewrite stk_put. exact HbB.
  - rewrite (get_put_ne tp a0), Htp by discriminate. left. change (4096 + 112 ≤ 4352). lia.
  - intros b _. rewrite stk_put. reflexivity.
  - exists m1, m3, m4. split; [exact He|]. split; [exact H1|]. split; [exact H2|]. split; [exact H3|]. split; [exact H4|]. split; [exact H5|exact H6].
Defined.
