(* ===== verification/Boot.v ===== *)
(** The start of the kernel (src/src/kern/main.c): from the entry of [main] to the
    jump into the initial program.

    The drivers of the serial ports and of the block device share one state here.
    Once the block device is open, the file system owns its structure. *)
From Stdlib Require Import ZArith Lia.
From stdpp Require Import base gmap list strings.
From S2P Require Import Prelude CString Pages Heap Pte Memory Thread Lock Io Timer Plic Intr Device Uart Kfs Elf Virtio Vioblk VioblkSpec VioblkDisk Console Objects Process.

Open Scope Z_scope.

Definition UART1_IOBASE : Z := 0x10000100.
Definition UART0_IRQNO : Z := 10.
Definition VIRT0_IRQNO : Z := 1.

(** "fib" *)
Definition INIT_PROC : list Z := cstr [102; 105; 98] [].

(** ** The state of the drivers *)

Record driver_states (υ η : Type) `{VioblkHw η} : Type := Drivers { port_devs : gmap Z (uart_device υ); block_devs : vio_drivers η }.
Arguments Drivers {υ η _ _}.
Arguments port_devs {υ η _ _}.
Arguments block_devs {υ η _ _}.

#[export] Program Instance ports_state υ η `{VioblkHw η} : DriverState (driver_states υ η) (gmap Z (uart_device υ)) := {
  driver := port_devs;
  put_driver u d := Drivers u (block_devs d)
}.
Solve All Obligations with done.

#[export] Program Instance blocks_state υ η `{VioblkHw η} : DriverState (driver_states υ η) (vio_drivers η) := {
  driver := block_devs;
  put_driver b d := Drivers (port_devs d) b
}.
Solve All Obligations with done.

(** ** The devices as I/O objects *)

Inductive dev_object (υ η : Type) : Type :=
| PortDev (d : uart_device υ)
| BlockDev (d : vioblk_device η).
Arguments PortDev {υ η}.
Arguments BlockDev {υ η}.

Section Boot.
Context {υ η π : Type} `{UartHw υ} `{!VirtioHw η, !VioblkHw η} `{PlicDev π} `{IoIntf (dev_object υ η)} `{IoOps (dev_object υ η)}.

Abbreviation drivers_of := (driver_states υ η).
Abbreviation open_state := (list (isr_entry π drivers_of) * kstate π drivers_of)%type.

Definition objects_of (d : drivers_of) : gmap Z (dev_object υ η) :=
  (PortDev <$> port_devs d) ∪ (BlockDev <$> blk_devs (block_devs d)).
Definition states_of (lk : option lock) (objs : gmap Z (dev_object υ η)) : drivers_of :=
  Drivers (omap (λ o, match o with PortDev d => Some d | BlockDev _ => None end) objs)
    (VioDrivers lk (omap (λ o, match o with PortDev _ => None | BlockDev d => Some d end) objs)).

(** An entry of the table of devices for the calls that come after the start: of the
    state that its open function works on, the I/O objects and the threads are kept;
    the interrupt controller is seen as it is at the end of the start. *)
Definition object_device (st : open_state) (d : device open_state) : device (gmap Z (dev_object υ η) * sched) :=
  Device (dev_name d)
    (option_map (λ f aux ws,
       '(rc, p, st') ← f aux (st.1, KState (plic st.2) (ktimer st.2) ws.2 (states_of (blk_lock (block_devs (drivers st.2))) ws.1));
       Done (rc, p, (objects_of (drivers st'.2), ksched st'.2))) (openfn d))
    (dev_aux d).

(** ** main *)

(** What the machine and the kernel image provide: the registers and the memory at
    reset, the addresses of the static objects, and for every slot of a virtio device
    what its registers and the bytes are that the heap gives its driver. *)
Record board : Type := Board {
  b_kimg : kimg;
  b_mem : mem;
  b_console : console υ;
  b_plic : π;
  b_timer : timer;
  b_uarts : list υ;
  b_virtio : list (η * list Z);
  b_stacks : stacks;
  b_main_thread : Z;
  b_idle_thread : Z;
  b_idle_func : Z;
  b_setup_glue : Z;
  b_main_proc : Z
}.

(** The loops that attach the devices, from number [i] on. *)
Fixpoint attach_uarts (i : Z) (us : list υ) (st : open_state) (devs : list (device open_state)) : outcome (open_state * list (device open_state)) :=
  match us with
  | [] => Done (st, devs)
  | u :: us =>
      '(st, devs) ← uart_attach (UART0_IOBASE + (UART1_IOBASE - UART0_IOBASE) * i) (UART0_IRQNO + i) u st devs;
      attach_uarts (i + 1) us st devs
  end.

Fixpoint attach_virtio (i : Z) (hs : list (η * list Z)) (st : open_state) (devs : list (device open_state)) : outcome (open_state * list (device open_state)) :=
  match hs with
  | [] => Done (st, devs)
  | (h, junk) :: hs =>
      '(st, devs) ← virtio_attach (VIRT0_IRQNO + i) junk h st devs;
      attach_virtio (i + 1) hs st devs
  end.

(** The static variables of the file system; [d] is the disk that is mounted. *)
Definition static_kfs {β} (d : β) : kfs β := Kfs (replicate 4096 0) (replicate 32 zero_desc) 0 d (Lock (CondObj 0) 0).

Definition on_sched (f : sched → sched) (st : open_state) : open_state :=
  (st.1, KState (plic st.2) (ktimer st.2) (f (ksched st.2)) (drivers st.2)).

(** Up to the devices: the console, the state of the kernel with the table of
    interrupts and of devices, and what the process manager has set up. *)
Definition main_devices (b : board) : outcome (console υ * open_state * list (device open_state) * kernel (dev_object υ η) unit υ) :=
  let '(con, _) := console_init (b_console b) in
  h ← memory_init (b_kimg b) (b_mem b);
  let s := boot_sched (b_main_thread b) (b_idle_thread b) h in
  let '(k, _) := intr_init (KState (b_plic b) (b_timer b) s (Drivers ∅ (VioDrivers None ∅))) in
  s ← thread_init (b_stacks b) (b_idle_func b) (b_setup_glue b) (ksched k);
  pk ← procmgr_init (b_main_proc b) (Kernel (IoWorld (static_kfs ()) ∅ []) s (ktimer k) con ∅ (Some (b_main_proc b) :: replicate (Z.to_nat (NPROC - 1)) None));
  let k := KState (plic k) (timer_init (ktimer k)) (ksch pk) (drivers k) in
  '(st, devs) ← attach_uarts 0 (b_uarts b) (isrtab_init, k) devtab_init;
  '(st, devs) ← attach_virtio 0 (b_virtio b) st devs;
  Done (con, st, devs, pk).

(** From the mount on: the file system takes over the disk [v], the open device at
    [base].  [patience] bounds how long a request is waited for,
    [stack_hi] is the uninitialised half of [blockSpot] in fs_read. *)
Definition main_init_proc (patience : nat) (stack_hi base : Z) (v : vio η) (con : console υ) (st : open_state) (devs : list (device open_state))
    (pk : kernel (dev_object υ η) unit υ) : outcome (ends (dev_object υ η) (vio η) υ) :=
  let disk := vio_iops patience MAIN_TID base in
  '(result, fs, s) ← @fs_mount _ disk v (static_kfs v) (ksched st.2);
  if negb (result =? 0) then Panicked "fs_mount failed" else
  '(result, initio, fs, s) ← @fs_open _ disk INIT_PROC fs s;
  if result <? 0 then Panicked "fib: process image not found" else
  spot ← deref initio;
  let w := IoWorld fs (objects_of (drivers st.2)) (object_device st <$> devs) in
  r ← @process_exec _ _ υ _ _ disk stack_hi (IoFile spot) (Kernel w s (ktimer st.2) con (procs pk) (proctab pk));
  match r with
  | Returns _ _ => Panicked "fib: process_exec failed"
  | _ => Done r
  end.

Definition main (patience : nat) (stack_hi : Z) (b : board) : outcome (ends (dev_object υ η) (vio η) υ) :=
  '(con, st, devs, pk) ← main_devices b;
  let st := on_sched (λ s, (intr_enable s).2) st in
  '(result, blkio, st) ← device_open blk_name 0 devs st;
  if negb (result =? 0) then Panicked "device_open failed" else
  base ← deref blkio;
  d ← deref (blk_devs (vio_state st.2) !! base);
  lk ← deref (blk_lock (vio_state st.2));
  main_init_proc patience stack_hi base (Vio d (lock_tid lk)) con st devs pk.
End Boot.
