(* ===== verification/BootSpec.v ===== *)
(** What the start of the kernel reaches: the initial program in user mode. *)
From Stdlib Require Import ZArith Lia.
From stdpp Require Import base gmap list strings.
From S2P Require Import Prelude CString Pages Heap Pte Memory MemFacts PageTables Mapping Spaces Thread Frames ThreadLists Scheduler Lock Io Disk Timer Plic Intr Device Uart Kfs KfsSpec Vmem Elf ElfSpec Virtio Vioblk VioblkSpec VioblkDisk VioblkSetup Console Objects Process ProcSpec Boot.

Open Scope Z_scope.

(** ** The heap and the memory during the start *)

(** The heap over the free pages [l], with nothing mapped for the user in the active
    space [root]. *)
Record boot_heap (root : Z) (h : heap mem) (l : list Z) : Prop := {
  bo_inv : ∃ blocks, heap_inv h blocks l;
  bo_space : pt_inv root (heap_pages h) l;
  bo_root : active_space_root (heap_pages h) = root;
  bo_low : heap_end h ≤ RAM_END;
  bo_empty : ∀ p, path_ok p → p ≠ [] → entry_at root (heap_pages h) p = None
}.

(** A request takes at most one of the pages. *)
Lemma boot_kmalloc root h l size : boot_heap root h l → 0 ≤ size ≤ 4096 → (1 ≤ length l)%nat →
  ∃ p h' l', kmalloc size h = Done (p, h') ∧ boot_heap root h' l' ∧ (length l ≤ S (length l'))%nat ∧ 0 ≤ p ≤ RAM_END.
Proof.
  intros [[blocks Hi] Hsp Hroot Hlow Hno] Hs Hl. pose proof (hi_bounds _ _ _ Hi) as Hb.
  pose proof (round16_spec size ltac:(lia)) as [Hr Hr16]. pose proof (Z.div_mod (round16 size) 16 ltac:(lia)).
  destruct (Z.le_gt_cases (round16 size) (heap_end h - heap_start h)) as [Hle|Hgt].
  { rewrite kmalloc_current by lia. pose proof (heap_inv_cut _ _ _ (round16 size) Hi ltac:(lia) Hr16) as Hi'.
    eexists _, _, l. split; [reflexivity|]. split; [|split; lia].
    split; cbn [heap_end heap_pages]; try done; [eauto|lia]. }
  destruct l as [|q l]; [cbn in Hl; lia|]. destruct (alloc_step root _ q l Hsp) as (m' & Ha & Hst & Hent & _).
  pose proof (pt_free _ _ _ Hsp) as (_ & _ & Hram). apply Forall_cons in Hram as [Hq _]. pose proof (ram_page_is_page q Hq) as Hpg.
  rewrite (kmalloc_page _ _ q m') by (done || lia). destruct Hq as (_ & Hq1 & Hq2). rewrite RAM_START_eq in Hq1.
  assert (Hnew : pt_inv root m' l ∧ active_space_root m' = root ∧ ∀ p, path_ok p → p ≠ [] → entry_at root m' p = None).
  { split; [apply (ps_inv _ _ _ _ _ _ Hst)|]. split; [by rewrite (same_regs_root _ _ (ps_regs _ _ _ _ _ _ Hst))|].
    intros p Hp Hne. rewrite (proj2 (Hent p Hp)). by apply Hno. }
  destruct Hnew as (Hsp' & Hroot' & Hno'). case_match; eexists _, _, l; (split; [reflexivity|]).
  - split; [|cbn [length]; lia]. split; cbn [heap_end heap_pages]; try done; [|lia]. eexists.
    pose proof (heap_inv_switch _ _ _ _ _ Hi (pt_free _ _ _ Hsp')) as Hi1. replace (q + 4096 - round16 size) with (heap_end (Heap (heap_initialized h) q (q + 4096) m') - round16 size) by done.
    apply (heap_inv_cut _ _ _ (round16 size) Hi1); [cbn; lia|done].
  - split; [|cbn [length]; lia]. split; cbn [heap_end heap_pages]; try done. eexists.
    apply (heap_inv_page _ _ _ _ _ (round16 size) Hi (pt_free _ _ _ Hsp')). lia.
Qed.

Lemma boot_no_user root h l : boot_heap root h l → no_user root (heap_pages h).
Proof. intros Hh p e Hp Hlen. rewrite (bo_empty _ _ _ Hh); [done|done|]. by intros ->. Qed.

Lemma length_pages_from n : ∀ p, length (pages_from p n) = n.
Proof. induction n; intros p; cbn; by f_equal. Qed.

(** [memory_init] leaves such a heap. *)
Lemma memory_init_boots k m : kimg_ok k → (∀ i, 0 ≤ i < 512 → rd m (main_pt2 k + 8 * i) = 0) →
  ∃ h l, memory_init k m = Done h ∧ boot_heap (main_pt2 k) h l ∧ Z.of_nat (length l) = (RAM_END - init_heap_end k) / 4096.
Proof.
  intros Hk Hz. destruct (memory_init_runs k m Hk Hz) as (h & Hh & _ & _ & Hi & _ & Hr & _ & Hpt & He & Hle & Hno).
  eexists _, _. split; [exact Hh|]. split; [split; try done; by eexists|]. rewrite <- He.
  pose proof (Z.div_pos (RAM_END - heap_end h) 4096 ltac:(lia) ltac:(lia)). rewrite length_pages_from. lia.
Qed.

(** ** The threads during the start *)

(** What the later calls of the start keep of the threads. *)
Record same_threads (s s' : sched) : Prop := {
  sb_threads : threads s' = threads s;
  sb_tab : thrtab s' = thrtab s;
  sb_cur : CURTHR s' = CURTHR s;
  sb_idle : idle_thread s' = idle_thread s;
  sb_mtag : proc_mtag s' = proc_mtag s
}.

#[export] Instance same_threads_preorder : PreOrder same_threads.
Proof. split; [by split|]. intros a b c [] []. split; congruence. Qed.

Lemma same_threads_running s s' : same_threads s s' → running s → running s'.
Proof. intros [Ht _ Hc _ _] (w & p & q & Hv). exists w, p, q. unfold views in *. by rewrite Ht, Hc. Qed.

(** All lists of waiting threads are empty. *)
Definition quiet (s : sched) : Prop := ∃ a, sched_rep s a ∧ ∀ c, waitq a c = [].

Lemma quiet_heap h s : quiet s → quiet (with_heap h s).
Proof. intros (a & Hr & Hw). exists a. split; [by apply sched_rep_heap|done]. Qed.

Lemma quiet_init c s : quiet s → quiet (condition_init c s).
Proof. intros (a & Hr & Hw). exists a. split; [by apply sched_rep_init|done]. Qed.

Lemma quiet_sie b s : quiet s → quiet (with_sie b s).
Proof. intros (a & [[Hl Hlw] ? ? ? ? ? ?] & Hw). exists a. split; [by split|done]. Qed.

Lemma thread_init_main k f g main idle h : main ≠ idle →
  ∃ s th, thread_init k f g (boot_sched main idle h) = Done s ∧ quiet s ∧ running s ∧
    CURTHR s = main ∧ kheap s = h ∧ threads s !! main = Some th ∧ tid th = MAIN_TID ∧ thrtab s !! 0%nat = Some (Some main).
Proof.
  intros Hne. destruct (thread_init_rep k f g main idle h Hne) as (s & Hi & Hrep & Hrun & Hm & _).
  enough (∃ th, CURTHR s = main ∧ kheap s = h ∧ threads s !! main = Some th ∧ tid th = MAIN_TID ∧ thrtab s !! 0%nat = Some (Some main))
    as (th & Hrest) by (exists s, th; split_and!; try done; try apply Hrest; by eexists).
  revert Hi. unfold thread_init, init_main_thread, init_idle_thread, thread_setup.
  assert (H0m : threads (boot_sched main idle h) !! main = Some main_thread_init)
    by (cbn; rewrite lookup_insert_ne by done; by rewrite lookup_singleton_eq).
  change (main_thread (boot_sched main idle h)) with main. rewrite (upd_thr_eq _ _ _ _ H0m). cbn [mbind outcome_bind].
  set (th1 := set_stack _ _ main_thread_init). set (s1 := with_threads _ _). intros Hi.
  apply bind_Done in Hi as (s4 & Hi & [= <-]). apply bind_Done in Hi as (s2 & H2 & Hi). apply bind_Done in Hi as (s3 & H3 & Hi).
  apply (frame_tlinsert keeps) in Hi.
  assert (Hother : ∀ t f s s', t ≠ main → upd_thr t f s = Done s' →
    threads s' !! main = threads s !! main ∧ kheap s' = kheap s ∧ thrtab s' = thrtab s ∧ idle_thread s' = idle_thread s ∧ main_thread s' = main_thread s).
  { clear. intros t f s s' Hne Hu. apply bind_Done in Hu as (th & _ & [= <-]). cbn. by rewrite lookup_insert_ne. }
  destruct (Hother _ _ _ _ (not_eq_sym Hne) H2) as (Ht2 & Hh2 & Hb2 & Hi2 & Hm2). rewrite Hi2 in H3.
  destruct (Hother _ _ _ _ (not_eq_sym Hne) H3) as (Ht3 & Hh3 & Hb3 & _ & Hm3).
  assert (Hth : threads s3 !! main = Some th1) by (rewrite Ht3, Ht2; apply lookup_insert_eq).
  destruct (kp_threads _ _ Hi _ _ Hth) as (th & Hth' & [Htid _ _ _]). exists th.
  split; [exact (eq_trans (kp_main _ _ Hi) (eq_trans Hm3 Hm2))|]. split; [exact (eq_trans (kp_heap _ _ Hi) (eq_trans Hh3 Hh2))|]. split; [done|]. split; [by rewrite Htid|].
  change (thrtab (set_running_thread _ s4)) with (thrtab s4). by rewrite (kp_tab _ _ Hi), Hb3, Hb2.
Qed.

(** ** The devices *)

Section Devices.
Context {υ η π : Type} `{UartHw υ} `{!VirtioHw η, !VioblkHw η, !VioblkLaws η, !VioblkConfig η, !VirtioFeatures η} `{PlicDev π}.

Abbreviation open_state := (list (isr_entry π (driver_states υ η)) * kstate π (driver_states υ η))%type.
Abbreviation registered := (registered open_state).

(** The state while devices are attached, with the threads of [s0]. *)
Record booting (root : Z) (s0 : sched) (st : open_state) (devs : list (device open_state)) (regs : list registered) (l : list Z) : Prop := {
  bg_heap : boot_heap root (kheap (ksched st.2)) l;
  bg_quiet : quiet (ksched st.2);
  bg_same : same_threads s0 (ksched st.2);
  bg_tab : tab_ok st.1;
  bg_devs : registry devs regs
}.

Lemma uart_attach_boots root s0 i u st devs regs l : booting root s0 st devs regs l → 0 ≤ i → UART0_IRQNO + i < NIRQ →
  (length regs < Z.to_nat NDEV)%nat → (1 ≤ length l)%nat →
  ∃ st' devs' r l', uart_attach (UART0_IOBASE + (UART1_IOBASE - UART0_IOBASE) * i) (UART0_IRQNO + i) u st devs = Done (st', devs') ∧
    booting root s0 st' devs' (regs ++ [r]) l' ∧ r_name r = [115; 101; 114] ∧ (length l ≤ S (length l'))%nat.
Proof.
  intros [Hh Hq Hs Ht Hd] Hi Hirq Hlen Hl. destruct st as [tab k]. cbn [fst snd] in *. unfold uart_attach, ser_name.
  assert (Hstr : is_str [115; 101; 114]) by (repeat constructor; done).
  change (UART0_IOBASE + (UART1_IOBASE - UART0_IOBASE) * i) with (0x10000000 + 256 * i). change UART0_IOBASE with 0x10000000.
  destruct (Z.eqb_spec (0x10000000 + 256 * i) 0x10000000) as [_|_].
  { rewrite (device_register_spec _ _ _ _ _ _ Hd Hstr), decide_False by lia. cbn [mbind outcome_bind].
    eexists _, _, (Reg [115; 101; 114] [] uart_open_ebusy 0), l. split; [reflexivity|]. split; [|split; [done|lia]].
    split; try done. apply (registry_insert _ _ (Reg [115; 101; 114] [] uart_open_ebusy 0)); [done|exact (Nat.lt_neq _ _ Hlen)|done]. }
  unfold kcalloc. change (sizeof_uart_device =? 0) with false. change (SIZE_MAX / sizeof_uart_device <? 1) with false. cbn iota.
  change (u64 (1 * sizeof_uart_device)) with 216.
  destruct (boot_kmalloc root _ l 216 Hh) as (dev & h' & l' & Hk & Hh' & Hl' & _); [lia|done|]. rewrite Hk. cbn [mbind outcome_bind].
  unfold intr_register_isr. change (UART0_IRQNO + i) with (10 + i) in *. destruct (Z.ltb_spec (10 + i) 0); [lia|]. destruct (Z.leb_spec NIRQ (10 + i)); [lia|].
  cbn [orb mbind outcome_bind]. rewrite (device_register_spec _ _ _ _ _ _ Hd Hstr), decide_False by lia. cbn [mbind outcome_bind].
  eexists _, _, (Reg [115; 101; 114] [] uart_open dev), l'. split; [reflexivity|]. split; [|done]. split; cbn [fst snd ksched kheap].
  - exact Hh'.
  - by apply quiet_init, quiet_init, quiet_heap.
  - etrans; [exact Hs|by split].
  - unfold tab_ok in *. by rewrite length_insert.
  - apply (registry_insert _ _ (Reg [115; 101; 114] [] uart_open dev)); [done|exact (Nat.lt_neq _ _ Hlen)|done].
Qed.

Lemma attach_uarts_boots root s0 us : ∀ i st devs regs l, booting root s0 st devs regs l → 0 ≤ i → UART0_IRQNO + i + Z.of_nat (length us) ≤ NIRQ →
  (length regs + length us ≤ Z.to_nat NDEV)%nat → (length us ≤ length l)%nat →
  ∃ st' devs' new l', attach_uarts i us st devs = Done (st', devs') ∧ booting root s0 st' devs' (regs ++ new) l' ∧
    length new = length us ∧ Forall (λ r, r_name r = [115; 101; 114]) new ∧ (length l ≤ length us + length l')%nat.
Proof.
  induction us as [|u us IH]; intros i st devs regs l Hb Hi Hirq Hlen Hl; cbn [length attach_uarts] in *.
  - exists st, devs, [], l. rewrite app_nil_r. split_and!; try done.
  - destruct (uart_attach_boots root s0 i u st devs regs l Hb) as (st1 & devs1 & r & l1 & Ha & Hb1 & Hr & Hl1); [done|lia|lia|lia|].
    rewrite Ha. cbn [mbind outcome_bind].
    destruct (IH (i + 1) st1 devs1 (regs ++ [r]) l1 Hb1) as (st2 & devs2 & new & l2 & Ha2 & Hb2 & Hn & Hall & Hl2);
      [lia|lia|rewrite length_app; cbn [length]; lia|lia|].
    exists st2, devs2, (r :: new), l2. rewrite <- app_assoc in Hb2. split_and!; [done|done|cbn [length]; lia|by constructor|lia].
Qed.

(** A slot with no device that the kernel has a driver for. *)
Definition absent (x : η * list Z) : Prop := (virtio_probe x.1).1 = AttachNone.

Lemma attach_virtio_absent hs : ∀ i (st : open_state) devs, Forall absent hs → attach_virtio i hs st devs = Done (st, devs).
Proof.
  induction hs as [|[h junk] hs IH]; intros i st devs Ha; [done|]. apply Forall_cons in Ha as [Hh Ha]. cbn [attach_virtio]. unfold virtio_attach.
  unfold absent in Hh. cbn [fst] in Hh. destruct (virtio_probe h) as [w h']. cbn [fst] in Hh. subst w. cbn [mbind outcome_bind]. by apply IH.
Qed.

Lemma attach_virtio_app hs1 hs2 : ∀ i (st : open_state) devs,
  attach_virtio i (hs1 ++ hs2) st devs = ('(st, devs) ← attach_virtio i hs1 st devs; attach_virtio (i + Z.of_nat (length hs1)) hs2 st devs).
Proof.
  induction hs1 as [|[h junk] hs1 IH]; intros i st devs; cbn [app length attach_virtio].
  - by rewrite Z.add_0_r.
  - destruct (virtio_attach _ _ _ _ _) as [[st1 devs1]| | |]; cbn [mbind outcome_bind]; try done. rewrite IH.
    by replace (i + 1 + Z.of_nat (length hs1)) with (i + Z.of_nat (S (length hs1))) by lia.
Qed.

Lemma blk_hardware_status v h : blk_hardware h → blk_hardware (vset status v h) ∧ media (vset status v h) = media h.
Proof.
  intros [Hid Hbs Hcap Hsize Ho0 Ho1]. assert (Hm : media (vset status v h) = media h) by by apply cfg_media.
  split; [|done]. split; rewrite ?cfg_const, ?Hm, ?status_offered by (done || set_solver); done.
Qed.

Lemma probe_block h : vget magic_value h = VIRTIO_MAGIC → vget version h = 2 → blk_hardware h →
  ∃ h', virtio_probe h = (AttachBlock, h') ∧ blk_hardware h' ∧ media h' = media h.
Proof.
  intros Hm Hv Hb. unfold virtio_probe. rewrite Hm, Hv, (bh_id _ Hb), !Z.eqb_refl. cbn [negb].
  change (VIRTIO_ID_BLOCK =? VIRTIO_ID_NONE) with false. cbn iota.
  destruct (blk_hardware_status 0 h Hb) as [Hb1 Hm1]. destruct (blk_hardware_status VIRTIO_STAT_ACKNOWLEDGE _ Hb1) as [Hb2 Hm2].
  rewrite (bh_id _ Hb2). change (VIRTIO_ID_BLOCK =? VIRTIO_ID_CONSOLE) with false. change (VIRTIO_ID_BLOCK =? VIRTIO_ID_BLOCK) with true. cbn iota.
  eexists. split; [reflexivity|]. split; [done|congruence].
Qed.
End Devices.

(** ** From reset to the initial program *)

Section Main.
Context {υ η π : Type} `{UartHw υ} `{!VirtioHw η, !VioblkHw η, !VioblkLaws η, !VioblkReliable η, !VioblkConfig η, !VirtioFeatures η} `{PlicDev π}.
Context `{IoIntf (dev_object υ η)} `{IoOps (dev_object υ η)} (patience : nat) (Hpat : (vpatience ≤ patience)%nat).

(** A board with three serial ports and, among the eight slots for virtio devices, the
    block device [h]; [junk] is what its driver's buffer holds at first. *)
Record board_ok (b : board (υ := υ) (η := η) (π := π)) (h : η) : Prop := {
  bk_image : kimg_ok (b_kimg b);
  bk_tables : ∀ i, 0 ≤ i < 512 → rd (b_mem b) (main_pt2 (b_kimg b) + 8 * i) = 0;
  bk_threads : b_main_thread b ≠ b_idle_thread b;
  bk_uarts : length (b_uarts b) = 3%nat;
  bk_virtio : ∃ pre junk post, b_virtio b = pre ++ (h, junk) :: post ∧ length (pre ++ (h, junk) :: post) = 8%nat ∧
    Forall absent pre ∧ Forall absent post ∧ (512 ≤ length junk)%nat;
  bk_magic : vget magic_value h = VIRTIO_MAGIC;
  bk_version : vget version h = 2;
  bk_block : blk_hardware h
}.

(** Where the devices are attached: the last one is the block device at [base]. *)
Record devices_ok (b : board (υ := υ) (η := η) (π := π)) (h : η) con st devs (pk : kernel (dev_object υ η) () υ) base : Prop := {
  dk_run : main_devices b = Done (con, st, devs, pk);
  dk_heap : ∃ l, boot_heap (main_pt2 (b_kimg b)) (kheap (ksched st.2)) l ∧
    (RAM_END - init_heap_end (b_kimg b)) / 4096 - 5 ≤ Z.of_nat (length l);
  dk_quiet : quiet (ksched st.2);
  dk_running : running (ksched st.2);
  dk_open st' : device_open blk_name 0 devs st' = vioblk_open base st';
  dk_attached : ∃ irqno d e, attached irqno base h d ∧ blk_devs (vio_state st.2) !! base = Some d ∧
    isr_lookup irqno st.1 = Done e ∧ isr e ≠ None;
  dk_lock : ∃ c, blk_lock (vio_state st.2) = Some (Lock c (-1));
  dk_proc : ∃ x, procs pk !! b_main_proc b = Some x ∧ p_id x = Some MAIN_PID ∧ iotab x = replicate 16 None
}.

Lemma main_devices_boots b h : board_ok b h → 10 ≤ (RAM_END - init_heap_end (b_kimg b)) / 4096 →
  ∃ con st devs pk base h', media h' = media h ∧ devices_ok b h' con st devs pk base.
Proof.
  intros [Hk Hz Hne Hu (pre & junk & post & Hv & Hlen & Hpre & Hpost & Hj) Hmg Hver Hb] Hpages.
  destruct (memory_init_boots _ _ Hk Hz) as (hp & l & Hm & Hh & Hl).
  destruct (thread_init_main (b_stacks b) (b_idle_func b) (b_setup_glue b) (b_main_thread b) (b_idle_thread b) hp Hne)
    as (s & th & Hti & (a & Hrep & Hw) & Hrun & Hcur & Hkh & Hth & Htid & Htab).
  set (con := Console (com0_init (com0 (b_console b))) (put_cprev (b_console b)) (get_cprev (b_console b))).
  set (k0 := Kernel (IoWorld (static_kfs ()) ∅ []) s (b_timer b) con ∅ (Some (b_main_proc b) :: replicate (Z.to_nat (NPROC - 1)) None)
             : kernel (dev_object υ η) () υ).
  destruct (procmgr_init_main k0 (b_main_proc b) th a) as (pk & x & Hpm & Hcp & Hid & Htb & Hrep' & Hrun' & Hkh' & _).
  { done. } { cbn [ksch k0]. by rewrite Hcur. } { rewrite Htid. unfold MAIN_TID, NTHR. lia. } { rewrite Htid. cbn [ksch k0]. by rewrite Hcur. }
  set (k1 := KState (plic_init (b_plic b)) (timer_init (b_timer b)) (ksch pk) (Drivers ∅ (VioDrivers None ∅)) : kstate π (driver_states υ η)).
  assert (Hb0 : booting (main_pt2 (b_kimg b)) (ksch pk) (isrtab_init, k1) devtab_init [] l).
  { split; cbn [fst snd ksched k1]; [by rewrite Hkh', <- Hkh in Hh |- * || (rewrite Hkh'; cbn [ksch k0]; by rewrite Hkh)|by exists a|done|done|apply registry_init]. }
  destruct (attach_uarts_boots _ _ (b_uarts b) 0 _ _ [] l Hb0) as (st & devs & regs & l1 & Hau & [Hh1 Hq1 Hs1 Ht1 Hd1] & Hn1 & Hall & Hl1);
    [lia|rewrite Hu; done|rewrite Hu; cbn; unfold NDEV; lia|rewrite Hu; lia|].
  cbn [app] in Hd1. rewrite Hu in Hn1, Hl1. destruct st as [tab k2]. cbn [fst snd] in *.
  assert (Hroom : (length regs < Z.to_nat NDEV)%nat) by (rewrite Hn1; unfold NDEV; lia).
  destruct (probe_block h Hmg Hver Hb) as (h' & Hpr & Hb' & Hm').
  destruct (boot_kmalloc _ _ l1 32 Hh1) as (p1 & hp1 & l2 & Hk1 & Hh2 & Hl2 & _); [lia|lia|].
  destruct (boot_kmalloc _ _ l2 (u64 (sizeof_vioblk_device + 512)) Hh2) as (base & hp2 & l3 & Hk2 & Hh3 & Hl3 & _); [by vm_compute|lia|].
  set (irqno := VIRT0_IRQNO + (0 + Z.of_nat (length pre))).
  assert (Hirq : 0 ≤ irqno < NIRQ) by (rewrite length_app in Hlen; cbn [length] in Hlen; unfold irqno, VIRT0_IRQNO, NIRQ; lia).
  destruct (vioblk_attach_spec irqno junk h' tab k2 devs regs p1 hp1 base hp2) as (d & Hat & He); try done.
  eexists con, _, _, pk, base, h'. split; [done|]. split.
  - unfold main_devices, console_init. fold con. rewrite Hm. cbn [mbind outcome_bind]. unfold intr_init, intr_disable. cbn [ksched plic ktimer drivers with_plic].
    change (with_sie false (boot_sched (b_main_thread b) (b_idle_thread b) hp)) with (boot_sched (b_main_thread b) (b_idle_thread b) hp).
    rewrite Hti. cbn [mbind outcome_bind]. fold k0. rewrite Hpm. cbn [mbind outcome_bind]. fold k1. rewrite Hau. cbn [mbind outcome_bind].
    rewrite Hv, attach_virtio_app, (attach_virtio_absent pre) by done. cbn [mbind outcome_bind attach_virtio]. fold irqno.
    unfold virtio_attach. rewrite Hpr, He. cbn [mbind outcome_bind]. rewrite attach_virtio_absent by done. reflexivity.
  - exists l3. split; [exact Hh3|lia].
  - by apply quiet_heap, quiet_init, quiet_heap.
  - eapply same_threads_running; [|apply Hrun', Hrun]. etrans; [exact Hs1|by split].
  - intros st'. assert (Hnm : named [98; 108; 107] regs = []).
    { clear -Hall. induction Hall as [|r regs Hr Hall IH]; [done|]. unfold named in *. rewrite filter_cons_False; [done|]. by rewrite Hr. }
    pose proof (open_blk base devs regs [] st' Hd1) as Ho. replace (Z.of_nat _) with 0 in Ho by (symmetry; exact (f_equal (λ l, Z.of_nat (length l)) Hnm)). exact (Ho Hroom).
  - exists irqno, d, (IsrEntry (Some vioblk_isr_entry) base VIOBLK_IRQ_PRIO). split; [done|]. cbn [fst snd].
    split; [unfold vio_state; cbn [drivers]; rewrite driver_put; apply lookup_insert_eq|]. split; [|done].
    unfold isr_lookup. destruct (Z.ltb_spec irqno 0); [lia|]. unfold tab_ok, NIRQ in *. by rewrite list_lookup_insert_eq by lia.
  - exists (CondObj p1). cbn [snd]. unfold vio_state. cbn [drivers]. by rewrite driver_put.
  - exists x. split; [by eapply current_thread|done].
Qed.

Abbreviation fib := [102; 105; 98].

(** From the mount on. *)
Lemma init_proc_enters hi base v (con : console υ) (st : list (isr_entry π (driver_states υ η)) * kstate π (driver_states υ η)) devs (pk : kernel (dev_object υ η) () υ) root l x i N len : clean_half hi →
  vio_ok base v → v_pos (vdev v) = 0 → boot_heap root (kheap (ksched st.2)) l → quiet (ksched st.2) → running (ksched st.2) →
  4096 ≤ Z.of_nat (length (dmedia (vdev v))) → dir_entry (dmedia (vdev v)) x fib i → image_ok (dmedia (vdev v)) N i len → i < 2 ^ 19 - 1 →
  let img := file_bytes (dmedia (vdev v)) N i 0 len in
  exec_ok img → exec_pages img + 2 ≤ Z.of_nat (length l) →
  ∃ k' m0, main_init_proc patience hi base v con st devs pk = Done (Enters (e_entry (header_of img)) USER_STACK_VMA k') ∧
    (∀ v, user_vma v → translate root v m0 = None) ∧ exec_loaded true root img m0 (pages (ksch k')) ∧
    active_space_root (pages (ksch k')) = root ∧ sie (ksch k') = false ∧ procs k' = procs pk.
Proof.
  intros Hhi Hok Hp0 Hh (a & Hrep & Hw) Hr Hmed Hde Him Hi img He Hl.
  assert (Hep : 0 ≤ exec_pages img) by (pose proof (load_pages_nonneg _ _ _ _ (eo_table _ He)); unfold exec_pages; lia).
  destruct (boot_kmalloc _ _ l sizeof_lock Hh) as (p1 & hp1 & l1 & Hk1 & Hh1 & Hl1 & _); [by vm_compute|lia|].
  destruct (boot_kmalloc _ _ l1 blockNumSize Hh1) as (p2 & hp2 & l2 & Hk2 & Hh2 & Hl2 & Hp2); [by vm_compute|lia|].
  pose (disk := vio_disk patience MAIN_TID base Hpat).
  destruct (@mount_open_ready _ _ disk v (static_kfs v) (ksched st.2) x a fib i N len [] p1 hp1 p2 hp2)
    as (fs1 & s1 & fs2 & Hmount & Hfopen & Hs1 & Hc2 & Hready); try done.
  { rewrite RAM_END_eq in Hp2. lia. }
  unfold main_init_proc. rewrite Hmount. cbn [mbind outcome_bind]. change (0 =? 0) with true. cbn [negb]. unfold INIT_PROC. rewrite Hfopen.
  cbn [mbind outcome_bind deref]. change (0 <? 0) with false. cbn iota. set (kk := Kernel _ _ _ _ _ _).
  assert (Hfd : file_fd 0 (kworld kk, ksch kk) = FileDesc true 1 0 len i 1).
  { pose proof (fr_fd _ _ _ _ _ _ Hready) as [_ Hfd]. unfold file_fd. cbn [fst kworld kk fsys]. by rewrite Hfd. }
  assert (Himg : @file_img _ _ _ disk (kworld kk, ksch kk) = dmedia (vdev v)) by exact Hc2.
  pose proof (im_inodes _ _ _ _ Him) as HN.
  assert (Hc : @file_contents _ _ _ disk 0 (kworld kk, ksch kk) = img) by (unfold file_contents; by rewrite Himg, Hfd, HN).
  destruct (@process_exec_runs _ _ υ _ _ _ disk hi Hhi kk 0 root l2) as (k' & Hex & Hld & Hroot & Hsie & Hprocs & _).
  { split. rewrite Himg, Hfd, HN. exact Hready. }
  { by rewrite Hfd. }
  { exact (bo_space _ _ _ Hh2). } { exact (bo_root _ _ _ Hh2). } { exact (boot_no_user _ _ _ Hh2). } { by rewrite Hc. } { rewrite Hc. lia. }
  rewrite Hc in Hex, Hld. rewrite Hex. cbn [mbind outcome_bind]. exists k', (heap_pages hp2). split; [done|].
  split. { intros u Hu. apply (bo_empty _ _ _ Hh2); [by apply user_vma_path|done]. }
  split; [exact Hld|]. by split_and!.
Qed.

(** C1: the kernel starts its initial program.  From reset, on a board with a block device
    whose medium holds a file system with a valid executable under the name "fib", with
    enough memory for it, and when the low 20 bits of the uninitialised half of
    [blockSpot] in fs_read are zero, [main] gets through all of its initialisations and jumps to
    user mode at the entry point of this executable with the stack pointer at the top of
    the user's memory: the segments of the file are in the main memory space, which was
    empty, with the permissions that they ask for, interrupts are off until the jump, and
    the process is process 0, with no open descriptor. *)
Theorem main_enters_init hi (b : board) h x i N len : clean_half hi →
  board_ok b h → 4096 ≤ Z.of_nat (length (media h)) → dir_entry (media h) x fib i → image_ok (media h) N i len → i < 2 ^ 19 - 1 →
  let img := file_bytes (media h) N i 0 len in
  let root := main_pt2 (b_kimg b) in
  exec_ok img → exec_pages img + 10 ≤ (RAM_END - init_heap_end (b_kimg b)) / 4096 →
  ∃ k' m0, main patience hi b = Done (Enters (e_entry (header_of img)) USER_STACK_VMA k') ∧
    (∀ v, user_vma v → translate root v m0 = None) ∧ exec_loaded true root img m0 (pages (ksch k')) ∧
    active_space_root (pages (ksch k')) = root ∧ sie (ksch k') = false ∧
    ∃ pr, procs k' !! b_main_proc b = Some pr ∧ p_id pr = Some MAIN_PID ∧ iotab pr = replicate 16 None.
Proof.
  intros Hhi Hb Hmed Hde Him Hi img root He Hpages.
  assert (Hep : 0 ≤ exec_pages img) by (pose proof (load_pages_nonneg _ _ _ _ (eo_table _ He)); unfold exec_pages; lia).
  destruct (main_devices_boots b h Hb ltac:(lia)) as (con & st & devs & pk & base & h' & Hm & [Hrun (l & Hh & Hl) Hq Hr Hopen (irqno & d & e & Hat & Hd & Hlk & Hisr) (c & Hlock) (pr & Hpr & Hid & Htb)]).
  destruct st as [tab k]. cbn [fst snd] in *. destruct (at_ok _ _ _ _ Hat _ eq_refl) as (Hok & Hp0 & Hmd). rewrite Hm in Hmd.
  unfold main. rewrite Hrun. cbn [mbind outcome_bind]. rewrite Hopen. unfold on_sched. cbn [fst snd intr_enable].
  set (k1 := KState _ _ _ _). destruct (vioblk_open_attached irqno base h' d tab k1 e Hat Hd Hlk Hisr) as (p & ->).
  cbn [mbind outcome_bind deref]. change (0 =? 0) with true. cbn [negb fst snd]. rewrite vio_state_set. cbn [blk_devs blk_lock].
  rewrite lookup_insert_eq. cbn [deref mbind outcome_bind].
  change (vio_state (KState p (ktimer k1) (condition_init (used_updated base) (ksched k1)) (drivers k1))) with (vio_state k).
  rewrite Hlock. cbn [deref mbind outcome_bind lock_tid]. set (v := Vio _ (-1)) in *. set (st2 := (tab, _)).
  assert (Hmv : dmedia (vdev v) = media h) by exact Hmd.
  destruct (init_proc_enters hi base v con st2 devs pk root l x i N len) as (k' & m0 & Hx & Hno & Hld & Hroot & Hsie & Hprocs);
    try (rewrite ?Hmv; done).
  - exact (quiet_init _ _ (quiet_sie true _ Hq)).
  - rewrite Hmv. fold img. lia.
  - rewrite Hmv in Hx, Hld. exists k', m0. split; [exact Hx|]. do 4 (split; [done|]). exists pr. by rewrite Hprocs.
Qed.
End Main.
