(* ===== verification/BootExample.v ===== *)
(** A board on which the kernel starts: the executable of the examples is on its block
    device under the name "fib". *)
From Stdlib Require Import ZArith Lia.
From stdpp Require Import base gmap list strings.
From S2P Require Import Prelude CString Pages Heap Pte Memory MemFacts PageTables Mapping Spaces Thread ThreadLists Scheduler Lock Io Disk Timer Plic Intr Device Uart UartSpec Kfs KfsSpec Vmem Elf ElfSpec Virtio Vioblk VioblkSpec VioblkDisk VioblkSetup Console ConsoleSpec Objects Process ProcSpec Boot BootSpec.

Open Scope Z_scope.

(** An image with the executable as its only file, in whole sectors. *)
Definition fib_image : list Z :=
  [1; 0; 0; 0; 1; 0; 0; 0; 1; 0; 0; 0] ++ replicate 52 0 ++ [102; 105; 98; 0] ++ replicate 28 0 ++ [0; 0; 0; 0] ++
  replicate 3996 0 ++ [182; 0; 0; 0; 0; 0; 0; 0] ++ replicate 4088 0 ++ exec_example ++ replicate 330 0.

Lemma fib_image_length : Z.of_nat (length fib_image) = 8704.
Proof. vm_compute. reflexivity. Qed.

Lemma fib_image_off p : 0 ≤ p < 182 → data_off fib_image 1 0 p = 8192 + p.
Proof.
  intros Hp. unfold data_off. rewrite (Z.div_small p 4096), (Z.mod_small p 4096) by lia.
  change (le32 fib_image (4096 * (1 + 0) + 4 + 4 * 0)) with 0. lia.
Qed.

Lemma fib_image_ok : image_ok fib_image 1 0 182.
Proof.
  split; rewrite ?fib_image_length; [vm_compute; reflexivity|vm_compute; reflexivity|lia..| |].
  - intros p Hp. rewrite fib_image_off by done. lia.
  - intros p q Hp Hq. rewrite !fib_image_off by done. lia.
Qed.

Lemma fib_entry : dir_entry fib_image 0 [102; 105; 98] 0.
Proof. split; [lia| |intros y Hy; lia|vm_compute; reflexivity]. split; [repeat constructor|]. split; [cbn; lia|]. eexists. vm_compute. reflexivity. Qed.

Lemma fib_bytes : file_bytes fib_image 1 0 0 182 = exec_example.
Proof. vm_compute. reflexivity. Qed.

(** The devices: a block device in the third slot. *)
Definition fib_disk : blk_sim :=
  BlkSim fib_image false 0 (λ _, 0) (λ _, 0).
Definition no_device : blk_sim := BlkSim [] false 0 (λ _, 0) (λ _, 0).

#[export] Instance no_dev_ops : IoOps (dev_object uart_slow blk_sim) := {| op_close := None; op_read := None; op_write := None; op_ctl := None |}.
#[export] Instance no_dev_intf : IoIntf (dev_object uart_slow blk_sim) := { ops_set _ := true; refcnt _ := 1; set_refcnt _ d := d }.

Definition port_example : uart_slow := com0 (con_example []).
Definition board_example : board (υ := uart_slow) (η := blk_sim) (π := plic_regs) :=
  Board kimg_example (Mem ∅ 0 0 0 false) (con_example []) (PlicRegs ∅ 0 []) timer_example (replicate 3 port_example)
    (replicate 2 (no_device, []) ++ (fib_disk, replicate 512 0) :: replicate 5 (no_device, []))
    (Stacks 0x80012ff0 0x80012000 0x80013ff0 0x80013000) 0x80014000 0x80014100 0x80000400 0x80000500 0x80014200.

Lemma board_example_ok : board_ok board_example fib_disk.
Proof.
  split; [apply kimg_example_ok|intros i Hi; unfold rd; cbn; by rewrite lookup_empty|done|done| |done|done|].
  - exists (replicate 2 (no_device, [])), (replicate 512 0), (replicate 5 (no_device, [])). split; [done|]. split; [done|].
    split; [by repeat constructor|]. split; [by repeat constructor|]. rewrite length_replicate. lia.
  - split; [done|done|by vm_compute|by vm_compute|done|done].
Qed.

Lemma main_enters_init_witness :
  ∃ k', main 0 (2 ^ 20) board_example = Done (Enters 0xC0000000 0xD0000000 k') ∧ vbyte (main_pt2 kimg_example) 0xC0000000 (pages (ksch k')) = Some 19.
Proof.
  pose proof (main_enters_init 0 (le_n _) (2 ^ 20) board_example fib_disk 0 0 1 182 eq_refl board_example_ok) as H.
  change (media fib_disk) with fib_image in H. rewrite fib_bytes in H. cbv zeta in H.
  destruct H as (k' & m0 & He & _ & Hld & _); [rewrite fib_image_length; lia|exact fib_entry|exact fib_image_ok|lia|exact exec_example_ok|by vm_compute|].
  exists k'. split; [exact He|]. etrans; [apply (el_byte _ _ _ _ _ Hld text_example 0xC0000000 text_example_loadable)|by vm_compute].
  - unfold user_vma. rewrite GIGA_SIZE_eq. lia.
  - split; by vm_compute.
Defined.
