(* ===== verification/User.v ===== *)
(** Programs of the user (src/src/user): start.s, the stubs of syscall.S, and the C
    programs that make only system calls.

    The stubs appear twice: as instructions of the machine of [Trap], and as the C
    functions that syscall.h declares, in continuation-passing style over the state of
    the kernel.  A call that does not come back (the thread waits, enters another
    program or ends) ends the run of the program.  A program's own variables that the
    kernel reads are in its memory, at addresses that are parameters ([lit] for the
    string literals).  user/string.c has the code of kern/string.c, [CString]. *)
From Stdlib Require Import ZArith Lia.
From stdpp Require Import base gmap list strings.
From S2P Require Import Prelude CString Pages Heap Pte Memory Vmem Thread Lock Io Timer Device Kfs Elf Uart Console Objects Process Syscall Csr Trap.

Open Scope Z_scope.

(** ** The stubs as instructions *)

(** A stub: [li a7, num], [ecall], [ret].  Every instruction has four bytes. *)
Definition stub (num : Z) : list instr := [LI a7 num].
(** From the entry of a stub to its ecall. *)
Definition stub_enter (num : Z) (m : machine) : outcome machine :=
  m' ← run (stub num) m;
  Done (jump (u64 (mpc m + 4)) (mmode m) m').
(** The [ret] behind it. *)
Definition stub_ret (m : machine) : machine := jump (Z.land (get ra m) (Z.lnot 1)) (mmode m) m.

(** [_start]: the return address of [main] is [_exit]. *)
Definition start_user (exit main : Z) (m : machine) : outcome machine :=
  m ← run [LI ra exit] m;
  Done (jump main (mmode m) m).

(** ** The stubs as C functions *)

(** The frame that the handler gets from a stub; it looks at no other register. *)
Definition call_frame (num x y z : Z) : trap_frame :=
  Tfr (<[17%nat := num]> (<[12%nat := z]> (<[11%nat := y]> (<[10%nat := x]> (replicate 32 0))))) 0 0.

Section User.
Context {δ β υ : Type} `{IoIntf δ} `{IoOps δ} `{IoOps β} `{UartHw υ} (stack_hi : Z) (strmax polls : nat).

Abbreviation kern := (kernel δ β υ).
Abbreviation result := (outcome (ends δ β υ)).
Abbreviation code := (kern → result).

(** A system call, after which [next] goes on with what is in a0. *)
Definition sys (num x y z : Z) (next : Z → code) (k : kern) : result :=
  '(tfr, r) ← umode_excp_handler stack_hi strmax polls RISCV_SCAUSE_ECALL_FROM_UMODE (call_frame num x y z) k;
  match r with
  | Returns _ k => next (reg TFR_A0 tfr) k
  | r => Done r
  end.

Definition _exit : code := sys SYSCALL_EXIT 0 0 0 (λ _ _, Undefined).
Definition _msgout (msg : Z) (next : code) : code := sys SYSCALL_MSGOUT msg 0 0 (λ _, next).
Definition _devopen (fd name instno : Z) (next : Z → code) : code :=
  sys SYSCALL_DEVOPEN (u64 fd) name (u64 instno) (λ v, next (s32 v)).
Definition _fsopen (fd name : Z) (next : Z → code) : code := sys SYSCALL_FSOPEN (u64 fd) name 0 (λ v, next (s32 v)).
Definition _close (fd : Z) (next : Z → code) : code := sys SYSCALL_CLOSE (u64 fd) 0 0 (λ v, next (s32 v)).
Definition _read (fd buf bufsz : Z) (next : Z → code) : code := sys SYSCALL_READ (u64 fd) buf bufsz (λ v, next (s64 v)).
Definition _write (fd buf len : Z) (next : Z → code) : code := sys SYSCALL_WRITE (u64 fd) buf len (λ v, next (s64 v)).
Definition _ioctl (fd cmd arg : Z) (next : Z → code) : code := sys SYSCALL_IOCTL (u64 fd) (u64 cmd) arg (λ v, next (s32 v)).
Definition _exec (fd : Z) (next : Z → code) : code := sys SYSCALL_EXEC (u64 fd) 0 0 (λ v, next (s32 v)).
Definition _fork (next : Z → code) : code := sys SYSCALL_FORK 0 0 0 (λ v, next (s32 v)).
Definition _wait (tid : Z) (next : Z → code) : code := sys SYSCALL_WAIT (u64 tid) 0 0 (λ v, next (s32 v)).
Definition _usleep (us : Z) (next : Z → code) : code := sys SYSCALL_USLEEP us 0 0 (λ v, next (s32 v)).

(** What [_start] does with a [main] that returns. *)
Definition main_returns : code := _exit.

(** ** The program's memory *)

Definition uget (v : Z) (n : nat) (next : list Z → code) : code := λ k,
  bs ← uload_bytes v n (pages (ksch k)); next bs k.
Definition uput (v : Z) (bs : list Z) (next : code) : code := λ k,
  m ← ustore_bytes v bs (pages (ksch k)); next (set_sched (with_pages m (ksch k)) k).
Definition ustrlen (v : Z) (next : Z → code) : code := λ k,
  str ← uload_str strmax v (pages (ksch k)); n ← strlen str; next n k.

(** ** fib.c *)

(** The recursion on [unsigned int]. *)
Fixpoint fib (n : nat) : Z :=
  match n with
  | O => 0
  | S n1 => match n1 with O => 1 | S n2 => u32 (fib n2 + fib n1) end
  end.

(** "f(%u) = %u\n" *)
Definition fib_fmt : list Z := cstr (string_bytes "f(%u) = %u" ++ [NL]) [].

(** The loop from [n] on. *)
Fixpoint fib_loop (fuel : nat) (linebuf n : Z) : code := λ k,
  match fuel with
  | O => OutOfFuel
  | S fuel =>
      if n <? 60 then
        uget linebuf 64 (λ buf k,
          '(_, buf) ← snprintf buf 64 fib_fmt [VaInt n; VaInt (fib (Z.to_nat n))];
          uput linebuf buf (_msgout linebuf (fib_loop fuel linebuf (u32 (n + 1)))) k) k
      else _exit k
  end.
Definition fib_main (linebuf : Z) : code := fib_loop 61 linebuf 0.

(** ** The init programs *)

Context (lit : string → Z).

Definition init0_main : code := _msgout (lit "Hello, world!") main_returns.

Definition init1_main (greeting : Z) : code :=
  _devopen 0 (lit "ser") 1 (λ result,
    if result <? 0 then main_returns else
    ustrlen greeting (λ slen, _write 0 greeting slen (λ _, _close 0 (λ _, main_returns)))).

(** The pieces that the init programs share: report and exit, open the serial port as
    fd 0, open and execute a file. *)
Definition fails (msg : string) : code := _msgout (lit msg) _exit.
Definition open_ser (instno : Z) (next : code) : code :=
  _devopen 0 (lit "ser") instno (λ result, if result <? 0 then fails "_devopen failed" else next).
Definition exec_file (fd : Z) (name : string) : code :=
  _fsopen fd (lit name) (λ result, if result <? 0 then fails "_fsopen failed" else _exec fd (λ _, main_returns)).

Definition init2_main : code := open_ser 1 (exec_file 1 "trek").
Definition init_fib_fib_main : code := exec_file 0 "fib".
Definition init_fib_rule30_main : code :=
  _fork (λ r, if negb (r =? 0) then exec_file 1 "fib" else open_ser 1 (exec_file 1 "rule30")).
Definition init_trek_rule30_main : code :=
  _fork (λ r, if negb (r =? 0) then open_ser 1 (exec_file 1 "trek") else open_ser 2 (exec_file 1 "rule30")).

(** init_test.c; the three variables are on its stack. *)
Definition say (b : bool) (yes no : string) (next : code) : code := _msgout (lit (if b then yes else no)) next.

Definition init_test_main (greeting checkPos setPos tempBuff : Z) : code :=
  _msgout (lit "Testing system calls: 
") (_fsopen 0 (lit "hello") (λ otherResult,
  if otherResult <? 0 then _msgout (lit "_fsopen failed") main_returns else
  _msgout (lit "_fsopen works") (
  ustrlen greeting (λ slen, _write 0 greeting slen (λ writeRes,
  say (s32 writeRes <? 0) "_write not working" "_write worked" (
  _ioctl 0 3 checkPos (λ checking,
  say (checking =? 5) "get position IOCTL works" "ioctl does not work" (
  uput setPos (le_bytes 4 0) (_ioctl 0 4 setPos (λ otherCheck, uget setPos 4 (λ bs,
  say (otherCheck =? s32 (le_val bs)) "set/get position IOCTL works" "ioctl does not work" (
  _read 0 tempBuff 5 (λ readRes,
  say (s32 readRes <? 0) "_read not working" "_read worked" (
  _msgout tempBuff (
  _close 0 (λ close,
  if close <? 0 then _msgout (lit "_close failed") main_returns else
  _msgout (lit "_close works") (
  _read 0 tempBuff 5 (λ readRes,
  say (negb (s32 readRes =? 0)) "_close properly closed file" "_close did not properly close file"
    main_returns)))))))))))))))))).
End User.
