(* ===== verification/UserSpec.v ===== *)
(** What programs of the user do: a stub of syscall.S is a call of the kernel, fib.c
    prints its sixty lines. *)
From Stdlib Require Import ZArith Lia.
From stdpp Require Import base gmap list strings pretty.
From S2P Require Import Prelude CString Pages Heap Pte Memory MemFacts PageTables Mapping Spaces Vmem Thread ThreadLists Scheduler Lock Io IoSpec Disk Timer Device Kfs KfsSpec Elf ElfSpec Uart Console Printing ConsoleSpec Objects Process ProcSpec Syscall SyscallSpec ForkSpec ExitSpec Csr Trap TrapSpec User.

Open Scope Z_scope.

(** ** Stubs *)

Section Handler.
Context {δ β υ : Type} `{IoIntf δ} `{IoOps δ} `{IoOps β} `{UartHw υ} (stack_hi : Z) (strmax polls : nat).

(** A call depends on a7 and a0 to a2. *)
Lemma syscall_args tfr tfr' (k : kernel δ β υ) : (∀ i, i ∈ [10; 11; 12; 17] → reg i tfr = reg i tfr') →
  syscall stack_hi strmax polls tfr k = syscall stack_hi strmax polls tfr' k.
Proof.
  intros Hr. unfold syscall. change (TFR_A0 + 0) with 10. change (TFR_A0 + 1) with 11. change (TFR_A0 + 2) with 12. change (TFR_A0 + 7) with 17.
  by rewrite !Hr by set_solver.
Qed.

Lemma handler_args tfr tfr' (k : kernel δ β υ) fr v k' : length (tf_x tfr) = 32%nat → length (tf_x tfr') = 32%nat →
  (∀ i, i ∈ [10; 11; 12; 17] → reg i tfr' = reg i tfr) →
  umode_excp_handler stack_hi strmax polls RISCV_SCAUSE_ECALL_FROM_UMODE tfr k = Done (fr, Returns v k') →
  reg TFR_A0 fr = u64 v ∧ ∃ fr', umode_excp_handler stack_hi strmax polls RISCV_SCAUSE_ECALL_FROM_UMODE tfr' k = Done (fr', Returns v k').
Proof.
  intros Hl Hl' Hr Hh. pose proof (ecall_frame _ _ _ _ _ _ _ _ Hh) as ->. split.
  { unfold reg. cbn [tf_x]. rewrite nth_lookup, list_lookup_insert_eq by (rewrite Hl; vm_compute; lia). done. }
  unfold umode_excp_handler in *. rewrite Z.eqb_refl in *. unfold syscall_handler in *. apply bind_Done in Hh as (r & Hs & [= _ ->]).
  rewrite (syscall_args _ (Tfr (tf_x tfr) (tf_sstatus tfr) (u64 (tf_sepc tfr + 4)))) by (intros i Hi; exact (Hr i Hi)).
  rewrite Hs. cbn [mbind outcome_bind]. eauto.
Qed.
End Handler.

Section Stub.
Context (smode_addr umode_addr : Z).
Hypothesis Hsa : 0 ≤ smode_addr < 2 ^ 64.
Hypothesis Hua : 0 ≤ umode_addr < 2 ^ 64.

Lemma word_pc_add pc n : word_pc pc → n mod 2 = 0 → word_pc (u64 (pc + n)).
Proof.
  intros [Hr He] Hn. split; [apply u64_range|]. unfold u64. replace (2 ^ 64) with (2 * 2 ^ 63) by done. rewrite Z.rem_mul_r by lia.
  rewrite Z.mul_comm, Z.mod_add, Zmod_mod, Z.add_mod, He, Hn by lia. done.
Qed.

(** The program at another address of its text. *)
Lemma user_ready_jump K m pc i v : user_ready umode_addr K m → word_pc pc → 0 ≤ v < 2 ^ 64 → user_ready umode_addr K (jump pc UMode (put i v m)).
Proof.
  intros [Hm Hl Hg Hpc Hs Hss Hb Hmd Hid] Hp Hv. split; cbn [jump mmode mpc gpr csrs stk]; rewrite ?length_put, ?csrs_put, ?stk_put; try done.
  intros j. rewrite get_jump. destruct (decide (i = j)) as [->|Hne]; [|by rewrite get_put_ne].
  destruct (decide (j = 0%nat)) as [->|Hj]; [rewrite get_0; lia|]. destruct (decide (j < 32)%nat); [by rewrite get_put_eq by lia|].
  unfold get, put. rewrite !decide_False by done. cbn [gpr]. rewrite list_lookup_total_alt, lookup_ge_None_2 by (rewrite length_insert; lia). cbn. lia.
Qed.

Context {δ β υ : Type} `{IoIntf δ} `{IoOps δ} `{IoOps β} `{UartHw υ} (stack_hi : Z) (strmax polls : nat).

(** C5: a stub of syscall.S is a C function that calls the kernel: when a program calls
    the stub for [num] and the call returns [v], the stub's ecall enters the kernel
    with the number and the arguments of the C call in the frame, and the program
    goes on at the return address of the stub with [v] in a0 and every other register
    but a7, its saved registers and stack pointer among them, as before the call. *)
Theorem stub_call K num tval m (k : kernel δ β υ) fr0 v k' : user_ready umode_addr K m → 0 ≤ num < 2 ^ 64 → word_pc (get ra m) →
  umode_excp_handler stack_hi strmax polls RISCV_SCAUSE_ECALL_FROM_UMODE (call_frame num (get a0 m) (get a1 m) (get a2 m)) k = Done (fr0, Returns v k') →
  ∃ m0, stub_enter num m = Done m0 ∧
    let t := trap RISCV_SCAUSE_ECALL_FROM_UMODE tval m0 in
    mpc t = umode_addr ∧
    ∃ m1 fr, umode_entry smode_addr t = Done (Excp, m1) ∧ at_handler (K - 272) (frame_of t) RISCV_SCAUSE_ECALL_FROM_UMODE m1 ∧
      umode_excp_handler stack_hi strmax polls RISCV_SCAUSE_ECALL_FROM_UMODE (frame_of t) k = Done (fr, Returns v k') ∧
      ∀ m2, returned (K - 272) fr m1 m2 →
        ∃ m3, umode_exit umode_addr m2 = Done m3 ∧
          let m4 := stub_ret m3 in
          user_ready umode_addr K m4 ∧ mpc m4 = get ra m ∧ get a0 m4 = reg TFR_A0 fr0 ∧
          (∀ i, i ≠ a0 → i ≠ a7 → get i m4 = get i m) ∧ irq_on (csrs m4) = irq_on (csrs m) ∧ stk m4 = stk m2.
Proof.
  intros Hu Hn Hra Hh. unfold stub_enter, stub. cbn [run]. rewrite exec_LI, !bind_ret, (u64_small num), (ur_mode _ _ _ Hu) by done.
  eexists. split; [reflexivity|]. set (m0 := jump _ UMode _). set (t := trap _ tval m0).
  pose proof (ur_len _ _ _ Hu) as Hlen. pose proof (ur_pc _ _ _ Hu) as Hpc.
  assert (Hu0 : user_ready umode_addr K m0) by (apply user_ready_jump; [done|by apply word_pc_add|done]).
  assert (Ht : gpr t = gpr m0).
  { unfold t. rewrite trap_delegated; [exact (proj1 (trap_s_spec _ _ _))|rewrite (ur_mode _ _ _ Hu0); discriminate|]. change (Z.testbit (csrs m0 Medeleg) 8 = true). rewrite (ur_medeleg _ _ _ Hu0). reflexivity. }
  assert (Hl0 : length (gpr m0) = 32%nat) by apply (ur_len _ _ _ Hu0).
  destruct (handler_args stack_hi strmax polls (call_frame num (get a0 m) (get a1 m) (get a2 m)) (frame_of t) k fr0 v k') as (Ha0 & fr & Hh'); [done| |..].
  { cbn [frame_of tf_x]. by rewrite Ht. }
  { intros i Hi. rewrite !elem_of_cons, elem_of_nil in Hi. unfold reg. cbn [frame_of tf_x call_frame]. rewrite Ht.
    assert (Hx : ∀ j, (1 ≤ j < 32)%nat → nth j (gpr m0) 0 = get j m0).
    { intros j Hj. rewrite nth_lookup. unfold get. rewrite decide_False, list_lookup_total_alt by lia.
      destruct (lookup_lt_is_Some_2 (gpr m0) j) as [x Hx]; [lia|]. by rewrite Hx. }
    destruct Hi as [->|[->|[->|[->|[]]]]]; cbn -[nth get m0]; rewrite Hx by lia; unfold m0; rewrite get_jump.
    1-3: by rewrite get_put_ne. by rewrite get_put_eq by lia. }
  { exact Hh. }
  destruct (ecall_roundtrip smode_addr umode_addr Hsa Hua stack_hi strmax polls K tval m0 k fr v k' Hu0 Hh') as (Hpct & m1 & He & Hah & _ & Hret).
  split; [exact Hpct|]. exists m1, fr. split; [exact He|]. split; [exact Hah|]. split; [exact Hh'|]. intros m2 Hr.
  destruct (Hret m2 Hr) as (m3 & Hex & Hu3 & _ & Hv & Hoth & Hirq & Hstk). exists m3. split; [exact Hex|].
  assert (Hra3 : get ra m3 = get ra m) by (rewrite Hoth by done; unfold m0; by rewrite get_jump, get_put_ne).
  assert (Hpc4 : mpc (stub_ret m3) = get ra m).
  { unfold stub_ret. cbn [jump mpc]. rewrite Hra3. rewrite <- (word_pc_keep _ Hra) at 2. by rewrite u64_small by apply Hra. }
  split.
  - replace (stub_ret m3) with (jump (get ra m) UMode (put 0 0 m3)); [by apply user_ready_jump|].
    rewrite <- Hpc4. unfold stub_ret. by rewrite (ur_mode _ _ _ Hu3).
  - split; [done|]. split; [change (get a0 (stub_ret m3)) with (get a0 m3); by rewrite Hv, Ha0|]. split; [|split; [|done]].
    + intros i Hi Hi7. change (get i (stub_ret m3)) with (get i m3). rewrite Hoth by done. unfold m0. by rewrite get_jump, get_put_ne.
    + change (irq_on (csrs m3) = irq_on (csrs m)). rewrite Hirq. unfold m0. cbn [jump csrs]. by rewrite csrs_put.
Qed.
End Stub.

(** ** The kernel while a program only prints *)

(** The Fibonacci numbers. *)
Definition fibonacci (n : nat) : Z := (Nat.iter n (λ p, (p.2, p.1 + p.2)) (0, 1)).1.

Lemma fibonacci_step n : fibonacci (S (S n)) = fibonacci n + fibonacci (S n).
Proof. reflexivity. Qed.

(** The recursion of fib.c computes them modulo 2^32. *)
Lemma fib_mod n : fib n = fibonacci n mod 2 ^ 32 ∧ fib (S n) = fibonacci (S n) mod 2 ^ 32.
Proof.
  induction n as [|n [IH0 IH1]]; [split; reflexivity|]. split; [exact IH1|]. rewrite fibonacci_step.
  change (fib (S (S n))) with (u32 (fib n + fib (S n))). rewrite IH0, IH1. unfold u32. by rewrite <- Zplus_mod.
Qed.

(** What is printed for a message of the user. *)
Definition msg_line (nm : string) (t : Z) (txt : list Z) : list Z :=
  string_bytes "Thread <" ++ string_bytes nm ++ string_bytes ":" ++ string_bytes (pretty t) ++ string_bytes "> says: " ++ txt ++ [NL].

Lemma msg_prints nm t txt : nul_free (string_bytes nm) → nul_free txt → 0 ≤ t < 2 ^ 31 →
  ∃ n, vgprintf collect msg_fmt [VaStr (Some (cstr (string_bytes nm) [])); VaInt t; VaStr (Some (cstr txt []))] [] = Done (n, msg_line nm t txt).
Proof.
  intros Hn Ht Hr. apply prints_vgprintf. unfold msg_line.
  change (length msg_fmt) with (8 + S (1 + S (8 + S (1 + 4))))%nat.
  change msg_fmt with (string_bytes "Thread <" ++ 37 :: 115 :: string_bytes ":" ++ 37 :: 100 :: string_bytes "> says: " ++ 37 :: 115 :: [NL] ++ [0]).
  apply (prints_lit (string_bytes "Thread <")); [by repeat constructor|]. apply prints_s; [done|].
  apply (prints_lit (string_bytes ":")); [by repeat constructor|]. apply prints_int; [by left|].
  apply (prints_lit (string_bytes "> says: ")); [by repeat constructor|]. apply prints_s; [done|].
  apply (prints_lit [NL] 4 [0] [] []); [by repeat constructor|]. apply prints_nil.
Qed.

Lemma msg_no_CR nm t txt : 0 ≤ t < 2 ^ 31 → CR ∉ string_bytes nm → CR ∉ txt → CR ∉ msg_line nm t txt.
Proof.
  intros Ht Hn Hx. assert (Hlit : ∀ s, bool_decide (CR ∈ string_bytes s) = false → CR ∉ string_bytes s) by (intros s; apply bool_decide_eq_false_1).
  unfold msg_line. rewrite !not_elem_of_app. split; [by apply Hlit|]. split; [done|]. split; [by apply Hlit|]. split.
  { intros Hin. pose proof (proj1 (Forall_forall _ _) (pretty_digits t ltac:(lia)) _ Hin) as Hd. cbv beta in Hd. unfold CR in Hd. lia. }
  split; [by apply Hlit|]. split; [done|]. unfold NL. by intros [=]%list_elem_of_singleton.
Qed.

(** The line of fib.c. *)
Definition fib_line (n : nat) : list Z := string_bytes ("f(" +:+ pretty (Z.of_nat n) +:+ ") = " +:+ pretty (fibonacci n mod 2 ^ 32)) ++ [NL].

Lemma fib_prints_line n : Z.of_nat n < 2 ^ 32 →
  ∃ c, vgprintf collect fib_fmt [VaInt (Z.of_nat n); VaInt (fib n)] [] = Done (c, fib_line n).
Proof.
  intros Hn. destruct (fib_mod n) as [-> _]. pose proof (Z.mod_pos_bound (fibonacci n) (2 ^ 32) ltac:(lia)).
  apply prints_vgprintf. unfold fib_line. rewrite !string_bytes_app, <- !app_assoc.
  change (length fib_fmt) with (2 + S (4 + S (1 + 3)))%nat.
  change fib_fmt with (string_bytes "f(" ++ 37 :: 117 :: string_bytes ") = " ++ 37 :: 117 :: [NL] ++ [0]).
  apply (prints_lit (string_bytes "f(")); [by repeat constructor|]. apply prints_int; [right; lia|].
  apply (prints_lit (string_bytes ") = ")); [by repeat constructor|]. apply prints_int; [right; lia|].
  apply (prints_lit [NL] 3 [0] [] []); [by repeat constructor|]. apply prints_nil.
Qed.

(** A line of fib.c fits its buffer and is plain text. *)
Definition plain_text (c : Z) : bool := (0 <? c) && (c <? 256) && negb (c =? CR).
Lemma fib_lines_plain : forallb (λ n, (length (fib_line n) <? 64)%nat && forallb plain_text (fib_line n)) (seq 0 60) = true.
Proof. vm_compute. reflexivity. Qed.

Section Program.
Context {δ β υ : Type} `{IoRefcnt δ} `{IoOps δ} `{IoDisk β} `{UartPolled υ}.
Context (stack_hi : Z) (strmax polls : nat) (Hpolls : (p_bound ≤ polls)%nat) (root : Z).

Abbreviation kern := (kernel δ β υ).

(** A system call on the state of the kernel. *)
Lemma sys_syscall num x y z next (k : kern) : sys stack_hi strmax polls num x y z next k =
  r ← syscall stack_hi strmax polls (call_frame num x y z) k;
  match r with Returns v k => next (u64 v) k | r => Done r end.
Proof.
  unfold sys, umode_excp_handler. rewrite Z.eqb_refl. unfold syscall_handler.
  rewrite (syscall_args _ _ _ _ (call_frame num x y z)) by done.
  destruct (syscall stack_hi strmax polls (call_frame num x y z) k) as [r| | |]; [|done..]. by destruct r.
Qed.

(** What a thread needs that talks to the user: a name, and a console. *)
Definition con_ready (c : console υ) : Prop := p_ok (com0 c) ∧ put_cprev c ≠ CR.
Record speaker (k : kern) (t : Z) (nm : string) : Prop := {
  sp_run : running_thread (ksch k) = Done t;
  sp_tid : 0 ≤ t < 2 ^ 31;
  sp_name : thread_name t (ksch k) = Done nm;
  sp_text : nul_free (string_bytes nm) ∧ CR ∉ string_bytes nm
}.

(** The kernel with other memory and another state of the console. *)
Definition talked (k : kern) (m : mem) (c : console υ) : kern := Kernel (kworld k) (with_pages m (ksch k)) (ktim k) c (procs k) (proctab k).

Lemma talked_id k : talked k (pages (ksch k)) (kcon k) = k.
Proof. by destruct k as [? [????????[]] ????]. Qed.

Lemma sysmsgout_says msg txt nm t k m c : speaker k t nm → con_ready c → active_space_root m = root →
  user_bytes root msg (cstr txt []) m → nul_free txt → CR ∉ txt → (length txt < strmax)%nat →
  ∃ c', sysmsgout strmax polls msg (talked k m c) = Done (Returns 0 (talked k m c')) ∧ con_ready c' ∧
    sent (com0 c') = sent (com0 c) ++ expand_nl (msg_line nm t txt).
Proof.
  intros [Hrun Ht Hnm [Hnul Hcr]] [Hok Hprev] Hr Hb Hnt Hct Hlen. unfold sysmsgout.
  change (running_thread (ksch (talked k m c))) with (running_thread (ksch k)). rewrite Hrun. rewrite bind_ret.
  change (thread_name t (ksch (talked k m c))) with (thread_name t (ksch k)). rewrite Hnm. rewrite bind_ret.
  change (pages (ksch (talked k m c))) with m. rewrite (uload_str_spec root m Hr txt strmax msg Hnt Hb Hlen). rewrite bind_ret.
  destruct (msg_prints nm t txt Hnul Hnt Ht) as [n Hf].
  pose proof (msg_no_CR nm t txt Ht Hcr Hct) as Hout.
  destruct (console_printf_sends polls Hpolls true msg_fmt _ n _ (kcon (talked k m c)) (ksch (talked k m c)) Hok Hf Hout Hprev) as (_ & c' & s' & He & Hok' & Hs & _ & -> & Hp').
  exists c'. unfold kprintf. rewrite He. rewrite bind_ret. split; [reflexivity|]. split; [split; assumption|exact Hs].
Qed.

Lemma msgout_says msg txt nm t k m c next : speaker k t nm → con_ready c → active_space_root m = root →
  user_bytes root msg (cstr txt []) m → nul_free txt → CR ∉ txt → (length txt < strmax)%nat →
  ∃ c', _msgout stack_hi strmax polls msg next (talked k m c) = next (talked k m c') ∧ con_ready c' ∧
    sent (com0 c') = sent (com0 c) ++ expand_nl (msg_line nm t txt).
Proof.
  intros Hs Hc Hr Hb Hn Ht Hl. destruct (sysmsgout_says msg txt nm t k m c Hs Hc Hr Hb Hn Ht Hl) as (c' & He & Hc' & Hsent).
  exists c'. split; [|done]. unfold _msgout. rewrite sys_syscall.
  change (syscall stack_hi strmax polls (call_frame SYSCALL_MSGOUT msg 0 0) (talked k m c)) with (sysmsgout strmax polls msg (talked k m c)).
  by rewrite He, bind_ret.
Qed.

(** The user may read and write the [n] bytes at [v]. *)
Definition user_rw (v n : Z) (m : mem) : Prop :=
  ∀ j, 0 ≤ j < n → user_vma (v + j) ∧ ∃ e, translate root (v + j) m = Some e ∧ has PTE_R e = true ∧ has PTE_W e = true.

Lemma user_rw_write v n m : user_rw v n m → may_write root v n m.
Proof. intros Hu j Hj. destruct (Hu j Hj) as (Hv & e & He & _ & Hw). eauto. Qed.

Lemma user_rw_bytes v n m : user_rw v (Z.of_nat n) m → ∃ bs, length bs = n ∧ Forall (λ b, 0 ≤ b < 256) bs ∧ user_bytes root v bs m.
Proof.
  intros Hu. exists ((λ j, default 0 (vbyte root (v + Z.of_nat j) m)) <$> seq 0 n).
  assert (Hb : ∀ j, 0 ≤ j < Z.of_nat n → ∃ b, vbyte root (v + j) m = Some b ∧ 0 ≤ b < 256).
  { intros j Hj. destruct (Hu j Hj) as (_ & e & He & _). unfold vbyte. rewrite He. eexists. split; [reflexivity|].
    apply Z.mod_pos_bound. lia. }
  split; [by rewrite length_fmap, length_seq|]. split.
  - apply Forall_fmap, Forall_forall. intros j Hj%elem_of_seq. destruct (Hb (Z.of_nat j) ltac:(lia)) as (b & Hv & Hr). cbv beta delta [compose]. by rewrite Hv.
  - intros j b Hj. rewrite list_lookup_fmap in Hj. destruct (seq 0 n !! j) as [i|] eqn:Hi; [|done]. apply lookup_seq in Hi as [-> Hlt].
    change (0 + j)%nat with j in Hj. cbn [fmap option_fmap option_map] in Hj. destruct (Hb (Z.of_nat j) ltac:(lia)) as (b' & Hv & _). rewrite Hv in Hj. injection Hj as <-.
    destruct (Hu (Z.of_nat j) ltac:(lia)) as (Hvma & e & He & HR & _). eauto.
Qed.

Lemma user_rw_step v n m l m' P : user_rw v n m → vstep root m l m' P → user_rw v n m'.
Proof. intros Hu Hs j Hj. destruct (Hu j Hj) as (Hv & e & He & Hf). split; [done|]. exists e. by rewrite (vs_map _ _ _ _ _ Hs). Qed.

(** A line that is stored in a buffer can be read there. *)
Lemma put_line v n txt rest m l : pt_inv root m l → active_space_root m = root → user_rw v n m →
  Forall (λ b, 0 ≤ b < 256) (cstr txt rest) → Z.of_nat (length (cstr txt rest)) = n →
  ∃ m', ustore_bytes v (cstr txt rest) m = Done m' ∧ pt_inv root m' l ∧ active_space_root m' = root ∧ user_rw v n m' ∧
    user_bytes root v (cstr txt []) m'.
Proof.
  intros Hi Hr Hu Hb Hn. destruct (ustore_spec root (cstr txt rest) m l v Hi Hr Hb) as (m' & He & Hs & Hbytes).
  { rewrite Hn. by apply user_rw_write. }
  exists m'. split; [done|]. split; [by eapply vs_inv|]. split; [by eapply vstep_root|].
  assert (Hu' : user_rw v n m') by by eapply user_rw_step. split; [done|].
  intros j b Hj. assert (Hj' : cstr txt rest !! j = Some b).
  { unfold cstr in *. change (0 :: rest) with ([0] ++ rest). rewrite app_assoc. by apply lookup_app_l_Some. }
  destruct (Hu' (Z.of_nat j)) as (Hv & e & He' & HR & _); [apply lookup_lt_Some in Hj'; lia|]. split; [done|]. split; [by apply Hbytes|eauto].
Qed.

Lemma fib_line_plain n : (n < 60)%nat → (length (fib_line n) < 64)%nat ∧ Forall (λ c, 0 < c < 256 ∧ c ≠ CR) (fib_line n).
Proof.
  intros Hn. pose proof (proj1 (forallb_forall _ _) fib_lines_plain n ltac:(apply in_seq; lia)) as HF. cbv beta in HF.
  apply andb_true_iff in HF as [Hl Hp]. apply Nat.ltb_lt in Hl. split; [done|]. apply Forall_forall. intros c Hc.
  pose proof (proj1 (forallb_forall _ _) Hp c ltac:(by apply list_elem_of_In)) as Hc'. unfold plain_text in Hc'. rewrite !andb_true_iff in Hc'.
  destruct Hc' as [[Ha Hb] Hd]. apply negb_true_iff, Z.eqb_neq in Hd. lia.
Qed.

(** The lines from [n] on. *)
Definition fib_output (nm : string) (t : Z) (n cnt : nat) : list Z := concat ((λ i, expand_nl (msg_line nm t (fib_line i))) <$> seq n cnt).

Lemma fib_loop_prints linebuf nm t k cnt : ∀ n m c l, (n + cnt = 60)%nat → speaker k t nm → con_ready c → (64 ≤ strmax)%nat →
  pt_inv root m l → active_space_root m = root → user_rw linebuf 64 m →
  ∃ m' c', fib_loop stack_hi strmax polls (S cnt) linebuf (Z.of_nat n) (talked k m c) = _exit stack_hi strmax polls (talked k m' c') ∧
    pt_inv root m' l ∧ active_space_root m' = root ∧ sent (com0 c') = sent (com0 c) ++ fib_output nm t n cnt.
Proof.
  induction cnt as [|cnt IH]; intros n m c l Hn Hs Hc Hmax Hi Hr Hu.
  { exists m, c. replace n with 60%nat by lia. split; [reflexivity|]. split; [done|]. split; [done|]. unfold fib_output. cbn. by rewrite app_nil_r. }
  destruct (fib_line_plain n) as [Hlen Hplain]; [lia|].
  change (fib_loop stack_hi strmax polls (S (S cnt)) linebuf (Z.of_nat n) (talked k m c)) with
    (if Z.of_nat n <? 60 then
       buf ← uload_bytes linebuf 64 m;
       '(_, buf) ← snprintf buf 64 fib_fmt [VaInt (Z.of_nat n); VaInt (fib (Z.to_nat (Z.of_nat n)))];
       m' ← ustore_bytes linebuf buf m;
       _msgout stack_hi strmax polls linebuf (fib_loop stack_hi strmax polls (S cnt) linebuf (u32 (Z.of_nat n + 1))) (talked k m' c)
     else _exit stack_hi strmax polls (talked k m c)).
  rewrite (proj2 (Z.ltb_lt _ _)), Nat2Z.id by lia.
  destruct (user_rw_bytes linebuf 64 m Hu) as (buf & Hbl & Hbr & Hbu).
  pose proof (uload_bytes_spec root m Hr buf linebuf Hbu) as Hload. rewrite Hbl in Hload. rewrite Hload, bind_ret.
  destruct (fib_prints_line n) as [cn Hf]; [lia|]. rewrite (snprintf_fits buf 64 _ _ _ _ Hf), bind_ret by lia.
  destruct (put_line linebuf 64 (fib_line n) (drop (S (length (fib_line n))) buf) m l) as (m1 & He & Hi1 & Hr1 & Hu1 & Hb1); try done.
  { unfold cstr. apply Forall_app. split; [eapply Forall_impl; [exact Hplain|]; cbv beta; lia|]. constructor; [lia|]. by apply Forall_drop. }
  { unfold cstr. rewrite length_app. cbn [length]. rewrite length_drop. lia. }
  unfold cstr in He. rewrite He, bind_ret.
  destruct (msgout_says linebuf (fib_line n) nm t k m1 c (fib_loop stack_hi strmax polls (S cnt) linebuf (u32 (Z.of_nat n + 1))) Hs Hc Hr1 Hb1)
    as (c1 & Hm & Hc1 & Hs1).
  { eapply Forall_impl; [exact Hplain|]. cbv beta. lia. }
  { intros Hin. pose proof (proj1 (Forall_forall _ _) Hplain _ Hin) as Hx. cbv beta in Hx. lia. }
  { lia. }
  rewrite Hm, u32_small by lia. replace (Z.of_nat n + 1) with (Z.of_nat (S n)) by lia.
  destruct (IH (S n) m1 c1 l) as (m2 & c2 & Hloop & Hi2 & Hr2 & Hs2); [lia|done..|]. exists m2, c2. split; [exact Hloop|].
  split; [done|]. split; [done|]. rewrite Hs2, Hs1, <- app_assoc. unfold fib_output. done.
Qed.

(** ** The end *)

Lemma exit_halts (k : kern) p x l : at_user root k p x l → counted (iotab x) (kworld k) → last_opened (kworld k) →
  CURTHR (ksch k) = main_thread (ksch k) → ∃ k', process_exit stack_hi k = Done (Halts k') ∧ kcon k' = kcon k.
Proof.
  intros [Hc Ht Hi Hr] Hcnt Hlast Hmain. destruct (reclaim_runs root _ l Hi Hr) as (m' & fr & Hm & _).
  destruct (close_all_spec stack_hi (iotab x) (kworld k) (with_pages m' (ksch k)) Hcnt Hlast) as (w' & Hcl & _).
  unfold process_exit. rewrite Hc, bind_ret, Hm, bind_ret, Hcl, bind_ret. unfold thread_exit. cbn [snd].
  change (CURTHR (with_pages m' (ksch k))) with (CURTHR (ksch k)). change (main_thread (with_pages m' (ksch k))) with (main_thread (ksch k)).
  rewrite (proj2 (Z.eqb_eq _ _) Hmain). eexists. split; reflexivity.
Qed.

Lemma at_user_talked k p x l m c : at_user root k p x l → pt_inv root m l → active_space_root m = root → at_user root (talked k m c) p x l.
Proof. intros [Hc Ht _ _] Hi Hr. by split. Qed.

(** C3: fib.c, from its main to the end of the machine: it prints, for each [n] below
    60, the line "f(n) = F" in a message of its thread, with the Fibonacci number
    modulo 2^32 for [F], and exits, which for the main thread halts the machine.  From
    48 on the number printed is not the Fibonacci number. *)
Theorem fib_prints linebuf nm t (k : kern) p x l :
  at_user root k p x l → counted (iotab x) (kworld k) → last_opened (kworld k) → CURTHR (ksch k) = main_thread (ksch k) →
  speaker k t nm → con_ready (kcon k) → (64 ≤ strmax)%nat → user_rw linebuf 64 (pages (ksch k)) →
  (∃ k', fib_main stack_hi strmax polls linebuf k = Done (Halts k') ∧
     sent (com0 (kcon k')) = sent (com0 (kcon k)) ++ fib_output nm t 0 60) ∧
  ∀ n, (48 ≤ n < 60)%nat → fib n ≠ fibonacci n.
Proof.
  intros Hu Hcnt Hlast Hmain Hs Hc Hmax Hrw. split.
  - pose proof Hu as [_ _ Hi Hr].
    destruct (fib_loop_prints linebuf nm t k 60 0 (pages (ksch k)) (kcon k) l eq_refl Hs Hc Hmax Hi Hr Hrw) as (m & c & He & Hi' & Hr' & Hsent).
    rewrite talked_id in He. destruct (exit_halts (talked k m c) p x l) as (k' & Hx & Hk'); [by apply at_user_talked|done..|].
    exists k'. split; [|by rewrite Hk'].
    change (fib_main stack_hi strmax polls linebuf k) with (fib_loop stack_hi strmax polls 61 linebuf (Z.of_nat 0) k). rewrite He.
    unfold _exit. rewrite sys_syscall.
    change (syscall stack_hi strmax polls (call_frame SYSCALL_EXIT 0 0 0) (talked k m c)) with (process_exit stack_hi (talked k m c)).
    by rewrite Hx, bind_ret.
  - intros n Hn. destruct (fib_mod n) as [-> _].
    assert (Hall : forallb (λ n, negb (fibonacci n mod 2 ^ 32 =? fibonacci n)) (seq 48 12) = true) by (vm_compute; reflexivity).
    pose proof (proj1 (forallb_forall _ _) Hall n ltac:(apply in_seq; lia)) as HF. by apply negb_true_iff, Z.eqb_neq in HF.
Qed.
End Program.
