(* ===== verification/UserExamples.v ===== *)
(** A machine with a mounted disk and one process, on which the theorems about
    processes and system calls are applied. *)
From Stdlib Require Import ZArith Lia.
From stdpp Require Import base gmap list strings.
From S2P Require Import Prelude CString Pages Heap Pte Memory MemFacts PageTables Mapping Spaces Vmem Reuse Clone Thread ThreadLists Scheduler Lock Io IoSpec Disk Timer Device Kfs KfsSpec Elf ElfSpec Stale Uart Console ConsoleSpec Objects Process ProcSpec Syscall SyscallSpec ForkSpec ExitSpec Csr Trap TrapSpec User UserSpec.

Open Scope Z_scope.

(** ** The user's memory *)

(** One page that the user may read and write at 0xC0001000; it holds the name "ab"
    at 0xC0001100 and the number 2 at 0xC0001108. *)
Definition user_stage : mem :=
  match memory_alloc_and_map_page 0xC0001000 22 mem_example with Done (_, m) => m | _ => mem_example end.
Definition user_data : list Z := [97; 98; 0; 0; 0; 0; 0; 0; 2; 0; 0; 0; 0; 0; 0; 0].
Definition user_mem : mem :=
  match vstore_bytes 0xC0001100 user_data user_stage with Done m => m | _ => user_stage end.

Definition in_user_page (v : Z) : Prop := 0xC0001000 ≤ v < 0xC0002000.

Lemma in_page_vma v : in_user_page v → user_vma v.
Proof. unfold in_user_page, user_vma. rewrite GIGA_SIZE_eq. lia. Qed.

Lemma user_stage_page : ∃ l, pt_inv root_example user_stage l ∧ (7 ≤ length l)%nat ∧ active_space_root user_stage = root_example ∧
  ∀ v, in_user_page v → translate root_example v user_stage = Some (pte_word (leaf_pte 0x80100000 22)).
Proof.
  destruct (map_page_step root_example mem_example free_example 0xC0001000 22 mem_example_inv eq_refl)
    as (q & m' & l' & used & Hm & Hs & Hu & [= <-] & _ & He); [by apply in_page_vma|cbn; lia|].
  unfold user_stage. rewrite Hm. exists l'. split; [by eapply ps_inv|]. split; [|split].
  - pose proof (f_equal length (ps_used _ _ _ _ _ _ Hs)) as Hl. rewrite length_app in Hl. cbn in Hl. lia.
  - by rewrite (same_regs_root _ _ (ps_regs _ _ _ _ _ _ Hs)).
  - intros v Hv. pose proof (user_vma_path v (in_page_vma v Hv)). unfold translate. rewrite He by (done || auto).
    rewrite decide_True; [done|]. apply path_of_page. unfold in_user_page in Hv. change (0xC0001000 / 4096) with 0xC0001.
    symmetry. apply (Z.div_unique v 4096 0xC0001 (v - 0xC0001000)); lia.
Qed.

Lemma user_leaf_flags : has PTE_R (pte_word (leaf_pte 0x80100000 22)) = true ∧ has PTE_W (pte_word (leaf_pte 0x80100000 22)) = true.
Proof. by vm_compute. Qed.

Lemma user_mem_stored : ∃ l, pt_inv root_example user_mem l ∧ (7 ≤ length l)%nat ∧ active_space_root user_mem = root_example ∧
  (∀ v, in_user_page v → translate root_example v user_mem = Some (pte_word (leaf_pte 0x80100000 22))) ∧
  ∀ j b, user_data !! j = Some b → vbyte root_example (0xC0001100 + Z.of_nat j) user_mem = Some b.
Proof.
  destruct user_stage_page as (l & Hi & Hl & Hr & Ht). destruct user_leaf_flags as [HR HW].
  destruct (vstore_bytes_spec root_example user_data user_stage l 0xC0001100 Hi Hr) as (m' & He & Hs & Hb).
  { unfold user_data. repeat (apply Forall_cons; split; [lia|]). by apply Forall_nil. }
  { intros j Hj. cbn [length user_data] in Hj. assert (Hp : in_user_page (0xC0001100 + j)) by (unfold in_user_page; lia).
    split; [by apply in_page_vma|]. rewrite (Ht _ Hp). eauto. }
  unfold user_mem. rewrite He. exists l. split; [by eapply vs_inv|]. split; [done|]. split; [by eapply vstep_root|].
  split; [|exact Hb]. intros v Hv. rewrite (vs_map _ _ _ _ _ Hs) by by apply in_page_vma. by apply Ht.
Qed.

Lemma user_mem_page : ∃ l, pt_inv root_example user_mem l ∧ (7 ≤ length l)%nat ∧ active_space_root user_mem = root_example ∧
  (∀ v n, 0xC0001000 ≤ v → v + n ≤ 0xC0002000 → may_write root_example v n user_mem) ∧
  ∀ v bs n, bs = take (length bs) (drop n user_data) → v = 0xC0001100 + Z.of_nat n → user_bytes root_example v bs user_mem.
Proof.
  destruct user_mem_stored as (l & Hi & Hl & Hr & Ht & Hb). destruct user_leaf_flags as [HR HW]. exists l. do 3 (split; [done|]). split.
  - intros v n H1 H2 j Hj. assert (Hp : in_user_page (v + j)) by (unfold in_user_page; lia). split; [by apply in_page_vma|]. rewrite (Ht _ Hp). eauto.
  - intros v bs n Hbs -> j b Hj.
    assert (Hd : user_data !! (n + j)%nat = Some b).
    { rewrite Hbs in Hj. rewrite lookup_take_Some, lookup_drop in Hj. apply Hj. }
    assert (Hlt : (n + j < 16)%nat) by by apply lookup_lt_Some in Hd.
    assert (Hp : in_user_page (0xC0001100 + Z.of_nat n + Z.of_nat j)) by (unfold in_user_page; lia). split; [by apply in_page_vma|]. split.
    + rewrite <- (Hb _ _ Hd). f_equal. lia.
    + rewrite (Ht _ Hp). eauto.
Qed.

Lemma user_mem_rw v n : 0xC0001000 ≤ v → v + n ≤ 0xC0002000 → user_rw root_example v n user_mem.
Proof.
  intros H1 H2 j Hj. destruct user_mem_stored as (l & _ & _ & _ & Ht & _). destruct user_leaf_flags as [HR HW].
  assert (Hp : in_user_page (v + j)) by (unfold in_user_page; lia). split; [by apply in_page_vma|]. rewrite (Ht _ Hp). eauto.
Qed.

(** ** The machine *)

(** Devices are not used here: a device is its reference count. *)
Definition bare_device : Type := Z.
#[export] Instance bare_ops : IoOps bare_device := {| op_close := None; op_read := None; op_write := None; op_ctl := None |}.
#[export] Instance bare_intf : IoIntf bare_device := { ops_set _ := true; refcnt d := d; set_refcnt n _ := n }.
#[export] Instance bare_refcnt : IoRefcnt bare_device.
Proof. done. Qed.

(** The main process of a machine with the file system [f] and the memory [m]. *)
Definition boot_kernel (f : kfs io_lit) (m : mem) : kernel bare_device io_lit uart_slow :=
  Kernel (IoWorld f ∅ []) (with_heap (Heap true 0x80200000 0x80201000 m) lock_sched) timer_example (con_example []) ∅ (replicate 16 None).
Definition main_proc_example : Z := 0x80006000.
Definition user_kernel (f : kfs io_lit) (m : mem) : kernel bare_device io_lit uart_slow :=
  match procmgr_init main_proc_example (boot_kernel f m) with Done k => k | _ => boot_kernel f m end.
Definition no_files : process := Proc (Some MAIN_PID) (Some 0) (replicate 16 None).

(** The same machine with an open file at descriptor 3. *)
Definition one_file : process := Proc (Some MAIN_PID) (Some 0) (<[3%nat := Some (IoFile 0)]> (replicate 16 None)).
Definition file_kernel (f : kfs io_lit) (m : mem) : kernel bare_device io_lit uart_slow :=
  set_process main_proc_example one_file (user_kernel f m).

Lemma user_kernel_ok f m l : pt_inv root_example m l → active_space_root m = root_example →
  at_user root_example (user_kernel f m) main_proc_example no_files l ∧ sched_rep (ksch (user_kernel f m)) lock_abs ∧
  running (ksch (user_kernel f m)) ∧ kheap (ksch (user_kernel f m)) = Heap true 0x80200000 0x80201000 m ∧
  kworld (user_kernel f m) = IoWorld f ∅ [].
Proof.
  intros Hi Hr. set (k := boot_kernel f m).
  destruct (procmgr_init_main k main_proc_example main_thread_init lock_abs) as (k' & x & He & Hc & Hid & Hx & Hrep & Hrun & Hh & Hw & _);
    [apply sched_rep_heap, lock_sched_rep|reflexivity|by vm_compute|reflexivity|].
  assert (x = no_files) as ->.
  { assert (Ht : p_tid x = Some 0).
    { revert He Hc. unfold procmgr_init. cbn [running_thread k boot_kernel ksch]. intros [= <-]. by intros [= <-]. }
    destruct x as [a b c]. cbn in Hid, Ht, Hx. by rewrite Hid, Ht, Hx. }
  unfold user_kernel. fold k. rewrite He. split; [|split; [done|split; [|done]]].
  - split; [done|done|unfold pages; by rewrite Hh|unfold pages; by rewrite Hh].
  - apply Hrun. by exists None, None, None.
Qed.

Lemma file_kernel_ok f m l : pt_inv root_example m l → active_space_root m = root_example →
  at_user root_example (file_kernel f m) main_proc_example one_file l.
Proof. intros Hi Hr. destruct (user_kernel_ok f m l Hi Hr) as [Hu _]. exact (proj2 (set_slot_spec root_example _ _ _ _ 3 (Some (IoFile 0)) Hu)). Qed.

Lemma file_kernel_ready f m l fd N len : pt_inv root_example m l → active_space_root m = root_example →
  disk_ok (globalIO f) → fileArray f !! 0%nat = Some fd → f_ops fd = true → file_size fd = len → 0 ≤ file_pos fd ≤ len →
  image_ok (contents (globalIO f)) N (f_inode fd) len → lock_tid (kfs_lock f) = -1 →
  file_ok 0 (kworld (file_kernel f m), ksch (file_kernel f m)).
Proof.
  intros Hi Hr Hd Hf Ho <- Hp Him Hl. destruct (user_kernel_ok f m l Hi Hr) as (_ & Hrep & Hrun & _ & Hw).
  split. unfold file_img, file_fd. cbn [fst snd file_kernel set_process kworld ksch]. rewrite Hw. cbn [fsys]. change (Z.to_nat 0) with 0%nat.
  rewrite Hf. cbn [default]. rewrite (im_inodes _ _ _ _ Him). split; try done. by exists lock_abs.
Qed.

(** ** Witnesses *)

Definition kfs_open : kfs io_lit :=
  Kfs (replicate 4096 0) [FileDesc true 1 1 3 0 1; FileDesc true 1 0 7 1 1] 1 disk_example (Lock (CondObj 5) (-1)).
Definition kfs_mounted : kfs io_lit :=
  Kfs (take 4096 image_example) (replicate 32 zero_desc) 0 disk_example (Lock (CondObj 5) (-1)).
Definition kfile : kernel bare_device io_lit uart_slow := file_kernel kfs_open user_mem.

Lemma kfile_ok : ∃ l, at_user root_example kfile main_proc_example one_file l ∧ (7 ≤ length l)%nat ∧ file_ok 0 (kworld kfile, ksch kfile).
Proof.
  destruct user_mem_page as (l & Hi & Hl & Hr & _). exists l. split; [exact (file_kernel_ok _ _ _ Hi Hr)|]. split; [exact Hl|].
  exact (file_kernel_ready kfs_open _ l (FileDesc true 1 1 3 0 1) 1 3 Hi Hr disk_example_ok eq_refl eq_refl eq_refl ltac:(cbn; lia) image_example_ok eq_refl).
Qed.

Lemma kfile_file : file_contents 0 (kworld kfile, ksch kfile) = [10; 20; 30] ∧ file_pos (file_fd 0 (kworld kfile, ksch kfile)) = 1 ∧
  file_size (file_fd 0 (kworld kfile, ksch kfile)) = 3 ∧ f_refcnt (file_fd 0 (kworld kfile, ksch kfile)) = 1 ∧ pages (ksch kfile) = user_mem ∧
  fsys (kworld kfile) = kfs_open.
Proof.
  destruct user_mem_page as (l & Hi & _ & Hr & _). destruct (user_kernel_ok kfs_open user_mem l Hi Hr) as (_ & _ & _ & Hh & Hw).
  assert (Hf : fsys (kworld kfile) = kfs_open) by (change (kworld kfile) with (kworld (user_kernel kfs_open user_mem)); by rewrite Hw).
  assert (Hp : pages (ksch kfile) = user_mem) by (unfold pages; change (ksch kfile) with (ksch (user_kernel kfs_open user_mem)); by rewrite Hh).
  unfold file_contents, file_img, file_fd. cbn [fst]. rewrite Hf. do 4 (split; [vm_compute; reflexivity|]).
  split; [exact Hp|reflexivity].
Qed.

(** The file is at position 1, and ten bytes are asked for. *)
Lemma sysread_file_witness :
  ∃ k', sysread 0 3 0xC0001000 10 kfile = Done (Returns 2 k') ∧
    vbyte root_example 0xC0001000 (pages (ksch k')) = Some 20 ∧ vbyte root_example 0xC0001001 (pages (ksch k')) = Some 30.
Proof.
  destruct kfile_ok as (l & Hu & _ & Hok). destruct kfile_file as (Hd & Hp & _ & _ & Hpg & _).
  destruct user_mem_page as (_ & _ & _ & _ & Hw & _).
  pose proof (sysread_file root_example 0 3 0xC0001000 10 kfile main_proc_example one_file l 0 eq_refl Hu ltac:(lia) eq_refl Hok) as Hs. cbv zeta in Hs.
  rewrite Hd, Hp, Hpg in Hs. destruct Hs as (k' & He & _ & Hb & _); [repeat (apply Forall_cons; split; [lia|]); by apply Forall_nil|lia|apply Hw; cbn; lia|].
  exists k'. split; [exact He|]. split; [exact (Hb 0 ltac:(cbn; lia))|exact (Hb 1 ltac:(cbn; lia))].
Defined.

Lemma syswrite_file_witness :
  ∃ k', syswrite 0 3 0xC0001100 3 kfile = Done (Returns 2 k') ∧ file_contents 0 (kworld k', ksch k') = [10; 97; 98].
Proof.
  destruct kfile_ok as (l & Hu & _ & Hok). destruct kfile_file as (Hd & Hp & _ & _ & Hpg & _).
  destruct user_mem_page as (_ & _ & _ & _ & _ & Hb).
  pose proof (syswrite_file root_example 0 3 0xC0001100 [97; 98; 0] kfile main_proc_example one_file l 0 eq_refl Hu ltac:(lia) eq_refl Hok) as Hs. cbv zeta in Hs.
  rewrite Hd, Hp, Hpg in Hs. destruct Hs as (k' & He & _ & _ & _ & Hc & _); [exact (Hb _ _ 0%nat eq_refl eq_refl)|cbn; lia|].
  exists k'. split; [exact He|exact Hc].
Defined.

Lemma sysioctl_file_witness :
  (∃ k', sysioctl 0 3 IOCTL_SETLEN 0xC0001108 kfile = Done (Returns 0 k') ∧ file_pos (file_fd 0 (kworld k', ksch k')) = 2) ∧
  (∃ k', sysioctl 0 3 IOCTL_SETPOS 0xC0001108 kfile = Done (Returns (- EIO) k') ∧ file_pos (file_fd 0 (kworld k', ksch k')) = 1).
Proof.
  assert (Hle : 0 ≤ le_val [2; 0; 0; 0; 0; 0; 0; 0] ≤ 3) by by split; vm_compute.
  destruct kfile_ok as (l & Hu & _ & Hok). destruct kfile_file as (Hd & Hp & Hsz & _ & Hpg & _).
  destruct user_mem_page as (_ & _ & _ & _ & _ & Hb).
  destruct (sysioctl_file root_example 0 3 0xC0001108 kfile main_proc_example one_file l 0 Hu ltac:(lia) eq_refl Hok) as (Hset & Hpos & _);
    [unfold USER_START_VMA; lia|]. cbv zeta in Hset. rewrite Hp in Hpos. rewrite Hpg, Hsz in Hset. split.
  - destruct (Hset _ (Hb 0xC0001108 [2; 0; 0; 0; 0; 0; 0; 0] 8%nat eq_refl eq_refl) eq_refl Hle) as (k' & He & Hq & _).
    exists k'. split; [exact He|exact Hq].
  - destruct Hpos as (k' & He & Hq). exists k'. split; [exact He|exact Hq].
Defined.

Lemma next_descriptor_witness : choose_slot fs_full (-1) kfile = Done (Some 0).
Proof.
  destruct kfile_ok as (l & Hu & _ & _).
  destruct (next_descriptor 8 root_example (-1) kfile main_proc_example one_file l Hu ltac:(lia)) as (Hn & _).
  apply Hn; [lia|reflexivity|lia].
Defined.

Lemma sysclose_file_witness : ∃ k', sysclose 0 3 kfile = Done (Returns 0 k') ∧ ref_ioread 0 (IoFile 0) 4 (kworld k', ksch k') = Undefined.
Proof.
  destruct kfile_ok as (l & Hu & _ & Hok). destruct kfile_file as (_ & _ & _ & Hn & _ & Hf).
  pose proof (sysclose_file root_example 0 3 kfile main_proc_example one_file l 0 Hu ltac:(lia) eq_refl Hok) as Hs. rewrite Hf, Hn in Hs.
  destruct Hs as (k' & x' & He & _ & _ & _ & Hr); [cbn; lia|lia|]. exists k'. split; [exact He|exact (proj1 (Hr eq_refl) 4)].
Defined.

Lemma store_fault_maps_stack_page_witness :
  let tfr := Tfr [0; 0; 0xC0005010] 0 0 in
  ∃ k', umode_excp_handler 0 8 3 RISCV_SCAUSE_STORE_PAGE_FAULT tfr kfile = Done (tfr, Returns 0 k') ∧
    translate root_example 0xC0009000 (pages (ksch k')) = None.
Proof.
  destruct kfile_ok as (l & Hu & Hl & _).
  destruct (store_fault_maps_stack_page 8 3 root_example 0 (Tfr [0; 0; 0xC0005010] 0 0) 0xC0009000 kfile main_proc_example one_file l Hu ltac:(lia))
    as (k' & q & He & _ & _ & Hn); [by split; vm_compute|unfold user_vma; rewrite GIGA_SIZE_eq; lia|done|by vm_compute|].
  exists k'. split; [exact He|exact Hn].
Defined.

(** The file is opened at descriptor 4 by the name at 0xC0001100, and read to 0xC0001200. *)
Definition frame (a0 a1 a2 a7 : Z) : trap_frame :=
  Tfr (replicate 10 0 ++ [a0; a1; a2; 0; 0; 0; 0; a7] ++ replicate 14 0) 0 0xC0000100.
Definition kmounted : kernel bare_device io_lit uart_slow := user_kernel kfs_mounted user_mem.

Lemma kmounted_disk : fs_mounted kmounted [97; 98] 0 1 0 3.
Proof.
  destruct user_mem_page as (l & Hi & _ & Hr & _). destruct (user_kernel_ok kfs_mounted user_mem l Hi Hr) as (_ & Hrep & Hrun & Hh & Hw).
  clear Hi Hr. assert (Hb : boot kfs_mounted = take 4096 (contents disk_example)) by reflexivity.
  assert (Hde : dir_entry (contents disk_example) 0 [97; 98] 0).
  { split; [lia| |intros y Hy; lia|vm_compute; reflexivity]. split; [repeat constructor|]. split; [cbn; lia|]. eexists. vm_compute. reflexivity. }
  assert (Hhs : 0 ≤ 0x80200000 ∧ 0x80200000 + 32 ≤ 0x80201000 < 2 ^ 32) by lia.
  split; rewrite ?Hw, ?Hh; [exact disk_example_ok|exact Hb|reflexivity|reflexivity|exact Hde|exact image_example_ok|reflexivity|by exists lock_abs|exact Hrun|exact Hhs].
Qed.


(** ** An executable on the disk *)

(** An image with the executable as its only file. *)
Definition exec_image : list Z :=
  [1; 0; 0; 0; 1; 0; 0; 0; 1; 0; 0; 0] ++ replicate 52 0 ++ [97; 98; 0] ++ replicate 29 0 ++ [0; 0; 0; 0] ++
  replicate 3996 0 ++ [182; 0; 0; 0; 0; 0; 0; 0] ++ replicate 4088 0 ++ exec_example.
Definition exec_disk : io_lit := iolit_init exec_image 8374.

Lemma exec_image_off p : 0 ≤ p < 182 → data_off exec_image 1 0 p = 8192 + p.
Proof.
  intros Hp. unfold data_off. rewrite (Z.div_small p 4096), (Z.mod_small p 4096) by lia.
  change (le32 exec_image (4096 * (1 + 0) + 4 + 4 * 0)) with 0. lia.
Qed.

Lemma exec_image_ok : image_ok exec_image 1 0 182.
Proof.
  assert (Hl : Z.of_nat (length exec_image) = 8374) by (vm_compute; reflexivity).
  split; rewrite ?Hl; [vm_compute; reflexivity|vm_compute; reflexivity|lia..| |].
  - intros p Hp. rewrite exec_image_off by done. lia.
  - intros p q Hp Hq. rewrite !exec_image_off by done. lia.
Qed.

Lemma exec_disk_ok : disk_ok exec_disk.
Proof.
  assert (Hl : Z.of_nat (length exec_image) = 8374) by (vm_compute; reflexivity).
  split; [|done]. unfold lit_ok. cbn [exec_disk iolit_init lit_pos lit_size lit_buf]. rewrite Hl. lia.
Qed.

(** The memory of a program with a page at 0xC0000000 and one at 0xC0005000. *)
Definition old_program : mem := map_two 0xC0000000 0xC0005000.

Lemma leaf_22_user q : has PTE_U (pte_word (leaf_pte q 22)) = true.
Proof. pose proof (leaf_flags_pte q 22) as Hl. unfold leaf_flags in Hl. unfold has. rewrite Hl. vm_compute. reflexivity. Qed.

Lemma map_two_pages x y : user_vma x → user_vma y → path_of x ≠ path_of y → ∃ l old, pt_inv root_example (map_two x y) l ∧
  active_space_root (map_two x y) = root_example ∧ (4 ≤ length l)%nat ∧ length old = 2%nat ∧
  user_pages root_example (map_two x y) old ∧ is_Some (translate root_example y (map_two x y)).
Proof.
  intros Hx Hy Hne. destruct (map_two_mapped x y Hx Hy) as (l & q & q' & Hi & Hr & Hl & He).
  pose proof (He _ (user_vma_path _ Hx) eq_refl) as Hex. rewrite decide_False, decide_True in Hex by done.
  pose proof (He _ (user_vma_path _ Hy) eq_refl) as Hey. rewrite decide_True in Hey by done.
  set (ex := pte_word (leaf_pte q 22)) in *. set (ey := pte_word (leaf_pte q' 22)) in *. set (m := map_two x y) in *.
  exists l, [entry_page ex; entry_page ey]. do 4 (split; [done|]). split; [|unfold translate; rewrite Hey; by eexists]. split.
  - apply NoDup_cons. split; [|apply NoDup_singleton]. intros Heq%list_elem_of_singleton. apply Hne.
    eapply (pt_inj _ _ _ Hi); [by apply user_vma_path|by apply user_vma_path|by apply translate_node|]. rewrite Heq. by apply translate_node.
  - intros d. rewrite elem_of_cons, list_elem_of_singleton. split.
    + intros [->| ->]; do 3 eexists.
      * exact (translated_page root_example x m ex Hx Hex (leaf_22_user q)).
      * exact (translated_page root_example y m ey Hy Hey (leaf_22_user q')).
    + intros (a & b & c & Hp & e & Hen & _ & ->). rewrite (He _ Hp eq_refl) in Hen.
      case_decide; [injection Hen as <-; by right|]. case_decide; [injection Hen as <-; by left|done].
Qed.

Lemma old_program_mapped : ∃ l old, pt_inv root_example old_program l ∧ active_space_root old_program = root_example ∧ (4 ≤ length l)%nat ∧
  length old = 2%nat ∧ user_pages root_example old_program old ∧ is_Some (translate root_example 0xC0005000 old_program).
Proof.
  unfold old_program. apply map_two_pages; [unfold user_vma; rewrite GIGA_SIZE_eq; lia|unfold user_vma; rewrite GIGA_SIZE_eq; lia|].
  vm_compute. discriminate.
Qed.

Definition kfs_exec : kfs io_lit :=
  Kfs (replicate 4096 0) [FileDesc true 1 0 182 0 1] 0 exec_disk (Lock (CondObj 5) (-1)).
Definition kexec : kernel bare_device io_lit uart_slow := file_kernel kfs_exec old_program.


(** ** Fork *)

Lemma user_mem_no_global : no_global root_example user_mem.
Proof.
  apply no_global_check. vm_compute. reflexivity.
Qed.

(** The copy of the space takes four pages: three tables and the user's page. *)
Lemma user_mem_need : clone_need user_mem root_example = 4%nat.
Proof. vm_compute. reflexivity. Qed.

Lemma memory_space_clone_spec_witness :
  ∃ child m', memory_space_clone 0 user_mem = Done (make_mtag child, m') ∧ vbyte child 0xC0001101 m' = Some 98.
Proof.
  destruct user_mem_page as (l & Hi & Hl & Hr & _ & Hb).
  assert (Hneed : (clone_need user_mem root_example ≤ length l)%nat) by (rewrite user_mem_need; lia).
  destruct (memory_space_clone_spec root_example 0 user_mem l Hi user_mem_no_global Hr Hneed) as (child & m' & l' & He & Hc & _).
  exists child, m'. split; [exact He|]. rewrite (cl_copy _ _ _ _ _ Hc) by (apply in_page_vma; unfold in_user_page; lia).
  exact (proj1 (proj2 (Hb 0xC0001100 [97; 98; 0] 0%nat eq_refl eq_refl 1%nat 98 eq_refl))).
Defined.

Lemma one_file_refs r : Some r ∈ iotab one_file → r = IoFile 0.
Proof. cbn. rewrite !elem_of_cons, elem_of_nil. naive_solver. Qed.

(** The file at descriptor 3 is counted twice afterwards, and the caller still reads
    its memory. *)
Lemma process_fork_spec_witness :
  ∃ k' child, process_fork kfile = Done (0, k') ∧ obj_refcnt (IoFile 0) (kworld k') = Done 2 ∧ vbyte child 0xC0001101 (pages (ksch k')) = Some 98.
Proof.
  destruct kfile_ok as (l & Hu & Hl & Hok). destruct kfile_file as (_ & _ & _ & _ & Hpg & Hf).
  destruct user_mem_page as (l2 & Hi2 & _ & Hr2 & _ & Hb). destruct (user_kernel_ok kfs_open user_mem l2 Hi2 Hr2) as (_ & _ & _ & Hh & _).
  change (ksch (user_kernel kfs_open user_mem)) with (ksch kfile) in Hh. clear Hi2 Hr2.
  pose proof user_mem_no_global as Hng. rewrite <- Hpg in Hng. pose proof user_mem_need as Hneed. rewrite <- Hpg in Hneed.
  assert (Hrc : obj_refcnt (IoFile 0) (kworld kfile) = Done 1) by (unfold obj_refcnt, get_fd; rewrite Hf; reflexivity).
  assert (Hobj : all_objects (iotab one_file) (kworld kfile)).
  { intros r Hr. rewrite (one_file_refs r Hr). exists 1. exact Hrc. }
  destruct (process_fork_spec kfile main_proc_example one_file l root_example Hu Hng) as (child & k' & l' & He & Hc & _ & _ & _ & Hcnt & _);
    [rewrite Hneed; lia|by rewrite Hh|rewrite Hh; cbn; lia|rewrite Hh; vm_compute; reflexivity|exact Hobj|].
  exists k', child. split; [exact He|]. split; [exact (Hcnt _ _ Hrc ltac:(lia))|].
  rewrite (cl_copy _ _ _ _ _ Hc) by (apply in_page_vma; unfold in_user_page; lia). rewrite Hpg.
  exact (proj1 (proj2 (Hb 0xC0001100 [97; 98; 0] 0%nat eq_refl eq_refl 1%nat 98 eq_refl))).
Defined.

(** The program of [user_machine] reads from descriptor 5, which is not open. *)
Definition ecall_trap : machine := trap RISCV_SCAUSE_ECALL_FROM_UMODE 0 user_machine.
Definition refused : trap_frame := Tfr (<[10%nat := u64 (- EACCESS)]> user_regs) (csr_read Sstatus (csrs ecall_trap)) 0x404.

Lemma read_refused :
  umode_excp_handler 0 8 3 RISCV_SCAUSE_ECALL_FROM_UMODE (frame_of ecall_trap) kfile = Done (refused, Returns (- EACCESS) kfile).
Proof.
  destruct kfile_ok as (l & [Hc _ _ _] & _ & _). unfold umode_excp_handler.
  change (RISCV_SCAUSE_ECALL_FROM_UMODE =? RISCV_SCAUSE_ECALL_FROM_UMODE) with true. cbn iota. unfold syscall_handler.
  assert (Hs : ∀ x ss pc, x = user_regs → syscall 0 8 3 (Tfr x ss pc) kfile = Done (Returns (- EACCESS) kfile)).
  { intros x ss pc ->. change (syscall 0 8 3 (Tfr user_regs ss pc) kfile) with (sysread 0 5 0xC0001200 16 kfile).
    unfold sysread, cur_slot. rewrite Hc. reflexivity. }
  rewrite Hs by reflexivity. reflexivity.
Qed.

(** The handler stores the result and the new program counter in the frame. *)
Lemma frame_updated a fr v pc w : length (tf_x fr) = 32%nat → holds_frame a fr w →
  holds_frame a (Tfr (<[10%nat := v]> (tf_x fr)) (tf_sstatus fr) pc) (<[a + 8 * 33 := pc]> (<[a + 8 * 10 := v]> w)).
Proof.
  intros Hl [Hx Hs Hp]. split; cbn [tf_x tf_sstatus tf_sepc].
  - intros i Hi. rewrite lookup_insert_ne by lia. destruct (decide (i = 10%nat)) as [->|Hne].
    + change (Z.of_nat 10) with 10. by rewrite lookup_insert_eq, list_lookup_total_insert_eq by lia.
    + rewrite lookup_insert_ne, list_lookup_total_insert_ne by lia. by apply Hx.
  - by rewrite !lookup_insert_ne by lia.
  - apply lookup_insert_eq.
Qed.

Lemma ecall_roundtrip_witness : ∃ m1 m2 m3, umode_entry 0x100 ecall_trap = Done (Excp, m1) ∧ umode_exit 0x200 m2 = Done m3 ∧
  stk m2 = <[8456 := 0x404]> (<[8272 := u64 (- EACCESS)]> (stk m1)) ∧ mpc m3 = 0x404 ∧ get 10 m3 = u64 (- EACCESS) ∧ mmode m3 = UMode.
Proof.
  destruct (ecall_roundtrip 0x100 0x200 ltac:(done) ltac:(done) 0 8 3 8464 0 user_machine kfile refused (- EACCESS) kfile user_machine_ready read_refused)
    as (_ & m1 & He & Hah & _ & Hret).
  set (m2 := with_stk (<[8456 := 0x404]> (<[8272 := u64 (- EACCESS)]> (stk m1))) m1).
  destruct (Hret m2) as (m3 & Hx & Hu & Hpc & H0 & _).
  - destruct Hah as [_ _ Hsp Hl Hb Hf]. split; [reflexivity|exact Hl|by do 2 apply block_insert| |intros c _; reflexivity].
    exact (frame_updated 8192 (frame_of ecall_trap) (u64 (- EACCESS)) 0x404 (stk m1) eq_refl Hf).
  - exists m1, m2, m3. split; [exact He|]. split; [exact Hx|]. split; [reflexivity|]. split; [exact Hpc|]. split; [exact H0|apply Hu].
Defined.

(** ** Programs *)

(** The program calls the stub of read for a descriptor that is not open. *)
Definition read_call : trap_frame := call_frame SYSCALL_READ 5 0xC0001200 16.
Definition at_ecall : machine := jump 0x404 UMode (put a7 SYSCALL_READ user_machine).

Lemma stub_refused : umode_excp_handler 0 8 3 RISCV_SCAUSE_ECALL_FROM_UMODE read_call kfile =
  Done (Tfr (<[10%nat := u64 (- EACCESS)]> (tf_x read_call)) 0 4, Returns (- EACCESS) kfile).
Proof.
  destruct kfile_ok as (l & [Hc _ _ _] & _ & _). unfold umode_excp_handler.
  change (RISCV_SCAUSE_ECALL_FROM_UMODE =? RISCV_SCAUSE_ECALL_FROM_UMODE) with true. cbn iota. unfold syscall_handler.
  assert (Hs : ∀ x ss pc, x = tf_x read_call → syscall 0 8 3 (Tfr x ss pc) kfile = Done (Returns (- EACCESS) kfile)).
  { intros x ss pc ->. change (syscall 0 8 3 _ kfile) with (sysread 0 5 0xC0001200 16 kfile). unfold sysread, cur_slot. rewrite Hc. reflexivity. }
  rewrite Hs by reflexivity. reflexivity.
Qed.

Lemma user_machine_ra : word_pc (get ra user_machine).
Proof. split; [split; [discriminate|reflexivity]|reflexivity]. Qed.

Lemma stub_call_witness : ∃ m1 m2 m3, stub_enter SYSCALL_READ user_machine = Done at_ecall ∧ umode_entry 0x100 (trap 8 0 at_ecall) = Done (Excp, m1) ∧
  umode_exit 0x200 m2 = Done m3 ∧ mpc (stub_ret m3) = get ra user_machine ∧ get a0 (stub_ret m3) = u64 (- EACCESS) ∧ get sp (stub_ret m3) = 0xD0000000.
Proof.
  assert (Hn : 0 ≤ SYSCALL_READ < 2 ^ 64) by (unfold SYSCALL_READ; lia).
  pose proof (stub_call 0x100 0x200 ltac:(done) ltac:(done) 0 8 3 8464 SYSCALL_READ 0 user_machine kfile _ (- EACCESS) kfile user_machine_ready
    Hn user_machine_ra stub_refused) as X.
  destruct X as (m0 & H0 & _ & m1 & fr & He & Hah & Hfr & Hret).
  assert (m0 = at_ecall) as -> by (assert (Hs : stub_enter SYSCALL_READ user_machine = Done at_ecall) by reflexivity; rewrite Hs in H0; by injection H0).
  pose proof (ecall_frame _ _ _ _ _ _ _ _ Hfr) as ->. cbn [tf_x tf_sstatus tf_sepc frame_of] in Hret. set (t := trap _ 0 at_ecall) in *.
  assert (Hlt : length (gpr t) = 32%nat) by (vm_compute; reflexivity).
  set (m2 := with_stk (<[8192 + 8 * 33 := u64 (csr_read Sepc (csrs t) + 4)]> (<[8192 + 8 * 10 := u64 (- EACCESS)]> (stk m1))) m1).
  destruct (Hret m2) as (m3 & Hx & _ & Hpc & Ha & Hoth & _).
  - destruct Hah as [_ _ Hsp Hl Hb Hf]. split; [reflexivity|exact Hl|by do 2 apply block_insert| |intros c _; reflexivity].
    exact (frame_updated 8192 (frame_of t) _ _ _ Hlt Hf).
  - exists m1, m2, m3. split; [exact H0|]. split; [exact He|]. split; [exact Hx|]. split; [exact Hpc|]. split; [exact Ha|].
    rewrite (Hoth sp) by discriminate. reflexivity.
Defined.

(** The descriptors of [kfile]. *)
Lemma kfile_counted : file_at 0 (kworld kfile) = Some (FileDesc true 1 1 3 0 1) ∧ counted (iotab one_file) (kworld kfile) ∧ last_opened (kworld kfile) ∧
  CURTHR (ksch kfile) = main_thread (ksch kfile).
Proof.
  destruct kfile_file as (_ & _ & _ & _ & _ & Hf).
  assert (H0 : file_at 0 (kworld kfile) = Some (FileDesc true 1 1 3 0 1)) by (unfold file_at; rewrite Hf; reflexivity).
  split; [exact H0|]. split; [|split; [unfold last_opened, file_at; rewrite Hf; vm_compute; by eexists|vm_compute; reflexivity]].
  intros r Hr. rewrite (one_file_refs r Hr). exists 0, (FileDesc true 1 1 3 0 1). split; [reflexivity|]. split; [exact H0|]. split; [reflexivity|].
  change (refs_to (IoFile 0) (iotab one_file)) with 1. cbn. lia.
Qed.


(** The process prints the lines of fib.c and halts. *)
Lemma kfile_speaker : speaker kfile 0 "main".
Proof. split; [vm_compute; reflexivity|lia|vm_compute; reflexivity|]. split; [by repeat constructor|by apply (bool_decide_unpack _)]. Qed.

Lemma fib_prints_witness : ∃ k', fib_main 0 64 3 0xC0001200 kfile = Done (Halts k') ∧ sent (com0 (kcon k')) = fib_output "main" 0 0 60.
Proof.
  destruct kfile_ok as (l & Hu & _ & _). destruct kfile_counted as (_ & Hcnt & Hlast & Hmain). destruct kfile_file as (_ & _ & _ & _ & Hpg & _).
  assert (Hrw : user_rw root_example 0xC0001200 64 (pages (ksch kfile))) by (rewrite Hpg; apply user_mem_rw; lia).
  assert (Hcon : con_ready (kcon kfile)) by (split; [vm_compute; lia|discriminate]).
  destruct (fib_prints 0 64 3 slow_bound root_example 0xC0001200 "main" 0 kfile main_proc_example one_file l Hu Hcnt Hlast Hmain kfile_speaker Hcon (le_n 64) Hrw)
    as [(k' & He & Hs) _].
  exists k'. split; [exact He|]. rewrite Hs. reflexivity.
Defined.
