(* ===== verification/UserRun.v ===== *)
(** The init programs run on a small machine, whose disk mkfs has built: from the
    files of the host to the text on the console. *)
From Stdlib Require Import ZArith Lia.
From stdpp Require Import base gmap list strings.
From S2P Require Import Prelude CString Pages Heap Pte Memory MemFacts PageTables Mapping Spaces Vmem Thread Lock Io Disk Timer Device Kfs KfsSpec Mkfs MkfsSpec Elf ElfSpec Uart Console ConsoleSpec Objects Process Syscall User UserExamples.

Open Scope Z_scope.

(** ** The machine *)

(** The literals of a program from [v] on, each with its NUL, and where each one is. *)
Definition rodata (lits : list string) : list Z := lits ≫= (λ s, cstr (string_bytes s) []).
Fixpoint address_in (lits : list string) (v : Z) (s : string) : Z :=
  match lits with
  | [] => 0
  | x :: lits => if String.eqb x s then v else address_in lits (v + Z.of_nat (String.length x) + 1) s
  end.

(** One page, below the top of the user's stack, that holds the literals. *)
Definition stack_page : Z := 0xCFFFF000.
Definition program_mem (lits : list string) : mem :=
  match memory_alloc_and_map_page stack_page 22 mem_example with
  | Done (_, m) => match vstore_bytes stack_page (rodata lits) m with Done m => m | _ => m end
  | _ => mem_example
  end.

(** A disk with the image that mkfs makes of [files], mounted. *)
Definition disk_of (files : list (list Z * list Z)) : kfs io_lit :=
  match Mkfs.main (host_of files) (λ _ _, 0) ([] :: files.*1) with
  | Done img => Kfs (take 4096 img) (replicate 32 zero_desc) 0 (iolit_init img (Z.of_nat (length img))) (Lock (CondObj 5) (-1))
  | _ => kfs_mounted
  end.

Definition machine_with (files : list (list Z * list Z)) (lits : list string) : kernel bare_device io_lit uart_slow :=
  user_kernel (disk_of files) (program_mem lits).

(** What a program that ran to the halt of the machine has printed. *)
Definition printed (r : outcome (ends bare_device io_lit uart_slow)) : option (list Z) :=
  match r with Done (Halts k) => Some (sent (com0 (kcon k))) | _ => None end.

(** The text of messages of the main thread. *)
Definition messages (l : list string) : list Z :=
  expand_nl (l ≫= (λ s, string_bytes ("Thread <main:0> says: " +:+ s) ++ [NL])).

(** ** init_test.c *)

Definition test_literals : list string :=
  ["Testing system calls: 
"; "hello"; "_fsopen failed"; "_fsopen works"; "_write not working"; "_write worked";
   "get position IOCTL works"; "ioctl does not work"; "set/get position IOCTL works"; "_read not working"; "_read worked";
   "_close failed"; "_close works"; "_close properly closed file"; "_close did not properly close file"; "WORK!"]%string.
Definition test_lit : string → Z := address_in test_literals stack_page.
Definition test_machine : kernel bare_device io_lit uart_slow :=
  machine_with [(string_bytes "hello", string_bytes "a file for the test")] test_literals.

(** The system-call test of the repository, init_test.c, on a machine with a file
    "hello" that mkfs has put on the disk: it opens the file, writes five bytes, reads
    the position, reads and closes it, and the descriptor is free afterwards; but
    setting the position fails, so that the read does not find the bytes that were
    written, but those after them. *)
Example init_test_output :
  printed (init_test_main 0 80 3 test_lit (test_lit "WORK!") (stack_page + 0x800) (stack_page + 0x810) (stack_page + 0x820) test_machine) =
  Some (messages ["Testing system calls: 
"; "_fsopen works"; "_write worked"; "get position IOCTL works"; "ioctl does not work"; "_read worked"; "e for";
                  "_close works"; "_close properly closed file"]).
Proof. vm_compute. reflexivity. Qed.

(** ** The other init programs *)

Definition init_literals : list string := ["Hello, world!"; "fib"; "trek"; "ser"; "_fsopen failed"; "_devopen failed"]%string.
Definition init_lit : string → Z := address_in init_literals stack_page.
Definition bare_machine : kernel bare_device io_lit uart_slow := machine_with [(string_bytes "hello", [])] init_literals.
Definition exec_machine : kernel bare_device io_lit uart_slow := machine_with [(string_bytes "fib", exec_example)] init_literals.

Example init0_output : printed (init0_main 0 80 3 init_lit bare_machine) = Some (messages ["Hello, world!"]).
Proof. vm_compute. reflexivity. Qed.

(** Without the device the program says so and exits.  Without the file it is not
    told: fs_open looks at one directory entry too many, behind the boot block. *)
Example init2_no_device : printed (init2_main 0 80 3 init_lit bare_machine) = Some (messages ["_devopen failed"]).
Proof. vm_compute. reflexivity. Qed.
Example init_fib_fib_no_file : init_fib_fib_main 0 80 3 init_lit bare_machine = Undefined.
Proof. vm_compute. reflexivity. Qed.

(** With the file, the new program is entered; the top of its stack and its text are
    one page. *)
Definition entered (r : outcome (ends bare_device io_lit uart_slow)) (v : Z) : option (Z * Z * option Z) :=
  match r with Done (Enters pc sp k) => Some (pc, sp, entry_page <$> translate root_example v (pages (ksch k))) | _ => None end.
Example init_fib_fib_enters : let r := init_fib_fib_main 0 80 3 init_lit exec_machine in
  entered r stack_page = Some (0xC0000000, 0xD0000000, Some 0x80100000) ∧ entered r 0xC0000000 = entered r stack_page.
Proof. vm_compute. split; reflexivity. Qed.
