(* ===== verification/Shell.v ===== *)
(** The shell (src/src/kern/main_shell.c): reads the name of an executable from a
    terminal, loads it from the file system and runs it in a thread of its own.

    The terminal is an I/O object over the state of all objects and of the threads,
    so that what is read and written there and what the commands do share one state.
    A shell that waits for the thread that it has started ends its run; [shell_joined]
    goes on from there. *)
From Stdlib Require Import ZArith Lia.
From stdpp Require Import base gmap list strings.
From S2P Require Import Prelude CString Pages Heap Pte Memory Thread Lock Io Disk Timer Device Kfs KfsSpec Elf ElfSpec Uart Console ConsoleSpec Objects Process PageTables Mapping Spaces UserExamples UserRun.

Open Scope Z_scope.

(** sizeof(cmdbuf) *)
Definition CMDSZ : Z := 9.

Definition lits (s : string) : list Z := cstr (string_bytes s) [].
Definition line_fmt (s : string) : list Z := cstr (string_bytes s ++ [NL]) [].

(** The name exit stands between quotes in it. *)
Definition prompt_line : list Z :=
  cstr (string_bytes "Enter executable name or " ++ 34 :: string_bytes "exit" ++ 34 :: string_bytes " to exit") [].

(** The name of a thread is the string in a buffer. *)
Definition name_of (buf : list Z) (n : Z) : string :=
  String.string_of_list_ascii ((λ b, Ascii.ascii_of_N (Z.to_N b)) <$> take (Z.to_nat n) buf).

Section Shell.
Context {δ β υ : Type} `{IoIntf δ} `{IoOps δ} `{IoOps β} `{UartHw υ} (stack_hi : Z).

Abbreviation state := (io_world δ β * sched)%type.

(** The state and the local variables of [shell_main]: [exe_entry] keeps its value from
    one command to the next. *)
Record shell : Type := Shell {
  sh_term : io_term state;
  sh_con : console υ;
  cmdbuf : list Z;
  exe_entry : Z
}.

Definition set_term (t : io_term state) (sh : shell) : shell := Shell t (sh_con sh) (cmdbuf sh) (exe_entry sh).
Definition set_raw (ws : state) (t : io_term state) : io_term state := IoTerm ws (rawref t) (cr_out t) (cr_in t).
Definition set_ws (ws : state) (sh : shell) : shell := set_term (set_raw ws (sh_term sh)) sh.

(** How one command ends: the loop goes on, [shell_main] returns, or it waits for the
    thread [tid], with the executable open as [exeio]. *)
Inductive command : Type :=
| Next (sh : shell)
| Return (sh : shell)
| Joins (saved : bool) (tid : Z) (exeio : io_ref) (sh : shell).

(** The raw object behind the terminal is [termio_raw]; [termio_addr] is its address
    and [glue] that of [_thread_setup]'s start code.  [patience] bounds the characters of a
    line and how often a read comes back without one, [polls] the wait for the port of
    the console; [left_over] is what cmdbuf holds when the terminal fails. *)
Context (termio_raw : io_ref) (termio_addr glue : Z) (patience polls : nat) (left_over : list Z).

#[local] Instance raw_ops : IoOps state := vtable stack_hi termio_raw.
#[local] Instance term_ops : IoOps (io_term state) := ioterm_ops patience.

Definition tprintf (fmt : list Z) (args : list va) (sh : shell) : outcome shell :=
  '(_, t) ← ioprintf fmt args (sh_term sh);
  Done (set_term t sh).

(** [ioclose(exeio)] at the end of a command. *)
Definition close_exe (exeio : io_ref) (sh : shell) : outcome shell :=
  ws ← ref_ioclose stack_hi exeio (rawio (sh_term sh));
  Done (set_ws ws sh).

(** The thread that runs the program, and the wait for it.  What a failure reports is
    the result of [elf_load], not that of [thread_spawn]. *)
Definition run_exe (exeio : io_ref) (result : Z) (sh : shell) : outcome command :=
  let '(w, s) := rawio (sh_term sh) in
  n ← strlen (cmdbuf sh);
  '(tid, s) ← thread_spawn (name_of (cmdbuf sh) n) (exe_entry sh) termio_addr glue s;
  if tid <? 0 then
    sh ← tprintf (line_fmt "%s: Error %d") [VaStr (Some (cmdbuf sh)); VaInt (- result)] (set_ws (w, s) sh);
    sh ← close_exe exeio sh;
    Done (Next sh)
  else
    r ← thread_join tid s;
    match r with
    | Returned _ s => sh ← close_exe exeio (set_ws (w, s) sh); Done (Next sh)
    | Blocked saved s => Done (Joins saved tid exeio (set_ws (w, s) sh))
    end.

(** From [elf_load] on. *)
Definition load_exe (exeio : io_ref) (sh : shell) : outcome command :=
  let '(w, s) := rawio (sh_term sh) in
  '(result, entry, ws, m) ← with_ops exeio w (@elf_load _ (vtable stack_hi exeio) 0 (w, s) (pages s));
  let s := with_pages m ws.2 in
  let e := default (exe_entry sh) entry in
  '(_, con, s) ← console_printf polls true (line_fmt "exe entry %x ") [VaInt e] (sh_con sh) s;
  let sh := Shell (set_raw (ws.1, s) (sh_term sh)) con (cmdbuf sh) e in
  if result <? 0 then
    sh ← tprintf (line_fmt "%s: Error %d") [VaStr (Some (cmdbuf sh)); VaInt (- result)] sh;
    sh ← close_exe exeio sh;
    Done (Next sh)
  else run_exe exeio result sh.

(** One round of the loop. *)
Definition shell_command (sh : shell) : outcome command :=
  sh ← tprintf (lits "CMD> ") [] sh;
  '(line, t) ← ioterm_getsn patience patience [] CMDSZ (sh_term sh);
  let cmd := default left_over line in
  let sh := Shell t (sh_con sh) cmd (exe_entry sh) in
  c ← deref (head cmd);
  if c =? 0 then Done (Next sh) else
  r ← strcmp (Some (lits "exit")) (Some cmd);
  if r =? 0 then Done (Return sh) else
  let '(w, s) := rawio t in
  '(result, spot, k, s) ← fs_open cmd (fsys w) s;
  let sh := set_ws (set_fsys k w, s) sh in
  if result <? 0 then
    sh ← (if result =? - ENOENT then tprintf (line_fmt "%s: File not found") [VaStr (Some cmd)] sh
          else tprintf (line_fmt "%s: Error %d") [VaStr (Some cmd); VaInt (- result)] sh);
    Done (Next sh)
  else
    spot ← deref spot;
    load_exe (IoFile spot) sh.

Fixpoint shell_loop (fuel : nat) (sh : shell) : outcome command :=
  match fuel with
  | O => OutOfFuel
  | S fuel =>
      r ← shell_command sh;
      match r with
      | Next sh => shell_loop fuel sh
      | r => Done r
      end
  end.

(** [shell_main]: the variables start with what their memory holds. *)
Definition shell_main (fuel : nat) (junk_entry : Z) (refcnt : Z) (con : console υ) (ws : state) : outcome command :=
  let termio := ioterm_init ws refcnt in
  '(_, termio) ← ioputs prompt_line termio;
  shell_loop fuel (Shell termio con left_over junk_entry).

(** The shell runs again, on a state in which [prev] ran before: the loop of
    [thread_join] tests again. *)
Definition shell_joined (fuel : nat) (saved : bool) (prev tid child : Z) (exeio : io_ref) (sh : shell) : outcome command :=
  let '(w, s) := rawio (sh_term sh) in
  s ← suspend_self_resume saved prev s;
  r ← thread_join_loop tid child s;
  match r with
  | Returned _ s => sh ← close_exe exeio (set_ws (w, s) sh); shell_loop fuel sh
  | Blocked saved s => Done (Joins saved tid exeio (set_ws (w, s) sh))
  end.
End Shell.

(** ** A session *)

(** A terminal: what is typed, and what has been shown. *)
Record script : Type := Script { typed : list Z; shown : list Z; script_ref : Z }.
#[export] Instance script_ops : IoOps script := {|
  op_close := None;
  op_read := Some (λ n d, let k := Z.min n (Z.of_nat (length (typed d))) in
    Done (k, take (Z.to_nat k) (typed d), Script (drop (Z.to_nat k) (typed d)) (shown d) (script_ref d)));
  op_write := Some (λ bs d, Done (Z.of_nat (length bs), Script (typed d) (shown d ++ bs) (script_ref d)));
  op_ctl := None
|}.
#[export] Instance script_intf : IoIntf script :=
  { ops_set _ := true; refcnt := script_ref; set_refcnt n d := Script (typed d) (shown d) n }.

Definition term_addr : Z := 0x10000100.
Definition shell_files : list (list Z * list Z) :=
  [(string_bytes "hello", string_bytes "a text"); (string_bytes "prog", exec_example)].
Definition shell_world (text : list Z) : io_world script io_lit :=
  IoWorld (disk_of shell_files) {[ term_addr := Script text [] 1 ]} [].
Abbreviation test_shell := (shell (δ := script) (β := io_lit) (υ := uart_slow)).
Abbreviation test_command := (command (δ := script) (β := io_lit) (υ := uart_slow)).
Definition shell_run (lines : list string) : outcome test_command :=
  shell_main 0 (IoDev term_addr) term_addr 0x80002000 80 3 (replicate 9 0) 10 0xdead 1 (con_example [])
    (shell_world (lines ≫= (λ s, string_bytes s ++ [CR])), ksch (user_kernel kfs_mounted mem_example)).

(** While the shell waits, the idle thread yields to the program, which ends; the idle
    thread frees its stack and yields again, to the shell. *)
Definition child_exits (r : outcome test_command) : outcome test_command :=
  r ← r;
  match r with
  | Joins saved tid exeio sh =>
      let '(w, s) := rawio (sh_term sh) in
      let idle := CURTHR s in
      '(saved_idle, s) ← thread_yield s;
      let child := CURTHR s in
      e ← thread_exit s;
      match e with
      | Switched _ s =>
          s ← suspend_self_resume saved_idle child s;
          '(_, s) ← thread_yield s;
          shell_joined 0 (IoDev term_addr) term_addr 0x80002000 80 3 (replicate 9 0) 10 saved idle tid child exeio (set_ws (w, s) sh)
      | HaltSuccess => Undefined
      end
  | r => Done r
  end.

Definition screen (sh : test_shell) : option (list Z) := shown <$> devobjs (rawio (sh_term sh)).1 !! term_addr.
Definition returned (r : outcome test_command) : option (list Z) := match r with Done (Return sh) => screen sh | _ => None end.
Definition shown_lines (l : list string) : list Z := l ≫= (λ s, string_bytes s ++ [CR; NL]).

(** An empty line, a file that is no program, a program, and the end. *)
Example shell_session :
  let r := shell_run [""; "hello"; "prog"; "exit"] in
  match r with Done (Joins _ tid exeio sh) => Some (tid, exeio, exe_entry sh) | _ => None end = Some (3, IoFile 0, 0xC0000000) ∧
  returned (child_exits r) =
    Some (removelast prompt_line ++ [CR; NL] ++ shown_lines ["CMD> "; "CMD> hello"; "hello: Error 1"; "CMD> prog"; "CMD> exit"]%string).
Proof. vm_compute. split; reflexivity. Qed.

(** A name that is not on the disk: the search runs behind the boot block. *)
Example shell_no_file : shell_run ["nofile"] = Undefined.
Proof. vm_compute. reflexivity. Qed.
